(** * The spell checker server: settings resolution and validation scheduling

    A shallow embedding of [documentSettings.ts] and [server.ts] of the
    language server, and the properties of the two that its design
    document states.

    Strings are sequences of code units, objects used as dictionaries are
    finite maps, [async] functions are resumptions that stop at every
    [await] of an outside answer, and the reactive pipeline of the server is
    a transition system over the events the event loop delivers. *)

From Stdlib Require Import ZArith String Ascii List Sorted Permutation Lia.
From stdpp Require Import gmap strings list.

Local Open Scope string_scope.
Local Open Scope Z_scope.

(** ** JavaScript values held by a settings object *)

Module Js.

(** The values a [CSpellUserSettings] key holds in the code under study:
    booleans ([enabled]), numbers ([checkLimit], [spellCheckDelayMs]),
    strings ([id]) and arrays of strings ([ignorePaths],
    [enabledLanguageIds], [allowedSchemas], [words]). *)
Inductive Value : Type :=
| JBool (b : bool)
| JNum (n : Z)
| JStr (s : string)
| JArr (l : list string).

#[global] Instance Value_eq_dec : EqDecision Value.
Proof. solve_decision. Defined.

(** An object used as a dictionary; an absent key reads [undefined]. *)
Abbreviation Object := (gmap string Value).

(** [!!v]: what [if (v)], [v || d] and [!!v] test. *)
Definition truthy (v : option Value) : bool :=
  match v with
  | None => false
  | Some (JBool b) => b
  | Some (JNum n) => negb (n =? 0)
  | Some (JStr s) => negb (String.eqb s "")
  | Some (JArr _) => true
  end.

Definition is_array (v : Value) : bool :=
  match v with JArr _ => true | _ => false end.

(** Typed reads of a key, as the TypeScript interface declares them. *)
Definition get_array (o : Object) (k : string) : option (list string) :=
  match o !! k with Some (JArr l) => Some l | _ => None end.

Definition get_number (o : Object) (k : string) : option Z :=
  match o !! k with Some (JNum n) => Some n | _ => None end.

(** [const { k = [] } = o] *)
Definition get_array_or_empty (o : Object) (k : string) : list string :=
  default [] (get_array o k).

(** [{ ...o, k: v }] where [v] may be [undefined]. *)
Definition set_key (o : Object) (k : string) (v : option Value) : Object :=
  match v with Some x => <[k := x]> o | None => delete k o end.

End Js.

Import Js.

(** ** URIs *)

Module Uri.

Definition is_delim (c : ascii) : bool :=
  (Ascii.eqb c "/" || Ascii.eqb c "?" || Ascii.eqb c "#")%bool.

(** The text before the first [:], when no [/], [?] or [#] comes before
    it: group 2 of the pattern [^(([^:/?#]+?):)?...] that [Uri.parse]
    matches a URI against. *)
Fixpoint scan_scheme (s : string) : option string :=
  match s with
  | EmptyString => None
  | String c rest =>
      if Ascii.eqb c ":" then Some EmptyString
      else if is_delim c then None
      else option_map (String c) (scan_scheme rest)
  end.

(** [Uri.parse(uri).scheme]; a URI without a scheme is read, outside
    strict mode, as a [file] URI. *)
Definition scheme (uri : string) : string :=
  match scan_scheme uri with
  | Some EmptyString | None => "file"
  | Some s => s
  end.

End Uri.

(** ** Settings merging of the spelling library *)

Module CSpell.

Abbreviation Settings := (gmap string Value).

(** [[...new Set([...left, ...right])]]: concatenation that keeps the
    first occurrence of every element. *)
Fixpoint dedup (seen l : list string) : list string :=
  match l with
  | [] => []
  | x :: xs =>
      if bool_decide (x ∈ seen) then dedup seen xs
      else x :: dedup (x :: seen) xs
  end.

Definition mergeList (left right : list string) : list string :=
  dedup [] (left ++ right).

Definition mergeValue (left right : Value) : option Value :=
  match left, right with
  | JArr l, JArr r => Some (JArr (mergeList l r))
  | _, _ => Some right
  end.

(** Modelled from the spec: the library's [mergeSettings] is not part of
    the sources. The design document gives its law: the later source
    overrides the earlier one on a conflicting scalar key, and
    array-valued keys are concatenated/unioned, never replaced. *)
Definition merge (left right : Settings) : Settings :=
  union_with mergeValue left right.

(** [mergeSettings(left, ...settings)] is [settings.reduce(merge, left)]. *)
Definition mergeSettings (left : Settings) (settings : list Settings) : Settings :=
  fold_left merge settings left.

(** Modelled from the spec: [calcOverrideSettings] applies the override
    entries whose glob matches the file on top of the settings, in
    order. Which entries of a settings object match a file is the glob
    matcher's answer, [overridesFor]. *)
Definition calcOverrideSettings
    (overridesFor : Settings → string → list Settings)
    (settings : Settings) (filename : string) : Settings :=
  fold_left (λ acc o, mergeSettings acc [o]) (overridesFor settings filename) settings.

(** [ExclusionHelper.extractGlobsFromExcludeFilesGlobMap]: the globs an
    exclude map switches on. *)
Definition extractGlobsFromExcludeFilesGlobMap (m : list (string * bool)) : list string :=
  (filter (λ e, snd e = true) m).*1.

End CSpell.

(** ** Workspace folders *)

Record WorkspaceFolder : Type := mkFolder {
  wf_uri : string;
  wf_name : string;
}.

#[global] Instance WorkspaceFolder_eq_dec : EqDecision WorkspaceFolder.
Proof. solve_decision. Defined.

Module Folders.

(** [uri === docUri.slice(0, uri.length)] *)
Definition isPrefixOf (uri docUri : string) : bool :=
  String.eqb uri (substring 0 (String.length uri) docUri).

(** [Array.prototype.sort] with the comparator
    [(a, b) => a.uri.length - b.uri.length]: a stable insertion sort. *)
Fixpoint insertByLength (x : WorkspaceFolder) (l : list WorkspaceFolder)
    : list WorkspaceFolder :=
  match l with
  | [] => [x]
  | y :: ys =>
      if (String.length (wf_uri x) <=? String.length (wf_uri y))%nat
      then x :: y :: ys
      else y :: insertByLength x ys
  end.

Definition sortByLength (l : list WorkspaceFolder) : list WorkspaceFolder :=
  foldr insertByLength [] l.

(** [DocumentSettings.matchingFoldersForUri], on the folder list the
    host answered. *)
Definition matchingFoldersForUri (folders : list WorkspaceFolder) (docUri : string)
    : list WorkspaceFolder :=
  rev (sortByLength (filter (λ f, isPrefixOf (wf_uri f) docUri = true) folders)).

(** The order the result is in: no later folder has a longer URI. *)
Definition shorterOrEqual (a b : WorkspaceFolder) : Prop :=
  (String.length (wf_uri a) ≤ String.length (wf_uri b))%nat.

Definition longerOrEqual (a b : WorkspaceFolder) : Prop := shorterOrEqual b a.

End Folders.

(** ** The settings resolver: [class DocumentSettings] *)

Module DocumentSettings.

Import CSpell Folders.

(** What the outside answers when asked: the editor (workspace folders,
    configuration sections), the file system and the libraries that turn
    a URI into paths. One [Host] is one state of that outside world; two
    calls may be served by different ones. *)
Record Host : Type := mkHost {
  (** [vscode.getWorkspaceFolders(connection)] *)
  getWorkspaceFolders : option (list WorkspaceFolder);
  (** [vscode.getConfiguration(connection, [{scopeUri, section: 'cSpell'},
      {section: 'search'}])]: the [cSpell] section scoped to the URI and
      the [exclude] map of the [search] section, either possibly missing *)
  getConfiguration : string → option Settings * option (list (string * bool));
  (** [fs.existsSync] *)
  existsSync : string → bool;
  (** [CSpell.readSettingsFiles] *)
  cspellReadSettingsFiles : list string → Settings;
  (** [Uri.parse(uri).path] and [Uri.parse(uri).fsPath] *)
  uriPath : string → string;
  uriFsPath : string → string;
  (** [Uri.parse(uri).with({ path: '' }).toString()] *)
  uriRoot : string → string;
  (** [path.join] *)
  pathJoin : list string → string;
  (** the override entries of a settings object whose glob matches a file *)
  overridesFor : Settings → string → list Settings;
  (** [new GlobMatcher(globs, root).match(filename)] *)
  globMatch : list string → string → string → bool;
}.

Record ExtSettings : Type := mkExt {
  ext_uri : string;
  ext_vscodeSettings : Settings;
  ext_settings : Settings;
  (** [new GlobMatcher(globs, root)] *)
  ext_globMatcher : list string * string;
}.

Definition defaultExclude : list string :=
  ["**/*.rendered"; "**/*.*.rendered"; "__pycache__/**"].

Definition defaultAllowedSchemes : list string := ["file"; "untitled"].
Definition schemeBlackList : list string := ["git"; "output"; "debug"; "vscode"].

(** [Uri.file('').toString()] *)
Definition defaultRootUri : string := "file:///".

(** [CSpell.defaultSettingsFilename] and its lower-case form *)
Definition defaultSettingsFilename : string := "cSpell.json".
Definition defaultSettingsFilenameLower : string := "cspell.json".

(** The caches and lazy values the class creates, one name per
    [createCache] or [createLazy] call of its field initialisers. *)
Inductive CacheId : Type :=
| GetUriSettings
| FetchSettingsForUri
| CspellFileSettingsByFolderCache
| FetchVSCodeConfiguration
| FoldersLazy
| ImportedSettingsLazy.

#[global] Instance CacheId_eq_dec : EqDecision CacheId.
Proof. solve_decision. Defined.

(** Calls that leave the process: what a loader does when it runs. *)
Inductive IoCall : Type :=
| IoGetWorkspaceFolders
| IoGetConfiguration (uri : string)
| IoReadFolderSettingsFiles (uri : string)
| IoReadImportedSettingsFiles (paths : list string)
| IoClearCachedSettings.

Record State : Type := mkState {
  (** [private cachedValues: Clearable[]], the registry *)
  cachedValues : list CacheId;
  getUriSettingsCache : gmap string Settings;
  fetchSettingsForUriCache : gmap string ExtSettings;
  cspellFileSettingsByFolderCache : gmap string Settings;
  fetchVSCodeConfigurationCache : gmap string (Settings * list (string * bool));
  foldersLazy : option (list WorkspaceFolder);
  (** [readonly configsToImport = new Set<string>()], in insertion order *)
  configsToImport : list string;
  importedSettingsLazy : option Settings;
  version : Z;
  defaultSettings : Settings;
  (** the outside calls made so far, oldest first *)
  io : list IoCall;
}.

(** Methods run in the state monad of the instance. *)
Definition M (A : Type) : Type := State → A * State.
Definition ret {A} (a : A) : M A := λ s, (a, s).
Definition bind {A B} (m : M A) (k : A → M B) : M B :=
  λ s, let '(a, s') := m s in k a s'.
Definition gets {A} (f : State → A) : M A := λ s, (f s, s).
Definition modify (f : State → State) : M unit := λ s, (tt, f s).

Declare Scope ds_scope.
Delimit Scope ds_scope with ds.
Notation "'let*' x ':=' m 'in' k" := (bind m (λ x, k))
  (at level 10, x pattern, m at level 100, k at level 200) : ds_scope.
Notation "m ';;' k" := (bind m (λ _, k))
  (at level 100, k at level 200, right associativity) : ds_scope.
Local Open Scope ds_scope.

Definition tell (c : IoCall) : M unit :=
  modify (λ s, mkState (cachedValues s) (getUriSettingsCache s) (fetchSettingsForUriCache s)
    (cspellFileSettingsByFolderCache s) (fetchVSCodeConfigurationCache s) (foldersLazy s)
    (configsToImport s) (importedSettingsLazy s) (version s) (defaultSettings s)
    (io s ++ [c])).

(** *** The caches of [autoLoad.ts] *)

(** Modelled from the spec: [createAutoLoadCache] is not part of the
    sources. The design document gives its contract: [get(key)] is
    memoized, the loader runs at most once per key until [clear()] evicts
    all entries of that one cache. *)
Definition autoLoadGet {T}
    (read : State → gmap string T)
    (write : gmap string T → State → State)
    (loader : string → M T) (key : string) : M T :=
  let* found := gets (λ s, read s !! key) in
  match found with
  | Some v => ret v
  | None =>
      let* v := loader key in
      modify (λ s, write (<[key := v]> (read s)) s);;
      ret v
  end.

(** Modelled from the spec: [createLazyValue] is not part of the sources.
    Its contract: the value is computed once, when first asked for, and
    [clear()] resets it to uncomputed. *)
Definition lazyGet {T}
    (read : State → option T)
    (write : option T → State → State)
    (loader : M T) : M T :=
  let* found := gets read in
  match found with
  | Some v => ret v
  | None =>
      let* v := loader in
      modify (write (Some v));;
      ret v
  end.

Definition setGetUriSettingsCache (c : gmap string Settings) (s : State) : State :=
  mkState (cachedValues s) c (fetchSettingsForUriCache s)
    (cspellFileSettingsByFolderCache s) (fetchVSCodeConfigurationCache s) (foldersLazy s)
    (configsToImport s) (importedSettingsLazy s) (version s) (defaultSettings s) (io s).

Definition setFetchSettingsForUriCache (c : gmap string ExtSettings) (s : State) : State :=
  mkState (cachedValues s) (getUriSettingsCache s) c
    (cspellFileSettingsByFolderCache s) (fetchVSCodeConfigurationCache s) (foldersLazy s)
    (configsToImport s) (importedSettingsLazy s) (version s) (defaultSettings s) (io s).

Definition setCspellFileSettingsByFolderCache (c : gmap string Settings) (s : State) : State :=
  mkState (cachedValues s) (getUriSettingsCache s) (fetchSettingsForUriCache s)
    c (fetchVSCodeConfigurationCache s) (foldersLazy s)
    (configsToImport s) (importedSettingsLazy s) (version s) (defaultSettings s) (io s).

Definition setFetchVSCodeConfigurationCache
    (c : gmap string (Settings * list (string * bool))) (s : State) : State :=
  mkState (cachedValues s) (getUriSettingsCache s) (fetchSettingsForUriCache s)
    (cspellFileSettingsByFolderCache s) c (foldersLazy s)
    (configsToImport s) (importedSettingsLazy s) (version s) (defaultSettings s) (io s).

Definition setFoldersLazy (c : option (list WorkspaceFolder)) (s : State) : State :=
  mkState (cachedValues s) (getUriSettingsCache s) (fetchSettingsForUriCache s)
    (cspellFileSettingsByFolderCache s) (fetchVSCodeConfigurationCache s) c
    (configsToImport s) (importedSettingsLazy s) (version s) (defaultSettings s) (io s).

Definition setImportedSettingsLazy (c : option Settings) (s : State) : State :=
  mkState (cachedValues s) (getUriSettingsCache s) (fetchSettingsForUriCache s)
    (cspellFileSettingsByFolderCache s) (fetchVSCodeConfigurationCache s) (foldersLazy s)
    (configsToImport s) c (version s) (defaultSettings s) (io s).

(** [cache.clear()] of the cache or lazy value a registry entry stands for *)
Definition clear (id : CacheId) (s : State) : State :=
  match id with
  | GetUriSettings => setGetUriSettingsCache ∅ s
  | FetchSettingsForUri => setFetchSettingsForUriCache ∅ s
  | CspellFileSettingsByFolderCache => setCspellFileSettingsByFolderCache ∅ s
  | FetchVSCodeConfiguration => setFetchVSCodeConfigurationCache ∅ s
  | FoldersLazy => setFoldersLazy None s
  | ImportedSettingsLazy => setImportedSettingsLazy None s
  end.

(** [this.cachedValues.push(cache)] of [createCache] and [createLazy] *)
Definition register (id : CacheId) (s : State) : State :=
  mkState (cachedValues s ++ [id]) (getUriSettingsCache s) (fetchSettingsForUriCache s)
    (cspellFileSettingsByFolderCache s) (fetchVSCodeConfigurationCache s) (foldersLazy s)
    (configsToImport s) (importedSettingsLazy s) (version s) (defaultSettings s) (io s).

Definition createCache (id : CacheId) : State → State := register id.
Definition createLazy (id : CacheId) : State → State := register id.

(** [new DocumentSettings(connection, defaultSettings)]: the field
    initialisers, in the order of the class body. *)
Definition create (defaults : Settings) : State :=
  let s0 := mkState [] ∅ ∅ ∅ ∅ None [] None 0 defaults [] in
  let s1 := createCache GetUriSettings s0 in
  let s2 := createCache FetchSettingsForUri s1 in
  let s3 := createCache CspellFileSettingsByFolderCache s2 in
  let s4 := createCache FetchVSCodeConfiguration s3 in
  let s5 := createLazy FoldersLazy s4 in
  let s6 := createLazy ImportedSettingsLazy s5 in
  s6.

(** *** The methods *)

Section Methods.

(** The world the method runs in. *)
Variable h : Host.

(** [vscode.getWorkspaceFolders(this.connection) || []] *)
Definition fetchFolders : M (list WorkspaceFolder) :=
  tell IoGetWorkspaceFolders;;
  ret (default [] (getWorkspaceFolders h)).

(** [get folders()], the lazy value [_folders] *)
Definition folders : M (list WorkspaceFolder) :=
  lazyGet foldersLazy setFoldersLazy fetchFolders.

(** [matchingFoldersForUri(docUri)] *)
Definition matchingFoldersForUri (docUri : string) : M (list WorkspaceFolder) :=
  let* fs := folders in
  ret (Folders.matchingFoldersForUri fs docUri).

(** [findMatchingFolder(docUri)] *)
Definition findMatchingFolder (docUri : string) : M WorkspaceFolder :=
  let root := uriRoot h (if String.eqb docUri "" then defaultRootUri else docUri) in
  let* matches := matchingFoldersForUri docUri in
  ret (match matches with
       | f :: _ => f
       | [] => mkFolder root "root"
       end).

(** [[...a].sort()] on strings: ascending code-unit order *)
Fixpoint insertString (x : string) (l : list string) : list string :=
  match l with
  | [] => [x]
  | y :: ys => if String.leb x y then x :: y :: ys else y :: insertString x ys
  end.

Definition sortStrings (l : list string) : list string := foldr insertString [] l.

(** [_importSettings()] *)
Definition _importSettings : M Settings :=
  let* configs := gets configsToImport in
  let importPaths := sortStrings configs in
  tell (IoReadImportedSettingsFiles importPaths);;
  ret (cspellReadSettingsFiles h importPaths).

(** the lazy value [importedSettings] *)
Definition importedSettings : M Settings :=
  lazyGet importedSettingsLazy setImportedSettingsLazy _importSettings.

(** [configPathsForRoot(workspaceRootUri)] *)
Definition configPathsForRoot (workspaceRootUri : string) : list string :=
  let workspaceRoot :=
    if String.eqb workspaceRootUri "" then "" else uriFsPath h workspaceRootUri in
  if String.eqb workspaceRoot "" then []
  else [ pathJoin h [workspaceRoot; ".vscode"; defaultSettingsFilenameLower];
         pathJoin h [workspaceRoot; ".vscode"; defaultSettingsFilename];
         pathJoin h [workspaceRoot; defaultSettingsFilenameLower];
         pathJoin h [workspaceRoot; defaultSettingsFilename] ].

(** [readSettingsFiles(paths)] *)
Definition readSettingsFiles (paths : list string) : Settings :=
  let existingPaths := filter (λ filename, existsSync h filename = true) paths in
  cspellReadSettingsFiles h existingPaths.

(** [readSettingsForFolderUri(uri)], the loader of
    [_cspellFileSettingsByFolderCache] *)
Definition readSettingsForFolderUri (uri : string) : M Settings :=
  tell (IoReadFolderSettingsFiles uri);;
  ret (if String.eqb uri "" then ∅ else readSettingsFiles (configPathsForRoot uri)).

(** [_fetchVSCodeConfiguration(uri)]: both sections, a missing one read
    as [{}] *)
Definition _fetchVSCodeConfiguration (uri : string)
    : M (Settings * list (string * bool)) :=
  tell (IoGetConfiguration uri);;
  let '(cSpell, exclude) := getConfiguration h uri in
  ret (default ∅ cSpell, default [] exclude).

Definition fetchVSCodeConfiguration (uri : string)
    : M (Settings * list (string * bool)) :=
  autoLoadGet fetchVSCodeConfigurationCache setFetchVSCodeConfigurationCache
    _fetchVSCodeConfiguration uri.

(** [fetchSettingsFromVSCode(uri)] *)
Definition fetchSettingsFromVSCode (uri : string) : M Settings :=
  let* configs := fetchVSCodeConfiguration uri in
  let '(cSpell, exclude) := configs in
  let ignorePaths := get_array_or_empty cSpell "ignorePaths" in
  ret (<["ignorePaths" := JArr (ignorePaths ++ extractGlobsFromExcludeFilesGlobMap exclude)]>
        (<["id" := JStr "VSCode-Config"]> cSpell)).

(** [_fetchSettingsForFolderUri(uri)] *)
Definition _fetchSettingsForFolderUri (uri : string) : M ExtSettings :=
  let* cSpellConfigSettings := fetchSettingsFromVSCode uri in
  let* settings :=
    autoLoadGet cspellFileSettingsByFolderCache setCspellFileSettingsByFolderCache
      readSettingsForFolderUri uri in
  (* cspell.json file settings take precedence over the vscode settings. *)
  let mergedSettings := mergeSettings cSpellConfigSettings [settings] in
  let ignorePaths := get_array_or_empty mergedSettings "ignorePaths" in
  let globs := (defaultExclude ++ ignorePaths)%list in
  let root := uriPath h uri in
  ret (mkExt uri cSpellConfigSettings mergedSettings (globs, root)).

Definition fetchSettingsForUri (uri : string) : M ExtSettings :=
  autoLoadGet fetchSettingsForUriCache setFetchSettingsForUriCache
    _fetchSettingsForFolderUri uri.

(** [fetchUriSettings(uri)] *)
Definition fetchUriSettings (uri : string) : M Settings :=
  let* folder := findMatchingFolder uri in
  let* folderSettings := fetchSettingsForUri (wf_uri folder) in
  let* defaults := gets defaultSettings in
  let* imported := importedSettings in
  let spellSettings := mergeSettings defaults [imported; ext_settings folderSettings] in
  let fileSettings := calcOverrideSettings (overridesFor h) spellSettings (uriFsPath h uri) in
  ret fileSettings.

(** [_getUriSettings(uri)] *)
Definition _getUriSettings (uri : string) : M Settings :=
  if String.eqb uri "" then
    let* defaults := gets defaultSettings in
    let* imported := importedSettings in
    ret (mergeSettings defaults [imported])
  else fetchUriSettings uri.

(** [getUriSettings(uri)], the cache in front of [_getUriSettings]; a
    missing argument is the key [''] *)
Definition getUriSettings (uri : string) : M Settings :=
  autoLoadGet getUriSettingsCache setGetUriSettingsCache _getUriSettings uri.

(** [getSettings(document)] *)
Definition getSettings (documentUri : string) : M Settings :=
  getUriSettings documentUri.

(** [array.map(f)] where [f] starts a cached load *)
Fixpoint mapM {A B} (f : A → M B) (l : list A) : M (list B) :=
  match l with
  | [] => ret []
  | x :: xs =>
      let* y := f x in
      let* ys := mapM f xs in
      ret (y :: ys)
  end.

(** [findMatchingFolderSettings(docUri)] *)
Definition findMatchingFolderSettings (docUri : string) : M (list ExtSettings) :=
  let* matching := matchingFoldersForUri docUri in
  let* matches := mapM (λ folder, fetchSettingsForUri (wf_uri folder)) matching in
  match matches with
  | _ :: _ => ret matches
  | [] =>
      let* fs := folders in
      let uri := match fs with f :: _ => wf_uri f | [] => docUri end in
      let* s := fetchSettingsForUri uri in
      ret [s]
  end.

(** [isExcluded(uri)] *)
Definition isExcluded (uri : string) : M bool :=
  let* settingsByWorkspaceFolder := findMatchingFolderSettings uri in
  ret (existsb
         (λ s, globMatch h (fst (ext_globMatcher s)) (snd (ext_globMatcher s))
                 (uriPath h uri))
         settingsByWorkspaceFolder).

End Methods.

(** [resetSettings()] *)
Definition resetSettings : M unit :=
  tell IoClearCachedSettings;;
  let* registry := gets cachedValues in
  modify (λ s, foldl (λ acc cache, clear cache acc) s registry);;
  modify (λ s, mkState (cachedValues s) (getUriSettingsCache s) (fetchSettingsForUriCache s)
    (cspellFileSettingsByFolderCache s) (fetchVSCodeConfigurationCache s) (foldersLazy s)
    (configsToImport s) (importedSettingsLazy s) (version s + 1) (defaultSettings s) (io s)).

(** [this.configsToImport.add(path)] *)
Definition addConfigToImport (path : string) (s : State) : State :=
  mkState (cachedValues s) (getUriSettingsCache s) (fetchSettingsForUriCache s)
    (cspellFileSettingsByFolderCache s) (fetchVSCodeConfigurationCache s) (foldersLazy s)
    (if bool_decide (path ∈ configsToImport s) then configsToImport s
     else configsToImport s ++ [path])
    (importedSettingsLazy s) (version s) (defaultSettings s) (io s).

(** [registerConfigurationFile(path)] *)
Definition registerConfigurationFile (path : string) : M unit :=
  modify (addConfigToImport path);;
  modify (clear ImportedSettingsLazy);;
  resetSettings.

(** [doesUriMatchAnyScheme(uri, schemes)] *)
Definition doesUriMatchAnyScheme (uri : string) (schemes : list string) : bool :=
  let schema := Uri.scheme uri in
  existsb (λ v, String.eqb v schema) schemes.

(** [isUriAllowed(uri, schemes?)]: [schemes || defaultAllowedSchemes] *)
Definition isUriAllowed (uri : string) (schemes : option (list string)) : bool :=
  doesUriMatchAnyScheme uri (default defaultAllowedSchemes schemes).

(** [isUriBlackListed(uri)], with the default block list *)
Definition isUriBlackListed (uri : string) : bool :=
  doesUriMatchAnyScheme uri schemeBlackList.

(** What a client of the class may call, each call served by the world
    of its moment. *)
Inductive Call : Type :=
| CallGetSettings (h : Host) (documentUri : string)
| CallGetUriSettings (h : Host) (uri : string)
| CallIsExcluded (h : Host) (uri : string)
| CallFolders (h : Host)
| CallResetSettings
| CallRegisterConfigurationFile (path : string).

Definition call (c : Call) (s : State) : State :=
  match c with
  | CallGetSettings h documentUri => snd (getSettings h documentUri s)
  | CallGetUriSettings h uri => snd (getUriSettings h uri s)
  | CallIsExcluded h uri => snd (isExcluded h uri s)
  | CallFolders h => snd (folders h s)
  | CallResetSettings => snd (resetSettings s)
  | CallRegisterConfigurationFile path => snd (registerConfigurationFile path s)
  end.

Definition calls (cs : list Call) (s : State) : State := foldl (λ acc c, call c acc) s cs.

(** *** What a resolution reads, cache or world *)

(** The two configuration sections a resolution sees for a folder URI:
    the cached pair, or the editor's answer when none is cached. *)
Definition vscodeConfigurationSeen (h : Host) (s : State) (uri : string)
    : Settings * list (string * bool) :=
  match fetchVSCodeConfigurationCache s !! uri with
  | Some c => c
  | None => (default ∅ (getConfiguration h uri).1, default [] (getConfiguration h uri).2)
  end.

(** The host-editor settings of a folder, as [fetchSettingsFromVSCode]
    builds them from the two sections. *)
Definition hostSettingsSeen (h : Host) (s : State) (uri : string) : Settings :=
  let cSpell := (vscodeConfigurationSeen h s uri).1 in
  let exclude := (vscodeConfigurationSeen h s uri).2 in
  <["ignorePaths" := JArr (get_array_or_empty cSpell "ignorePaths"
                            ++ extractGlobsFromExcludeFilesGlobMap exclude)]>
    (<["id" := JStr "VSCode-Config"]> cSpell).

(** The settings of the folder's configuration files. *)
Definition fileSettingsSeen (h : Host) (s : State) (uri : string) : Settings :=
  match cspellFileSettingsByFolderCache s !! uri with
  | Some f => f
  | None => if String.eqb uri "" then ∅ else readSettingsFiles h (configPathsForRoot h uri)
  end.

(** The folder settings a resolution sees for a folder URI. *)
Definition folderSettingsSeen (h : Host) (s : State) (uri : string) : ExtSettings :=
  match fetchSettingsForUriCache s !! uri with
  | Some e => e
  | None => fst (_fetchSettingsForFolderUri h uri s)
  end.

(** The workspace folders a resolution sees. *)
Definition foldersSeen (h : Host) (s : State) : list WorkspaceFolder :=
  match foldersLazy s with
  | Some fs => fs
  | None => default [] (getWorkspaceFolders h)
  end.

(** The folder that owns a document: the first match, or the root made
    up from the document URI. *)
Definition owningFolder (h : Host) (s : State) (docUri : string) : WorkspaceFolder :=
  match Folders.matchingFoldersForUri (foldersSeen h s) docUri with
  | f :: _ => f
  | [] => mkFolder (uriRoot h (if String.eqb docUri "" then defaultRootUri else docUri)) "root"
  end.

(** The settings of the registered configuration files a resolution sees. *)
Definition importedSeen (h : Host) (s : State) : Settings :=
  match importedSettingsLazy s with
  | Some i => i
  | None => cspellReadSettingsFiles h (sortStrings (configsToImport s))
  end.

(** The claim that the host editor's value wins every conflict between
    the two sources of a folder's settings. *)
Definition hostSettingsWin : Prop :=
  ∀ (h : Host) (s : State) (uri k : string) (vh vf : Value),
    hostSettingsSeen h s uri !! k = Some vh →
    fileSettingsSeen h s uri !! k = Some vf →
    ext_settings (fst (_fetchSettingsForFolderUri h uri s)) !! k = Some vh.

(** A world for the examples: one folder [file:///w]; the editor
    switches the checker on; the folder's configuration file switches it
    off; a registered configuration file raises the check limit. *)
Definition exampleHost (folderFile : bool) : Host :=
  mkHost (Some [mkFolder "file:///w" "w"])
    (λ _, (Some {[ "enabled" := JBool true ]}, None))
    (λ path, folderFile && bool_decide (path = "/w/cspell.json"))
    (λ paths,
       if bool_decide (paths = ["/w/cspell.json"]) then {[ "enabled" := JBool false ]}
       else if bool_decide (paths = ["/cfg/cspell.json"]) then {[ "checkLimit" := JNum 1000 ]}
       else ∅)
    (λ _, "/w") (λ _, "/w") (λ _, "file://")
    (λ parts, String.concat "/" parts)
    (λ _ _, [])
    (λ _ _ _, false).

(** The defaults of the merge example. *)
Definition exampleDefaults : Settings :=
  {[ "enabled" := JBool false; "checkLimit" := JNum 500 ]}.

(** The instance of the merge example: the example defaults, and one
    registered configuration file. *)
Definition exampleInstance : State :=
  calls [CallRegisterConfigurationFile "/cfg/cspell.json"] (create exampleDefaults).

(** The instance with every cache and lazy value emptied. *)
Definition uncached (s : State) : State :=
  mkState (cachedValues s) ∅ ∅ ∅ ∅ None (configsToImport s) None
    (version s) (defaultSettings s) (io s).

(** A cache or lazy value holds nothing. *)
Definition isCleared (id : CacheId) (s : State) : Prop :=
  match id with
  | GetUriSettings => getUriSettingsCache s = ∅
  | FetchSettingsForUri => fetchSettingsForUriCache s = ∅
  | CspellFileSettingsByFolderCache => cspellFileSettingsByFolderCache s = ∅
  | FetchVSCodeConfiguration => fetchVSCodeConfigurationCache s = ∅
  | FoldersLazy => foldersLazy s = None
  | ImportedSettingsLazy => importedSettingsLazy s = None
  end.

(** A method leaves the registry as it found it. *)
Definition keepsRegistry {A} (m : M A) : Prop :=
  ∀ s, cachedValues (snd (m s)) = cachedValues s.

(** The outside calls of one resolution that finds nothing cached. *)
Definition fetchesOf (h : Host) (s : State) (uri : string) : list IoCall :=
  if String.eqb uri "" then
    [IoReadImportedSettingsFiles (sortStrings (configsToImport s))]
  else
    let folder := wf_uri (owningFolder h (uncached s) uri) in
    [IoGetWorkspaceFolders; IoGetConfiguration folder; IoReadFolderSettingsFiles folder;
     IoReadImportedSettingsFiles (sortStrings (configsToImport s))].

(** Every cache the class created is in the registry. *)
Definition allRegistered (s : State) : Prop := ∀ id : CacheId, id ∈ cachedValues s.

End DocumentSettings.

(** ** The server: [server.ts] *)

Module Server.

Import CSpell.

Record TextDocument : Type := mkDoc {
  doc_uri : string;
  doc_languageId : string;
  doc_version : Z;
  doc_text : string;
}.

(** A diagnostic of the analyzer; its content plays no role here. *)
Abbreviation Diagnostic := string.

(** [interface ValidationResult extends PublishDiagnosticsParams] *)
Record ValidationResult : Type := mkResult {
  vr_uri : string;
  vr_diagnostics : list Diagnostic;
}.

(** [interface DocSettingPair] *)
Record DocSettingPair : Type := mkPair {
  dsp_doc : TextDocument;
  dsp_settings : Settings;
}.

(** A thrown value, as [JSON.stringify] shows it. *)
Abbreviation Exn := string.

(** How a promise settles. *)
Inductive Outcome (T : Type) : Type :=
| Resolved (t : T)
| Rejected (e : Exn).
Arguments Resolved {T} t.
Arguments Rejected {T} e.

(** The lines the server writes to its log. *)
Inductive LogEntry : Type :=
| LogIgnoring (uri : string)
| LogRequestValidate (version : Z) (uri : string)
| LogBlocked (blocked : bool) (uri : string)
| LogSchemaNotAllowed (schema uri : string)
| LogSkip (uri : string)
| LogValidateFile (uri : string)
| LogValidateStart (version : Z) (uri : string)
| LogValidateDone (version : Z) (uri : string)
| LogError (e : Exn)
| LogWillSave (version : Z) (uri : string)
| LogDidSave (version : Z) (uri : string)
| LogValidateAll.

(** *** Asynchronous functions

    An [async] function is a tree: it returns, throws, writes a log line
    or the busy flag and goes on, or waits for an answer from outside the
    server and goes on with that answer. The three waits are the three
    calls that leave [server.ts]: the settings resolver
    ([documentSettings.getUriSettings]), its exclusion test
    ([documentSettings.isExcluded]) and the analyzer
    ([Validator.validateTextDocument]). *)
Inductive Async (A : Type) : Type :=
| Ret (a : A)
| Throw (e : Exn)
| Log (l : LogEntry) (k : Async A)
| SetBusy (b : bool) (k : Async A)
| AwaitActiveSettings (uri : string) (k : Outcome Settings → Async A)
| AwaitIsUriExcluded (uri : string) (k : Outcome bool → Async A)
| AwaitAnalyzer (doc : TextDocument) (settings : Settings)
    (k : Outcome (list Diagnostic) → Async A).
Arguments Ret {A} a.
Arguments Throw {A} e.
Arguments Log {A} l k.
Arguments SetBusy {A} b k.
Arguments AwaitActiveSettings {A} uri k.
Arguments AwaitIsUriExcluded {A} uri k.
Arguments AwaitAnalyzer {A} doc settings k.

Fixpoint abind {A B} (m : Async A) (f : A → Async B) : Async B :=
  match m with
  | Ret a => f a
  | Throw e => Throw e
  | Log l k => Log l (abind k f)
  | SetBusy b k => SetBusy b (abind k f)
  | AwaitActiveSettings uri k => AwaitActiveSettings uri (λ o, abind (k o) f)
  | AwaitIsUriExcluded uri k => AwaitIsUriExcluded uri (λ o, abind (k o) f)
  | AwaitAnalyzer doc s k => AwaitAnalyzer doc s (λ o, abind (k o) f)
  end.

(** [try { m } catch (e) { handler(e) }] *)
Fixpoint tryCatch {A} (m : Async A) (handler : Exn → Async A) : Async A :=
  match m with
  | Ret a => Ret a
  | Throw e => handler e
  | Log l k => Log l (tryCatch k handler)
  | SetBusy b k => SetBusy b (tryCatch k handler)
  | AwaitActiveSettings uri k => AwaitActiveSettings uri (λ o, tryCatch (k o) handler)
  | AwaitIsUriExcluded uri k => AwaitIsUriExcluded uri (λ o, tryCatch (k o) handler)
  | AwaitAnalyzer doc s k => AwaitAnalyzer doc s (λ o, tryCatch (k o) handler)
  end.

(** [await p] goes on with the value of a resolved promise and throws the
    reason of a rejected one. *)
Definition settled {T} (o : Outcome T) : Async T :=
  match o with
  | Resolved t => Ret t
  | Rejected e => Throw e
  end.

Declare Scope async_scope.
Delimit Scope async_scope with async.
Notation "'let!' x ':=' m 'in' k" := (abind m (λ x, k))
  (at level 10, x pattern, m at level 100, k at level 200) : async_scope.
Local Open Scope async_scope.

Section Validation.

(** [CSpell.mergeSettings(getDefaultSettings(), CSpell.getGlobalSettings())] *)
Variable libraryDefaults : Settings.

(** [tds.constructSettingsForText(settings, text, languageId)], which may
    throw *)
Variable constructSettingsForText : Settings → string → string → Outcome Settings.

(** Modelled from the spec: [Validator.defaultCheckLimit] is not part of
    the sources; the design document gives the default check limit 500. *)
Definition defaultCheckLimit : Z := 500.

(** Turn off the spell checker by default. The setting files should have
    it set. *)
Definition defaultSettings : Settings :=
  <["enabled" := JBool false]> (<["checkLimit" := JNum defaultCheckLimit]> libraryDefaults).

Definition defaultDebounce : Z := 50.

(** [getActiveSettings(doc)]: [documentSettings.getUriSettings(doc.uri)] *)
Definition getActiveSettings (doc : TextDocument) : Async Settings :=
  AwaitActiveSettings (doc_uri doc) settled.

(** [isUriExcluded(uri)]: [documentSettings.isExcluded(uri)] *)
Definition isUriExcluded (uri : string) : Async bool :=
  AwaitIsUriExcluded uri settled.

(** [isLanguageEnabled(textDocument, settings)] *)
Definition isLanguageEnabled (languageId : string) (settings : Settings) : bool :=
  let enabledLanguageIds := get_array_or_empty settings "enabledLanguageIds" in
  existsb (String.eqb languageId) enabledLanguageIds.

(** [shouldValidateDocument(textDocument, settings)] *)
Definition shouldValidateDocument (textDocument : TextDocument) (settings : Settings)
    : Async bool :=
  if negb (truthy (settings !! "enabled")) then Ret false
  else if negb (isLanguageEnabled (doc_languageId textDocument) settings) then Ret false
  else let! excluded := isUriExcluded (doc_uri textDocument) in Ret (negb excluded).

(** [getBaseSettings(doc)] *)
Definition getBaseSettings (doc : TextDocument) : Async Settings :=
  let! settings := getActiveSettings doc in
  Ret (set_key (mergeSettings defaultSettings [settings])
         "enabledLanguageIds" (settings !! "enabledLanguageIds")).

(** [getSettingsToUseForDocument(doc)] *)
Definition getSettingsToUseForDocument (doc : TextDocument) : Async Settings :=
  let! base := getBaseSettings doc in
  settled (constructSettingsForText base (doc_text doc) (doc_languageId doc)).

(** [uri.split(':')[0]] *)
Fixpoint beforeColon (s : string) : string :=
  match s with
  | EmptyString => EmptyString
  | String c rest => if Ascii.eqb c ":" then EmptyString else String c (beforeColon rest)
  end.

(** The [try] block of [validate]: [Some r] is a [return r] inside the
    block, [None] is leaving the block without one. *)
Definition validateBody (dsp : DocSettingPair) : Async (option ValidationResult) :=
  let doc := dsp_doc dsp in
  let settings := dsp_settings dsp in
  let uri := doc_uri doc in
  if negb (DocumentSettings.isUriAllowed uri (get_array settings "allowedSchemas")) then
    let schema := beforeColon uri in
    Log (LogSchemaNotAllowed schema uri) (Ret (Some (mkResult uri [])))
  else
    let! shouldCheck := shouldValidateDocument doc settings in
    if negb shouldCheck then
      Log (LogSkip uri) (Ret (Some (mkResult uri [])))
    else
      let! settingsToUse := getSettingsToUseForDocument doc in
      if truthy (settingsToUse !! "enabled") then
        Log (LogValidateFile uri)
          (Log (LogValidateStart (doc_version doc) uri)
             (AwaitAnalyzer doc settingsToUse (λ o,
                let! diagnostics := settled o in
                Log (LogValidateDone (doc_version doc) uri)
                  (Ret (Some (mkResult uri diagnostics))))))
      else Ret None.

(** The inner function [validate] of [validateTextDocument] *)
Definition validate (dsp : DocSettingPair) : Async ValidationResult :=
  let uri := doc_uri (dsp_doc dsp) in
  let! returned := tryCatch (validateBody dsp) (λ e, Log (LogError e) (Ret None)) in
  match returned with
  | Some r => Ret r
  | None => Ret (mkResult uri [])
  end.

(** [validateTextDocument(dsp)] *)
Definition validateTextDocument (dsp : DocSettingPair) : Async ValidationResult :=
  SetBusy true
    (let! r := validate dsp in
     SetBusy false (Ret r)).

(** [dsp.settings.spellCheckDelayMs || defaultDebounce] *)
Definition debounceDelay (settings : Settings) : Z :=
  match get_number settings "spellCheckDelayMs" with
  | Some n => if n =? 0 then defaultDebounce else n
  | None => defaultDebounce
  end.

End Validation.

(** *** Running one asynchronous function against given answers *)

(** The answers of the outside, as functions of the question. *)
Record Oracle : Type := mkOracle {
  activeSettingsOf : string → Outcome Settings;
  isExcludedOf : string → Outcome bool;
  analyzerOf : TextDocument → Settings → Outcome (list Diagnostic);
}.

(** Runs [m] to its end: the final busy flag, the log lines written and
    how the promise of the function settles. *)
Fixpoint runAsync {A} (o : Oracle) (m : Async A) (busy : bool) (logs : list LogEntry)
    : bool * list LogEntry * Outcome A :=
  match m with
  | Ret a => (busy, logs, Resolved a)
  | Throw e => (busy, logs, Rejected e)
  | Log l k => runAsync o k busy (logs ++ [l])
  | SetBusy b k => runAsync o k b logs
  | AwaitActiveSettings uri k => runAsync o (k (activeSettingsOf o uri)) busy logs
  | AwaitIsUriExcluded uri k => runAsync o (k (isExcludedOf o uri)) busy logs
  | AwaitAnalyzer doc s k => runAsync o (k (analyzerOf o doc s)) busy logs
  end.

(** *** The validation scheduler

    The state of [run()]: the request stream and its subscribers, the two
    maps, the busy flag, and the [validateTextDocument] calls that wait
    for an answer. *)

(** One per-document subscription on [validationRequestStream]. *)
Inductive Pipeline : Type :=
| Ignoring (uri : string)
    (** [filter(uri), take(1), tap(log 'Ignoring')]: open until its first
        document *)
| Validating (uri : string)
    (fetching : list (nat * TextDocument))
    (pending : option (DocSettingPair * Z)).
    (** [filter(uri), tap, flatMap(getActiveSettings), debounce, tap,
        filter(blocked), flatMap(validateTextDocument)]: the documents
        whose settings are being resolved, and the pair the debounce
        holds with the delay of its running timer *)

Definition pipelineUri (p : Pipeline) : string :=
  match p with
  | Ignoring uri => uri
  | Validating uri _ _ => uri
  end.

(** A [validateTextDocument] call suspended at an [await]. *)
Record Task : Type := mkTask {
  task_id : nat;
  (** the subscription whose [flatMap] made the call *)
  task_sub : nat;
  task_doc : TextDocument;
  task_cont : Async ValidationResult;
}.

(** What the server does that the outside can see. *)
Inductive Output : Type :=
| OutLog (l : LogEntry)
| SendDiagnostics (r : ValidationResult)
    (** [connection.sendDiagnostics(r)] *)
| Invoked (doc : TextDocument)
    (** [validateTextDocument] was entered for the document *)
| Unhandled (e : Exn).
    (** a pipeline without an error handler received an error *)

Record State : Type := mkState {
  (** the one-element buffer of [new ReplaySubject<TextDocument>(1)] *)
  replayBuffer : option TextDocument;
  (** [disposableValidate] is subscribed *)
  disposableValidate : bool;
  (** [disposableTriggerValidateAll] is subscribed *)
  disposableTriggerValidateAll : bool;
  (** the per-document subscribers of the stream, in subscription order *)
  observers : list (nat * Pipeline);
  validationByDoc : gmap string nat;
  blockValidation : gmap string Z;
  isValidationBusy : bool;
  tasks : list Task;
  (** the document event handlers in [disposables] are attached *)
  disposables : bool;
  (** the next subscription, request or call number *)
  nextId : nat;
  out : list Output;
}.

Definition init : State :=
  mkState None true true [] ∅ ∅ false [] true 0 [].

Definition setReplayBuffer (b : option TextDocument) (st : State) : State :=
  mkState b (disposableValidate st) (disposableTriggerValidateAll st) (observers st)
    (validationByDoc st) (blockValidation st) (isValidationBusy st) (tasks st)
    (disposables st) (nextId st) (out st).

Definition setObservers (obs : list (nat * Pipeline)) (st : State) : State :=
  mkState (replayBuffer st) (disposableValidate st) (disposableTriggerValidateAll st) obs
    (validationByDoc st) (blockValidation st) (isValidationBusy st) (tasks st)
    (disposables st) (nextId st) (out st).

Definition setValidationByDoc (m : gmap string nat) (st : State) : State :=
  mkState (replayBuffer st) (disposableValidate st) (disposableTriggerValidateAll st)
    (observers st) m (blockValidation st) (isValidationBusy st) (tasks st)
    (disposables st) (nextId st) (out st).

Definition setBlockValidation (m : gmap string Z) (st : State) : State :=
  mkState (replayBuffer st) (disposableValidate st) (disposableTriggerValidateAll st)
    (observers st) (validationByDoc st) m (isValidationBusy st) (tasks st)
    (disposables st) (nextId st) (out st).

Definition setIsValidationBusy (b : bool) (st : State) : State :=
  mkState (replayBuffer st) (disposableValidate st) (disposableTriggerValidateAll st)
    (observers st) (validationByDoc st) (blockValidation st) b (tasks st)
    (disposables st) (nextId st) (out st).

Definition setTasks (ts : list Task) (st : State) : State :=
  mkState (replayBuffer st) (disposableValidate st) (disposableTriggerValidateAll st)
    (observers st) (validationByDoc st) (blockValidation st) (isValidationBusy st) ts
    (disposables st) (nextId st) (out st).

Definition freshId (st : State) : State :=
  mkState (replayBuffer st) (disposableValidate st) (disposableTriggerValidateAll st)
    (observers st) (validationByDoc st) (blockValidation st) (isValidationBusy st)
    (tasks st) (disposables st) (S (nextId st)) (out st).

Definition emit (o : Output) (st : State) : State :=
  mkState (replayBuffer st) (disposableValidate st) (disposableTriggerValidateAll st)
    (observers st) (validationByDoc st) (blockValidation st) (isValidationBusy st)
    (tasks st) (disposables st) (nextId st) (out st ++ [o]).

(** [onShutdown]: every handle is disposed. *)
Definition disposeAll (st : State) : State :=
  mkState (replayBuffer st) false false (observers st)
    (validationByDoc st) (blockValidation st) (isValidationBusy st) (tasks st)
    false (nextId st) (out st).

(** The subscriber list of the stream. *)
Fixpoint lookupObserver (id : nat) (obs : list (nat * Pipeline)) : option Pipeline :=
  match obs with
  | [] => None
  | (i, p) :: rest => if Nat.eqb i id then Some p else lookupObserver id rest
  end.

Definition updateObserver (id : nat) (p : Pipeline) (obs : list (nat * Pipeline))
    : list (nat * Pipeline) :=
  map (λ e, if Nat.eqb (fst e) id then (id, p) else e) obs.

(** [subscription.unsubscribe()]; nothing happens on a closed one. *)
Definition removeObserver (id : nat) (obs : list (nat * Pipeline)) : list (nat * Pipeline) :=
  filter (λ e, fst e ≠ id) obs.

(** One subscriber receives a document of the stream. *)
Definition deliverTo (id : nat) (doc : TextDocument) (st : State) : State :=
  match lookupObserver id (observers st) with
  | None => st
  | Some (Ignoring uri) =>
      if String.eqb uri (doc_uri doc) then
        (* take(1): the document is logged and the pipeline completes *)
        emit (OutLog (LogIgnoring (doc_uri doc)))
          (setObservers (removeObserver id (observers st)) st)
      else st
  | Some (Validating uri fetching pending) =>
      if String.eqb uri (doc_uri doc) then
        (* the first flatMap starts getActiveSettings(doc) *)
        let st1 := emit (OutLog (LogRequestValidate (doc_version doc) (doc_uri doc))) st in
        let request := nextId st1 in
        freshId (setObservers
          (updateObserver id (Validating uri (fetching ++ [(request, doc)]) pending)
             (observers st1)) st1)
      else st
  end.

(** The body of the subscriber [disposableValidate], for a document whose
    URI has no entry in [validationByDoc]: the new pipeline subscribes to
    the stream, is handed the buffered document, and is recorded. *)
Definition subscribePipeline (doc : TextDocument) (st : State) : State :=
  let uri := doc_uri doc in
  let id := nextId st in
  let pipeline :=
    if DocumentSettings.isUriBlackListed uri then Ignoring uri else Validating uri [] None in
  let st1 := freshId (setObservers (observers st ++ [(id, pipeline)]) st) in
  let st2 :=
    match replayBuffer st1 with
    | Some buffered => deliverTo id buffered st1
    | None => st1
    end in
  setValidationByDoc (<[uri := id]> (validationByDoc st2)) st2.

(** [validationRequestStream.next(doc)]: the document is buffered, then
    handed to the subscribers of that moment in subscription order, the
    subscriber [disposableValidate] first. *)
Definition streamNext (doc : TextDocument) (st : State) : State :=
  let st1 := setReplayBuffer (Some doc) st in
  let subscribers := (observers st1).*1 in
  let st2 :=
    if disposableValidate st1 && bool_decide (validationByDoc st1 !! doc_uri doc = None)
    then subscribePipeline doc st1
    else st1 in
  foldl (λ acc id, deliverTo id doc acc) st2 subscribers.

(** Runs the synchronous part of a call: up to its next [await], or to
    its end. *)
Fixpoint settle (m : Async ValidationResult) (st : State) : Async ValidationResult * State :=
  match m with
  | Log l k => settle k (emit (OutLog l) st)
  | SetBusy b k => settle k (setIsValidationBusy b st)
  | _ => (m, st)
  end.

(** What the second [flatMap] of a pipeline does with a call that has
    run up to [m]: a result goes to [sendDiagnostics] if the pipeline is
    still subscribed, a rejection ends the pipeline, a suspended call is
    kept. *)
Definition proceed (sub : nat) (id : nat) (doc : TextDocument)
    (m : Async ValidationResult) (st : State) : State :=
  match m with
  | Ret r =>
      if bool_decide (is_Some (lookupObserver sub (observers st)))
      then emit (SendDiagnostics r) st
      else st
  | Throw e =>
      if bool_decide (is_Some (lookupObserver sub (observers st)))
      then emit (Unhandled e) (setObservers (removeObserver sub (observers st)) st)
      else st
  | _ => setTasks (tasks st ++ [mkTask id sub doc m]) st
  end.

Section Scheduler.

Variable libraryDefaults : Settings.
Variable constructSettingsForText : Settings → string → string → Outcome Settings.

(** [flatMap(validateTextDocument)] receives a pair. *)
Definition startValidation (sub : nat) (dsp : DocSettingPair) (st : State) : State :=
  let st1 := freshId (emit (Invoked (dsp_doc dsp)) st) in
  let '(m, st2) :=
    settle (validateTextDocument libraryDefaults constructSettingsForText dsp) st1 in
  proceed sub (nextId st) (dsp_doc dsp) m st2.

(** The debounce releases a pair: the log line, the blocked filter, the
    call. *)
Definition release (sub : nat) (dsp : DocSettingPair) (st : State) : State :=
  let uri := doc_uri (dsp_doc dsp) in
  let blocked := bool_decide (is_Some (blockValidation st !! uri)) in
  let st1 := emit (OutLog (LogBlocked blocked uri)) st in
  if blocked then st1 else startValidation sub dsp st1.

(** What [debounce] does with the pair it holds when its duration
    observable completes without having emitted. The duration observable
    here is [timer(delay).pipe(filter(() => !isValidationBusy))]: the
    timer emits one tick and completes, and the filter lets the tick
    through only while the busy flag is clear, so a tick under a set flag
    is a completion without an emission.

    The [debounce] of rxjs 6, the version [package.json] asks for
    ([^6.5.2]), emits the held value on either notification; its
    documentation reads: the value is emitted only when the duration
    Observable emits a value or completes. An empty duration observable
    makes it mirror its source. This is [EmitsPending].

    From rxjs 7 on the value is emitted only when the duration observable
    emits a next notification; the design document describes the pipeline
    this way. This is [DropsPending]. *)
Inductive DurationCompletion : Type :=
| EmitsPending
| DropsPending.

Variable completion : DurationCompletion.

(** The timer of a pipeline's debounce ticks. *)
Definition timerFired (sub : nat) (st : State) : State :=
  match lookupObserver sub (observers st) with
  | Some (Validating uri fetching (Some (dsp, delay))) =>
      let st1 :=
        setObservers (updateObserver sub (Validating uri fetching None) (observers st)) st in
      if negb (isValidationBusy st) then
        (* the tick passes the filter: the debounce emits the pair *)
        release sub dsp st1
      else
        (* the tick is filtered out and the duration observable completes *)
        match completion with
        | EmitsPending => release sub dsp st1
        | DropsPending => st1
        end
  | _ => st
  end.

Fixpoint lookupRequest (request : nat) (fetching : list (nat * TextDocument))
    : option TextDocument :=
  match fetching with
  | [] => None
  | (r, doc) :: rest => if Nat.eqb r request then Some doc else lookupRequest request rest
  end.

(** The [getActiveSettings(doc)] promise of the first [flatMap] settles:
    the pair enters the debounce, which restarts its timer with the delay
    of the pair's settings; a rejection ends the pipeline. *)
Definition activeSettingsSettled (sub request : nat) (o : Outcome Settings) (st : State)
    : State :=
  match lookupObserver sub (observers st) with
  | Some (Validating uri fetching pending) =>
      match lookupRequest request fetching with
      | Some doc =>
          let fetching' := filter (λ e, fst e ≠ request) fetching in
          match o with
          | Resolved settings =>
              let dsp := mkPair doc settings in
              setObservers
                (updateObserver sub
                   (Validating uri fetching' (Some (dsp, debounceDelay settings)))
                   (observers st)) st
          | Rejected e =>
              emit (Unhandled e) (setObservers (removeObserver sub (observers st)) st)
          end
      | None => st
      end
  | _ => st
  end.

(** An answer from outside the server. *)
Inductive Answer : Type :=
| AnsActiveSettings (o : Outcome Settings)
| AnsIsUriExcluded (o : Outcome bool)
| AnsAnalyzer (o : Outcome (list Diagnostic)).

(** The call goes on when the answer is to the question it waits on. *)
Definition resumeWith (m : Async ValidationResult) (a : Answer)
    : option (Async ValidationResult) :=
  match m, a with
  | AwaitActiveSettings _ k, AnsActiveSettings o => Some (k o)
  | AwaitIsUriExcluded _ k, AnsIsUriExcluded o => Some (k o)
  | AwaitAnalyzer _ _ k, AnsAnalyzer o => Some (k o)
  | _, _ => None
  end.

Fixpoint lookupTask (id : nat) (ts : list Task) : option Task :=
  match ts with
  | [] => None
  | t :: rest => if Nat.eqb (task_id t) id then Some t else lookupTask id rest
  end.

(** A suspended [validateTextDocument] call receives its answer. *)
Definition resume (id : nat) (a : Answer) (st : State) : State :=
  match lookupTask id (tasks st) with
  | Some t =>
      match resumeWith (task_cont t) a with
      | Some m =>
          let st1 := setTasks (filter (λ t', task_id t' ≠ id) (tasks st)) st in
          let '(m', st2) := settle m st1 in
          proceed (task_sub t) id (task_doc t) m' st2
      | None => st
      end
  | None => st
  end.

(** [documents.onWillSave] *)
Definition onWillSave (doc : TextDocument) (st : State) : State :=
  let st1 := emit (OutLog (LogWillSave (doc_version doc) (doc_uri doc))) st in
  setBlockValidation (<[doc_uri doc := doc_version doc]> (blockValidation st1)) st1.

(** [documents.onDidSave] *)
Definition onDidSave (doc : TextDocument) (st : State) : State :=
  let st1 := emit (OutLog (LogDidSave (doc_version doc) (doc_uri doc))) st in
  let st2 := setBlockValidation (delete (doc_uri doc) (blockValidation st1)) st1 in
  streamNext doc st2.

(** [documents.onDidClose] *)
Definition onDidClose (doc : TextDocument) (st : State) : State :=
  let uri := doc_uri doc in
  let st1 :=
    match validationByDoc st !! uri with
    | Some sub =>
        let st' := setValidationByDoc (delete uri (validationByDoc st)) st in
        setObservers (removeObserver sub (observers st')) st'
    | None => st
    end in
  emit (SendDiagnostics (mkResult uri [])) st1.

(** [connection.onShutdown] *)
Definition onShutdown (st : State) : State :=
  let st1 := disposeAll st in
  let toDispose := (map_to_list (validationByDoc st1)).*2 in
  let st2 := setValidationByDoc ∅ st1 in
  setObservers (foldr removeObserver (observers st2) toDispose) st2.

(** What the event loop delivers. *)
Inductive Event : Type :=
| DidChangeContent (doc : TextDocument)
| WillSave (doc : TextDocument)
| DidSave (doc : TextDocument)
| DidClose (doc : TextDocument)
| ValidateAll (docs : list TextDocument)
    (** the debounced [triggerValidateAll] fires; [docs] is
        [documents.all()] *)
| ActiveSettings (sub request : nat) (o : Outcome Settings)
| TimerFired (sub : nat)
| Resume (id : nat) (a : Answer)
| Shutdown.

Definition step (e : Event) (st : State) : State :=
  match e with
  | DidChangeContent doc => if disposables st then streamNext doc st else st
  | WillSave doc => if disposables st then onWillSave doc st else st
  | DidSave doc => if disposables st then onDidSave doc st else st
  | DidClose doc => if disposables st then onDidClose doc st else st
  | ValidateAll docs =>
      if disposableTriggerValidateAll st
      then foldl (λ acc doc, streamNext doc acc) (emit (OutLog LogValidateAll) st) docs
      else st
  | ActiveSettings sub request o => activeSettingsSettled sub request o st
  | TimerFired sub => timerFired sub st
  | Resume id a => resume id a st
  | Shutdown => onShutdown st
  end.

(** The state after a sequence of events. *)
Definition run (events : list Event) (st : State) : State :=
  foldl (λ acc e, step e acc) st events.

End Scheduler.

(** *** What the properties speak of *)

(** The document a suspended call has handed to the analyzer, when the
    call waits for the analyzer. *)
Definition analyzedBy (t : Task) : option TextDocument :=
  match task_cont t with
  | AwaitAnalyzer doc _ _ => Some doc
  | _ => None
  end.

(** The analyzer calls in flight: the documents whose
    [Validator.validateTextDocument] call has not answered yet. *)
Definition analyzing (st : State) : list TextDocument :=
  omap analyzedBy (tasks st).

Definition isValidateStartOf (uri : string) (o : Output) : bool :=
  match o with
  | OutLog (LogValidateStart _ u) => String.eqb u uri
  | _ => false
  end.

(** The analyzer calls made so far for a URI: the log line that
    precedes each call. *)
Definition analyzerCallsFor (uri : string) (st : State) : list Output :=
  filter (λ o, isValidateStartOf uri o = true) (out st).

(** The open pipelines of a URI. *)
Definition pipelinesFor (uri : string) (st : State) : list (nat * Pipeline) :=
  filter (λ e, pipelineUri (snd e) = uri) (observers st).

(** The [validateTextDocument] calls made so far for a URI. *)
Definition isInvocationOf (uri : string) (o : Output) : bool :=
  match o with
  | Invoked doc => String.eqb (doc_uri doc) uri
  | _ => false
  end.

Definition invocationsFor (uri : string) (st : State) : list Output :=
  filter (λ o, isInvocationOf uri o = true) (out st).

(** **** One pipeline per URI *)

(** The subscribers [obs'] are subscribers of [obs], in the same order
    and each for the URI it was for. *)
Definition observersShrink (obs obs' : list (nat * Pipeline)) : Prop :=
  obs'.*1 `sublist_of` obs.*1
  ∧ ∀ id p', (id, p') ∈ obs' →
      ∃ p, (id, p) ∈ obs ∧ pipelineUri p = pipelineUri p'.

(** A transition that subscribes no pipeline and leaves
    [validationByDoc] alone. *)
Definition narrows (st st' : State) : Prop :=
  observersShrink (observers st) (observers st')
  ∧ validationByDoc st' = validationByDoc st
  ∧ (nextId st ≤ nextId st')%nat.

(** Every open pipeline is the one [validationByDoc] records for its
    URI, and subscription numbers are not reused. *)
Definition tracksPipelines (st : State) : Prop :=
  (∀ id p, (id, p) ∈ observers st → validationByDoc st !! pipelineUri p = Some id)
  ∧ NoDup (observers st).*1
  ∧ (∀ id, id ∈ (observers st).*1 → (id < nextId st)%nat).

(** No pipeline of the URI is open in [st'] that was not open in [st]. *)
Definition subscribesNoneFor (uri : string) (st st' : State) : Prop :=
  ∀ id p', (id, p') ∈ observers st' → pipelineUri p' = uri →
    ∃ p, (id, p) ∈ observers st ∧ pipelineUri p = uri.

(** **** Blacklisted documents *)

(** Every analyzer call the function can make, and every start line it
    can log, is for the URI. *)
Fixpoint concerns {A} (uri : string) (m : Async A) : Prop :=
  match m with
  | Ret _ | Throw _ => True
  | Log l k => (∀ v u, l = LogValidateStart v u → u = uri) ∧ concerns uri k
  | SetBusy _ k => concerns uri k
  | AwaitActiveSettings _ k => ∀ o, concerns uri (k o)
  | AwaitIsUriExcluded _ k => ∀ o, concerns uri (k o)
  | AwaitAnalyzer doc _ k => doc_uri doc = uri ∧ ∀ o, concerns uri (k o)
  end.

(** A validating pipeline is for a URI that is not blacklisted and
    holds documents of this URI only. *)
Definition wellFormedPipeline (p : Pipeline) : Prop :=
  match p with
  | Ignoring _ => True
  | Validating uri fetching pending =>
      DocumentSettings.isUriBlackListed uri = false
      ∧ (∀ r doc, (r, doc) ∈ fetching → doc_uri doc = uri)
      ∧ (∀ dsp delay, pending = Some (dsp, delay) → doc_uri (dsp_doc dsp) = uri)
  end.

(** Nothing in the state validates a blacklisted document. *)
Definition sparesBlackListed (st : State) : Prop :=
  (∀ id p, (id, p) ∈ observers st → wellFormedPipeline p)
  ∧ (∀ t, t ∈ tasks st →
       DocumentSettings.isUriBlackListed (doc_uri (task_doc t)) = false
       ∧ concerns (doc_uri (task_doc t)) (task_cont t))
  ∧ (∀ doc, Invoked doc ∈ out st →
       DocumentSettings.isUriBlackListed (doc_uri doc) = false)
  ∧ (∀ v uri, OutLog (LogValidateStart v uri) ∈ out st →
       DocumentSettings.isUriBlackListed uri = false).

(** **** The busy gate *)

(** The function has returned, having at most written log lines. *)
Fixpoint returning {A} (m : Async A) : Prop :=
  match m with
  | Ret _ => True
  | Log _ k => returning k
  | _ => False
  end.

(** On every path the function clears the busy flag once, as its last
    step before it returns; it never throws. *)
Fixpoint releasesGate {A} (m : Async A) : Prop :=
  match m with
  | Ret _ | Throw _ => False
  | Log _ k => releasesGate k
  | SetBusy b k => b = false ∧ returning k
  | AwaitActiveSettings _ k => ∀ o, releasesGate (k o)
  | AwaitIsUriExcluded _ k => ∀ o, releasesGate (k o)
  | AwaitAnalyzer _ _ k => ∀ o, releasesGate (k o)
  end.

(** The function never throws and never writes the busy flag. *)
Fixpoint calm {A} (m : Async A) : Prop :=
  match m with
  | Ret _ => True
  | Throw _ => False
  | Log _ k => calm k
  | SetBusy _ _ => False
  | AwaitActiveSettings _ k => ∀ o, calm (k o)
  | AwaitIsUriExcluded _ k => ∀ o, calm (k o)
  | AwaitAnalyzer _ _ k => ∀ o, calm (k o)
  end.

(** The function never writes the busy flag. *)
Fixpoint flagFree {A} (m : Async A) : Prop :=
  match m with
  | Ret _ | Throw _ => True
  | Log _ k => flagFree k
  | SetBusy _ _ => False
  | AwaitActiveSettings _ k => ∀ o, flagFree (k o)
  | AwaitIsUriExcluded _ k => ∀ o, flagFree (k o)
  | AwaitAnalyzer _ _ k => ∀ o, flagFree (k o)
  end.

(** The busy flag is set exactly while a call is suspended, and at most
    one call is. *)
Definition gateHolds (st : State) : Prop :=
  (isValidationBusy st = false → tasks st = [])
  ∧ (length (tasks st) ≤ 1)%nat
  ∧ (∀ t, t ∈ tasks st → releasesGate (task_cont t)).

(** A transition that touches neither the suspended calls nor the busy
    flag. *)
Definition sameGate (st st' : State) : Prop :=
  tasks st' = tasks st ∧ isValidationBusy st' = isValidationBusy st.

(** **** The save blackout *)

(** A transition that leaves [blockValidation] alone and makes no
    [validateTextDocument] call for the URI. *)
Definition quietFor (uri : string) (st st' : State) : Prop :=
  blockValidation st' = blockValidation st
  ∧ invocationsFor uri st' = invocationsFor uri st.

Definition isDidSaveOf (uri : string) (e : Event) : bool :=
  match e with
  | DidSave doc => String.eqb (doc_uri doc) uri
  | _ => false
  end.

(** The claim that no analyzer call for a URI starts between a will-save
    of the URI and the next did-save of it. *)
Definition saveBlackout (libraryDefaults : Settings)
    (constructSettingsForText : Settings → string → string → Outcome Settings)
    (completion : DurationCompletion) : Prop :=
  ∀ (before : list Event) (doc : TextDocument) (between : list Event),
    let st := run libraryDefaults constructSettingsForText completion before init in
    disposables st = true →
    Forall (λ e, isDidSaveOf (doc_uri doc) e = false) between →
    analyzerCallsFor (doc_uri doc)
      (run libraryDefaults constructSettingsForText completion
         (before ++ [WillSave doc] ++ between) init)
    = analyzerCallsFor (doc_uri doc) st.

(** How the promise of an asynchronous function settles under given
    answers. *)
Definition outcomeOf {A} (o : Oracle) (m : Async A) : Outcome A :=
  snd (runAsync o m false []).

(** *** Examples *)

Definition exampleSettings : Settings :=
  {[ "enabled" := JBool true; "enabledLanguageIds" := JArr ["plaintext"] ]}.

Definition exampleZeroDelay : Settings :=
  <["spellCheckDelayMs" := JNum 0]> exampleSettings.

Definition docA : TextDocument := mkDoc "file:///w/a.txt" "plaintext" 1 "helo".
Definition docB : TextDocument := mkDoc "file:///w/b.txt" "plaintext" 1 "wrld".
Definition docGit : TextDocument := mkDoc "git:/w/a.txt" "plaintext" 1 "helo".

(** A text that needs no settings of its own. *)
Definition plainText (s : Settings) (text languageId : string) : Outcome Settings :=
  Resolved s.


(** A document is changed, its settings arrive, its debounce timer
    ticks: [validateTextDocument] runs and waits for the exclusion test. *)
Definition validationUnderWay : list Event :=
  [DidChangeContent docA; ActiveSettings 0 1 (Resolved exampleSettings); TimerFired 0].

(** The exclusion test and the settings for the document answer: the
    call reaches the analyzer. *)
Definition answersArrive : list Event :=
  [Resume 2 (AnsIsUriExcluded (Resolved false));
   Resume 2 (AnsActiveSettings (Resolved exampleSettings))].

(** Two documents are changed and their settings arrive; the timer of
    the first ticks and its validation reaches the analyzer; then the
    timer of the second ticks, while the first analyzer call is in
    flight, and the answers for the second arrive. *)
Definition twoDocuments : list Event :=
  [DidChangeContent docA; DidChangeContent docB;
   ActiveSettings 0 1 (Resolved exampleSettings);
   ActiveSettings 2 3 (Resolved exampleSettings);
   TimerFired 0;
   Resume 4 (AnsIsUriExcluded (Resolved false));
   Resume 4 (AnsActiveSettings (Resolved exampleSettings))].

Definition secondTimerTicks : list Event :=
  [TimerFired 2;
   Resume 5 (AnsIsUriExcluded (Resolved false));
   Resume 5 (AnsActiveSettings (Resolved exampleSettings))].

End Server.

(** ** What a resolution sees through the caches *)

Module Resolution.

Import CSpell Folders DocumentSettings.

(** A method that starts in a state with [P] ends with [Q] of its result
    and of the state it leaves. *)
Definition hoare {A} (P : State → Prop) (m : M A) (Q : A → State → Prop) : Prop :=
  ∀ s, P s → Q (fst (m s)) (snd (m s)).

(** The settings a resolution sees for a URI: the cached ones, or what
    [_getUriSettings] computes when none are cached. *)
Definition uriSettingsSeen (h : Host) (s : State) (uri : string) : Settings :=
  match getUriSettingsCache s !! uri with
  | Some v => v
  | None => fst (_getUriSettings h uri s)
  end.

(** In the world [h], a resolution in [s'] sees what one in [s] sees. *)
Definition seesAs (h : Host) (s s' : State) : Prop :=
  foldersSeen h s' = foldersSeen h s
  ∧ (∀ u, vscodeConfigurationSeen h s' u = vscodeConfigurationSeen h s u)
  ∧ (∀ u, fileSettingsSeen h s' u = fileSettingsSeen h s u)
  ∧ (∀ u, folderSettingsSeen h s' u = folderSettingsSeen h s u)
  ∧ importedSeen h s' = importedSeen h s
  ∧ (∀ u, uriSettingsSeen h s' u = uriSettingsSeen h s u).

(** The parts of the instance that no cache holds are the same. *)
Definition sameInstance (s s' : State) : Prop :=
  configsToImport s' = configsToImport s
  ∧ defaultSettings s' = defaultSettings s
  ∧ version s' = version s
  ∧ cachedValues s' = cachedValues s.

(** The step from [s] to [s'] has at most filled caches with what was
    seen anyway. *)
Definition readOnly (h : Host) (s s' : State) : Prop :=
  seesAs h s s' ∧ sameInstance s s'.

(** A method that only reads: whatever was seen before it is seen after
    it. *)
Definition onlyReads {A} (h : Host) (m : M A) : Prop :=
  ∀ s0, hoare (readOnly h s0) m (λ _, readOnly h s0).

(** A method that only reads, and returns [view] of what is seen. *)
Definition answers {A} (h : Host) (m : M A) (view : State → A) : Prop :=
  ∀ s0, hoare (readOnly h s0) m (λ v s, v = view s0 ∧ readOnly h s0 s).

(** The instance as the constructor leaves it, with the same defaults,
    and with the same configuration files registered: nothing is cached
    and nothing was asked. *)
Definition renewed (s : State) : State :=
  mkState [GetUriSettings; FetchSettingsForUri; CspellFileSettingsByFolderCache;
           FetchVSCodeConfiguration; FoldersLazy; ImportedSettingsLazy]
    ∅ ∅ ∅ ∅ None (configsToImport s) None 0 (defaultSettings s) [].

(** Every cache holds what the world [h] answers now. *)
Definition coherent (h : Host) (s : State) : Prop := seesAs h (renewed s) s.

(** The calls that resolve something, and the world that serves them. *)
Definition isRead (c : Call) : bool :=
  match c with
  | CallResetSettings | CallRegisterConfigurationFile _ => false
  | _ => true
  end.

Definition servedBy (h : Host) (c : Call) : Prop :=
  match c with
  | CallGetSettings h' _ | CallGetUriSettings h' _ | CallIsExcluded h' _
  | CallFolders h' => h' = h
  | CallResetSettings | CallRegisterConfigurationFile _ => True
  end.

(** The paths a sequence of calls registers, in the order of the calls. *)
Definition registeredBy (cs : list Call) : list string :=
  omap (λ c, match c with CallRegisterConfigurationFile p => Some p | _ => None end) cs.

(** The calls of a sequence that reset the settings. *)
Definition resetsOf (cs : list Call) : list Call :=
  filter (λ c, isRead c = false) cs.

(** [s.globMatcher.match(filename)] *)
Definition matcherMatches (h : Host) (e : ExtSettings) (filename : string) : bool :=
  globMatch h (fst (ext_globMatcher e)) (snd (ext_globMatcher e)) filename.

(** The folder URIs whose settings [findMatchingFolderSettings] fetches
    for a document: the folders that match it; if none does, the first
    workspace folder; if there is no workspace folder, the document URI. *)
Definition consultedFolders (h : Host) (s : State) (docUri : string) : list string :=
  match Folders.matchingFoldersForUri (foldersSeen h s) docUri with
  | [] => [match foldersSeen h s with f :: _ => wf_uri f | [] => docUri end]
  | matching => map wf_uri matching
  end.

(** One world for every call of the example. *)
Definition exampleCalls : list Call :=
  [CallGetUriSettings (exampleHost true) "file:///w/a.txt";
   CallRegisterConfigurationFile "/cfg/cspell.json";
   CallIsExcluded (exampleHost true) "file:///w/a.txt";
   CallGetSettings (exampleHost true) "file:///w/b.txt"].


End Resolution.

(** ** The request handlers of the server *)

Module Requests.

Import CSpell Server.

Local Open Scope async_scope.

(** [interface TextDocumentInfo]; every field may be missing. *)
Record TextDocumentInfo : Type := mkInfo {
  info_uri : option string;
  info_languageId : option string;
  info_text : option string;
}.

(** [Api.IsSpellCheckEnabledResult] *)
Record IsSpellCheckEnabledResult : Type := mkEnabled {
  ise_languageEnabled : option bool;
  ise_fileEnabled : option bool;
}.

(** [Api.GetConfigurationForDocumentResult] *)
Record GetConfigurationForDocumentResult : Type := mkConfiguration {
  gc_languageEnabled : option bool;
  gc_fileEnabled : option bool;
  gc_settings : Settings;
  gc_docSettings : option Settings;
}.

(** [Api.SplitTextIntoWordsResult] *)
Record SplitTextIntoWordsResult : Type := mkWords {
  words : list string;
}.

(** [Api.SpellingSuggestionsResult], which [handleSpellingSuggestions]
    leaves empty *)
Inductive SpellingSuggestionsResult : Type := NoSuggestions.

(** A word the library found in a text, [Text.TextOffset] *)
Record TextOffset : Type := mkTextOffset {
  to_text : string;
  to_offset : Z;
}.

(** What [if (s)] tests on a string that may be missing *)
Definition present (s : option string) : bool :=
  match s with
  | Some v => negb (String.eqb v "")
  | None => false
  end.

(** [getActiveUriSettings(uri)]: [documentSettings.getUriSettings(uri)],
    where a missing URI is resolved as [''] *)
Definition getActiveUriSettings (uri : option string) : Async Settings :=
  AwaitActiveSettings (default "" uri) settled.

(** [uri ? !await isUriExcluded(uri) : undefined] *)
Definition fileEnabledOf (uri : option string) : Async (option bool) :=
  if present uri
  then let! excluded := isUriExcluded (default "" uri) in Ret (Some (negb excluded))
  else Ret None.

(** [handleIsSpellCheckEnabled(params)] *)
Definition handleIsSpellCheckEnabled (params : TextDocumentInfo)
    : Async IsSpellCheckEnabledResult :=
  let uri := info_uri params in
  let languageId := info_languageId params in
  let! fileEnabled := fileEnabledOf uri in
  let! settings := getActiveUriSettings uri in
  Ret (mkEnabled
         (if present languageId && present uri
          then Some (isLanguageEnabled (default "" languageId) settings)
          else None)
         fileEnabled).

Section Handlers.

Variable libraryDefaults : Settings.
Variable constructSettingsForText : Settings → string → string → Outcome Settings.

(** [documents.get(uri)] of the text document manager *)
Variable documents : string → option TextDocument.

(** [handleGetConfigurationForDocument(params)] *)
Definition handleGetConfigurationForDocument (params : TextDocumentInfo)
    : Async GetConfigurationForDocumentResult :=
  let uri := info_uri params in
  let languageId := info_languageId params in
  let doc := if present uri then documents (default "" uri) else None in
  let! docSettings :=
    match doc with
    | Some d =>
        let! s := getSettingsToUseForDocument libraryDefaults constructSettingsForText d in
        Ret (Some s)
    | None => Ret None
    end in
  let! settings := getActiveUriSettings uri in
  let languageEnabled :=
    match doc with
    | Some d =>
        if present languageId then Some (isLanguageEnabled (doc_languageId d) settings)
        else None
    | None => None
    end in
  let! fileEnabled := fileEnabledOf uri in
  Ret (mkConfiguration languageEnabled fileEnabled settings docSettings).

(** [Text.extractWordsFromCode] of the library, and
    [String.prototype.toLowerCase] *)
Variable extractWordsFromCode : string → list TextOffset.
Variable toLowerCase : string → string.

(** [textToWords(text)]: the words go through a [Set], which keeps the
    first occurrence of each. *)
Definition textToWords (text : string) : list string :=
  dedup [] (map toLowerCase (map to_text (extractWordsFromCode text))).

(** [handleSplitTextIntoWords(text)] *)
Definition handleSplitTextIntoWords (text : string) : SplitTextIntoWordsResult :=
  mkWords (textToWords text).

(** [handleSpellingSuggestions(params)] *)
Definition handleSpellingSuggestions (params : TextDocumentInfo)
    : Async SpellingSuggestionsResult :=
  Ret NoSuggestions.

End Handlers.

(** A question an asynchronous function puts to the outside. *)
Inductive Question : Type :=
| AskActiveSettings (uri : string)
| AskIsUriExcluded (uri : string)
| AskAnalyzer (doc : TextDocument) (settings : Settings).

(** The questions a function asks, in order, when it is run against
    given answers. *)
Fixpoint questions {A} (o : Oracle) (m : Async A) : list Question :=
  match m with
  | Ret _ | Throw _ => []
  | Log _ k | SetBusy _ k => questions o k
  | AwaitActiveSettings uri k =>
      AskActiveSettings uri :: questions o (k (activeSettingsOf o uri))
  | AwaitIsUriExcluded uri k =>
      AskIsUriExcluded uri :: questions o (k (isExcludedOf o uri))
  | AwaitAnalyzer doc s k => AskAnalyzer doc s :: questions o (k (analyzerOf o doc s))
  end.

(** The settings [getBaseSettings] builds from the active settings of a
    document. *)
Definition baseSettingsOf (libraryDefaults : Settings) (settings : Settings) : Settings :=
  set_key (mergeSettings (defaultSettings libraryDefaults) [settings])
    "enabledLanguageIds" (settings !! "enabledLanguageIds").

(** A request for an open document and one for a URI no document is
    open for. *)
Definition exampleDocuments (uri : string) : option TextDocument :=
  if String.eqb uri "file:///w/a.txt" then Some docA else None.

Definition exampleOracle : Oracle :=
  mkOracle (λ _, Resolved exampleSettings) (λ _, Resolved false) (λ _ _, Resolved []).

End Requests.

(** ** What the scheduler publishes, and for whom *)

Module Scheduling.

Import CSpell Server.

(** Every result the function can return has the property. *)
Fixpoint resolvesWith {A} (P : A → Prop) (m : Async A) : Prop :=
  match m with
  | Ret a => P a
  | Throw _ => True
  | Log _ k => resolvesWith P k
  | SetBusy _ k => resolvesWith P k
  | AwaitActiveSettings _ k => ∀ o, resolvesWith P (k o)
  | AwaitIsUriExcluded _ k => ∀ o, resolvesWith P (k o)
  | AwaitAnalyzer _ _ k => ∀ o, resolvesWith P (k o)
  end.

(** Every suspended call will answer for the URI of its document, was
    made by a subscription that existed, and if that subscription is still
    open, it is a pipeline of this URI. *)
Definition routed (st : State) : Prop :=
  ∀ t, t ∈ tasks st →
    resolvesWith (λ r, vr_uri r = doc_uri (task_doc t)) (task_cont t)
    ∧ (task_sub t < nextId st)%nat
    ∧ ∀ p, (task_sub t, p) ∈ observers st → pipelineUri p = doc_uri (task_doc t).

(** The subscriptions of [st'] that are older than [st] were open in
    [st], for the same URI. *)
Definition keepsUris (st st' : State) : Prop :=
  (nextId st ≤ nextId st')%nat
  ∧ ∀ id p', (id, p') ∈ observers st' → (id < nextId st)%nat →
      ∃ p, (id, p) ∈ observers st ∧ pipelineUri p = pipelineUri p'.

(** The invariants of the scheduler, together. *)
Definition sound (st : State) : Prop :=
  tracksPipelines st ∧ sparesBlackListed st ∧ routed st.

(** The step from [st] to [st'] has put out only outputs with [P]. *)
Definition outputsOnly (P : Output → Prop) (st st' : State) : Prop :=
  ∃ new, out st' = (out st ++ new)%list ∧ Forall P new.

Definition isLog (o : Output) : Prop :=
  match o with OutLog _ => True | _ => False end.

(** A pipeline of the URI is open. *)
Definition live (uri : string) (st : State) : Prop :=
  ∃ id p, (id, p) ∈ observers st ∧ pipelineUri p = uri.

(** What one event may put out, seen from the state it arrives in: log
    lines and errors; a [validateTextDocument] call or a result for a
    URI that has an open pipeline; the empty result of a close. *)
Definition accounted (st : State) (e : Event) (o : Output) : Prop :=
  match o with
  | OutLog _ => True
  | Unhandled _ => True
  | Invoked doc => live (doc_uri doc) st
  | SendDiagnostics r =>
      live (vr_uri r) st
      ∨ ∃ doc, e = DidClose doc ∧ disposables st = true ∧ r = mkResult (doc_uri doc) []
  end.

(** [connection.sendDiagnostics] calls so far for a URI *)
Definition isDiagnosticsOf (uri : string) (o : Output) : bool :=
  match o with
  | SendDiagnostics r => String.eqb (vr_uri r) uri
  | _ => false
  end.

Definition publishedFor (uri : string) (st : State) : list Output :=
  filter (λ o, isDiagnosticsOf uri o = true) (out st).

(** The [validateTextDocument] calls and the results sent, for any URI. *)
Definition isWork (o : Output) : bool :=
  match o with
  | Invoked _ | SendDiagnostics _ => true
  | _ => false
  end.

Definition work (st : State) : list Output := filter (λ o, isWork o = true) (out st).

(** The event hands a document of the URI to the request stream. *)
Definition feedsStream (uri : string) (e : Event) : bool :=
  match e with
  | DidChangeContent doc | DidSave doc => String.eqb (doc_uri doc) uri
  | ValidateAll docs => existsb (λ d, String.eqb (doc_uri d) uri) docs
  | _ => false
  end.

Definition isCloseOf (uri : string) (e : Event) : bool :=
  match e with
  | DidClose doc => String.eqb (doc_uri doc) uri
  | _ => false
  end.

(** The server after [onShutdown]. *)
Definition stopped (st : State) : Prop :=
  observers st = [] ∧ validationByDoc st = ∅
  ∧ disposables st = false ∧ disposableValidate st = false
  ∧ disposableTriggerValidateAll st = false.

(** No pipeline of the URI is open, and none can be subscribed: the URI
    has its entry in [validationByDoc], or the server is shut down. *)
Definition dead (uri : string) (st : State) : Prop :=
  ¬ live uri st ∧ (is_Some (validationByDoc st !! uri) ∨ stopped st).

(** The empty result a close sends. *)
Definition cleared (uri : string) : Output := SendDiagnostics (mkResult uri []).

(** The subscriptions [onShutdown] ends are all open, or all ended. *)
Definition handlesTogether (st : State) : Prop :=
  disposableValidate st = disposables st
  ∧ disposableTriggerValidateAll st = disposables st.

(** The step leaves the three subscriptions as they are. *)
Definition sameHandles (st st' : State) : Prop :=
  disposables st' = disposables st
  ∧ disposableValidate st' = disposableValidate st
  ∧ disposableTriggerValidateAll st' = disposableTriggerValidateAll st.


(** The validating pipeline of the document's URI is resolving the
    settings for the document. *)
Definition requested (doc : TextDocument) (st : State) : Prop :=
  ∃ id fetching pending,
    lookupObserver id (observers st) = Some (Validating (doc_uri doc) fetching pending)
    ∧ doc ∈ fetching.*2.

(** A document of the URI given to the stream finds a validating
    pipeline: an open one, or the URI has no entry in [validationByDoc]
    yet and gets one. *)
Definition serves (uri : string) (st : State) : Prop :=
  validationByDoc st !! uri = None
  ∨ ∃ id fetching pending,
      lookupObserver id (observers st) = Some (Validating uri fetching pending).

(** A second version of the example document. *)
Definition docA2 : TextDocument := mkDoc "file:///w/a.txt" "plaintext" 2 "hello".

End Scheduling.

(** ** Configuration changes: the triggers of [run()] *)

Module Configuration.

Import CSpell Server.

(** [logger.level]: what the editor answered, or [LogLevel.DEBUG] *)
Inductive Level : Type :=
| LevelOf (answer : string)
| LevelDebug.

(** What the configuration handlers log and ask. *)
Inductive Effect : Type :=
| LogConfigurationChange
    (** [logInfo('Configuration Change')] *)
| LogTriggerUpdateConfig
    (** [tap(() => log('Trigger Update Config'))] *)
| LogUpdateActiveSettings
    (** [log('updateActiveSettings')] *)
| LogRegisterConfigurationFile (path : string)
    (** [logInfo('Register Configuration File', path)] *)
| LogFailedToGetConfig (reason : Exn)
    (** [logger.error('Failed to get config: ...')] *)
| AskLogLevel
    (** [connection.workspace.getConfiguration({ section: 'cSpell.logLevel' })] *)
| AskWorkspaceFolders.
    (** [connection.workspace.getWorkspaceFolders()] of [fetchFolders] *)

Record State : Type := mkState {
  (** the validation scheduler of [run()] *)
  scheduler : Server.State;
  (** [documentSettings] *)
  documentSettings : DocumentSettings.State;
  (** [debounceTime(100)] on [triggerUpdateConfig] holds a value *)
  updateConfigPending : bool;
  (** [debounceTime(250)] on [triggerValidateAll] holds a value *)
  validateAllPending : bool;
  (** [disposableTriggerUpdateConfigStream] is subscribed *)
  disposableTriggerUpdateConfigStream : bool;
  (** [logger.level], once it was set *)
  loggerLevel : option Level;
  (** what [setWorkspaceFolders] was last given *)
  workspaceFolders : option (list string);
  (** log-level and folder requests that wait for their answer *)
  logLevelRequests : nat;
  folderRequests : nat;
  effects : list Effect;
}.

(** [run()] so far as the configuration goes: a new resolver, both
    triggers subscribed, nothing held. *)
Definition init (defaults : Settings) : State :=
  mkState Server.init (DocumentSettings.create defaults) false false true None None 0 0 [].

Definition setScheduler (s : Server.State) (st : State) : State :=
  mkState s (documentSettings st) (updateConfigPending st) (validateAllPending st)
    (disposableTriggerUpdateConfigStream st) (loggerLevel st) (workspaceFolders st)
    (logLevelRequests st) (folderRequests st) (effects st).

Definition setDocumentSettings (d : DocumentSettings.State) (st : State) : State :=
  mkState (scheduler st) d (updateConfigPending st) (validateAllPending st)
    (disposableTriggerUpdateConfigStream st) (loggerLevel st) (workspaceFolders st)
    (logLevelRequests st) (folderRequests st) (effects st).

Definition setUpdateConfigPending (b : bool) (st : State) : State :=
  mkState (scheduler st) (documentSettings st) b (validateAllPending st)
    (disposableTriggerUpdateConfigStream st) (loggerLevel st) (workspaceFolders st)
    (logLevelRequests st) (folderRequests st) (effects st).

Definition setValidateAllPending (b : bool) (st : State) : State :=
  mkState (scheduler st) (documentSettings st) (updateConfigPending st) b
    (disposableTriggerUpdateConfigStream st) (loggerLevel st) (workspaceFolders st)
    (logLevelRequests st) (folderRequests st) (effects st).

Definition setLoggerLevel (l : Level) (st : State) : State :=
  mkState (scheduler st) (documentSettings st) (updateConfigPending st)
    (validateAllPending st) (disposableTriggerUpdateConfigStream st) (Some l)
    (workspaceFolders st) (logLevelRequests st) (folderRequests st) (effects st).

Definition setWorkspaceFolders (uris : list string) (st : State) : State :=
  mkState (scheduler st) (documentSettings st) (updateConfigPending st)
    (validateAllPending st) (disposableTriggerUpdateConfigStream st) (loggerLevel st)
    (Some uris) (logLevelRequests st) (folderRequests st) (effects st).

Definition setRequests (logLevel folders : nat) (st : State) : State :=
  mkState (scheduler st) (documentSettings st) (updateConfigPending st)
    (validateAllPending st) (disposableTriggerUpdateConfigStream st) (loggerLevel st)
    (workspaceFolders st) logLevel folders (effects st).

Definition effect (e : Effect) (st : State) : State :=
  mkState (scheduler st) (documentSettings st) (updateConfigPending st)
    (validateAllPending st) (disposableTriggerUpdateConfigStream st) (loggerLevel st)
    (workspaceFolders st) (logLevelRequests st) (folderRequests st) (effects st ++ [e]).

(** [connection.onShutdown] for the trigger subscriptions: both are
    unsubscribed, and with them the timers of their debounces. *)
Definition unsubscribeTriggers (st : State) : State :=
  mkState (scheduler st) (documentSettings st) false false false (loggerLevel st)
    (workspaceFolders st) (logLevelRequests st) (folderRequests st) (effects st).

(** [triggerUpdateConfig.next(undefined)]: the subscriber logs and the
    debounce holds the value and restarts its timer. *)
Definition triggerUpdateConfigNext (st : State) : State :=
  if disposableTriggerUpdateConfigStream st
  then setUpdateConfigPending true (effect LogTriggerUpdateConfig st)
  else st.

(** [triggerValidateAll.next(undefined)] *)
Definition triggerValidateAllNext (st : State) : State :=
  if disposableTriggerValidateAll (scheduler st)
  then setValidateAllPending true st
  else st.

(** [updateLogLevel()]: the request is sent; the two handlers run on its
    answer. *)
Definition updateLogLevel (st : State) : State :=
  setRequests (S (logLevelRequests st)) (folderRequests st) (effect AskLogLevel st).

(** [fetchFolders()] of [server.ts], up to its [await] *)
Definition fetchFolders (st : State) : State :=
  setRequests (logLevelRequests st) (S (folderRequests st)) (effect AskWorkspaceFolders st).

(** [onConfigChange(change)] *)
Definition onConfigChange (st : State) : State :=
  updateLogLevel (triggerUpdateConfigNext (effect LogConfigurationChange st)).

(** [updateActiveSettings()] *)
Definition updateActiveSettings (st : State) : State :=
  let st1 := effect LogUpdateActiveSettings st in
  let st2 :=
    setDocumentSettings (snd (DocumentSettings.resetSettings (documentSettings st1))) st1 in
  triggerValidateAllNext st2.

(** [registerConfigurationFile(path)] of [server.ts] *)
Definition registerConfigurationFile (path : string) (st : State) : State :=
  let st1 :=
    setDocumentSettings
      (snd (DocumentSettings.registerConfigurationFile path (documentSettings st))) st in
  triggerUpdateConfigNext (effect (LogRegisterConfigurationFile path) st1).

(** The two handlers of [updateLogLevel()] *)
Definition logLevelAnswered (o : Outcome string) (st : State) : State :=
  match logLevelRequests st with
  | O => st
  | S n =>
      let st1 := fetchFolders (setRequests n (folderRequests st) st) in
      match o with
      | Resolved result => setLoggerLevel (LevelOf result) st1
      | Rejected reject =>
          effect (LogFailedToGetConfig reject) (setLoggerLevel LevelDebug st1)
      end
  end.

(** [fetchFolders()] after its [await] *)
Definition foldersAnswered (folders : option (list WorkspaceFolder)) (st : State) : State :=
  match folderRequests st with
  | O => st
  | S n =>
      let st1 := setRequests (logLevelRequests st) n st in
      match folders with
      | Some fs => setWorkspaceFolders (map wf_uri fs) st1
      | None => setWorkspaceFolders [] st1
      end
  end.

Inductive Event : Type :=
| ConfigChange
    (** [onDidChangeConfiguration], or the [onConfigChange] notification *)
| RegisterConfigurationFile (path : string)
    (** the [registerConfigurationFile] notification *)
| UpdateConfigDue
    (** 100 ms have passed since the last [triggerUpdateConfig.next] *)
| ValidateAllDue (docs : list TextDocument)
    (** 250 ms have passed since the last [triggerValidateAll.next];
        [docs] is [documents.all()] *)
| LogLevelAnswer (o : Outcome string)
| FoldersAnswer (folders : option (list WorkspaceFolder))
| Scheduler (e : Server.Event).
    (** an event of the validation scheduler; its validate-all is
        [ValidateAllDue] here *)

Section Run.

Variable libraryDefaults : Settings.
Variable constructSettingsForText : Settings → string → string → Outcome Settings.
Variable completion : DurationCompletion.

Definition schedule (e : Server.Event) (st : State) : State :=
  setScheduler
    (Server.step libraryDefaults constructSettingsForText completion e (scheduler st)) st.

Definition step (e : Event) (st : State) : State :=
  match e with
  | ConfigChange => onConfigChange st
  | RegisterConfigurationFile path => registerConfigurationFile path st
  | UpdateConfigDue =>
      if updateConfigPending st
      then updateActiveSettings (setUpdateConfigPending false st)
      else st
  | ValidateAllDue docs =>
      if validateAllPending st
      then schedule (ValidateAll docs) (setValidateAllPending false st)
      else st
  | LogLevelAnswer o => logLevelAnswered o st
  | FoldersAnswer folders => foldersAnswered folders st
  | Scheduler (ValidateAll _) => st
  | Scheduler Shutdown => unsubscribeTriggers (schedule Shutdown st)
  | Scheduler e' => schedule e' st
  end.

Definition run (events : list Event) (st : State) : State :=
  foldl (λ acc e, step e acc) st events.

End Run.

(** The version of the settings. *)
Definition version (st : State) : Z := DocumentSettings.version (documentSettings st).

(** Events that neither register a file, nor let the 100 ms pass, nor
    shut the server down. *)
Definition withinBurst (e : Event) : bool :=
  match e with
  | RegisterConfigurationFile _ | UpdateConfigDue | Scheduler Shutdown => false
  | _ => true
  end.

Definition isConfigChange (e : Event) : bool :=
  match e with ConfigChange => true | _ => false end.

Definition isRegistration (e : Event) : bool :=
  match e with RegisterConfigurationFile _ => true | _ => false end.

(** Both trigger subscriptions are gone and hold nothing. *)
Definition untriggered (st : State) : Prop :=
  disposableTriggerUpdateConfigStream st = false
  ∧ updateConfigPending st = false
  ∧ validateAllPending st = false
  ∧ disposableTriggerValidateAll (scheduler st) = false.

End Configuration.

(** * Properties of the settings resolver *)

Section FolderMatching.

Import Folders.

(** [slice(0, n)] of a string that starts with [n] given characters *)
Lemma substring_prefix_append (u rest : string) :
  substring 0 (String.length u) (u ++ rest) = u.
Proof.
  induction u as [|c u IH]; simpl.
  - destruct rest; reflexivity.
  - by rewrite IH.
Qed.

Lemma substring_is_prefix (n : nat) (d : string) :
  ∃ rest, d = (substring 0 n d ++ rest)%string.
Proof.
  revert d; induction n as [|n IH]; intros d.
  - exists d. destruct d; reflexivity.
  - destruct d as [|c d]; simpl.
    + exists EmptyString. reflexivity.
    + destruct (IH d) as [rest Hrest]. exists rest. rewrite Hrest at 1. reflexivity.
Qed.

(** The folder test is the raw prefix test on the two strings. *)
Lemma isPrefixOf_spec (u d : string) :
  isPrefixOf u d = true ↔ ∃ rest, d = (u ++ rest)%string.
Proof.
  unfold isPrefixOf. rewrite String.eqb_eq. split.
  - intros Heq. destruct (substring_is_prefix (String.length u) d) as [rest Hrest].
    exists rest. by rewrite Heq at 1.
  - intros [rest ->]. by rewrite substring_prefix_append.
Qed.

Lemma insertByLength_perm (x : WorkspaceFolder) (l : list WorkspaceFolder) :
  insertByLength x l ≡ₚ x :: l.
Proof.
  induction l as [|y ys IH]; simpl; [done|].
  destruct (_ <=? _)%nat; [done|].
  rewrite IH. apply Permutation_swap.
Qed.

Lemma sortByLength_perm (l : list WorkspaceFolder) : sortByLength l ≡ₚ l.
Proof.
  induction l as [|x xs IH]; simpl; [done|].
  by rewrite insertByLength_perm, IH.
Qed.

Lemma insertByLength_sorted (x : WorkspaceFolder) (l : list WorkspaceFolder) :
  StronglySorted shorterOrEqual l → StronglySorted shorterOrEqual (insertByLength x l).
Proof.
  induction 1 as [|y ys Hs IH Hall]; simpl.
  - repeat constructor.
  - destruct (_ <=? _)%nat eqn:Hle.
    + apply Nat.leb_le in Hle. constructor; [by constructor|].
      constructor; [done|].
      eapply Forall_impl; [exact Hall|]. unfold shorterOrEqual in *. intros; lia.
    + apply Nat.leb_gt in Hle. constructor; [done|].
      rewrite insertByLength_perm. constructor; [|done].
      unfold shorterOrEqual. lia.
Qed.

Lemma sortByLength_sorted (l : list WorkspaceFolder) :
  StronglySorted shorterOrEqual (sortByLength l).
Proof.
  induction l; simpl; [constructor|]. by apply insertByLength_sorted.
Qed.

Lemma StronglySorted_snoc {A} (R : A → A → Prop) (l : list A) (x : A) :
  StronglySorted R l → Forall (λ y, R y x) l → StronglySorted R (l ++ [x]).
Proof.
  induction 1 as [|y ys Hs IH Hall]; intros Hx; simpl.
  - repeat constructor.
  - inversion Hx; subst. constructor; [by apply IH|].
    apply Forall_app; split; [done|]. by constructor.
Qed.

Lemma StronglySorted_rev {A} (R : A → A → Prop) (l : list A) :
  StronglySorted R l → StronglySorted (flip R) (rev l).
Proof.
  induction 1 as [|y ys Hs IH Hall]; simpl; [constructor|].
  apply StronglySorted_snoc; [done|].
  apply Forall_rev. exact Hall.
Qed.

(** C10. A workspace folder matches a document when the folder URI is a
    character prefix of the document URI, whatever the path segments are:
    the result holds exactly the folders that pass this test (each as
    often as the host listed it), the longest URI first; the folder
    [file:///proj] matches the document [file:///project2/a.ts]. *)
Theorem matchingFoldersForUri_raw_prefix_longest_first :
  (∀ (folders : list WorkspaceFolder) (docUri : string),
     let matches := matchingFoldersForUri folders docUri in
     (∀ f, f ∈ matches ↔ f ∈ folders ∧ ∃ rest, docUri = (wf_uri f ++ rest)%string)
     ∧ matches ≡ₚ filter (λ f, isPrefixOf (wf_uri f) docUri = true) folders
     ∧ StronglySorted longerOrEqual matches)
  ∧ matchingFoldersForUri [mkFolder "file:///proj" "proj"] "file:///project2/a.ts"
    = [mkFolder "file:///proj" "proj"].
Proof.
  split; [|reflexivity].
  intros folders docUri matches.
  assert (Hperm : matches ≡ₚ filter (λ f, isPrefixOf (wf_uri f) docUri = true) folders).
  { unfold matches, matchingFoldersForUri.
    etransitivity; [symmetry; apply Permutation_rev | apply sortByLength_perm]. }
  split; [|split; [exact Hperm|]].
  - intros f. rewrite Hperm, list_elem_of_filter, isPrefixOf_spec. tauto.
  - unfold matches, matchingFoldersForUri.
    apply (StronglySorted_rev shorterOrEqual), sortByLength_sorted.
Qed.

End FolderMatching.

Section Merging.

Import CSpell.

Lemma merge_lookup (left right : Settings) (k : string) :
  merge left right !! k = union_with mergeValue (left !! k) (right !! k).
Proof. apply lookup_union_with. Qed.

(** A key the later source does not define keeps the earlier value. *)
Lemma merge_lookup_left (left right : Settings) (k : string) :
  right !! k = None → merge left right !! k = left !! k.
Proof. intros H. rewrite merge_lookup, H. by destruct (left !! k). Qed.

(** A scalar of the later source replaces whatever the earlier one held. *)
Lemma merge_lookup_right_scalar (left right : Settings) (k : string) (v : Value) :
  right !! k = Some v → is_array v = false → merge left right !! k = Some v.
Proof.
  intros H Hv. rewrite merge_lookup, H.
  destruct (left !! k) as [[]|]; destruct v; simpl in *; done.
Qed.

(** Two arrays are unioned. *)
Lemma merge_lookup_arrays (left right : Settings) (k : string) (a b : list string) :
  left !! k = Some (JArr a) → right !! k = Some (JArr b) →
  merge left right !! k = Some (JArr (mergeList a b)).
Proof. intros Ha Hb. by rewrite merge_lookup, Ha, Hb. Qed.

Lemma dedup_elem_of (seen l : list string) (x : string) :
  x ∈ dedup seen l ↔ x ∈ l ∧ x ∉ seen.
Proof.
  revert seen; induction l as [|y ys IH]; intros seen; simpl.
  - split; [by intros ?%elem_of_nil|by intros [?%elem_of_nil _]].
  - case_bool_decide as Hy.
    + rewrite IH, elem_of_cons. split; [tauto|].
      intros [[->|Hin] Hns]; [done|tauto].
    + rewrite elem_of_cons, IH, !elem_of_cons.
      destruct (decide (x = y)) as [->|Hne]; tauto.
Qed.

(** The union holds every element of both arrays, and nothing else. *)
Lemma mergeList_elem_of (a b : list string) (x : string) :
  x ∈ mergeList a b ↔ x ∈ a ∨ x ∈ b.
Proof.
  unfold mergeList. rewrite dedup_elem_of, elem_of_app.
  split; [tauto|]. intros H. split; [done|apply not_elem_of_nil].
Qed.

End Merging.

(** Unfolds the methods of the resolver down to the state they return. *)
Ltac run_methods :=
  repeat progress
    unfold DocumentSettings.getUriSettings, DocumentSettings._getUriSettings,
      DocumentSettings.fetchUriSettings, DocumentSettings.findMatchingFolder,
      DocumentSettings.matchingFoldersForUri, DocumentSettings.folders,
      DocumentSettings.fetchFolders, DocumentSettings.fetchSettingsForUri,
      DocumentSettings._fetchSettingsForFolderUri,
      DocumentSettings.fetchSettingsFromVSCode,
      DocumentSettings.fetchVSCodeConfiguration,
      DocumentSettings._fetchVSCodeConfiguration,
      DocumentSettings.readSettingsForFolderUri,
      DocumentSettings.importedSettings, DocumentSettings._importSettings,
      DocumentSettings.autoLoadGet, DocumentSettings.lazyGet, DocumentSettings.tell,
      DocumentSettings.bind, DocumentSettings.ret, DocumentSettings.gets,
      DocumentSettings.modify;
  simpl.

Section FolderSettings.

Import CSpell DocumentSettings.

(** What [_fetchSettingsForFolderUri] returns, in any state of the caches:
    the host-editor settings with the file settings merged over them. *)
Lemma fetchSettingsForFolderUri_value (h : Host) (uri : string) (s : State) :
  let host := hostSettingsSeen h s uri in
  let file := fileSettingsSeen h s uri in
  let merged := merge host file in
  fst (_fetchSettingsForFolderUri h uri s)
  = mkExt uri host merged
      ((defaultExclude ++ get_array_or_empty merged "ignorePaths")%list, uriPath h uri).
Proof.
  unfold hostSettingsSeen, fileSettingsSeen, vscodeConfigurationSeen.
  run_methods.
  destruct (fetchVSCodeConfigurationCache s !! uri) as [[cSpell exclude]|] eqn:Hc; simpl.
  - destruct (cspellFileSettingsByFolderCache s !! uri) eqn:Hf; simpl; reflexivity.
  - destruct (getConfiguration h uri) as [cSpell exclude]; simpl.
    destruct (cspellFileSettingsByFolderCache s !! uri) eqn:Hf; simpl; reflexivity.
Qed.

(** C2 (as the code has it). The folder settings are the host-editor
    settings with the settings of the folder's configuration files merged
    over them: a key only the host editor defines keeps the host value, a
    key the files define takes the file value, also against a host value,
    and where both hold an array the two are unioned. *)
Theorem folder_settings_file_over_host (h : Host) (s : State) (uri k : string) :
  let ext := fst (_fetchSettingsForFolderUri h uri s) in
  let host := hostSettingsSeen h s uri in
  let file := fileSettingsSeen h s uri in
  ext_vscodeSettings ext = host
  ∧ ext_settings ext = mergeSettings host [file]
  ∧ match file !! k, host !! k with
    | None, _ => ext_settings ext !! k = host !! k
    | Some (JArr b), Some (JArr a) => ext_settings ext !! k = Some (JArr (mergeList a b))
    | Some v, _ => ext_settings ext !! k = Some v
    end.
Proof.
  intros ext host file. unfold ext. rewrite fetchSettingsForFolderUri_value. simpl.
  fold host file. split; [done|]. split; [done|].
  rewrite merge_lookup.
  destruct (file !! k) as [[]|], (host !! k) as [[]|]; reflexivity.
Qed.

(** C2 (as stated) fails: in a folder whose configuration file sets
    [enabled] to false while the host editor sets it to true, the folder
    settings hold false. *)
Lemma folder_settings_host_does_not_win :
  let s := create ∅ in
  let ext := fst (_fetchSettingsForFolderUri (exampleHost true) "file:///w" s) in
  hostSettingsSeen (exampleHost true) s "file:///w" !! "enabled" = Some (JBool true)
  ∧ fileSettingsSeen (exampleHost true) s "file:///w" !! "enabled" = Some (JBool false)
  ∧ ext_settings ext !! "enabled" = Some (JBool false)
  ∧ ¬ hostSettingsWin.
Proof.
  assert (H1 : hostSettingsSeen (exampleHost true) (create ∅) "file:///w" !! "enabled"
               = Some (JBool true)) by (vm_compute; reflexivity).
  assert (H2 : fileSettingsSeen (exampleHost true) (create ∅) "file:///w" !! "enabled"
               = Some (JBool false)) by (vm_compute; reflexivity).
  assert (H3 : ext_settings (fst (_fetchSettingsForFolderUri (exampleHost true)
                 "file:///w" (create ∅))) !! "enabled" = Some (JBool false))
    by (vm_compute; reflexivity).
  simpl. split; [exact H1|]. split; [exact H2|]. split; [exact H3|].
  intros Hwin. specialize (Hwin _ _ _ _ _ _ H1 H2). rewrite H3 in Hwin. discriminate.
Qed.

End FolderSettings.

Section UriSettings.

Import CSpell DocumentSettings.

Lemma eqb_empty_false (uri : string) : uri ≠ "" → String.eqb uri "" = false.
Proof. intros H. by apply String.eqb_neq. Qed.

(** What [_getUriSettings] returns for a document, in any state of the
    caches. *)
Lemma getUriSettings_value (h : Host) (s : State) (uri : string) :
  uri ≠ "" →
  fst (_getUriSettings h uri s)
  = calcOverrideSettings (overridesFor h)
      (mergeSettings (defaultSettings s)
         [importedSeen h s;
          ext_settings (folderSettingsSeen h s (wf_uri (owningFolder h s uri)))])
      (uriFsPath h uri).
Proof.
  intros Huri.
  unfold folderSettingsSeen, owningFolder, foldersSeen, importedSeen.
  run_methods. rewrite (eqb_empty_false uri Huri).
  run_methods.
  destruct (foldersLazy s) as [fs|]; simpl;
  match goal with |- context [Folders.matchingFoldersForUri ?f uri] =>
    destruct (Folders.matchingFoldersForUri f uri) as [|fo ?]; simpl end;
  match goal with |- context [fetchSettingsForUriCache s !! ?u] =>
    destruct (fetchSettingsForUriCache s !! u) as [e|]; simpl end;
  try (match goal with |- context [fetchVSCodeConfigurationCache s !! ?u] =>
    destruct (fetchVSCodeConfigurationCache s !! u) as [[c x]|]; simpl end);
  try (match goal with |- context [getConfiguration h ?u] =>
    destruct (getConfiguration h u) as [c x]; simpl end);
  try (match goal with |- context [cspellFileSettingsByFolderCache s !! ?u] =>
    destruct (cspellFileSettingsByFolderCache s !! u) as [f|]; simpl end);
  destruct (importedSettingsLazy s) as [i|]; simpl; reflexivity.
Qed.

(** C4. The settings of a document are the defaults, then the settings of
    the registered configuration files, then the settings of the owning
    folder, merged in this order, with the override entries that match
    the file applied on top. On every key the later source wins over a
    scalar and is unioned with an array; defaults
    [{enabled: false, checkLimit: 500}], imported [{checkLimit: 1000}] and
    folder [{enabled: true}] give [{enabled: true, checkLimit: 1000}]. *)
Theorem uri_settings_merge_priority (h : Host) (s : State) (uri k : string) :
  uri ≠ "" →
  let defaults := defaultSettings s in
  let imported := importedSeen h s in
  let folder := ext_settings (folderSettingsSeen h s (wf_uri (owningFolder h s uri))) in
  let merged := mergeSettings defaults [imported; folder] in
  fst (_getUriSettings h uri s)
    = calcOverrideSettings (overridesFor h) merged (uriFsPath h uri)
  ∧ (overridesFor h merged (uriFsPath h uri) = [] → fst (_getUriSettings h uri s) = merged)
  ∧ merged !! k
    = union_with mergeValue (union_with mergeValue (defaults !! k) (imported !! k))
        (folder !! k)
  ∧ (∀ v, folder !! k = Some v → is_array v = false → merged !! k = Some v)
  ∧ (∀ v, folder !! k = None → imported !! k = Some v → is_array v = false →
       merged !! k = Some v)
  ∧ (folder !! k = None → imported !! k = None → merged !! k = defaults !! k)
  ∧ (∀ a b c, defaults !! k = Some (JArr a) → imported !! k = Some (JArr b) →
       folder !! k = Some (JArr c) →
       merged !! k = Some (JArr (mergeList (mergeList a b) c))
       ∧ ∀ x, x ∈ mergeList (mergeList a b) c ↔ x ∈ a ∨ x ∈ b ∨ x ∈ c)
  ∧ mergeSettings exampleDefaults
      [ {[ "checkLimit" := JNum 1000 ]}; {[ "enabled" := JBool true ]} ]
    = {[ "enabled" := JBool true; "checkLimit" := JNum 1000 ]}.
Proof.
  intros Huri defaults imported folder merged.
  assert (Hval := getUriSettings_value h s uri Huri).
  fold defaults imported folder merged in Hval.
  assert (Hk : merged !! k
    = union_with mergeValue (union_with mergeValue (defaults !! k) (imported !! k))
        (folder !! k)).
  { unfold merged, mergeSettings. simpl. by rewrite !merge_lookup. }
  split; [exact Hval|]. split.
  { intros Hnone. rewrite Hval. unfold calcOverrideSettings. by rewrite Hnone. }
  split; [exact Hk|]. split.
  { intros v Hf Hv. by apply merge_lookup_right_scalar. }
  split.
  { intros v Hf Hi Hv. unfold merged, mergeSettings. simpl.
    rewrite merge_lookup_left by done. by apply merge_lookup_right_scalar. }
  split.
  { intros Hf Hi. unfold merged, mergeSettings. simpl.
    by rewrite !merge_lookup_left. }
  split.
  { intros a b c Hd Hi Hf. split.
    - unfold merged, mergeSettings. simpl.
      apply merge_lookup_arrays; [|done]. by apply merge_lookup_arrays.
    - intros x. rewrite !mergeList_elem_of. tauto. }
  apply map_eq. intros key. unfold mergeSettings, exampleDefaults. simpl.
  rewrite !merge_lookup.
  destruct (decide (key = "enabled")) as [->|Hne1]; [by vm_compute|].
  destruct (decide (key = "checkLimit")) as [->|Hne2]; [by vm_compute|].
  rewrite ?lookup_insert_ne, ?lookup_singleton_ne by done. reflexivity.
Qed.

(** The merge example run through the resolver: the registered file
    raises the check limit of the defaults, the folder switches the
    checker on. *)
Lemma uri_settings_merge_priority_example :
  "file:///w/a.txt" ≠ ""
  ∧ fst (_getUriSettings (exampleHost false) "file:///w/a.txt" exampleInstance)
      !! "enabled" = Some (JBool true)
  ∧ fst (_getUriSettings (exampleHost false) "file:///w/a.txt" exampleInstance)
      !! "checkLimit" = Some (JNum 1000).
Proof.
  assert (Hne : "file:///w/a.txt" ≠ "") by discriminate.
  split; [exact Hne|].
  destruct (uri_settings_merge_priority (exampleHost false) exampleInstance
              "file:///w/a.txt" "enabled" Hne) as (_ & Hmerged & _).
  rewrite (Hmerged eq_refl).
  split; vm_compute; reflexivity.
Defined.

End UriSettings.

Section Registry.

Import CSpell DocumentSettings.

Local Open Scope ds_scope.

Lemma keeps_ret {A} (a : A) : keepsRegistry (ret a).
Proof. by intros s. Qed.

Lemma keeps_gets {A} (f : State → A) : keepsRegistry (gets f).
Proof. by intros s. Qed.

Lemma keeps_tell (c : IoCall) : keepsRegistry (tell c).
Proof. by intros s. Qed.

Lemma keeps_modify (f : State → State) :
  (∀ s, cachedValues (f s) = cachedValues s) → keepsRegistry (modify f).
Proof. intros Hf s. apply Hf. Qed.

Lemma keeps_bind {A B} (m : M A) (k : A → M B) :
  keepsRegistry m → (∀ a, keepsRegistry (k a)) → keepsRegistry (bind m k).
Proof.
  intros Hm Hk s. unfold bind. destruct (m s) as [a s'] eqn:Hms.
  rewrite Hk. specialize (Hm s). by rewrite Hms in Hm.
Qed.

Lemma keeps_autoLoadGet {T} (read : State → gmap string T)
    (write : gmap string T → State → State) (loader : string → M T) (key : string) :
  (∀ c s, cachedValues (write c s) = cachedValues s) →
  (∀ k, keepsRegistry (loader k)) →
  keepsRegistry (autoLoadGet read write loader key).
Proof.
  intros Hw Hl. unfold autoLoadGet. apply keeps_bind; [apply keeps_gets|].
  intros [v|]; [apply keeps_ret|].
  apply keeps_bind; [apply Hl|]. intros v.
  apply keeps_bind; [|intros; apply keeps_ret].
  apply keeps_modify. intros s. apply Hw.
Qed.

Lemma keeps_lazyGet {T} (read : State → option T)
    (write : option T → State → State) (loader : M T) :
  (∀ c s, cachedValues (write c s) = cachedValues s) →
  keepsRegistry loader →
  keepsRegistry (lazyGet read write loader).
Proof.
  intros Hw Hl. unfold lazyGet. apply keeps_bind; [apply keeps_gets|].
  intros [v|]; [apply keeps_ret|].
  apply keeps_bind; [apply Hl|]. intros v.
  apply keeps_bind; [|intros; apply keeps_ret].
  apply keeps_modify. intros s. apply Hw.
Qed.

Ltac keeps :=
  repeat first
    [ apply keeps_ret | apply keeps_gets | apply keeps_tell
    | apply keeps_bind; [|intros ?]
    | apply keeps_autoLoadGet; [by intros|intros ?]
    | apply keeps_lazyGet; [by intros|]
    | apply keeps_modify; by intros
    | match goal with |- keepsRegistry (match ?x with _ => _ end) => destruct x end
    | match goal with |- keepsRegistry (if ?x then _ else _) => destruct x end ].

Lemma keeps_importedSettings (h : Host) : keepsRegistry (importedSettings h).
Proof. unfold importedSettings, _importSettings. keeps. Qed.

Lemma keeps_fetchSettingsForUri (h : Host) (uri : string) :
  keepsRegistry (fetchSettingsForUri h uri).
Proof.
  unfold fetchSettingsForUri, _fetchSettingsForFolderUri, fetchSettingsFromVSCode,
    fetchVSCodeConfiguration, _fetchVSCodeConfiguration, readSettingsForFolderUri.
  keeps.
Qed.

Lemma keeps_findMatchingFolder (h : Host) (uri : string) :
  keepsRegistry (findMatchingFolder h uri).
Proof.
  unfold findMatchingFolder, matchingFoldersForUri, folders, fetchFolders. keeps.
Qed.

Lemma keeps_getUriSettings (h : Host) (uri : string) :
  keepsRegistry (getUriSettings h uri).
Proof.
  unfold getUriSettings. apply keeps_autoLoadGet; [by intros|]. intros k.
  unfold _getUriSettings, fetchUriSettings.
  destruct (String.eqb k "").
  - apply keeps_bind; [apply keeps_gets|]. intros ?.
    apply keeps_bind; [apply keeps_importedSettings|]. intros ?. apply keeps_ret.
  - apply keeps_bind; [apply keeps_findMatchingFolder|]. intros ?.
    apply keeps_bind; [apply keeps_fetchSettingsForUri|]. intros ?.
    apply keeps_bind; [apply keeps_gets|]. intros ?.
    apply keeps_bind; [apply keeps_importedSettings|]. intros ?. apply keeps_ret.
Qed.

Lemma keeps_folders (h : Host) : keepsRegistry (folders h).
Proof. unfold folders, fetchFolders. keeps. Qed.

Lemma keeps_mapM {A B} (f : A → M B) (l : list A) :
  (∀ a, keepsRegistry (f a)) → keepsRegistry (mapM f l).
Proof.
  intros Hf. induction l as [|x xs IH]; simpl; [apply keeps_ret|].
  apply keeps_bind; [apply Hf|]. intros y.
  apply keeps_bind; [apply IH|]. intros ys. apply keeps_ret.
Qed.

Lemma keeps_isExcluded (h : Host) (uri : string) : keepsRegistry (isExcluded h uri).
Proof.
  unfold isExcluded, findMatchingFolderSettings.
  apply keeps_bind; [|intros; apply keeps_ret].
  apply keeps_bind.
  { unfold matchingFoldersForUri. apply keeps_bind; [apply keeps_folders|].
    intros; apply keeps_ret. }
  intros matching. apply keeps_bind.
  { apply keeps_mapM. intros folder. apply keeps_fetchSettingsForUri. }
  intros [|e es]; [|apply keeps_ret].
  apply keeps_bind; [apply keeps_folders|]. intros fs.
  apply keeps_bind; [apply keeps_fetchSettingsForUri|]. intros; apply keeps_ret.
Qed.

Lemma clear_registry (id : CacheId) (s : State) :
  cachedValues (clear id s) = cachedValues s.
Proof. by destruct id. Qed.

Lemma clear_all_registry (reg : list CacheId) (s : State) :
  cachedValues (foldl (λ acc cache, clear cache acc) s reg) = cachedValues s.
Proof.
  revert s; induction reg as [|id reg IH]; intros s; simpl; [done|].
  by rewrite IH, clear_registry.
Qed.

Lemma keeps_resetSettings : keepsRegistry resetSettings.
Proof.
  unfold resetSettings.
  apply keeps_bind; [apply keeps_tell|]. intros _.
  apply keeps_bind; [apply keeps_gets|]. intros reg.
  apply keeps_bind; [|intros; apply keeps_modify; by intros].
  apply keeps_modify. intros s. apply clear_all_registry.
Qed.

Lemma keeps_registerConfigurationFile (path : string) :
  keepsRegistry (registerConfigurationFile path).
Proof.
  unfold registerConfigurationFile.
  apply keeps_bind; [apply keeps_modify; by intros|]. intros _.
  apply keeps_bind; [apply keeps_modify; by intros|]. intros _.
  apply keeps_resetSettings.
Qed.

(** No call changes the registry the constructor filled. *)
Lemma calls_registry (cs : list Call) (s : State) :
  cachedValues (calls cs s) = cachedValues s.
Proof.
  revert s; induction cs as [|c cs IH]; intros s; [done|].
  unfold calls in *. simpl. rewrite IH.
  destruct c; simpl.
  - apply keeps_getUriSettings.
  - apply keeps_getUriSettings.
  - apply keeps_isExcluded.
  - apply keeps_folders.
  - apply keeps_resetSettings.
  - apply keeps_registerConfigurationFile.
Qed.

Lemma create_allRegistered (defaults : Settings) : allRegistered (create defaults).
Proof.
  intros id.
  change (id ∈ [GetUriSettings; FetchSettingsForUri; CspellFileSettingsByFolderCache;
                FetchVSCodeConfiguration; FoldersLazy; ImportedSettingsLazy]).
  destruct id; repeat first [apply list_elem_of_here | apply list_elem_of_further].
Qed.

Lemma clear_isCleared (id : CacheId) (s : State) : isCleared id (clear id s).
Proof. by destruct id. Qed.

Lemma clear_keeps_cleared (id id' : CacheId) (s : State) :
  isCleared id s → isCleared id (clear id' s).
Proof. by destruct id, id'. Qed.

Lemma clear_all_keeps_cleared (id : CacheId) (reg : list CacheId) (s : State) :
  isCleared id s → isCleared id (foldl (λ acc cache, clear cache acc) s reg).
Proof.
  revert s; induction reg as [|x reg IH]; intros s Hs; simpl; [done|].
  by apply IH, clear_keeps_cleared.
Qed.

(** Clearing the registry empties every cache that is in it. *)
Lemma clear_all_isCleared (id : CacheId) (reg : list CacheId) (s : State) :
  id ∈ reg → isCleared id (foldl (λ acc cache, clear cache acc) s reg).
Proof.
  revert s; induction reg as [|x reg IH]; intros s Hin; simpl.
  - by apply not_elem_of_nil in Hin.
  - apply elem_of_cons in Hin as [->|Hin].
    + apply clear_all_keeps_cleared, clear_isCleared.
    + by apply IH.
Qed.

Lemma clear_rest (id : CacheId) (s : State) :
  configsToImport (clear id s) = configsToImport s
  ∧ version (clear id s) = version s
  ∧ defaultSettings (clear id s) = defaultSettings s
  ∧ io (clear id s) = io s.
Proof. by destruct id. Qed.

Lemma clear_all_rest (reg : list CacheId) (s : State) :
  let s' := foldl (λ acc cache, clear cache acc) s reg in
  configsToImport s' = configsToImport s
  ∧ version s' = version s
  ∧ defaultSettings s' = defaultSettings s
  ∧ io s' = io s.
Proof.
  revert s; induction reg as [|x reg IH]; intros s; simpl; [done|].
  destruct (IH (clear x s)) as (-> & -> & -> & ->). apply clear_rest.
Qed.

(** The state [resetSettings] leaves when the registry is complete. *)
Lemma resetSettings_state (s : State) :
  allRegistered s →
  snd (resetSettings s)
  = mkState (cachedValues s) ∅ ∅ ∅ ∅ None (configsToImport s) None
      (version s + 1) (defaultSettings s) (io s ++ [IoClearCachedSettings]).
Proof.
  intros Hall. unfold resetSettings, tell, bind, gets, modify. simpl.
  match goal with |- context [foldl ?f ?s0 ?reg] => set (s' := foldl f s0 reg) end.
  assert (Hc : ∀ id, isCleared id s').
  { intros id. apply clear_all_isCleared, Hall. }
  pose proof (clear_all_registry (cachedValues s)
    (mkState (cachedValues s) (getUriSettingsCache s) (fetchSettingsForUriCache s)
       (cspellFileSettingsByFolderCache s) (fetchVSCodeConfigurationCache s)
       (foldersLazy s) (configsToImport s) (importedSettingsLazy s) (version s)
       (defaultSettings s) (io s ++ [IoClearCachedSettings]))) as Hr.
  pose proof (clear_all_rest (cachedValues s)
    (mkState (cachedValues s) (getUriSettingsCache s) (fetchSettingsForUriCache s)
       (cspellFileSettingsByFolderCache s) (fetchVSCodeConfigurationCache s)
       (foldersLazy s) (configsToImport s) (importedSettingsLazy s) (version s)
       (defaultSettings s) (io s ++ [IoClearCachedSettings]))) as (H1 & H2 & H3 & H4).
  fold s' in Hr, H1, H2, H3, H4. simpl in Hr, H1, H2, H3, H4.
  pose proof (Hc GetUriSettings) as C1. pose proof (Hc FetchSettingsForUri) as C2.
  pose proof (Hc CspellFileSettingsByFolderCache) as C3.
  pose proof (Hc FetchVSCodeConfiguration) as C4.
  pose proof (Hc FoldersLazy) as C5. pose proof (Hc ImportedSettingsLazy) as C6.
  simpl in C1, C2, C3, C4, C5, C6.
  by rewrite Hr, C1, C2, C3, C4, C5, C6, H1, H2, H3, H4.
Qed.

(** A cached resolution is answered from the cache: no loader runs. *)
Lemma getUriSettings_cached (h : Host) (s : State) (uri : string) (v : Settings) :
  getUriSettingsCache s !! uri = Some v → getUriSettings h uri s = (v, s).
Proof.
  intros Hc. unfold getUriSettings, autoLoadGet, bind, gets, ret. simpl. by rewrite Hc.
Qed.

(** C7. Every cache and lazy value of the class is in the registry from
    construction on, so one [resetSettings()] empties all six and adds one
    to the version; the resolution that follows, for any URI, runs the
    loaders again (folders, host configuration, folder files, registered
    files) and returns what an instance with nothing cached computes,
    where before the reset a cached URI was answered from the cache. *)
Theorem resetSettings_clears_every_cache
    (defaults : Settings) (cs : list Call) (h : Host) (uri : string) :
  let s := calls cs (create defaults) in
  let s' := snd (resetSettings s) in
  allRegistered s
  ∧ (∀ id, isCleared id s')
  ∧ version s' = version s + 1
  ∧ version s < version s'
  ∧ io s' = (io s ++ [IoClearCachedSettings])%list
  ∧ (∀ v, getUriSettingsCache s !! uri = Some v → getUriSettings h uri s = (v, s))
  ∧ fst (getUriSettings h uri s') = fst (_getUriSettings h uri (uncached s))
  ∧ io (snd (getUriSettings h uri s')) = (io s' ++ fetchesOf h s uri)%list.
Proof.
  intros s s'.
  assert (Hall : allRegistered s).
  { intros id. unfold s. rewrite calls_registry. apply create_allRegistered. }
  assert (Hs' : s' = mkState (cachedValues s) ∅ ∅ ∅ ∅ None (configsToImport s) None
      (version s + 1) (defaultSettings s) (io s ++ [IoClearCachedSettings])).
  { apply resetSettings_state, Hall. }
  assert (Hcached : ∀ v, getUriSettingsCache s !! uri = Some v →
                         getUriSettings h uri s = (v, s))
    by apply getUriSettings_cached.
  split; [exact Hall|]. rewrite Hs'. clear Hs' s'.
  split; [by intros []|]. split; [done|]. split; [simpl; lia|]. split; [done|].
  split; [exact Hcached|]. clear Hcached.
  unfold fetchesOf, owningFolder, foldersSeen, uncached.
  run_methods. rewrite !lookup_empty.
  destruct (String.eqb uri "") eqn:Huri; run_methods.
  - rewrite <- !app_assoc. split; reflexivity.
  - destruct (Folders.matchingFoldersForUri (default [] (getWorkspaceFolders h)) uri)
      as [|fo ?];
    repeat first [rewrite lookup_empty | progress run_methods];
    match goal with |- context [getConfiguration h ?u] =>
      destruct (getConfiguration h u) as [c x] end;
    repeat first [rewrite lookup_empty | progress run_methods];
    rewrite <- ?app_assoc; split; reflexivity.
Qed.

End Registry.

(** * Properties of the server *)

Section Validate.

Import CSpell Server.

Local Open Scope async_scope.

Variable libraryDefaults : Settings.
Variable constructSettingsForText : Settings → string → string → Outcome Settings.



End Validate.

Section ValidateExamples.

Import CSpell Server.


End ValidateExamples.

(** ** The subscriber list *)

Section Observers.

Import Server.

Lemma lookupObserver_elem_of (id : nat) (obs : list (nat * Pipeline)) (p : Pipeline) :
  lookupObserver id obs = Some p → (id, p) ∈ obs.
Proof.
  induction obs as [|[i q] obs IH]; simpl; [done|].
  destruct (Nat.eqb_spec i id) as [->|Hne].
  - intros [= ->]. apply elem_of_cons. by left.
  - intros H. apply elem_of_cons. right. by apply IH.
Qed.

Lemma lookupObserver_is_Some (id : nat) (obs : list (nat * Pipeline)) :
  is_Some (lookupObserver id obs) ↔ id ∈ obs.*1.
Proof.
  induction obs as [|[i q] obs IH]; simpl.
  - split; [by intros [? ?]|by intros ?%elem_of_nil].
  - destruct (Nat.eqb_spec i id) as [->|Hne].
    + split; [intros _; apply elem_of_cons; by left|by eauto].
    + rewrite IH, elem_of_cons. simpl. split; [tauto|]. intros [Heq|Hin]; [congruence|done].
Qed.

Lemma updateObserver_ids (id : nat) (p : Pipeline) (obs : list (nat * Pipeline)) :
  (updateObserver id p obs).*1 = obs.*1.
Proof.
  unfold updateObserver. induction obs as [|[i q] obs IH]; [done|].
  change ((if Nat.eqb i id then (id, p) else (i, q)).1
          :: (map (λ e, if Nat.eqb (fst e) id then (id, p) else e) obs).*1
          = i :: obs.*1).
  rewrite IH. f_equal. by destruct (Nat.eqb_spec i id).
Qed.

Lemma elem_of_updateObserver (i id : nat) (q p : Pipeline) (obs : list (nat * Pipeline)) :
  (i, q) ∈ updateObserver id p obs →
  (i = id ∧ q = p ∧ id ∈ obs.*1) ∨ (i ≠ id ∧ (i, q) ∈ obs).
Proof.
  unfold updateObserver. intros ([j r] & Heq & Hin)%list_elem_of_fmap. simpl in Heq.
  destruct (Nat.eqb_spec j id) as [->|Hne].
  - injection Heq as -> ->. left. split; [done|]. split; [done|].
    apply list_elem_of_fmap. by exists (id, r).
  - injection Heq as -> ->. by right.
Qed.

Lemma elem_of_removeObserver (i id : nat) (q : Pipeline) (obs : list (nat * Pipeline)) :
  (i, q) ∈ removeObserver id obs ↔ (i, q) ∈ obs ∧ i ≠ id.
Proof. unfold removeObserver. rewrite list_elem_of_filter. simpl. tauto. Qed.

Lemma removeObserver_ids (id : nat) (obs : list (nat * Pipeline)) :
  (removeObserver id obs).*1 `sublist_of` obs.*1.
Proof. unfold removeObserver. apply fmap_sublist, sublist_filter. Qed.

Lemma shrink_refl (obs : list (nat * Pipeline)) : observersShrink obs obs.
Proof. split; [done|]. intros id p Hin. by exists p. Qed.

Lemma shrink_trans (a b c : list (nat * Pipeline)) :
  observersShrink a b → observersShrink b c → observersShrink a c.
Proof.
  intros [Hs1 He1] [Hs2 He2]. split; [by etransitivity|].
  intros id p Hin. destruct (He2 _ _ Hin) as (q & Hq & Hu).
  destruct (He1 _ _ Hq) as (r & Hr & Hu'). exists r. split; [done|]. congruence.
Qed.

Lemma shrink_remove (id : nat) (obs : list (nat * Pipeline)) :
  observersShrink obs (removeObserver id obs).
Proof.
  split; [apply removeObserver_ids|].
  intros i p [Hin _]%elem_of_removeObserver. by exists p.
Qed.

Lemma shrink_update (id : nat) (p0 p : Pipeline) (obs : list (nat * Pipeline)) :
  lookupObserver id obs = Some p0 → pipelineUri p0 = pipelineUri p →
  NoDup obs.*1 →
  observersShrink obs (updateObserver id p obs).
Proof.
  intros Hl Hu Hnd. split; [by rewrite updateObserver_ids|].
  intros i q [(-> & -> & _)|[_ Hin]]%elem_of_updateObserver.
  - exists p0. split; [by apply lookupObserver_elem_of|done].
  - by exists q.
Qed.

Lemma elem_of_foldr_removeObserver (ids : list nat) (obs : list (nat * Pipeline))
    (i : nat) (q : Pipeline) :
  (i, q) ∈ foldr removeObserver obs ids ↔ (i, q) ∈ obs ∧ i ∉ ids.
Proof.
  induction ids as [|id ids IH]; simpl.
  - split; [intros H; split; [done|apply not_elem_of_nil]|tauto].
  - rewrite elem_of_removeObserver, IH, not_elem_of_cons. tauto.
Qed.

Lemma foldr_removeObserver_ids (ids : list nat) (obs : list (nat * Pipeline)) :
  (foldr removeObserver obs ids).*1 `sublist_of` obs.*1.
Proof.
  induction ids as [|id ids IH]; simpl; [done|].
  etransitivity; [apply removeObserver_ids|exact IH].
Qed.

End Observers.

(** ** One pipeline per URI *)

Section Tracking.

Import CSpell Server.

Variable libraryDefaults : Settings.
Variable constructSettingsForText : Settings → string → string → Outcome Settings.
Variable completion : DurationCompletion.

Lemma narrows_refl (st : State) : narrows st st.
Proof. split; [apply shrink_refl|]. split; [done|lia]. Qed.

Lemma narrows_trans (a b c : State) : narrows a b → narrows b c → narrows a c.
Proof.
  intros (H1 & H2 & H3) (H4 & H5 & H6).
  split; [by eapply shrink_trans|]. split; [congruence|lia].
Qed.

Lemma narrows_NoDup (st st' : State) :
  narrows st st' → NoDup (observers st).*1 → NoDup (observers st').*1.
Proof. intros ([Hs _] & _) Hnd. by eapply sublist_NoDup. Qed.

(** A transition that only shrinks the subscriber list keeps it in step
    with [validationByDoc]. *)
Lemma tracks_narrows (st st' : State) :
  tracksPipelines st → narrows st st' → tracksPipelines st'.
Proof.
  intros (Hreg & Hnd & Hfresh) ([Hsub Hel] & Hmap & Hnext).
  split; [|split].
  - intros id p' Hin. destruct (Hel _ _ Hin) as (p & Hp & Hu).
    rewrite Hmap, <- Hu. by apply Hreg.
  - by eapply sublist_NoDup.
  - intros id Hin. eapply elem_of_sublist in Hin; [|exact Hsub].
    specialize (Hfresh _ Hin). lia.
Qed.

(** What [settle] leaves alone. *)
Lemma settle_fields (m : Async ValidationResult) (st : State) :
  let st' := snd (settle m st) in
  replayBuffer st' = replayBuffer st
  ∧ disposableValidate st' = disposableValidate st
  ∧ disposableTriggerValidateAll st' = disposableTriggerValidateAll st
  ∧ observers st' = observers st
  ∧ validationByDoc st' = validationByDoc st
  ∧ blockValidation st' = blockValidation st
  ∧ tasks st' = tasks st
  ∧ disposables st' = disposables st
  ∧ nextId st' = nextId st
  ∧ ∃ logs, out st' = (out st ++ (OutLog <$> logs))%list.
Proof.
  revert st. induction m as [a|e|l k IH|b k IH|uri k IH|uri k IH|doc s k IH];
    intros st; simpl;
    try (repeat split; try done; exists []; by rewrite app_nil_r).
  - destruct (IH (emit (OutLog l) st)) as (-> & -> & -> & -> & -> & -> & -> & -> & -> & logs & ->).
    simpl. repeat split; try done. exists (l :: logs). by rewrite <- app_assoc.
  - destruct (IH (setIsValidationBusy b st))
      as (-> & -> & -> & -> & -> & -> & -> & -> & -> & logs & ->).
    simpl. repeat split; try done. by exists logs.
Qed.

Lemma narrows_settle (m : Async ValidationResult) (st : State) :
  narrows st (snd (settle m st)).
Proof.
  destruct (settle_fields m st) as (_ & _ & _ & Ho & Hm & _ & _ & _ & Hn & _).
  split; [rewrite Ho; apply shrink_refl|]. split; [done|lia].
Qed.

Lemma narrows_proceed (sub id : nat) (doc : TextDocument)
    (m : Async ValidationResult) (st : State) :
  narrows st (proceed sub id doc m st).
Proof.
  unfold proceed.
  destruct m; try (split; [apply shrink_refl|]; split; [done|simpl; lia]);
    case_bool_decide; try apply narrows_refl.
  - split; [apply shrink_refl|]. split; [done|simpl; lia].
  - split; [apply shrink_remove|]. split; [done|simpl; lia].
Qed.

Lemma narrows_startValidation (sub : nat) (dsp : DocSettingPair) (st : State) :
  narrows st (startValidation libraryDefaults constructSettingsForText sub dsp st).
Proof.
  unfold startValidation.
  destruct (settle _ _) as [m st2] eqn:Hs.
  eapply narrows_trans; [|apply narrows_proceed].
  eapply narrows_trans; [|pose proof (narrows_settle
    (validateTextDocument libraryDefaults constructSettingsForText dsp)
    (freshId (emit (Invoked (dsp_doc dsp)) st))) as H; rewrite Hs in H; exact H].
  split; [apply shrink_refl|]. split; [done|simpl; lia].
Qed.

Lemma narrows_release (sub : nat) (dsp : DocSettingPair) (st : State) :
  narrows st (release libraryDefaults constructSettingsForText sub dsp st).
Proof.
  unfold release. case_bool_decide.
  - split; [apply shrink_refl|]. split; [done|simpl; lia].
  - eapply narrows_trans; [|apply narrows_startValidation].
    split; [apply shrink_refl|]. split; [done|simpl; lia].
Qed.

Lemma narrows_setObservers_update (id : nat) (p0 p : Pipeline) (st : State) :
  lookupObserver id (observers st) = Some p0 → pipelineUri p0 = pipelineUri p →
  NoDup (observers st).*1 →
  narrows st (setObservers (updateObserver id p (observers st)) st).
Proof.
  intros Hl Hu Hnd. split; [by eapply shrink_update|]. split; [done|simpl; lia].
Qed.

Lemma narrows_timerFired (sub : nat) (st : State) :
  NoDup (observers st).*1 →
  narrows st (timerFired libraryDefaults constructSettingsForText completion sub st).
Proof.
  intros Hnd. unfold timerFired.
  destruct (lookupObserver sub (observers st)) as [[uri|uri fetching [[dsp delay]|]]|] eqn:Hl;
    try apply narrows_refl.
  assert (Hup := narrows_setObservers_update sub _ (Validating uri fetching None) st
                   Hl eq_refl Hnd).
  destruct (negb (isValidationBusy st)).
  - eapply narrows_trans; [exact Hup|apply narrows_release].
  - destruct completion; [|exact Hup].
    eapply narrows_trans; [exact Hup|apply narrows_release].
Qed.

Lemma narrows_activeSettingsSettled (sub request : nat) (o : Outcome Settings) (st : State) :
  NoDup (observers st).*1 →
  narrows st (activeSettingsSettled sub request o st).
Proof.
  intros Hnd. unfold activeSettingsSettled.
  destruct (lookupObserver sub (observers st)) as [[uri|uri fetching pending]|] eqn:Hl;
    try apply narrows_refl.
  destruct (lookupRequest request fetching) as [doc|]; [|apply narrows_refl].
  destruct o as [settings|e].
  - by eapply narrows_setObservers_update.
  - split; [apply shrink_remove|]. split; [done|simpl; lia].
Qed.

Lemma narrows_resume (id : nat) (a : Answer) (st : State) :
  narrows st (resume id a st).
Proof.
  unfold resume. destruct (lookupTask id (tasks st)) as [t|]; [|apply narrows_refl].
  destruct (resumeWith (task_cont t) a) as [m|]; [|apply narrows_refl].
  destruct (settle m _) as [m' st2] eqn:Hs.
  eapply narrows_trans; [|apply narrows_proceed].
  pose proof (narrows_settle m
    (setTasks (filter (λ t', task_id t' ≠ id) (tasks st)) st)) as H.
  rewrite Hs in H. eapply narrows_trans; [|exact H].
  split; [apply shrink_refl|]. split; [done|simpl; lia].
Qed.

Lemma narrows_deliverTo (id : nat) (doc : TextDocument) (st : State) :
  NoDup (observers st).*1 → narrows st (deliverTo id doc st).
Proof.
  intros Hnd. unfold deliverTo.
  destruct (lookupObserver id (observers st)) as [[uri|uri fetching pending]|] eqn:Hl;
    try apply narrows_refl.
  - destruct (String.eqb uri (doc_uri doc)); [|apply narrows_refl].
    split; [apply shrink_remove|]. split; [done|simpl; lia].
  - destruct (String.eqb uri (doc_uri doc)); [|apply narrows_refl].
    split; [simpl; by eapply shrink_update|]. split; [done|simpl; lia].
Qed.

Lemma narrows_deliverAll (ids : list nat) (doc : TextDocument) (st : State) :
  NoDup (observers st).*1 →
  narrows st (foldl (λ acc id, deliverTo id doc acc) st ids).
Proof.
  revert st. induction ids as [|id ids IH]; intros st Hnd; simpl; [apply narrows_refl|].
  eapply narrows_trans; [by apply narrows_deliverTo|].
  apply IH. eapply narrows_NoDup; [by apply narrows_deliverTo|done].
Qed.

Lemma tracks_subscribePipeline (doc : TextDocument) (st : State) :
  tracksPipelines st → validationByDoc st !! doc_uri doc = None →
  tracksPipelines (subscribePipeline doc st).
Proof.
  intros (Hreg & Hnd & Hfresh) Hnone. unfold subscribePipeline.
  set (pl := if DocumentSettings.isUriBlackListed (doc_uri doc)
             then Ignoring (doc_uri doc) else Validating (doc_uri doc) [] None).
  set (st1 := freshId (setObservers (observers st ++ [(nextId st, pl)]) st)).
  assert (Hpl : pipelineUri pl = doc_uri doc).
  { unfold pl. by destruct (DocumentSettings.isUriBlackListed _). }
  assert (Hnd1 : NoDup (observers st1).*1).
  { simpl. rewrite fmap_app. apply NoDup_app. split; [done|]. split.
    - intros id Hin Hlast. apply list_elem_of_singleton in Hlast. simpl in Hlast.
      specialize (Hfresh _ Hin). lia.
    - apply NoDup_singleton. }
  set (st2 := match replayBuffer st1 with
              | Some buffered => deliverTo (nextId st) buffered st1
              | None => st1
              end).
  assert (Hn : narrows st1 st2).
  { unfold st2. destruct (replayBuffer st1); [by apply narrows_deliverTo|apply narrows_refl]. }
  destruct Hn as ([Hsub Hel] & Hmap & Hnext).
  split; [|split]; simpl.
  - intros id p' Hin. destruct (Hel _ _ Hin) as (p & Hp & Hu).
    rewrite Hmap. simpl in Hp |- *. apply elem_of_app in Hp as [Hp|Hp].
    + pose proof (Hreg _ _ Hp) as Hr. rewrite <- Hu.
      rewrite lookup_insert_ne; [exact Hr|].
      intros Heq. rewrite <- Heq, Hnone in Hr. discriminate.
    + apply list_elem_of_singleton in Hp. injection Hp as -> ->.
      rewrite <- Hu, Hpl. apply lookup_insert_eq.
  - by eapply sublist_NoDup.
  - intros id Hin. eapply elem_of_sublist in Hin; [|exact Hsub].
    simpl in Hin, Hnext. rewrite fmap_app in Hin.
    apply elem_of_app in Hin as [Hin|Hin].
    + specialize (Hfresh _ Hin). lia.
    + apply list_elem_of_singleton in Hin. simpl in Hin. lia.
Qed.

Lemma tracks_streamNext (doc : TextDocument) (st : State) :
  tracksPipelines st → tracksPipelines (streamNext doc st).
Proof.
  intros Ht. unfold streamNext.
  set (st1 := setReplayBuffer (Some doc) st).
  assert (Ht1 : tracksPipelines st1) by exact Ht.
  match goal with |- tracksPipelines (foldl _ ?s2 _) =>
    assert (Ht2 : tracksPipelines s2) end.
  { destruct (disposableValidate st1); simpl; [|done].
    case_bool_decide; [|done]. by apply tracks_subscribePipeline. }
  eapply tracks_narrows; [exact Ht2|]. apply narrows_deliverAll. apply Ht2.
Qed.

Lemma tracks_streamAll (docs : list TextDocument) (st : State) :
  tracksPipelines st → tracksPipelines (foldl (λ acc doc, streamNext doc acc) st docs).
Proof.
  revert st. induction docs as [|doc docs IH]; intros st Ht; simpl; [done|].
  by apply IH, tracks_streamNext.
Qed.

Lemma tracks_onDidClose (doc : TextDocument) (st : State) :
  tracksPipelines st → tracksPipelines (onDidClose doc st).
Proof.
  intros (Hreg & Hnd & Hfresh). unfold onDidClose.
  destruct (validationByDoc st !! doc_uri doc) as [sub|] eqn:Hsub; [|done].
  split; [|split]; simpl.
  - intros id p [Hin Hne]%elem_of_removeObserver.
    pose proof (Hreg _ _ Hin) as Hr.
    rewrite lookup_delete_ne; [done|].
    intros Heq. rewrite <- Heq, Hsub in Hr. congruence.
  - eapply sublist_NoDup; [exact Hnd|apply removeObserver_ids].
  - intros id Hin. apply Hfresh. eapply elem_of_sublist; [exact Hin|apply removeObserver_ids].
Qed.

Lemma tracks_onShutdown (st : State) :
  tracksPipelines st → tracksPipelines (onShutdown st).
Proof.
  intros (Hreg & Hnd & Hfresh). unfold onShutdown.
  split; [|split]; simpl.
  - intros id p [Hin Hni]%elem_of_foldr_removeObserver.
    destruct Hni. apply list_elem_of_fmap. exists (pipelineUri p, id).
    split; [done|]. apply elem_of_map_to_list. by apply Hreg.
  - eapply sublist_NoDup; [exact Hnd|apply foldr_removeObserver_ids].
  - intros id Hin. apply Hfresh.
    eapply elem_of_sublist; [exact Hin|apply foldr_removeObserver_ids].
Qed.

Lemma tracks_step (e : Event) (st : State) :
  tracksPipelines st →
  tracksPipelines (step libraryDefaults constructSettingsForText completion e st).
Proof.
  intros Ht. destruct e as [doc|doc|doc|doc|docs|sub request o|sub|id a|]; simpl.
  - destruct (disposables st); [by apply tracks_streamNext|done].
  - destruct (disposables st); [|done]. exact Ht.
  - destruct (disposables st); [|done]. unfold onDidSave. by apply tracks_streamNext.
  - destruct (disposables st); [by apply tracks_onDidClose|done].
  - destruct (disposableTriggerValidateAll st); [by apply tracks_streamAll|done].
  - eapply tracks_narrows; [exact Ht|]. apply narrows_activeSettingsSettled, Ht.
  - eapply tracks_narrows; [exact Ht|]. apply narrows_timerFired, Ht.
  - eapply tracks_narrows; [exact Ht|]. apply narrows_resume.
  - by apply tracks_onShutdown.
Qed.

Lemma tracks_init : tracksPipelines init.
Proof.
  split; [|split]; simpl.
  - by intros id p ?%elem_of_nil.
  - constructor.
  - by intros id ?%elem_of_nil.
Qed.

(** Whatever the events, every open pipeline is the recorded one. *)
Lemma tracks_run (events : list Event) (st : State) :
  tracksPipelines st →
  tracksPipelines (run libraryDefaults constructSettingsForText completion events st).
Proof.
  revert st. induction events as [|e events IH]; intros st Ht; [done|].
  apply IH. by apply tracks_step.
Qed.

Lemma subscribesNone_refl (uri : string) (st : State) : subscribesNoneFor uri st st.
Proof. intros id p Hin Hu. by exists p. Qed.

Lemma subscribesNone_trans (uri : string) (a b c : State) :
  subscribesNoneFor uri a b → subscribesNoneFor uri b c → subscribesNoneFor uri a c.
Proof.
  intros H1 H2 id p Hin Hu. destruct (H2 _ _ Hin Hu) as (q & Hq & Hu').
  by apply (H1 _ _ Hq Hu').
Qed.

Lemma subscribesNone_narrows (uri : string) (st st' : State) :
  narrows st st' → subscribesNoneFor uri st st'.
Proof.
  intros ([_ Hel] & _) id p' Hin Hu. destruct (Hel _ _ Hin) as (p & Hp & Hup).
  exists p. split; [done|congruence].
Qed.

Lemma subscribesNone_shrink (uri : string) (st st' : State) :
  observersShrink (observers st) (observers st') → subscribesNoneFor uri st st'.
Proof.
  intros [_ Hel] id p' Hin Hu. destruct (Hel _ _ Hin) as (p & Hp & Hup).
  exists p. split; [done|congruence].
Qed.

(** A new pipeline is for the URI of the document that had no entry. *)
Lemma subscribesNone_subscribePipeline (uri : string) (doc : TextDocument) (st : State) :
  tracksPipelines st → doc_uri doc ≠ uri →
  subscribesNoneFor uri st (subscribePipeline doc st).
Proof.
  intros (Hreg & Hnd & Hfresh) Hne. unfold subscribePipeline.
  set (pl := if DocumentSettings.isUriBlackListed (doc_uri doc)
             then Ignoring (doc_uri doc) else Validating (doc_uri doc) [] None).
  set (st1 := freshId (setObservers (observers st ++ [(nextId st, pl)]) st)).
  assert (Hpl : pipelineUri pl = doc_uri doc).
  { unfold pl. by destruct (DocumentSettings.isUriBlackListed _). }
  assert (Hnd1 : NoDup (observers st1).*1).
  { simpl. rewrite fmap_app. apply NoDup_app. split; [done|]. split.
    - intros id Hin Hlast. apply list_elem_of_singleton in Hlast. simpl in Hlast.
      specialize (Hfresh _ Hin). lia.
    - apply NoDup_singleton. }
  set (st2 := match replayBuffer st1 with
              | Some buffered => deliverTo (nextId st) buffered st1
              | None => st1
              end).
  assert (Hn : narrows st1 st2).
  { unfold st2. destruct (replayBuffer st1); [by apply narrows_deliverTo|apply narrows_refl]. }
  destruct Hn as ([_ Hel] & _ & _).
  intros id p' Hin Hu. simpl in Hin.
  destruct (Hel _ _ Hin) as (p & Hp & Hup). simpl in Hp.
  apply elem_of_app in Hp as [Hp|Hp].
  - exists p. split; [done|congruence].
  - apply list_elem_of_singleton in Hp. injection Hp as -> ->. congruence.
Qed.

Lemma deliverTo_map (id : nat) (doc : TextDocument) (st : State) :
  validationByDoc (deliverTo id doc st) = validationByDoc st.
Proof.
  unfold deliverTo.
  destruct (lookupObserver id (observers st)) as [[?|? ? ?]|]; try done;
    by destruct (String.eqb _ _).
Qed.

Lemma subscribePipeline_map (doc : TextDocument) (st : State) :
  validationByDoc (subscribePipeline doc st)
  = <[doc_uri doc := nextId st]> (validationByDoc st).
Proof.
  unfold subscribePipeline. simpl.
  destruct (replayBuffer st); [by rewrite deliverTo_map|done].
Qed.

(** The stream adds entries to [validationByDoc] and removes none. *)
Lemma streamNext_keeps_entries (uri : string) (doc : TextDocument) (st : State) :
  tracksPipelines st →
  is_Some (validationByDoc st !! uri) →
  is_Some (validationByDoc (streamNext doc st) !! uri).
Proof.
  intros Ht Hs. unfold streamNext.
  set (st1 := setReplayBuffer (Some doc) st).
  assert (Ht1 : tracksPipelines st1) by exact Ht.
  match goal with |- context [foldl _ ?s2 _] =>
    assert (H2 : tracksPipelines s2 ∧ is_Some (validationByDoc s2 !! uri)) end.
  { destruct (disposableValidate st1); simpl; [|done].
    case_bool_decide as Hnone; [|done].
    split; [by apply tracks_subscribePipeline|].
    rewrite subscribePipeline_map. simpl.
    destruct (decide (doc_uri doc = uri)) as [->|Hne].
    - rewrite lookup_insert_eq. by eexists.
    - by rewrite lookup_insert_ne. }
  destruct H2 as [Ht2 Hs2].
  match goal with |- context [foldl ?f ?s2 ?ids] =>
    destruct (narrows_deliverAll ids doc s2 (proj1 (proj2 Ht2))) as (_ & -> & _) end.
  exact Hs2.
Qed.

Lemma subscribesNone_streamNext (uri : string) (doc : TextDocument) (st : State) :
  tracksPipelines st →
  is_Some (validationByDoc st !! uri) →
  subscribesNoneFor uri st (streamNext doc st).
Proof.
  intros Ht Hs. unfold streamNext.
  set (st1 := setReplayBuffer (Some doc) st).
  assert (Ht1 : tracksPipelines st1) by exact Ht.
  match goal with |- subscribesNoneFor _ _ (foldl _ ?s2 _) =>
    assert (H2 : tracksPipelines s2 ∧ subscribesNoneFor uri st s2) end.
  { assert (Hst1 : subscribesNoneFor uri st st1).
    { intros id p Hin Hu. by exists p. }
    destruct (disposableValidate st1); simpl; [|split; [done|exact Hst1]].
    case_bool_decide as Hnone; [|split; [done|exact Hst1]].
    split; [by apply tracks_subscribePipeline|].
    apply (subscribesNone_subscribePipeline uri doc st1 Ht1).
    intros Heq. rewrite Heq in Hnone. simpl in Hnone. rewrite Hnone in Hs.
    by destruct Hs. }
  destruct H2 as [Ht2 Hn2].
  eapply subscribesNone_trans; [exact Hn2|].
  apply subscribesNone_narrows, narrows_deliverAll, Ht2.
Qed.

Lemma subscribesNone_streamAll (uri : string) (docs : list TextDocument) (st : State) :
  tracksPipelines st →
  is_Some (validationByDoc st !! uri) →
  subscribesNoneFor uri st (foldl (λ acc doc, streamNext doc acc) st docs).
Proof.
  revert st. induction docs as [|doc docs IH]; intros st Ht Hs; simpl.
  - apply subscribesNone_refl.
  - eapply subscribesNone_trans; [by apply subscribesNone_streamNext|].
    apply IH; [by apply tracks_streamNext|by apply streamNext_keeps_entries].
Qed.

(** While [validationByDoc] has an entry for a URI, no event subscribes
    a pipeline for it. *)
Lemma subscribesNone_step (uri : string) (e : Event) (st : State) :
  tracksPipelines st →
  is_Some (validationByDoc st !! uri) →
  subscribesNoneFor uri st
    (step libraryDefaults constructSettingsForText completion e st).
Proof.
  intros Ht Hs. destruct e as [doc|doc|doc|doc|docs|sub request o|sub|id a|]; simpl.
  - destruct (disposables st); [by apply subscribesNone_streamNext|apply subscribesNone_refl].
  - destruct (disposables st); [|apply subscribesNone_refl].
    apply subscribesNone_shrink. simpl. apply shrink_refl.
  - destruct (disposables st); [|apply subscribesNone_refl].
    unfold onDidSave.
    eapply subscribesNone_trans; [|by apply subscribesNone_streamNext].
    apply subscribesNone_shrink. simpl. apply shrink_refl.
  - destruct (disposables st); [|apply subscribesNone_refl].
    unfold onDidClose. apply subscribesNone_shrink.
    destruct (validationByDoc st !! doc_uri doc); simpl;
      [apply shrink_remove|apply shrink_refl].
  - destruct (disposableTriggerValidateAll st); [|apply subscribesNone_refl].
    eapply subscribesNone_trans; [|by apply subscribesNone_streamAll].
    apply subscribesNone_shrink. simpl. apply shrink_refl.
  - apply subscribesNone_narrows, narrows_activeSettingsSettled, Ht.
  - apply subscribesNone_narrows, narrows_timerFired, Ht.
  - apply subscribesNone_narrows, narrows_resume.
  - apply subscribesNone_shrink. unfold onShutdown. simpl.
    split; [apply foldr_removeObserver_ids|].
    intros id p [Hin _]%elem_of_foldr_removeObserver. by exists p.
Qed.

Lemma length_le_1_of_equal (l : list nat) :
  NoDup l → (∀ x y, x ∈ l → y ∈ l → x = y) → (length l ≤ 1)%nat.
Proof.
  intros Hnd Hc. destruct l as [|x [|y l]]; simpl; [lia|lia|].
  apply NoDup_cons in Hnd as [Hni _]. destruct Hni.
  rewrite (Hc x y); [apply elem_of_cons; by left|apply elem_of_cons; by left|].
  apply elem_of_cons. right. apply elem_of_cons. by left.
Qed.

(** C8. Whatever events arrive, and however many changes of one
    document among them, the stream has at most one open pipeline per
    URI, and it is the one [validationByDoc] records; while the map has
    an entry for a URI no event subscribes another pipeline for it. *)
Theorem one_pipeline_per_uri (events : list Event) (uri : string) :
  let st := run libraryDefaults constructSettingsForText completion events init in
  (length (pipelinesFor uri st) ≤ 1)%nat
  ∧ (∀ id p, (id, p) ∈ pipelinesFor uri st → validationByDoc st !! uri = Some id)
  ∧ (∀ e, is_Some (validationByDoc st !! uri) →
       subscribesNoneFor uri st
         (step libraryDefaults constructSettingsForText completion e st)).
Proof.
  intros st.
  assert (Ht : tracksPipelines st) by apply tracks_run, tracks_init.
  assert (Hrec : ∀ id p, (id, p) ∈ pipelinesFor uri st →
                         validationByDoc st !! uri = Some id).
  { intros id p [Hu Hin]%list_elem_of_filter. simpl in Hu. rewrite <- Hu.
    by apply Ht. }
  split; [|split; [exact Hrec|]].
  - rewrite <- (length_fmap fst). apply length_le_1_of_equal.
    + eapply sublist_NoDup; [apply Ht|].
      unfold pipelinesFor. apply fmap_sublist, sublist_filter.
    + intros x y ([i p] & -> & Hx)%list_elem_of_fmap ([j q] & -> & Hy)%list_elem_of_fmap.
      simpl. pose proof (Hrec _ _ Hx). pose proof (Hrec _ _ Hy). congruence.
  - intros e Hs. by apply subscribesNone_step.
Qed.

End Tracking.

(** ** Blacklisted documents are never validated *)

Section BlackList.

Import CSpell Server.

Local Open Scope async_scope.

Variable libraryDefaults : Settings.
Variable constructSettingsForText : Settings → string → string → Outcome Settings.
Variable completion : DurationCompletion.

Lemma concerns_abind {A B} (uri : string) (m : Async A) (f : A → Async B) :
  concerns uri m → (∀ a, concerns uri (f a)) → concerns uri (abind m f).
Proof.
  intros Hm Hf. induction m as [a|e|l k IH|b k IH|u k IH|u k IH|doc s k IH]; simpl in *;
    try done; try (by apply IH); try (intros o; by apply IH).
  - destruct Hm as [Hl Hk]. split; [done|by apply IH].
  - destruct Hm as [Hd Hk]. split; [done|]. intros o. by apply IH.
Qed.

Lemma concerns_tryCatch {A} (uri : string) (m : Async A) (h : Exn → Async A) :
  concerns uri m → (∀ e, concerns uri (h e)) → concerns uri (tryCatch m h).
Proof.
  intros Hm Hh. induction m as [a|e|l k IH|b k IH|u k IH|u k IH|doc s k IH]; simpl in *;
    try done; try (by apply IH); try (intros o; by apply IH).
  - destruct Hm as [Hl Hk]. split; [done|by apply IH].
  - destruct Hm as [Hd Hk]. split; [done|]. intros o. by apply IH.
Qed.

Lemma concerns_settled {T} (uri : string) (o : Outcome T) : concerns uri (settled o).
Proof. by destruct o. Qed.

(** [validateTextDocument] hands the analyzer the document of its pair,
    and logs the start of its validation only. *)
Lemma concerns_validateTextDocument (dsp : DocSettingPair) :
  concerns (doc_uri (dsp_doc dsp))
    (validateTextDocument libraryDefaults constructSettingsForText dsp).
Proof.
  unfold validateTextDocument, validate. simpl.
  apply concerns_abind; [|done].
  apply concerns_abind; [|by intros [r|]].
  apply concerns_tryCatch; [|by intros e].
  unfold validateBody.
  destruct (negb (DocumentSettings.isUriAllowed _ _)); [done|].
  apply concerns_abind.
  { unfold shouldValidateDocument.
    destruct (negb (truthy _)); [done|]. destruct (negb (isLanguageEnabled _ _)); [done|].
    simpl. intros o. by destruct o. }
  intros shouldCheck. destruct (negb shouldCheck); [done|].
  apply concerns_abind.
  { unfold getSettingsToUseForDocument, getBaseSettings, getActiveSettings. simpl.
    intros o. destruct o; simpl; [apply concerns_settled|done]. }
  intros settingsToUse. destruct (truthy _); [|done].
  simpl. split; [done|]. split; [intros v u Heq; congruence|].
  split; [done|]. intros o. destruct o; simpl; [|done]. by split.
Qed.

Lemma concerns_resumeWith (uri : string) (m m' : Async ValidationResult) (a : Answer) :
  concerns uri m → resumeWith m a = Some m' → concerns uri m'.
Proof.
  destruct m, a; simpl; intros Hm [= <-]; try done. by destruct Hm.
Qed.

Lemma spares_emit (o : Output) (st : State) :
  sparesBlackListed st →
  (∀ doc, o = Invoked doc → DocumentSettings.isUriBlackListed (doc_uri doc) = false) →
  (∀ v uri, o = OutLog (LogValidateStart v uri) →
     DocumentSettings.isUriBlackListed uri = false) →
  sparesBlackListed (emit o st).
Proof.
  intros (H1 & H2 & H3 & H4) Hi Hv. split; [done|]. split; [done|]. simpl. split.
  - intros doc [Hin|Heq%list_elem_of_singleton]%elem_of_app; [by apply H3|by apply Hi].
  - intros v uri [Hin|Heq%list_elem_of_singleton]%elem_of_app; [by eapply H4|by eapply Hv].
Qed.

Lemma spares_setObservers (obs : list (nat * Pipeline)) (st : State) :
  sparesBlackListed st →
  (∀ id p, (id, p) ∈ obs → wellFormedPipeline p) →
  sparesBlackListed (setObservers obs st).
Proof. intros (H1 & H2 & H3 & H4) Ho. by split. Qed.

Lemma spares_remove (id : nat) (st : State) :
  sparesBlackListed st →
  sparesBlackListed (setObservers (removeObserver id (observers st)) st).
Proof.
  intros Hs. apply spares_setObservers; [done|].
  intros i p [Hin _]%elem_of_removeObserver. by eapply Hs.
Qed.

Lemma spares_update (id : nat) (p : Pipeline) (st : State) :
  sparesBlackListed st → wellFormedPipeline p →
  sparesBlackListed (setObservers (updateObserver id p (observers st)) st).
Proof.
  intros Hs Hp. apply spares_setObservers; [done|].
  intros i q [(_ & -> & _)|[_ Hin]]%elem_of_updateObserver; [done|by eapply Hs].
Qed.

Lemma spares_settle (uri : string) (m : Async ValidationResult) (st : State) :
  sparesBlackListed st → concerns uri m →
  DocumentSettings.isUriBlackListed uri = false →
  sparesBlackListed (snd (settle m st)) ∧ concerns uri (fst (settle m st)).
Proof.
  intros Hs Hm Hb. revert st Hs.
  induction m as [a|e|l k IH|b k IH|u k IH|u k IH|doc s k IH]; intros st Hs; simpl in *;
    try done.
  - destruct Hm as [Hl Hk]. apply IH; [done|].
    apply spares_emit; [done|done|]. intros v u' [= ->]. by rewrite (Hl v u').
  - apply IH; [done|]. destruct Hs as (H1 & H2 & H3 & H4). by split.
Qed.

Lemma spares_proceed (sub id : nat) (doc : TextDocument)
    (m : Async ValidationResult) (st : State) :
  sparesBlackListed st →
  DocumentSettings.isUriBlackListed (doc_uri doc) = false →
  concerns (doc_uri doc) m →
  sparesBlackListed (proceed sub id doc m st).
Proof.
  intros Hs Hb Hm.
  assert (Hadd : sparesBlackListed (setTasks (tasks st ++ [mkTask id sub doc m]) st)).
  { destruct Hs as (H1 & H2 & H3 & H4). split; [done|]. split; [|done]. simpl.
    intros t [Hin|Heq%list_elem_of_singleton]%elem_of_app; [by apply H2|by subst]. }
  unfold proceed. destruct m; try exact Hadd; case_bool_decide; try done.
  - by apply spares_emit.
  - apply spares_emit; [by apply spares_remove|done|done].
Qed.

Lemma spares_startValidation (sub : nat) (dsp : DocSettingPair) (st : State) :
  sparesBlackListed st →
  DocumentSettings.isUriBlackListed (doc_uri (dsp_doc dsp)) = false →
  sparesBlackListed (startValidation libraryDefaults constructSettingsForText sub dsp st).
Proof.
  intros Hs Hb. unfold startValidation.
  destruct (settle _ _) as [m st2] eqn:Hse.
  assert (H1 : sparesBlackListed (freshId (emit (Invoked (dsp_doc dsp)) st))).
  { pose proof (spares_emit (Invoked (dsp_doc dsp)) st Hs) as He.
    destruct He as (A & B & C & D); [by intros doc [= <-]|done|]. by split. }
  destruct (spares_settle _ _ _ H1 (concerns_validateTextDocument dsp) Hb) as [H2 H3].
  rewrite Hse in H2, H3. simpl in H2, H3. by apply spares_proceed.
Qed.

Lemma spares_release (sub : nat) (dsp : DocSettingPair) (st : State) :
  sparesBlackListed st →
  DocumentSettings.isUriBlackListed (doc_uri (dsp_doc dsp)) = false →
  sparesBlackListed (release libraryDefaults constructSettingsForText sub dsp st).
Proof.
  intros Hs Hb. unfold release.
  assert (H1 : sparesBlackListed
    (emit (OutLog (LogBlocked
       (bool_decide (is_Some (blockValidation st !! doc_uri (dsp_doc dsp))))
       (doc_uri (dsp_doc dsp)))) st)) by by apply spares_emit.
  case_bool_decide; [done|]. by apply spares_startValidation.
Qed.

Lemma spares_timerFired (sub : nat) (st : State) :
  sparesBlackListed st →
  sparesBlackListed (timerFired libraryDefaults constructSettingsForText completion sub st).
Proof.
  intros Hs. unfold timerFired.
  destruct (lookupObserver sub (observers st)) as [[uri|uri fetching [[dsp delay]|]]|] eqn:Hl;
    try done.
  apply lookupObserver_elem_of in Hl.
  destruct (proj1 Hs _ _ Hl) as (Hb & Hf & Hp).
  assert (Hd : doc_uri (dsp_doc dsp) = uri) by by eapply Hp.
  assert (H1 : sparesBlackListed
    (setObservers (updateObserver sub (Validating uri fetching None) (observers st)) st)).
  { apply spares_update; [done|]. split; [done|]. split; [done|]. by intros ? ? [=]. }
  destruct (negb (isValidationBusy st)).
  - apply spares_release; [done|]. by rewrite Hd.
  - destruct completion; [|done]. apply spares_release; [done|]. by rewrite Hd.
Qed.

Lemma lookupRequest_elem_of (request : nat) (fetching : list (nat * TextDocument))
    (doc : TextDocument) :
  lookupRequest request fetching = Some doc → (request, doc) ∈ fetching.
Proof.
  induction fetching as [|[r d] fetching IH]; simpl; [done|].
  destruct (Nat.eqb_spec r request) as [->|Hne].
  - intros [= ->]. apply elem_of_cons. by left.
  - intros H. apply elem_of_cons. right. by apply IH.
Qed.

Lemma spares_activeSettingsSettled (sub request : nat) (o : Outcome Settings) (st : State) :
  sparesBlackListed st → sparesBlackListed (activeSettingsSettled sub request o st).
Proof.
  intros Hs. unfold activeSettingsSettled.
  destruct (lookupObserver sub (observers st)) as [[uri|uri fetching pending]|] eqn:Hl;
    try done.
  destruct (lookupRequest request fetching) as [doc|] eqn:Hr; [|done].
  apply lookupObserver_elem_of in Hl. apply lookupRequest_elem_of in Hr.
  destruct (proj1 Hs _ _ Hl) as (Hb & Hf & Hp).
  destruct o as [settings|e].
  - apply spares_update; [done|]. split; [done|]. split.
    + intros r d [_ Hin]%list_elem_of_filter. by eapply Hf.
    + intros dsp delay [= <- _]. simpl. by eapply Hf.
  - apply spares_emit; [by apply spares_remove|done|done].
Qed.

Lemma lookupTask_elem_of (id : nat) (ts : list Task) (t : Task) :
  lookupTask id ts = Some t → t ∈ ts.
Proof.
  induction ts as [|t0 ts IH]; simpl; [done|].
  destruct (Nat.eqb_spec (task_id t0) id) as [Heq|Hne].
  - intros [= ->]. apply elem_of_cons. by left.
  - intros H. apply elem_of_cons. right. by apply IH.
Qed.

Lemma spares_resume (id : nat) (a : Answer) (st : State) :
  sparesBlackListed st → sparesBlackListed (resume id a st).
Proof.
  intros Hs. unfold resume.
  destruct (lookupTask id (tasks st)) as [t|] eqn:Hl; [|done].
  destruct (resumeWith (task_cont t) a) as [m|] eqn:Hr; [|done].
  apply lookupTask_elem_of in Hl.
  destruct (proj1 (proj2 Hs) _ Hl) as [Hb Hc].
  pose proof (concerns_resumeWith _ _ _ _ Hc Hr) as Hm.
  destruct (settle m _) as [m' st2] eqn:Hse.
  assert (H1 : sparesBlackListed
    (setTasks (filter (λ t', task_id t' ≠ id) (tasks st)) st)).
  { destruct Hs as (A & B & C & D). split; [done|]. split; [|done]. simpl.
    intros t' [_ Hin]%list_elem_of_filter. by apply B. }
  destruct (spares_settle _ _ _ H1 Hm Hb) as [H2 H3].
  rewrite Hse in H2, H3. simpl in H2, H3. by apply spares_proceed.
Qed.

Lemma spares_deliverTo (id : nat) (doc : TextDocument) (st : State) :
  sparesBlackListed st → sparesBlackListed (deliverTo id doc st).
Proof.
  intros Hs. unfold deliverTo.
  destruct (lookupObserver id (observers st)) as [[uri|uri fetching pending]|] eqn:Hl;
    try done.
  - destruct (String.eqb uri (doc_uri doc)); [|done].
    apply spares_emit; [by apply spares_remove|done|done].
  - destruct (String.eqb_spec uri (doc_uri doc)) as [Heq|Hne]; [|done].
    apply lookupObserver_elem_of in Hl.
    destruct (proj1 Hs _ _ Hl) as (Hb & Hf & Hp).
    assert (H1 : sparesBlackListed
      (emit (OutLog (LogRequestValidate (doc_version doc) (doc_uri doc))) st))
      by by apply spares_emit.
    match goal with |- sparesBlackListed (freshId ?s) =>
      assert (H2 : sparesBlackListed s) end.
    { apply (spares_update id _ _ H1). split; [done|]. split; [|done].
      intros r d [Hin|Hlast%list_elem_of_singleton]%elem_of_app; [by eapply Hf|].
      by injection Hlast as -> ->. }
    destruct H2 as (A & B & C & D). by split.
Qed.

Lemma spares_subscribePipeline (doc : TextDocument) (st : State) :
  sparesBlackListed st → sparesBlackListed (subscribePipeline doc st).
Proof.
  intros Hs. unfold subscribePipeline.
  set (pl := if DocumentSettings.isUriBlackListed (doc_uri doc)
             then Ignoring (doc_uri doc) else Validating (doc_uri doc) [] None).
  set (st1 := freshId (setObservers (observers st ++ [(nextId st, pl)]) st)).
  assert (H1 : sparesBlackListed st1).
  { destruct Hs as (A & B & C & D). split; [|by split]. simpl.
    intros id p [Hin|Hlast%list_elem_of_singleton]%elem_of_app; [by eapply A|].
    injection Hlast as -> ->.
    unfold pl. destruct (DocumentSettings.isUriBlackListed (doc_uri doc)) eqn:Hb; [done|].
    split; [done|]. split; [by intros ? ? ?%elem_of_nil|by intros ? ? [=]]. }
  match goal with |- sparesBlackListed (setValidationByDoc _ ?s2) =>
    assert (H2 : sparesBlackListed s2) end.
  { destruct (replayBuffer st1); [by apply spares_deliverTo|done]. }
  destruct H2 as (A & B & C & D). by split.
Qed.

Lemma spares_deliverAll (ids : list nat) (doc : TextDocument) (st : State) :
  sparesBlackListed st → sparesBlackListed (foldl (λ acc id, deliverTo id doc acc) st ids).
Proof.
  revert st. induction ids as [|id ids IH]; intros st Hs; simpl; [done|].
  by apply IH, spares_deliverTo.
Qed.

Lemma spares_streamNext (doc : TextDocument) (st : State) :
  sparesBlackListed st → sparesBlackListed (streamNext doc st).
Proof.
  intros Hs. unfold streamNext. apply spares_deliverAll.
  assert (H1 : sparesBlackListed (setReplayBuffer (Some doc) st)).
  { destruct Hs as (A & B & C & D). by split. }
  destruct (disposableValidate _ && _); [by apply spares_subscribePipeline|done].
Qed.

Lemma spares_streamAll (docs : list TextDocument) (st : State) :
  sparesBlackListed st →
  sparesBlackListed (foldl (λ acc doc, streamNext doc acc) st docs).
Proof.
  revert st. induction docs as [|doc docs IH]; intros st Hs; simpl; [done|].
  by apply IH, spares_streamNext.
Qed.

Lemma spares_step (e : Event) (st : State) :
  sparesBlackListed st →
  sparesBlackListed (step libraryDefaults constructSettingsForText completion e st).
Proof.
  intros Hs. destruct e as [doc|doc|doc|doc|docs|sub request o|sub|id a|]; simpl.
  - destruct (disposables st); [by apply spares_streamNext|done].
  - destruct (disposables st); [|done]. unfold onWillSave.
    pose proof (spares_emit (OutLog (LogWillSave (doc_version doc) (doc_uri doc))) st Hs)
      as (A & B & C & D); [done|done|]. by split.
  - destruct (disposables st); [|done]. unfold onDidSave. apply spares_streamNext.
    pose proof (spares_emit (OutLog (LogDidSave (doc_version doc) (doc_uri doc))) st Hs)
      as (A & B & C & D); [done|done|]. by split.
  - destruct (disposables st); [|done]. unfold onDidClose.
    apply spares_emit; [|done|done].
    destruct (validationByDoc st !! doc_uri doc); [|done].
    apply (spares_remove _ (setValidationByDoc _ st)).
    destruct Hs as (A & B & C & D). by split.
  - destruct (disposableTriggerValidateAll st); [|done].
    apply spares_streamAll. by apply spares_emit.
  - by apply spares_activeSettingsSettled.
  - by apply spares_timerFired.
  - by apply spares_resume.
  - unfold onShutdown. apply spares_setObservers.
    + destruct Hs as (A & B & C & D). by split.
    + simpl. intros id p [Hin _]%elem_of_foldr_removeObserver. by eapply Hs.
Qed.

Lemma spares_init : sparesBlackListed init.
Proof.
  split; [by intros ? ? ?%elem_of_nil|]. split; [by intros ? ?%elem_of_nil|].
  split; [by intros ? ?%elem_of_nil|by intros ? ? ?%elem_of_nil].
Qed.

Lemma spares_run (events : list Event) (st : State) :
  sparesBlackListed st →
  sparesBlackListed (run libraryDefaults constructSettingsForText completion events st).
Proof.
  revert st. induction events as [|e events IH]; intros st Hs; [done|].
  apply IH. by apply spares_step.
Qed.

Lemma filter_nil_of_none {A} (P : A → Prop) `{∀ x, Decision (P x)} (l : list A) :
  (∀ x, x ∈ l → ¬ P x) → filter P l = [].
Proof.
  induction l as [|x l IH]; intros Hn; [done|].
  rewrite filter_cons. destruct (decide (P x)) as [HP|_].
  - destruct (Hn x); [apply elem_of_cons; by left|done].
  - apply IH. intros y Hy. apply Hn, elem_of_cons. by right.
Qed.

Lemma isUriBlackListed_scheme (uri : string) :
  Uri.scheme uri ∈ DocumentSettings.schemeBlackList →
  DocumentSettings.isUriBlackListed uri = true.
Proof.
  unfold DocumentSettings.isUriBlackListed, DocumentSettings.doesUriMatchAnyScheme,
    DocumentSettings.schemeBlackList.
  intros Hin. repeat (apply elem_of_cons in Hin as [->|Hin]; [reflexivity|]).
  by apply elem_of_nil in Hin.
Qed.

Lemma lookupObserver_app_fresh (id : nat) (p : Pipeline) (obs : list (nat * Pipeline)) :
  id ∉ obs.*1 → lookupObserver id (obs ++ [(id, p)]) = Some p.
Proof.
  induction obs as [|[i q] obs IH]; simpl; intros Hni.
  - by rewrite Nat.eqb_refl.
  - apply not_elem_of_cons in Hni as [Hne Hni]. simpl in Hne.
    destruct (Nat.eqb_spec i id); [congruence|]. by apply IH.
Qed.

Lemma removeObserver_app_fresh (id : nat) (p : Pipeline) (obs : list (nat * Pipeline)) :
  id ∉ obs.*1 → removeObserver id (obs ++ [(id, p)]) = obs.
Proof.
  unfold removeObserver. induction obs as [|[i q] obs IH]; intros Hni.
  - simpl. rewrite filter_cons. simpl. destruct (decide (id ≠ id)); done.
  - apply not_elem_of_cons in Hni as [Hne Hni]. simpl in Hne.
    change ((((i, q) :: obs) ++ [(id, p)])%list)
      with ((i, q) :: (obs ++ [(id, p)])%list).
    rewrite filter_cons. simpl.
    destruct (decide (i ≠ id)) as [_|Hn]; [|destruct Hn; congruence].
    f_equal. by apply IH.
Qed.

(** A subscriber for another URI lets the document pass. *)
Lemma deliverTo_other_uri (id : nat) (doc : TextDocument) (st : State) :
  (∀ p, lookupObserver id (observers st) = Some p → pipelineUri p ≠ doc_uri doc) →
  deliverTo id doc st = st.
Proof.
  intros Hother. unfold deliverTo.
  destruct (lookupObserver id (observers st)) as [[u|u fetching pending]|]; [| |done];
    (destruct (String.eqb_spec u (doc_uri doc)) as [Heq|Hne]; [|done]);
    by destruct (Hother _ eq_refl).
Qed.

Lemma deliverAll_other_uri (ids : list nat) (doc : TextDocument) (st : State) :
  (∀ id p, (id, p) ∈ observers st → pipelineUri p ≠ doc_uri doc) →
  foldl (λ acc id, deliverTo id doc acc) st ids = st.
Proof.
  intros Hother. induction ids as [|id ids IH]; simpl; [done|].
  rewrite deliverTo_other_uri; [done|].
  intros p Hl. eapply Hother. by apply lookupObserver_elem_of.
Qed.

(** The first document of a blacklisted URI: a pipeline is subscribed
    and recorded, takes the document, logs it as ignored and completes. *)
Lemma first_blacklisted_document_is_ignored (doc : TextDocument) (st : State) :
  tracksPipelines st →
  DocumentSettings.isUriBlackListed (doc_uri doc) = true →
  disposableValidate st = true →
  validationByDoc st !! doc_uri doc = None →
  let st' := streamNext doc st in
  validationByDoc st' = <[doc_uri doc := nextId st]> (validationByDoc st)
  ∧ observers st' = observers st
  ∧ out st' = (out st ++ [OutLog (LogIgnoring (doc_uri doc))])%list.
Proof.
  intros (Hreg & Hnd & Hfresh) Hb Hv Hnone.
  assert (Hni : nextId st ∉ (observers st).*1).
  { intros Hin. specialize (Hfresh _ Hin). lia. }
  unfold streamNext. simpl. rewrite Hv, bool_decide_eq_true_2 by done. simpl.
  assert (Hsub : subscribePipeline doc (setReplayBuffer (Some doc) st)
    = setValidationByDoc (<[doc_uri doc := nextId st]> (validationByDoc st))
        (emit (OutLog (LogIgnoring (doc_uri doc)))
           (freshId (setReplayBuffer (Some doc) st)))).
  { unfold subscribePipeline. simpl. rewrite Hb. unfold deliverTo. simpl.
    rewrite lookupObserver_app_fresh by done. rewrite String.eqb_refl. simpl.
    by rewrite removeObserver_app_fresh. }
  rewrite Hsub, deliverAll_other_uri; [done|].
  simpl. intros id p Hin Heq. specialize (Hreg _ _ Hin). rewrite Heq, Hnone in Hreg.
  discriminate.
Qed.

(** C5. A document whose URI has a scheme of the block list ([git],
    [output], [debug], [vscode]) is never validated, whatever events
    arrive and however many of them are changes of this document: no
    call of [validateTextDocument] is made for it, no call waits for an
    answer, no analyzer call is made or in flight, and the only pipeline
    the stream ever has for the URI is the one that ignores. The first
    change of the document, when the URI has no entry in
    [validationByDoc], subscribes this pipeline and records it; the
    pipeline logs the document as ignored and completes, and the entry
    keeps every later change from subscribing anything. *)
Theorem blacklisted_never_validated (events : list Event) (uri : string) :
  Uri.scheme uri ∈ DocumentSettings.schemeBlackList →
  let st := run libraryDefaults constructSettingsForText completion events init in
  DocumentSettings.isUriBlackListed uri = true
  ∧ invocationsFor uri st = []
  ∧ analyzerCallsFor uri st = []
  ∧ (∀ t, t ∈ tasks st → doc_uri (task_doc t) ≠ uri)
  ∧ (∀ doc, doc ∈ analyzing st → doc_uri doc ≠ uri)
  ∧ (∀ id p, (id, p) ∈ pipelinesFor uri st → p = Ignoring uri)
  ∧ (∀ doc, doc_uri doc = uri →
       disposables st = true → disposableValidate st = true →
       validationByDoc st !! uri = None →
       let st' := step libraryDefaults constructSettingsForText completion
                    (DidChangeContent doc) st in
       is_Some (validationByDoc st' !! uri)
       ∧ observers st' = observers st
       ∧ out st' = (out st ++ [OutLog (LogIgnoring uri)])%list).
Proof.
  intros Hscheme st.
  assert (Hb : DocumentSettings.isUriBlackListed uri = true)
    by by apply isUriBlackListed_scheme.
  assert (Hs : sparesBlackListed st) by apply spares_run, spares_init.
  destruct Hs as (Hobs & Htasks & Hinv & Hstart).
  split; [exact Hb|]. split; [|split; [|split; [|split; [|split]]]].
  - apply filter_nil_of_none. intros [l|r|doc|e] Hin; simpl; try done.
    intros Heq%String.eqb_eq. specialize (Hinv _ Hin). congruence.
  - apply filter_nil_of_none. intros [[]|r|doc|e] Hin; simpl; try done.
    intros Heq%String.eqb_eq. specialize (Hstart _ _ Hin). congruence.
  - intros t Hin Heq. destruct (Htasks _ Hin) as [Hnb _]. congruence.
  - intros doc (t & Hin & Han)%list_elem_of_omap Heq.
    destruct (Htasks _ Hin) as [Hnb Hc]. unfold analyzedBy in Han.
    destruct (task_cont t); try done. injection Han as ->.
    destruct Hc as [Hd _]. congruence.
  - intros id p [Hu Hin]%list_elem_of_filter. simpl in Hu.
    specialize (Hobs _ _ Hin). destruct p as [u|u f pend]; simpl in *; [by subst|].
    destruct Hobs as [Hnb _]. congruence.
  - intros doc Hdoc Hlisten Hsubscribed Hnone st'. unfold st'. simpl.
    rewrite Hlisten. subst uri.
    destruct (first_blacklisted_document_is_ignored doc st) as (Hm & Ho & Hout);
      [apply tracks_run, tracks_init|done|done|done|].
    split; [|by split]. rewrite Hm, lookup_insert_eq. by eexists.
Qed.

End BlackList.

Section BlackListExamples.

Import CSpell Server.

(** Three changes of a [git:] document: one pipeline is recorded, the
    first change is logged as ignored, nothing is validated. *)
Lemma blacklisted_never_validated_example :
  let st := run ∅ plainText EmitsPending
              [DidChangeContent docGit; DidChangeContent docGit; DidChangeContent docGit]
              init in
  Uri.scheme "git:/w/a.txt" ∈ DocumentSettings.schemeBlackList
  ∧ invocationsFor "git:/w/a.txt" st = []
  ∧ analyzerCallsFor "git:/w/a.txt" st = []
  ∧ validationByDoc st !! "git:/w/a.txt" = Some 0%nat
  ∧ out st = [OutLog (LogIgnoring "git:/w/a.txt")].
Proof.
  assert (Hs : Uri.scheme "git:/w/a.txt" ∈ DocumentSettings.schemeBlackList).
  { vm_compute. apply elem_of_cons. by left. }
  destruct (blacklisted_never_validated ∅ plainText EmitsPending
              [DidChangeContent docGit; DidChangeContent docGit; DidChangeContent docGit]
              "git:/w/a.txt" Hs) as (_ & Hi & Ha & _).
  simpl. split; [exact Hs|]. split; [exact Hi|]. split; [exact Ha|].
  split; vm_compute; reflexivity.
Defined.

End BlackListExamples.

(** ** The save blackout *)

Section Blackout.

Import CSpell Server.

Variable libraryDefaults : Settings.
Variable constructSettingsForText : Settings → string → string → Outcome Settings.
Variable completion : DurationCompletion.

Lemma quiet_refl (uri : string) (st : State) : quietFor uri st st.
Proof. by split. Qed.

Lemma quiet_trans (uri : string) (a b c : State) :
  quietFor uri a b → quietFor uri b c → quietFor uri a c.
Proof. intros [H1 H2] [H3 H4]. split; congruence. Qed.

Lemma invocationsFor_emit (uri : string) (o : Output) (st : State) :
  invocationsFor uri (emit o st)
  = (invocationsFor uri st ++ if isInvocationOf uri o then [o] else [])%list.
Proof.
  unfold invocationsFor. simpl. rewrite filter_app. f_equal.
  rewrite filter_cons, filter_nil. by destruct (isInvocationOf uri o).
Qed.

Lemma quiet_emit (uri : string) (o : Output) (st : State) :
  isInvocationOf uri o = false → quietFor uri st (emit o st).
Proof.
  intros Ho. split; [done|]. rewrite invocationsFor_emit, Ho. apply app_nil_r.
Qed.

(** A transition that changes neither the block map nor the output. *)
Lemma quiet_same (uri : string) (st st' : State) :
  blockValidation st' = blockValidation st → out st' = out st → quietFor uri st st'.
Proof. intros Hb Ho. split; [done|]. unfold invocationsFor. by rewrite Ho. Qed.

Lemma quiet_settle (uri : string) (m : Async ValidationResult) (st : State) :
  quietFor uri st (snd (settle m st)).
Proof.
  destruct (settle_fields m st) as (_ & _ & _ & _ & _ & Hb & _ & _ & _ & logs & Ho).
  split; [done|]. unfold invocationsFor. rewrite Ho, filter_app.
  rewrite (filter_nil_of_none _ (OutLog <$> logs)); [apply app_nil_r|].
  by intros o (l & -> & _)%list_elem_of_fmap.
Qed.

Lemma quiet_proceed (uri : string) (sub id : nat) (doc : TextDocument)
    (m : Async ValidationResult) (st : State) :
  quietFor uri st (proceed sub id doc m st).
Proof.
  unfold proceed. destruct m; try (by apply quiet_same);
    case_bool_decide; try apply quiet_refl.
  - by apply quiet_emit.
  - eapply quiet_trans; [|by apply quiet_emit]. by apply quiet_same.
Qed.

Lemma quiet_startValidation (uri : string) (sub : nat) (dsp : DocSettingPair) (st : State) :
  doc_uri (dsp_doc dsp) ≠ uri →
  quietFor uri st (startValidation libraryDefaults constructSettingsForText sub dsp st).
Proof.
  intros Hne. unfold startValidation.
  destruct (settle _ _) as [m st2] eqn:Hs.
  eapply quiet_trans; [|apply quiet_proceed].
  pose proof (quiet_settle uri
    (validateTextDocument libraryDefaults constructSettingsForText dsp)
    (freshId (emit (Invoked (dsp_doc dsp)) st))) as H. rewrite Hs in H.
  eapply quiet_trans; [|exact H].
  eapply quiet_trans; [apply (quiet_emit uri (Invoked (dsp_doc dsp)))|by apply quiet_same].
  simpl. by apply String.eqb_neq.
Qed.

(** The blocked filter: a pair of a blocked URI goes no further. *)
Lemma quiet_release (uri : string) (sub : nat) (dsp : DocSettingPair) (st : State) :
  is_Some (blockValidation st !! uri) →
  quietFor uri st (release libraryDefaults constructSettingsForText sub dsp st).
Proof.
  intros Hblocked. unfold release.
  case_bool_decide as Hb; [by apply quiet_emit|].
  eapply quiet_trans;
    [by apply (quiet_emit uri (OutLog (LogBlocked false (doc_uri (dsp_doc dsp)))))|].
  apply quiet_startValidation. intros Heq. rewrite Heq in Hb. done.
Qed.

Lemma quiet_timerFired (uri : string) (sub : nat) (st : State) :
  is_Some (blockValidation st !! uri) →
  quietFor uri st
    (timerFired libraryDefaults constructSettingsForText completion sub st).
Proof.
  intros Hblocked. unfold timerFired.
  destruct (lookupObserver sub (observers st)) as [[u|u fetching [[dsp delay]|]]|];
    try apply quiet_refl.
  assert (H1 : quietFor uri st
    (setObservers (updateObserver sub (Validating u fetching None) (observers st)) st))
    by by apply quiet_same.
  destruct (negb (isValidationBusy st)).
  - eapply quiet_trans; [exact H1|]. by apply quiet_release.
  - destruct completion; [|exact H1].
    eapply quiet_trans; [exact H1|]. by apply quiet_release.
Qed.

Lemma quiet_activeSettingsSettled (uri : string) (sub request : nat)
    (o : Outcome Settings) (st : State) :
  quietFor uri st (activeSettingsSettled sub request o st).
Proof.
  unfold activeSettingsSettled.
  destruct (lookupObserver sub (observers st)) as [[u|u fetching pending]|];
    try apply quiet_refl.
  destruct (lookupRequest request fetching) as [doc|]; [|apply quiet_refl].
  destruct o as [settings|e]; [by apply quiet_same|].
  eapply quiet_trans; [|by apply quiet_emit]. by apply quiet_same.
Qed.

Lemma quiet_resume (uri : string) (id : nat) (a : Answer) (st : State) :
  quietFor uri st (resume id a st).
Proof.
  unfold resume. destruct (lookupTask id (tasks st)) as [t|]; [|apply quiet_refl].
  destruct (resumeWith (task_cont t) a) as [m|]; [|apply quiet_refl].
  destruct (settle m _) as [m' st2] eqn:Hs.
  eapply quiet_trans; [|apply quiet_proceed].
  pose proof (quiet_settle uri m
    (setTasks (filter (λ t', task_id t' ≠ id) (tasks st)) st)) as H.
  rewrite Hs in H. eapply quiet_trans; [|exact H]. by apply quiet_same.
Qed.

Lemma quiet_deliverTo (uri : string) (id : nat) (doc : TextDocument) (st : State) :
  quietFor uri st (deliverTo id doc st).
Proof.
  unfold deliverTo.
  destruct (lookupObserver id (observers st)) as [[u|u fetching pending]|];
    try apply quiet_refl; destruct (String.eqb _ _); try apply quiet_refl.
  - eapply quiet_trans; [|by apply quiet_emit]. by apply quiet_same.
  - eapply quiet_trans; [by apply (quiet_emit uri
      (OutLog (LogRequestValidate (doc_version doc) (doc_uri doc))))|]. by apply quiet_same.
Qed.

Lemma quiet_deliverAll (uri : string) (ids : list nat) (doc : TextDocument) (st : State) :
  quietFor uri st (foldl (λ acc id, deliverTo id doc acc) st ids).
Proof.
  revert st. induction ids as [|id ids IH]; intros st; simpl; [apply quiet_refl|].
  eapply quiet_trans; [apply quiet_deliverTo|apply IH].
Qed.

Lemma quiet_subscribePipeline (uri : string) (doc : TextDocument) (st : State) :
  quietFor uri st (subscribePipeline doc st).
Proof.
  unfold subscribePipeline.
  match goal with |- quietFor _ _ (setValidationByDoc _ ?s2) =>
    assert (H2 : quietFor uri st s2) end.
  { destruct (replayBuffer _) eqn:Hb; [|by apply quiet_same].
    eapply quiet_trans; [|apply quiet_deliverTo]. by apply quiet_same. }
  eapply quiet_trans; [exact H2|]. by apply quiet_same.
Qed.

Lemma quiet_streamNext (uri : string) (doc : TextDocument) (st : State) :
  quietFor uri st (streamNext doc st).
Proof.
  unfold streamNext. eapply quiet_trans; [|apply quiet_deliverAll].
  destruct (disposableValidate _ && _).
  - eapply quiet_trans; [|apply quiet_subscribePipeline]. by apply quiet_same.
  - by apply quiet_same.
Qed.

Lemma quiet_streamAll (uri : string) (docs : list TextDocument) (st : State) :
  quietFor uri st (foldl (λ acc doc, streamNext doc acc) st docs).
Proof.
  revert st. induction docs as [|doc docs IH]; intros st; simpl; [apply quiet_refl|].
  eapply quiet_trans; [apply quiet_streamNext|apply IH].
Qed.

(** While a URI is blocked, an event other than its did-save leaves it
    blocked and makes no [validateTextDocument] call for it. *)
Lemma blocked_step (uri : string) (e : Event) (st : State) :
  is_Some (blockValidation st !! uri) →
  isDidSaveOf uri e = false →
  let st' := step libraryDefaults constructSettingsForText completion e st in
  is_Some (blockValidation st' !! uri)
  ∧ invocationsFor uri st' = invocationsFor uri st.
Proof.
  intros Hblocked Hnot.
  assert (Hq : ∀ st', quietFor uri st st' →
    is_Some (blockValidation st' !! uri)
    ∧ invocationsFor uri st' = invocationsFor uri st).
  { intros st' [Hb Hi]. by rewrite Hb. }
  destruct e as [doc|doc|doc|doc|docs|sub request o|sub|id a|]; simpl.
  - apply Hq. destruct (disposables st); [apply quiet_streamNext|apply quiet_refl].
  - destruct (disposables st); [|by apply Hq, quiet_refl].
    unfold onWillSave. simpl. split.
    + destruct (decide (doc_uri doc = uri)) as [->|Hne].
      * rewrite lookup_insert_eq. by eexists.
      * by rewrite lookup_insert_ne.
    + destruct (quiet_emit uri
        (OutLog (LogWillSave (doc_version doc) (doc_uri doc))) st eq_refl) as [_ Hi].
      exact Hi.
  - destruct (disposables st); [|by apply Hq, quiet_refl].
    simpl in Hnot. apply String.eqb_neq in Hnot.
    unfold onDidSave.
    match goal with |- context [streamNext doc ?s] =>
      destruct (quiet_streamNext uri doc s) as [-> ->] end.
    split; [simpl; by rewrite lookup_delete_ne|].
    destruct (quiet_emit uri
        (OutLog (LogDidSave (doc_version doc) (doc_uri doc))) st eq_refl) as [_ Hi].
    exact Hi.
  - apply Hq. destruct (disposables st); [|apply quiet_refl].
    unfold onDidClose. eapply quiet_trans; [|by apply quiet_emit].
    destruct (validationByDoc st !! doc_uri doc); [by apply quiet_same|apply quiet_refl].
  - apply Hq. destruct (disposableTriggerValidateAll st); [|apply quiet_refl].
    eapply quiet_trans; [|apply quiet_streamAll]. by apply quiet_emit.
  - apply Hq, quiet_activeSettingsSettled.
  - by apply Hq, quiet_timerFired.
  - apply Hq, quiet_resume.
  - apply (Hq (onShutdown st)). apply (quiet_same uri st (onShutdown st)); reflexivity.
Qed.

Lemma blocked_run (uri : string) (events : list Event) (st : State) :
  is_Some (blockValidation st !! uri) →
  Forall (λ e, isDidSaveOf uri e = false) events →
  let st' := run libraryDefaults constructSettingsForText completion events st in
  is_Some (blockValidation st' !! uri)
  ∧ invocationsFor uri st' = invocationsFor uri st.
Proof.
  revert st. induction events as [|e events IH]; intros st Hb Hall; [done|].
  apply Forall_cons in Hall as [He Hall].
  destruct (blocked_step uri e st Hb He) as [Hb' Hi'].
  destruct (IH _ Hb' Hall) as [Hb'' Hi'']. simpl in *.
  split; [exact Hb''|]. by rewrite Hi'', Hi'.
Qed.

Lemma run_app (a b : list Event) (st : State) :
  run libraryDefaults constructSettingsForText completion (a ++ b) st
  = run libraryDefaults constructSettingsForText completion b
      (run libraryDefaults constructSettingsForText completion a st).
Proof. unfold run. apply foldl_app. Qed.

Lemma lookupObserver_update_eq (id : nat) (p : Pipeline) (obs : list (nat * Pipeline)) :
  is_Some (lookupObserver id obs) → lookupObserver id (updateObserver id p obs) = Some p.
Proof.
  unfold updateObserver. induction obs as [|[i q] obs IH]; simpl; [by intros [? ?]|].
  destruct (Nat.eqb_spec i id) as [->|Hne]; simpl.
  - by rewrite Nat.eqb_refl.
  - destruct (Nat.eqb_spec i id); [done|]. exact IH.
Qed.

Lemma lookupObserver_update_ne (id j : nat) (p : Pipeline) (obs : list (nat * Pipeline)) :
  j ≠ id → lookupObserver id (updateObserver j p obs) = lookupObserver id obs.
Proof.
  intros Hne. unfold updateObserver. induction obs as [|[i q] obs IH]; simpl; [done|].
  destruct (Nat.eqb_spec i j) as [->|Hij]; simpl.
  - destruct (Nat.eqb_spec j id); [done|]. exact IH.
  - destruct (Nat.eqb_spec i id); [done|]. exact IH.
Qed.

Lemma lookupObserver_remove_ne (id j : nat) (obs : list (nat * Pipeline)) :
  j ≠ id → lookupObserver id (removeObserver j obs) = lookupObserver id obs.
Proof.
  intros Hne. unfold removeObserver. induction obs as [|[i q] obs IH]; simpl; [done|].
  rewrite filter_cons. simpl. destruct (decide (i ≠ j)) as [Hij|Hij]; simpl.
  - destruct (Nat.eqb_spec i id); [done|]. exact IH.
  - assert (i = j) as -> by (destruct (decide (i = j)); [done|by destruct Hij]).
    destruct (Nat.eqb_spec j id); [done|]. exact IH.
Qed.

Lemma deliverTo_other (id j : nat) (doc : TextDocument) (st : State) :
  j ≠ id →
  lookupObserver id (observers (deliverTo j doc st)) = lookupObserver id (observers st).
Proof.
  intros Hne. unfold deliverTo.
  destruct (lookupObserver j (observers st)) as [[u|u fetching pending]|]; try done;
    destruct (String.eqb _ _); try done; simpl.
  - by apply lookupObserver_remove_ne.
  - by apply lookupObserver_update_ne.
Qed.

Lemma deliverAll_other (id : nat) (ids : list nat) (doc : TextDocument) (st : State) :
  id ∉ ids →
  lookupObserver id (observers (foldl (λ acc j, deliverTo j doc acc) st ids))
  = lookupObserver id (observers st).
Proof.
  revert st. induction ids as [|j ids IH]; intros st Hni; simpl; [done|].
  apply not_elem_of_cons in Hni as [Hne Hni].
  rewrite IH by done. by apply deliverTo_other.
Qed.

(** A validating pipeline that receives a document of its URI starts
    resolving the settings for it. *)
Lemma deliverTo_enqueues (id : nat) (doc : TextDocument) (st : State)
    (fetching : list (nat * TextDocument)) (pending : option (DocSettingPair * Z)) :
  lookupObserver id (observers st) = Some (Validating (doc_uri doc) fetching pending) →
  lookupObserver id (observers (deliverTo id doc st))
  = Some (Validating (doc_uri doc) (fetching ++ [(nextId st, doc)]) pending).
Proof.
  intros Hl. unfold deliverTo. rewrite Hl, String.eqb_refl. simpl.
  apply lookupObserver_update_eq. rewrite Hl. by eexists.
Qed.

Lemma deliverAll_enqueues (id : nat) (ids : list nat) (doc : TextDocument) (st : State)
    (fetching : list (nat * TextDocument)) (pending : option (DocSettingPair * Z)) :
  NoDup ids → id ∈ ids →
  lookupObserver id (observers st) = Some (Validating (doc_uri doc) fetching pending) →
  ∃ request,
    lookupObserver id (observers (foldl (λ acc j, deliverTo j doc acc) st ids))
    = Some (Validating (doc_uri doc) (fetching ++ [(request, doc)]) pending).
Proof.
  revert st. induction ids as [|j ids IH]; intros st Hnd Hin Hl; simpl.
  - by apply elem_of_nil in Hin.
  - apply NoDup_cons in Hnd as [Hni Hnd].
    apply elem_of_cons in Hin as [->|Hin].
    + exists (nextId st). rewrite deliverAll_other by done.
      by apply deliverTo_enqueues.
    + apply IH; [done|done|]. rewrite deliverTo_other; [done|].
      intros ->. done.
Qed.

Lemma deliverTo_replayBuffer (id : nat) (doc : TextDocument) (st : State) :
  replayBuffer (deliverTo id doc st) = replayBuffer st.
Proof.
  unfold deliverTo.
  destruct (lookupObserver id (observers st)) as [[?|? ? ?]|]; try done;
    by destruct (String.eqb _ _).
Qed.

Lemma deliverAll_replayBuffer (ids : list nat) (doc : TextDocument) (st : State) :
  replayBuffer (foldl (λ acc j, deliverTo j doc acc) st ids) = replayBuffer st.
Proof.
  revert st. induction ids as [|j ids IH]; intros st; simpl; [done|].
  by rewrite IH, deliverTo_replayBuffer.
Qed.

(** The stream holds the document it was given last. *)
Lemma streamNext_replayBuffer (doc : TextDocument) (st : State) :
  replayBuffer (streamNext doc st) = Some doc.
Proof.
  unfold streamNext. rewrite deliverAll_replayBuffer.
  destruct (disposableValidate _ && _); [|done].
  unfold subscribePipeline. simpl. by rewrite deliverTo_replayBuffer.
Qed.

(** A document given to the stream reaches the open validating pipeline
    of its URI. *)
Lemma streamNext_enqueues (id : nat) (doc : TextDocument) (st : State)
    (fetching : list (nat * TextDocument)) (pending : option (DocSettingPair * Z)) :
  tracksPipelines st →
  lookupObserver id (observers st) = Some (Validating (doc_uri doc) fetching pending) →
  ∃ request,
    lookupObserver id (observers (streamNext doc st))
    = Some (Validating (doc_uri doc) (fetching ++ [(request, doc)]) pending).
Proof.
  intros (Hreg & Hnd & _) Hl. unfold streamNext.
  pose proof (Hreg _ _ (lookupObserver_elem_of _ _ _ Hl)) as Hrec. simpl in Hrec.
  assert (Hno : bool_decide
    (validationByDoc (setReplayBuffer (Some doc) st) !! doc_uri doc = None) = false).
  { apply bool_decide_eq_false. simpl. by rewrite Hrec. }
  rewrite Hno, andb_false_r. simpl.
  apply deliverAll_enqueues; [done| |done].
  apply lookupObserver_is_Some. rewrite Hl. by eexists.
Qed.

(** C3 (as the code has it). From a will-save of a URI until the
    did-save of it, whatever other events arrive and however many of
    them are changes of the document, the URI stays in the block map and
    no [validateTextDocument] call is made for it: every pair that
    reaches the blocked filter is dropped. The did-save removes the URI
    from the block map and gives the saved document to the request
    stream at once, where the open validating pipeline of the URI starts
    to resolve its settings. *)
Theorem save_blackout_gates_validation
    (before : list Event) (doc : TextDocument) (between : list Event) :
  let uri := doc_uri doc in
  let st0 := run libraryDefaults constructSettingsForText completion before init in
  let st := run libraryDefaults constructSettingsForText completion
              (before ++ [WillSave doc] ++ between) init in
  disposables st0 = true →
  Forall (λ e, isDidSaveOf uri e = false) between →
  is_Some (blockValidation st !! uri)
  ∧ invocationsFor uri st = invocationsFor uri st0
  ∧ ∀ saved, doc_uri saved = uri → disposables st = true →
      let st' := step libraryDefaults constructSettingsForText completion
                   (DidSave saved) st in
      blockValidation st' !! uri = None
      ∧ replayBuffer st' = Some saved
      ∧ ∀ id fetching pending,
          lookupObserver id (observers st) = Some (Validating uri fetching pending) →
          ∃ request,
            lookupObserver id (observers st')
            = Some (Validating uri (fetching ++ [(request, saved)]) pending).
Proof.
  intros uri st0 st Hlisten Hall.
  assert (Hst : st = run libraryDefaults constructSettingsForText completion between
                  (onWillSave doc st0)).
  { unfold st. rewrite !run_app. simpl. fold st0. by rewrite Hlisten. }
  assert (Hb1 : is_Some (blockValidation (onWillSave doc st0) !! uri)).
  { unfold onWillSave. simpl. rewrite lookup_insert_eq. by eexists. }
  assert (Hi1 : invocationsFor uri (onWillSave doc st0) = invocationsFor uri st0).
  { destruct (quiet_emit uri
      (OutLog (LogWillSave (doc_version doc) (doc_uri doc))) st0 eq_refl) as [_ Hi].
    exact Hi. }
  destruct (blocked_run uri between _ Hb1 Hall) as [Hb Hi].
  rewrite <- Hst in Hb, Hi.
  split; [exact Hb|]. split; [by rewrite Hi|].
  intros saved Hsaved Hl st'. unfold st'. simpl. rewrite Hl. unfold onDidSave.
  set (st2 := setBlockValidation _ _).
  split; [|split].
  - destruct (quiet_streamNext uri saved st2) as [-> _]. unfold st2. simpl.
    rewrite Hsaved. apply lookup_delete_eq.
  - apply streamNext_replayBuffer.
  - intros id fetching pending Hlook. rewrite <- Hsaved.
    apply streamNext_enqueues.
    + apply (tracks_run libraryDefaults constructSettingsForText completion
               (before ++ [WillSave doc] ++ between) init tracks_init).
    + unfold st2. simpl. by rewrite Hsaved.
Qed.

End Blackout.

(** ** The busy gate *)

Section Gate.

Import CSpell Server.

Local Open Scope async_scope.

Variable libraryDefaults : Settings.
Variable constructSettingsForText : Settings → string → string → Outcome Settings.

Lemma flagFree_abind {A B} (m : Async A) (f : A → Async B) :
  flagFree m → (∀ a, flagFree (f a)) → flagFree (abind m f).
Proof.
  intros Hm Hf. induction m as [a|e|l k IH|b k IH|u k IH|u k IH|doc s k IH]; simpl in *;
    try done; try (by apply IH); intros o; by apply IH.
Qed.

Lemma flagFree_settled {T} (o : Outcome T) : flagFree (settled o).
Proof. by destruct o. Qed.

Lemma calm_abind {A B} (m : Async A) (f : A → Async B) :
  calm m → (∀ a, calm (f a)) → calm (abind m f).
Proof.
  intros Hm Hf. induction m as [a|e|l k IH|b k IH|u k IH|u k IH|doc s k IH]; simpl in *;
    try done; try (by apply IH); intros o; by apply IH.
Qed.

(** A [try] block that never writes the flag, with a handler that
    returns, neither throws nor writes the flag. *)
Lemma calm_tryCatch {A} (m : Async A) (h : Exn → Async A) :
  flagFree m → (∀ e, calm (h e)) → calm (tryCatch m h).
Proof.
  intros Hm Hh. induction m as [a|e|l k IH|b k IH|u k IH|u k IH|doc s k IH]; simpl in *;
    try done; try (by apply IH); intros o; by apply IH.
Qed.

Lemma flagFree_validateBody (dsp : DocSettingPair) :
  flagFree (validateBody libraryDefaults constructSettingsForText dsp).
Proof.
  unfold validateBody.
  destruct (negb (DocumentSettings.isUriAllowed _ _)); [done|].
  apply flagFree_abind.
  { unfold shouldValidateDocument.
    destruct (negb (truthy _)); [done|]. destruct (negb (isLanguageEnabled _ _)); [done|].
    simpl. intros o. by destruct o. }
  intros shouldCheck. destruct (negb shouldCheck); [done|].
  apply flagFree_abind.
  { unfold getSettingsToUseForDocument, getBaseSettings, getActiveSettings. simpl.
    intros o. destruct o; simpl; [apply flagFree_settled|done]. }
  intros settingsToUse. destruct (truthy _); [|done].
  simpl. intros o. by destruct o.
Qed.

(** [validate] catches what its steps throw. *)
Lemma calm_validate (dsp : DocSettingPair) :
  calm (validate libraryDefaults constructSettingsForText dsp).
Proof.
  unfold validate. apply calm_abind; [|by intros [r|]].
  apply calm_tryCatch; [apply flagFree_validateBody|done].
Qed.

Lemma releasesGate_after_calm {A} (m : Async A) :
  calm m → releasesGate (abind m (λ r, SetBusy false (Ret r))).
Proof.
  induction m as [a|e|l k IH|b k IH|u k IH|u k IH|doc s k IH]; simpl; intros Hm;
    try done; try (by apply IH); intros o; by apply IH.
Qed.

Lemma settle_returning (m : Async ValidationResult) (st : State) :
  returning m →
  ∃ r, fst (settle m st) = Ret r
       ∧ isValidationBusy (snd (settle m st)) = isValidationBusy st
       ∧ tasks (snd (settle m st)) = tasks st.
Proof.
  revert st. induction m as [a|e|l k IH|b k IH|u k IH|u k IH|doc s k IH];
    intros st Hm; simpl in *; try done.
  - by exists a.
  - destruct (IH (emit (OutLog l) st) Hm) as (r & H1 & H2 & H3). by exists r.
Qed.

(** A call that releases the gate either ends, with the flag cleared,
    or suspends, with the flag as it was. *)
Lemma settle_releasesGate (m : Async ValidationResult) (st : State) :
  releasesGate m →
  let m' := fst (settle m st) in
  let st' := snd (settle m st) in
  tasks st' = tasks st
  ∧ (((∃ r, m' = Ret r) ∧ isValidationBusy st' = false)
     ∨ (releasesGate m' ∧ returning m' = False ∧ (∀ e, m' ≠ Throw e)
        ∧ (∀ r, m' ≠ Ret r)
        ∧ isValidationBusy st' = isValidationBusy st)).
Proof.
  revert st. induction m as [a|e|l k IH|b k IH|u k IH|u k IH|doc s k IH];
    intros st Hm; simpl in *; try done.
  - destruct (IH (emit (OutLog l) st) Hm) as [Ht Hc]. split; [done|]. exact Hc.
  - destruct Hm as [-> Hk].
    destruct (settle_returning k (setIsValidationBusy false st) Hk) as (r & H1 & H2 & H3).
    split; [done|]. left. split; [by exists r|done].
  - split; [done|]. right. repeat split; try done.
  - split; [done|]. right. repeat split; try done.
  - split; [done|]. right. repeat split; try done.
Qed.

Lemma sameGate_trans (a b c : State) : sameGate a b → sameGate b c → sameGate a c.
Proof. intros [H1 H2] [H3 H4]. split; congruence. Qed.

Lemma gate_same (st st' : State) : gateHolds st → sameGate st st' → gateHolds st'.
Proof. intros (H1 & H2 & H3) [Ht Hb]. unfold gateHolds. by rewrite Ht, Hb. Qed.

Lemma sameGate_deliverTo (id : nat) (doc : TextDocument) (st : State) :
  sameGate st (deliverTo id doc st).
Proof.
  unfold deliverTo.
  destruct (lookupObserver id (observers st)) as [[?|? ? ?]|]; try done;
    by destruct (String.eqb _ _).
Qed.

Lemma sameGate_deliverAll (ids : list nat) (doc : TextDocument) (st : State) :
  sameGate st (foldl (λ acc id, deliverTo id doc acc) st ids).
Proof.
  revert st. induction ids as [|id ids IH]; intros st; simpl; [done|].
  eapply sameGate_trans; [apply sameGate_deliverTo|apply IH].
Qed.

Lemma sameGate_streamNext (doc : TextDocument) (st : State) :
  sameGate st (streamNext doc st).
Proof.
  unfold streamNext. eapply sameGate_trans; [|apply sameGate_deliverAll].
  destruct (disposableValidate _ && _); [|done].
  unfold subscribePipeline. simpl.
  match goal with |- sameGate _ (setValidationByDoc _ (deliverTo ?i ?d ?s)) =>
    destruct (sameGate_deliverTo i d s) as [Ht Hb] end.
  split; simpl; [by rewrite Ht|by rewrite Hb].
Qed.

Lemma sameGate_streamAll (docs : list TextDocument) (st : State) :
  sameGate st (foldl (λ acc doc, streamNext doc acc) st docs).
Proof.
  revert st. induction docs as [|doc docs IH]; intros st; simpl; [done|].
  eapply sameGate_trans; [apply sameGate_streamNext|apply IH].
Qed.

Lemma sameGate_activeSettingsSettled (sub request : nat) (o : Outcome Settings) (st : State) :
  sameGate st (activeSettingsSettled sub request o st).
Proof.
  unfold activeSettingsSettled.
  destruct (lookupObserver sub (observers st)) as [[?|? fetching ?]|]; try done.
  destruct (lookupRequest request fetching); [|done]. by destruct o.
Qed.

Lemma lookupTask_id (id : nat) (ts : list Task) (t : Task) :
  lookupTask id ts = Some t → task_id t = id.
Proof.
  induction ts as [|t0 ts IH]; simpl; [done|].
  destruct (Nat.eqb_spec (task_id t0) id) as [Heq|Hne]; [by intros [= <-]|exact IH].
Qed.

Lemma releasesGate_resumeWith (m m' : Async ValidationResult) (a : Answer) :
  releasesGate m → resumeWith m a = Some m' → releasesGate m'.
Proof. destruct m, a; simpl; intros Hm [= <-]; try done. Qed.

(** Entering [validateTextDocument] with the gate open keeps the gate. *)
Lemma gate_startValidation (sub : nat) (dsp : DocSettingPair) (st : State) :
  gateHolds st → tasks st = [] →
  gateHolds (startValidation libraryDefaults constructSettingsForText sub dsp st).
Proof.
  intros _ Hnone. unfold startValidation, validateTextDocument. simpl.
  set (inner := abind _ _).
  set (st1 := setIsValidationBusy true _).
  assert (Hrel : releasesGate inner) by apply releasesGate_after_calm, calm_validate.
  destruct (settle_releasesGate inner st1 Hrel) as [Ht Hcases].
  destruct (settle inner st1) as [m' st2] eqn:Hs. simpl in Ht, Hcases.
  assert (Ht2 : tasks st2 = []) by (rewrite Ht; exact Hnone).
  destruct Hcases as [[[r ->] Hb]|(Hm' & Hnr & Hnt & Hnret & Hb)].
  - unfold proceed. case_bool_decide; unfold gateHolds; simpl; rewrite Ht2; simpl;
      (split; [done|]); (split; [lia|]); by intros t ?%elem_of_nil.
  - assert (Hp : proceed sub (nextId st) (dsp_doc dsp) m' st2
      = setTasks (tasks st2 ++ [mkTask (nextId st) sub (dsp_doc dsp) m']) st2).
    { unfold proceed. destruct m' as [a0|e0| | | | | ];
        first [by destruct (Hnret a0)|by destruct (Hnt e0)|done]. }
    rewrite Hp, Ht2. unfold gateHolds. simpl. rewrite Hb. simpl.
    split; [done|]. split; [lia|].
    intros t ->%list_elem_of_singleton. exact Hm'.
Qed.

Lemma gate_release (sub : nat) (dsp : DocSettingPair) (st : State) :
  gateHolds st → tasks st = [] →
  gateHolds (release libraryDefaults constructSettingsForText sub dsp st).
Proof.
  intros Hg Hnone. unfold release.
  case_bool_decide; [by eapply gate_same|].
  apply gate_startValidation; [by eapply gate_same|done].
Qed.

(** With a [debounce] that drops the pair whose timer ticks while the
    flag is set, a tick keeps the gate. *)
Lemma gate_timerFired (sub : nat) (st : State) :
  gateHolds st →
  gateHolds (timerFired libraryDefaults constructSettingsForText DropsPending sub st).
Proof.
  intros Hg. unfold timerFired.
  destruct (lookupObserver sub (observers st)) as [[u|u fetching [[dsp delay]|]]|];
    try done.
  destruct (isValidationBusy st) eqn:Hb; simpl.
  - by eapply gate_same.
  - apply gate_release; [by eapply gate_same|]. simpl. by apply Hg.
Qed.

Lemma gate_resume (id : nat) (a : Answer) (st : State) :
  gateHolds st → gateHolds (resume id a st).
Proof.
  intros (Hbusy & Hlen & Hrel). unfold resume.
  destruct (lookupTask id (tasks st)) as [t|] eqn:Hl; [|done].
  destruct (resumeWith (task_cont t) a) as [m|] eqn:Hr; [|done].
  pose proof (lookupTask_id _ _ _ Hl) as Hid.
  pose proof (lookupTask_elem_of _ _ _ Hl) as Hin.
  assert (Hts : tasks st = [t]).
  { destruct (tasks st) as [|t1 [|t2 ts]]; simpl in *; [by apply elem_of_nil in Hin| |lia].
    by apply list_elem_of_singleton in Hin as ->. }
  assert (Hb : isValidationBusy st = true).
  { destruct (isValidationBusy st); [done|]. rewrite Hbusy in Hts; done. }
  assert (Hm : releasesGate m).
  { eapply releasesGate_resumeWith; [|exact Hr]. by apply Hrel. }
  set (st1 := setTasks _ st).
  assert (Ht1 : tasks st1 = []).
  { unfold st1. simpl. rewrite Hts, filter_cons, filter_nil.
    destruct (decide (task_id t ≠ id)); [done|done]. }
  destruct (settle_releasesGate m st1 Hm) as [Ht Hcases].
  destruct (settle m st1) as [m' st2] eqn:Hs. simpl in Ht, Hcases.
  assert (Ht2 : tasks st2 = []) by (rewrite Ht; exact Ht1).
  destruct Hcases as [[[r ->] Hb2]|(Hm' & Hnr & Hnt & Hnret & Hb2)].
  - unfold proceed. case_bool_decide; unfold gateHolds; simpl; rewrite Ht2; simpl;
      (split; [done|]); (split; [lia|]); by intros t' ?%elem_of_nil.
  - assert (Hp : proceed (task_sub t) id (task_doc t) m' st2
      = setTasks (tasks st2 ++ [mkTask id (task_sub t) (task_doc t) m']) st2).
    { unfold proceed. destruct m' as [a0|e0| | | | | ];
        first [by destruct (Hnret a0)|by destruct (Hnt e0)|done]. }
    rewrite Hp, Ht2. unfold gateHolds. simpl. rewrite Hb2. simpl.
    split; [by rewrite Hb|]. split; [lia|].
    intros t' ->%list_elem_of_singleton. exact Hm'.
Qed.

Lemma gate_step (e : Event) (st : State) :
  gateHolds st →
  gateHolds (step libraryDefaults constructSettingsForText DropsPending e st).
Proof.
  intros Hg. destruct e as [doc|doc|doc|doc|docs|sub request o|sub|id a|]; simpl.
  - destruct (disposables st); [|done]. eapply gate_same; [done|apply sameGate_streamNext].
  - destruct (disposables st); [|done]. by eapply gate_same.
  - destruct (disposables st); [|done]. unfold onDidSave.
    eapply gate_same; [|apply sameGate_streamNext]. by eapply gate_same.
  - destruct (disposables st); [|done]. unfold onDidClose.
    eapply gate_same; [done|]. by destruct (validationByDoc st !! doc_uri doc).
  - destruct (disposableTriggerValidateAll st); [|done].
    eapply gate_same; [|apply sameGate_streamAll]. by eapply gate_same.
  - eapply gate_same; [done|apply sameGate_activeSettingsSettled].
  - by apply gate_timerFired.
  - by apply gate_resume.
  - by eapply gate_same.
Qed.

Lemma gate_init : gateHolds init.
Proof. split; [done|]. split; [simpl; lia|by intros t ?%elem_of_nil]. Qed.

Lemma length_omap_le {A B} (f : A → option B) (l : list A) :
  (length (omap f l) ≤ length l)%nat.
Proof.
  induction l as [|x l IH]; [simpl; lia|].
  change (omap f (x :: l))
    with (match f x with Some y => y :: omap f l | None => omap f l end).
  destruct (f x); simpl; lia.
Qed.

(** Had [debounce] dropped the pair whose timer ticks while the busy
    flag is set, the flag would be a gate: at most one
    [validateTextDocument] call, and so at most one analyzer call, in
    flight at any time. *)
Lemma busy_gate_exclusive_when_dropping (events : list Event) :
  let st := run libraryDefaults constructSettingsForText DropsPending events init in
  (length (tasks st) ≤ 1)%nat ∧ (length (analyzing st) ≤ 1)%nat
  ∧ (isValidationBusy st = false → analyzing st = []).
Proof.
  intros st.
  assert (Hg : gateHolds st).
  { unfold st. generalize gate_init. generalize init.
    induction events as [|e events IH]; intros s Hs; [done|].
    apply IH. by apply gate_step. }
  destruct Hg as (Hb & Hl & _). split; [done|]. split.
  - etransitivity; [apply length_omap_le|done].
  - intros Hf. unfold analyzing. by rewrite (Hb Hf).
Qed.

End Gate.

(** ** The debounce delay *)

Section Debounce.

Import CSpell Server.

Variable libraryDefaults : Settings.
Variable constructSettingsForText : Settings → string → string → Outcome Settings.
Variable completion : DurationCompletion.

(** C9. When the settings of a document event arrive, the debounce of
    its pipeline holds the document with these settings and runs its
    timer with the delay of these settings, [spellCheckDelayMs]; a delay
    that is falsy, unset or an explicit 0, is replaced by the default of
    50 ms, so no settings give a delay of 0. *)
Theorem debounce_delay_zero_is_default
    (st : State) (sub request : nat) (uri : string)
    (fetching : list (nat * TextDocument)) (pending : option (DocSettingPair * Z))
    (doc : TextDocument) (settings : Settings) :
  lookupObserver sub (observers st) = Some (Validating uri fetching pending) →
  lookupRequest request fetching = Some doc →
  let st' := step libraryDefaults constructSettingsForText completion
               (ActiveSettings sub request (Resolved settings)) st in
  (∃ fetching',
     lookupObserver sub (observers st')
     = Some (Validating uri fetching' (Some (mkPair doc settings, debounceDelay settings))))
  ∧ (truthy (settings !! "spellCheckDelayMs") = false → debounceDelay settings = 50)
  ∧ (settings !! "spellCheckDelayMs" = Some (JNum 0) → debounceDelay settings = 50)
  ∧ (settings !! "spellCheckDelayMs" = None → debounceDelay settings = 50)
  ∧ (∀ n, settings !! "spellCheckDelayMs" = Some (JNum n) → n ≠ 0 →
       debounceDelay settings = n)
  ∧ debounceDelay settings ≠ 0.
Proof.
  intros Hl Hr st'. split.
  - unfold st'. simpl. unfold activeSettingsSettled. rewrite Hl, Hr. simpl.
    eexists. apply lookupObserver_update_eq. rewrite Hl. by eexists.
  - unfold debounceDelay, get_number, defaultDebounce.
    destruct (settings !! "spellCheckDelayMs") as [[b|n|s|l]|] eqn:Hk; simpl.
    2: { destruct (Z.eqb_spec n 0) as [->|Hn]; simpl.
         - split; [done|]. split; [done|]. split; [done|].
           split; [by intros m [= <-] Hm|done].
         - split; [done|]. split; [intros [= ->]; done|]. split; [done|].
           split; [by intros m [= <-] Hm|done]. }
    all: split; [done|]; split; [done|]; split; [done|]; split; [by intros m [=]|done].
Qed.

End Debounce.

Section SchedulerExamples.

Import CSpell Server.

(** An explicit delay of 0: the timer runs for 50 ms. *)
Lemma debounce_delay_zero_is_default_example :
  let st := run ∅ plainText EmitsPending [DidChangeContent docA] init in
  lookupObserver 0 (observers st)
    = Some (Validating "file:///w/a.txt" [(1%nat, docA)] None)
  ∧ lookupRequest 1 [(1%nat, docA)] = Some docA
  ∧ exampleZeroDelay !! "spellCheckDelayMs" = Some (JNum 0)
  ∧ lookupObserver 0 (observers
      (step ∅ plainText EmitsPending (ActiveSettings 0 1 (Resolved exampleZeroDelay)) st))
    = Some (Validating "file:///w/a.txt" [] (Some (mkPair docA exampleZeroDelay, 50))).
Proof.
  assert (H1 : lookupObserver 0 (observers
      (run ∅ plainText EmitsPending [DidChangeContent docA] init))
    = Some (Validating "file:///w/a.txt" [(1%nat, docA)] None)) by (vm_compute; reflexivity).
  assert (H2 : lookupRequest 1 [(1%nat, docA)] = Some docA) by reflexivity.
  assert (H3 : exampleZeroDelay !! "spellCheckDelayMs" = Some (JNum 0))
    by (vm_compute; reflexivity).
  destruct (debounce_delay_zero_is_default ∅ plainText EmitsPending _ _ _ _ _ _ _
              exampleZeroDelay H1 H2) as ([fetching' Hobs] & _ & Hzero & _).
  cbv zeta. split; [exact H1|]. split; [exact H2|]. split; [exact H3|].
  rewrite <- (Hzero H3). vm_compute. reflexivity.
Defined.

(** Three changes of one document, then a fourth: one pipeline, and the
    fourth change subscribes no other. *)
Lemma one_pipeline_per_uri_example :
  let st := run ∅ plainText EmitsPending
              [DidChangeContent docA; DidChangeContent docA; DidChangeContent docA] init in
  is_Some (validationByDoc st !! "file:///w/a.txt")
  ∧ (length (pipelinesFor "file:///w/a.txt" st) ≤ 1)%nat
  ∧ subscribesNoneFor "file:///w/a.txt" st
      (step ∅ plainText EmitsPending (DidChangeContent docA) st).
Proof.
  destruct (one_pipeline_per_uri ∅ plainText EmitsPending
    [DidChangeContent docA; DidChangeContent docA; DidChangeContent docA]
    "file:///w/a.txt") as (Hlen & _ & Hnone).
  assert (Hs : is_Some (validationByDoc (run ∅ plainText EmitsPending
    [DidChangeContent docA; DidChangeContent docA; DidChangeContent docA] init)
    !! "file:///w/a.txt")) by (vm_compute; by eexists).
  cbv zeta. split; [exact Hs|]. split; [exact Hlen|]. exact (Hnone _ Hs).
Defined.

(** A document is saved while it is changed: between the will-save and
    the did-save its timer ticks, and no validation is started. *)
Lemma save_blackout_gates_validation_example :
  let before := [DidChangeContent docA] in
  let between := [DidChangeContent docA; ActiveSettings 0 1 (Resolved exampleSettings);
                  TimerFired 0] in
  disposables (run ∅ plainText EmitsPending before init) = true
  ∧ Forall (λ e, isDidSaveOf "file:///w/a.txt" e = false) between
  ∧ is_Some (blockValidation
      (run ∅ plainText EmitsPending (before ++ [WillSave docA] ++ between) init)
      !! "file:///w/a.txt")
  ∧ invocationsFor "file:///w/a.txt"
      (run ∅ plainText EmitsPending (before ++ [WillSave docA] ++ between) init) = [].
Proof.
  assert (H1 : disposables (run ∅ plainText EmitsPending [DidChangeContent docA] init)
               = true) by reflexivity.
  assert (H2 : Forall (λ e, isDidSaveOf "file:///w/a.txt" e = false)
    [DidChangeContent docA; ActiveSettings 0 1 (Resolved exampleSettings); TimerFired 0])
    by (repeat constructor).
  destruct (save_blackout_gates_validation ∅ plainText EmitsPending
    [DidChangeContent docA] docA
    [DidChangeContent docA; ActiveSettings 0 1 (Resolved exampleSettings); TimerFired 0]
    H1 H2) as (Hb & Hi & _).
  cbv zeta. split; [exact H1|]. split; [exact H2|]. split; [exact Hb|].
  etransitivity; [exact Hi|]. vm_compute. reflexivity.
Defined.

(** C3 (as stated) fails: a validation that passed the blocked filter
    before the will-save goes on while the URI is blocked; when the
    answers it waits for arrive, it calls the analyzer, before any
    did-save. *)
Lemma save_blackout_misses_running_validation :
  let st0 := run ∅ plainText EmitsPending validationUnderWay init in
  let st := run ∅ plainText EmitsPending
              (validationUnderWay ++ [WillSave docA] ++ answersArrive) init in
  disposables st0 = true
  ∧ Forall (λ e, isDidSaveOf "file:///w/a.txt" e = false) answersArrive
  ∧ analyzerCallsFor "file:///w/a.txt" st0 = []
  ∧ is_Some (blockValidation st !! "file:///w/a.txt")
  ∧ analyzerCallsFor "file:///w/a.txt" st
    = [OutLog (LogValidateStart 1 "file:///w/a.txt")]
  ∧ analyzing st = [docA]
  ∧ ¬ saveBlackout ∅ plainText EmitsPending
  ∧ ¬ saveBlackout ∅ plainText DropsPending.
Proof.
  assert (H2 : Forall (λ e, isDidSaveOf "file:///w/a.txt" e = false) answersArrive)
    by (repeat constructor).
  cbv zeta. split; [reflexivity|]. split; [exact H2|].
  split; [vm_compute; reflexivity|]. split; [vm_compute; by eexists|].
  split; [vm_compute; reflexivity|]. split; [vm_compute; reflexivity|].
  split; intros Hclaim;
    specialize (Hclaim validationUnderWay docA answersArrive eq_refl H2);
    vm_compute in Hclaim; discriminate.
Qed.

(** C1 fails on the code. The pair of the second document is released
    while the busy flag is set: the timer tick is filtered out, the
    duration observable completes, and the [debounce] of rxjs 6 emits
    the pair it holds. Both analyzer calls are then in flight. *)
Theorem busy_gate_lets_second_call_through :
  let st1 := run ∅ plainText EmitsPending twoDocuments init in
  let st2 := run ∅ plainText EmitsPending (twoDocuments ++ secondTimerTicks) init in
  isValidationBusy st1 = true
  ∧ analyzing st1 = [docA]
  ∧ analyzing st2 = [docA; docB].
Proof. cbv zeta. repeat split; vm_compute; reflexivity. Qed.

End SchedulerExamples.

(** * Further properties of the settings resolver *)

Section Schemes.

Import DocumentSettings.

Lemma doesUriMatchAnyScheme_elem_of (uri : string) (schemes : list string) :
  doesUriMatchAnyScheme uri schemes = true ↔ Uri.scheme uri ∈ schemes.
Proof.
  unfold doesUriMatchAnyScheme. rewrite existsb_exists. split.
  - intros (v & Hin & Heq%String.eqb_eq). subst. by apply list_elem_of_In.
  - intros Hin. exists (Uri.scheme uri).
    split; [by apply list_elem_of_In|apply String.eqb_refl].
Qed.

(** X1. A URI is allowed when its scheme is in the list given, or, with
    no list given, in [file], [untitled]. A list that is given and empty
    is still a list: it allows nothing. No URI of the block list is
    allowed by the default list. *)
Theorem allowed_schemes_default_and_empty (uri : string) (schemes : option (list string)) :
  (isUriAllowed uri schemes = true
   ↔ Uri.scheme uri ∈ default defaultAllowedSchemes schemes)
  ∧ isUriAllowed uri (Some []) = false
  ∧ (isUriAllowed uri None = true ↔ Uri.scheme uri = "file" ∨ Uri.scheme uri = "untitled")
  ∧ (isUriBlackListed uri = true → isUriAllowed uri None = false).
Proof.
  split; [apply doesUriMatchAnyScheme_elem_of|]. split; [reflexivity|]. split.
  - unfold isUriAllowed. rewrite doesUriMatchAnyScheme_elem_of. simpl.
    unfold defaultAllowedSchemes. rewrite !elem_of_cons, elem_of_nil. tauto.
  - intros Hb%doesUriMatchAnyScheme_elem_of. unfold schemeBlackList in Hb.
    unfold isUriAllowed, doesUriMatchAnyScheme. simpl.
    repeat (apply elem_of_cons in Hb as [->|Hb]; [reflexivity|]).
    by apply elem_of_nil in Hb.
Qed.

End Schemes.

(** ** Methods of the resolver, step by step *)

Section Hoare.

Import CSpell Folders DocumentSettings Resolution.

Local Open Scope ds_scope.

Lemma hoare_ret {A} (P : State → Prop) (a : A) (Q : A → State → Prop) :
  (∀ s, P s → Q a s) → hoare P (ret a) Q.
Proof. intros H s HP. by apply H. Qed.

Lemma hoare_bind {A B} (P : State → Prop) (m : M A) (k : A → M B)
    (R : A → State → Prop) (Q : B → State → Prop) :
  hoare P m R → (∀ a, hoare (R a) (k a) Q) → hoare P (bind m k) Q.
Proof.
  intros Hm Hk s HP. specialize (Hm s HP). unfold bind.
  destruct (m s) as [a s']. by apply Hk.
Qed.

Lemma hoare_gets {A} (P : State → Prop) (f : State → A) (Q : A → State → Prop) :
  (∀ s, P s → Q (f s) s) → hoare P (gets f) Q.
Proof. intros H s HP. by apply H. Qed.

Lemma hoare_weaken {A} (P P' : State → Prop) (m : M A) (Q Q' : A → State → Prop) :
  hoare P' m Q' → (∀ s, P s → P' s) → (∀ a s, Q' a s → Q a s) → hoare P m Q.
Proof. intros Hm HP HQ s Hs. by apply HQ, Hm, HP. Qed.

Lemma hoare_autoLoadGet {T} (read : State → gmap string T)
    (write : gmap string T → State → State) (loader : string → M T) (key : string)
    (P : State → Prop) (Q : T → State → Prop) :
  (∀ s v, P s → read s !! key = Some v → Q v s) →
  hoare (λ s, P s ∧ read s !! key = None) (loader key)
    (λ v s, Q v (write (<[key := v]> (read s)) s)) →
  hoare P (autoLoadGet read write loader key) Q.
Proof.
  intros Hhit Hmiss s HP. unfold autoLoadGet, bind, gets, modify, ret. simpl.
  destruct (read s !! key) as [v|] eqn:Hr; simpl; [by apply Hhit|].
  specialize (Hmiss s (conj HP Hr)). by destruct (loader key s) as [v s'].
Qed.

Lemma hoare_lazyGet {T} (read : State → option T)
    (write : option T → State → State) (loader : M T)
    (P : State → Prop) (Q : T → State → Prop) :
  (∀ s v, P s → read s = Some v → Q v s) →
  hoare (λ s, P s ∧ read s = None) loader (λ v s, Q v (write (Some v) s)) →
  hoare P (lazyGet read write loader) Q.
Proof.
  intros Hhit Hmiss s HP. unfold lazyGet, bind, gets, modify, ret. simpl.
  destruct (read s) as [v|] eqn:Hr; simpl; [by apply Hhit|].
  specialize (Hmiss s (conj HP Hr)). by destruct loader as [v s'].
Qed.

Lemma hoare_mapM {A B} (I : State → Prop) (f : A → M B) (g : A → B) (l : list A) :
  (∀ a, hoare I (f a) (λ v s, v = g a ∧ I s)) →
  hoare I (mapM f l) (λ vs s, vs = map g l ∧ I s).
Proof.
  intros Hf. induction l as [|x xs IH]; simpl.
  - by apply hoare_ret.
  - eapply hoare_bind; [apply Hf|]. intros y. simpl.
    intros s [-> Hs]. revert s Hs.
    change (hoare I (let* ys := mapM f xs in ret (g x :: ys))
              (λ vs s, vs = g x :: map g xs ∧ I s)).
    eapply hoare_bind; [apply IH|]. intros ys. apply hoare_ret.
    by intros s [-> Hs].
Qed.

End Hoare.

(** ** Reading fills caches with what was seen anyway *)

Section Views.

Import CSpell Folders DocumentSettings Resolution.

Local Open Scope ds_scope.

Variable h : Host.

(** What [_getUriSettings] returns without a URI, in any state of the
    caches. *)
Lemma getUriSettings_value_empty (s : State) :
  fst (_getUriSettings h "" s) = mergeSettings (defaultSettings s) [importedSeen h s].
Proof.
  unfold importedSeen. run_methods. by destruct (importedSettingsLazy s).
Qed.

Lemma folderSettingsSeen_ext (s s' : State) (u : string) :
  fetchSettingsForUriCache s' !! u = fetchSettingsForUriCache s !! u →
  vscodeConfigurationSeen h s' u = vscodeConfigurationSeen h s u →
  fileSettingsSeen h s' u = fileSettingsSeen h s u →
  folderSettingsSeen h s' u = folderSettingsSeen h s u.
Proof.
  intros Hc Hv Hf. unfold folderSettingsSeen. rewrite Hc.
  destruct (fetchSettingsForUriCache s !! u); [done|].
  rewrite !fetchSettingsForFolderUri_value. cbv zeta. unfold hostSettingsSeen.
  by rewrite Hv, Hf.
Qed.

Lemma uriSettingsSeen_ext (s s' : State) (u : string) :
  getUriSettingsCache s' !! u = getUriSettingsCache s !! u →
  defaultSettings s' = defaultSettings s →
  importedSeen h s' = importedSeen h s →
  foldersSeen h s' = foldersSeen h s →
  (∀ u', folderSettingsSeen h s' u' = folderSettingsSeen h s u') →
  uriSettingsSeen h s' u = uriSettingsSeen h s u.
Proof.
  intros Hc Hd Hi Hfs Hf. unfold uriSettingsSeen. rewrite Hc.
  destruct (getUriSettingsCache s !! u); [done|].
  destruct (decide (u = "")) as [->|Hne].
  - rewrite !getUriSettings_value_empty. by rewrite Hd, Hi.
  - rewrite !getUriSettings_value by done. unfold owningFolder.
    by rewrite Hd, Hi, Hfs, Hf.
Qed.

(** A state whose caches hold, where they differ, what was seen, shows
    the same. *)
Lemma seesAs_intro (s s' : State) :
  foldersSeen h s' = foldersSeen h s →
  (∀ u, vscodeConfigurationSeen h s' u = vscodeConfigurationSeen h s u) →
  (∀ u, fileSettingsSeen h s' u = fileSettingsSeen h s u) →
  importedSeen h s' = importedSeen h s →
  defaultSettings s' = defaultSettings s →
  (∀ u, fetchSettingsForUriCache s' !! u = fetchSettingsForUriCache s !! u
        ∨ fetchSettingsForUriCache s' !! u = Some (folderSettingsSeen h s u)) →
  (∀ u, getUriSettingsCache s' !! u = getUriSettingsCache s !! u
        ∨ getUriSettingsCache s' !! u = Some (uriSettingsSeen h s u)) →
  seesAs h s s'.
Proof.
  intros Hfs Hv Hf Hi Hd Hc1 Hc2.
  assert (Hfo : ∀ u, folderSettingsSeen h s' u = folderSettingsSeen h s u).
  { intros u. destruct (Hc1 u) as [Hc|Hc].
    - by apply folderSettingsSeen_ext.
    - unfold folderSettingsSeen at 1. by rewrite Hc. }
  split; [done|]. split; [done|]. split; [done|]. split; [done|]. split; [done|].
  intros u. destruct (Hc2 u) as [Hc|Hc].
  - by apply uriSettingsSeen_ext.
  - unfold uriSettingsSeen at 1. by rewrite Hc.
Qed.

Lemma readOnly_refl (s : State) : readOnly h s s.
Proof. by repeat split. Qed.

Lemma readOnly_trans (a b c : State) : readOnly h a b → readOnly h b c → readOnly h a c.
Proof.
  intros [(A1 & A2 & A3 & A4 & A5 & A6) (B1 & B2 & B3 & B4)]
         [(C1 & C2 & C3 & C4 & C5 & C6) (D1 & D2 & D3 & D4)].
  split.
  - split; [congruence|]. split; [intros; by rewrite C2|]. split; [intros; by rewrite C3|].
    split; [intros; by rewrite C4|]. split; [congruence|]. intros; by rewrite C6.
  - split; [congruence|]. split; [congruence|]. split; congruence.
Qed.

Lemma readOnly_tell (c : IoCall) (s : State) : readOnly h s (snd (tell c s)).
Proof. split; [|done]. apply seesAs_intro; try done; intros; by left. Qed.

Lemma readOnly_setFoldersLazy (s : State) :
  readOnly h s (setFoldersLazy (Some (foldersSeen h s)) s).
Proof. split; [|done]. apply seesAs_intro; try done; intros; by left. Qed.

Lemma readOnly_setImportedSettingsLazy (s : State) :
  readOnly h s (setImportedSettingsLazy (Some (importedSeen h s)) s).
Proof. split; [|done]. apply seesAs_intro; try done; intros; by left. Qed.

Lemma readOnly_setFetchVSCodeConfigurationCache (s : State) (u : string) :
  readOnly h s
    (setFetchVSCodeConfigurationCache
       (<[u := vscodeConfigurationSeen h s u]> (fetchVSCodeConfigurationCache s)) s).
Proof.
  split; [|done]. apply seesAs_intro; try done; try (intros; by left).
  intros u'. unfold vscodeConfigurationSeen. simpl.
  destruct (decide (u = u')) as [->|Hne];
    [by rewrite lookup_insert_eq|by rewrite lookup_insert_ne].
Qed.

Lemma readOnly_setCspellFileSettingsByFolderCache (s : State) (u : string) :
  readOnly h s
    (setCspellFileSettingsByFolderCache
       (<[u := fileSettingsSeen h s u]> (cspellFileSettingsByFolderCache s)) s).
Proof.
  split; [|done]. apply seesAs_intro; try done; try (intros; by left).
  intros u'. unfold fileSettingsSeen. simpl.
  destruct (decide (u = u')) as [->|Hne];
    [by rewrite lookup_insert_eq|by rewrite lookup_insert_ne].
Qed.

Lemma readOnly_setFetchSettingsForUriCache (s : State) (u : string) :
  readOnly h s
    (setFetchSettingsForUriCache
       (<[u := folderSettingsSeen h s u]> (fetchSettingsForUriCache s)) s).
Proof.
  split; [|done]. apply seesAs_intro; try done; try (intros; by left).
  intros u'. simpl. destruct (decide (u = u')) as [->|Hne].
  - right. by rewrite lookup_insert_eq.
  - left. by rewrite lookup_insert_ne.
Qed.

Lemma readOnly_setGetUriSettingsCache (s : State) (u : string) :
  readOnly h s
    (setGetUriSettingsCache (<[u := uriSettingsSeen h s u]> (getUriSettingsCache s)) s).
Proof.
  split; [|done]. apply seesAs_intro; try done; try (intros; by left).
  intros u'. simpl. destruct (decide (u = u')) as [->|Hne].
  - right. by rewrite lookup_insert_eq.
  - left. by rewrite lookup_insert_ne.
Qed.

End Views.

(** ** The methods that resolve only read *)

Section Reads.

Import CSpell Folders DocumentSettings Resolution.

Local Open Scope ds_scope.

Variable h : Host.

Lemma onlyReads_of_answers {A} (m : M A) (view : State → A) :
  answers h m view → onlyReads h m.
Proof. intros H s0. eapply hoare_weaken; [apply H|done|by intros ?? []]. Qed.

Lemma onlyReads_ret {A} (a : A) : onlyReads h (ret a).
Proof. intros s0. by apply hoare_ret. Qed.

Lemma onlyReads_bind {A B} (m : M A) (k : A → M B) :
  onlyReads h m → (∀ a, onlyReads h (k a)) → onlyReads h (bind m k).
Proof. intros Hm Hk s0. eapply hoare_bind; [apply Hm|]. intros a. apply Hk. Qed.

Lemma onlyReads_tell (c : IoCall) : onlyReads h (tell c).
Proof.
  intros s0 s Hs. eapply readOnly_trans; [exact Hs|apply readOnly_tell].
Qed.

Lemma onlyReads_gets {A} (f : State → A) : onlyReads h (gets f).
Proof. intros s0. by apply hoare_gets. Qed.

Lemma answers_bind {A B} (m : M A) (k : A → M B) (view : State → A)
    (view' : A → State → B) :
  answers h m view → (∀ a, answers h (k a) (view' a)) →
  answers h (bind m k) (λ s, view' (view s) s).
Proof.
  intros Hm Hk s0. eapply hoare_bind; [apply Hm|].
  intros a s [-> Hs]. by apply Hk.
Qed.

Lemma answers_ret {A} (a : A) : answers h (ret a) (λ _, a).
Proof. intros s0. by apply hoare_ret. Qed.

(** A cache in front of a loader that only reads only reads, when what
    it stores is what was seen. *)
Lemma answers_autoLoadGet {T} (read : State → gmap string T)
    (write : gmap string T → State → State) (loader : string → M T) (key : string)
    (view : State → T) :
  (∀ s0 s, readOnly h s0 s → view s = view s0) →
  (∀ s v, read s !! key = Some v → view s = v) →
  (∀ s, read s !! key = None → fst (loader key s) = view s) →
  onlyReads h (loader key) →
  (∀ s, readOnly h s (write (<[key := view s]> (read s)) s)) →
  answers h (autoLoadGet read write loader key) view.
Proof.
  intros Hresp Hhit Hmiss Hl Hw s0. apply hoare_autoLoadGet.
  - intros s v Hs Hr. split; [|done].
    rewrite <- (Hresp s0 s Hs). symmetry. by apply Hhit.
  - intros s [Hs Hr]. cbv beta. rewrite (Hmiss s Hr).
    pose proof (Hl s0 s Hs) as Hs1. cbv beta in Hs1.
    pose proof (Hresp _ _ Hs) as E0. pose proof (Hresp _ _ Hs1) as E1.
    split; [done|]. eapply readOnly_trans; [exact Hs1|].
    rewrite E0, <- E1. apply Hw.
Qed.

Lemma answers_lazyGet {T} (read : State → option T)
    (write : option T → State → State) (loader : M T) (view : State → T) :
  (∀ s0 s, readOnly h s0 s → view s = view s0) →
  (∀ s v, read s = Some v → view s = v) →
  (∀ s, read s = None → fst (loader s) = view s) →
  onlyReads h loader →
  (∀ s, readOnly h s (write (Some (view s)) s)) →
  answers h (lazyGet read write loader) view.
Proof.
  intros Hresp Hhit Hmiss Hl Hw s0. apply hoare_lazyGet.
  - intros s v Hs Hr. split; [|done].
    rewrite <- (Hresp s0 s Hs). symmetry. by apply Hhit.
  - intros s [Hs Hr]. cbv beta. rewrite (Hmiss s Hr).
    pose proof (Hl s0 s Hs) as Hs1. cbv beta in Hs1.
    pose proof (Hresp _ _ Hs) as E0. pose proof (Hresp _ _ Hs1) as E1.
    split; [done|]. eapply readOnly_trans; [exact Hs1|].
    rewrite E0, <- E1. apply Hw.
Qed.

Lemma answers_folders : answers h (folders h) (foldersSeen h).
Proof.
  apply answers_lazyGet.
  - by intros s0 s [(E & _) _].
  - intros s v Hr. unfold foldersSeen. by rewrite Hr.
  - intros s Hr. unfold foldersSeen. by rewrite Hr.
  - apply onlyReads_bind; [apply onlyReads_tell|]. intros _. apply onlyReads_ret.
  - apply readOnly_setFoldersLazy.
Qed.

Lemma answers_fetchVSCodeConfiguration (u : string) :
  answers h (fetchVSCodeConfiguration h u) (λ s, vscodeConfigurationSeen h s u).
Proof.
  apply answers_autoLoadGet.
  - intros s0 s [(_ & E & _) _]. apply E.
  - intros s v Hr. unfold vscodeConfigurationSeen. by rewrite Hr.
  - intros s Hr. unfold vscodeConfigurationSeen, _fetchVSCodeConfiguration.
    rewrite Hr. unfold bind, tell, modify, ret. simpl.
    by destruct (getConfiguration h u).
  - unfold _fetchVSCodeConfiguration.
    apply onlyReads_bind; [apply onlyReads_tell|]. intros _.
    destruct (getConfiguration h u). apply onlyReads_ret.
  - intros s. apply readOnly_setFetchVSCodeConfigurationCache.
Qed.

Lemma answers_cspellFileSettings (u : string) :
  answers h
    (autoLoadGet cspellFileSettingsByFolderCache setCspellFileSettingsByFolderCache
       (readSettingsForFolderUri h) u)
    (λ s, fileSettingsSeen h s u).
Proof.
  apply answers_autoLoadGet.
  - intros s0 s [(_ & _ & E & _) _]. apply E.
  - intros s v Hr. unfold fileSettingsSeen. by rewrite Hr.
  - intros s Hr. unfold fileSettingsSeen. by rewrite Hr.
  - apply onlyReads_bind; [apply onlyReads_tell|]. intros _. apply onlyReads_ret.
  - intros s. apply readOnly_setCspellFileSettingsByFolderCache.
Qed.

Lemma onlyReads_fetchSettingsForFolderUri (u : string) :
  onlyReads h (_fetchSettingsForFolderUri h u).
Proof.
  unfold _fetchSettingsForFolderUri, fetchSettingsFromVSCode.
  apply onlyReads_bind.
  { apply onlyReads_bind.
    - eapply onlyReads_of_answers, answers_fetchVSCodeConfiguration.
    - intros [cSpell exclude]. apply onlyReads_ret. }
  intros host. apply onlyReads_bind.
  { eapply onlyReads_of_answers, answers_cspellFileSettings. }
  intros file. apply onlyReads_ret.
Qed.

Lemma answers_fetchSettingsForUri (u : string) :
  answers h (fetchSettingsForUri h u) (λ s, folderSettingsSeen h s u).
Proof.
  apply answers_autoLoadGet.
  - intros s0 s [(_ & _ & _ & E & _) _]. apply E.
  - intros s v Hr. unfold folderSettingsSeen. by rewrite Hr.
  - intros s Hr. unfold folderSettingsSeen. by rewrite Hr.
  - apply onlyReads_fetchSettingsForFolderUri.
  - intros s. apply readOnly_setFetchSettingsForUriCache.
Qed.

Lemma answers_importedSettings : answers h (importedSettings h) (importedSeen h).
Proof.
  apply answers_lazyGet.
  - by intros s0 s [(_ & _ & _ & _ & E & _) _].
  - intros s v Hr. unfold importedSeen. by rewrite Hr.
  - intros s Hr. unfold importedSeen. by rewrite Hr.
  - unfold _importSettings. apply onlyReads_bind; [apply onlyReads_gets|]. intros cfg.
    apply onlyReads_bind; [apply onlyReads_tell|]. intros _. apply onlyReads_ret.
  - apply readOnly_setImportedSettingsLazy.
Qed.

Lemma answers_matchingFoldersForUri (u : string) :
  answers h (matchingFoldersForUri h u)
    (λ s, Folders.matchingFoldersForUri (foldersSeen h s) u).
Proof.
  unfold matchingFoldersForUri.
  apply (answers_bind _ _ (foldersSeen h)
           (λ fs _, Folders.matchingFoldersForUri fs u)); [apply answers_folders|].
  intros fs. apply answers_ret.
Qed.

Lemma onlyReads_getUriSettings_loader (u : string) : onlyReads h (_getUriSettings h u).
Proof.
  unfold _getUriSettings, fetchUriSettings, findMatchingFolder.
  destruct (String.eqb u "").
  - apply onlyReads_bind; [apply onlyReads_gets|]. intros d.
    apply onlyReads_bind; [eapply onlyReads_of_answers, answers_importedSettings|].
    intros i. apply onlyReads_ret.
  - apply onlyReads_bind.
    { apply onlyReads_bind;
        [eapply onlyReads_of_answers, answers_matchingFoldersForUri|].
      intros ms. apply onlyReads_ret. }
    intros folder. apply onlyReads_bind;
      [eapply onlyReads_of_answers, answers_fetchSettingsForUri|].
    intros fs. apply onlyReads_bind; [apply onlyReads_gets|]. intros d.
    apply onlyReads_bind; [eapply onlyReads_of_answers, answers_importedSettings|].
    intros i. apply onlyReads_ret.
Qed.

Lemma answers_getUriSettings (u : string) :
  answers h (getUriSettings h u) (λ s, uriSettingsSeen h s u).
Proof.
  apply answers_autoLoadGet.
  - intros s0 s [(_ & _ & _ & _ & _ & E) _]. apply E.
  - intros s v Hr. unfold uriSettingsSeen. by rewrite Hr.
  - intros s Hr. unfold uriSettingsSeen. by rewrite Hr.
  - apply onlyReads_getUriSettings_loader.
  - intros s. apply readOnly_setGetUriSettingsCache.
Qed.

Lemma answers_findMatchingFolderSettings (u : string) :
  answers h (findMatchingFolderSettings h u)
    (λ s, map (folderSettingsSeen h s) (consultedFolders h s u)).
Proof.
  intros s0. unfold findMatchingFolderSettings.
  eapply hoare_bind; [apply answers_matchingFoldersForUri|].
  intros matching. cbv beta. eapply hoare_bind.
  { eapply hoare_weaken with
      (P' := λ s, matching = Folders.matchingFoldersForUri (foldersSeen h s0) u
                  ∧ readOnly h s0 s)
      (Q' := λ vs s, (vs = map (λ folder, folderSettingsSeen h s0 (wf_uri folder)) matching
                      ∧ matching = Folders.matchingFoldersForUri (foldersSeen h s0) u
                         ∧ readOnly h s0 s)); [|done|intros a s H; exact H].
    apply (hoare_mapM
             (λ s, matching = Folders.matchingFoldersForUri (foldersSeen h s0) u
                   ∧ readOnly h s0 s)).
    intros folder s [Hm Hs].
    destruct (answers_fetchSettingsForUri (wf_uri folder) s0 s Hs) as [Hv Hs'].
    by rewrite Hv. }
  intros matches. cbv beta. intros s (-> & Hm & Hs).
  unfold consultedFolders. rewrite <- Hm.
  destruct matching as [|f rest]; simpl.
  - revert s Hs.
    change (hoare (readOnly h s0)
              (let* fs := folders h in
               let* e := fetchSettingsForUri h
                           (match fs with f :: _ => wf_uri f | [] => u end) in
               ret [e])
              (λ v s, v = [folderSettingsSeen h s0
                             (match foldersSeen h s0 with f :: _ => wf_uri f | [] => u end)]
                      ∧ readOnly h s0 s)).
    eapply hoare_bind; [apply answers_folders|].
    intros fs s [-> Hs]. revert s Hs.
    change (hoare (readOnly h s0)
              (let* e := fetchSettingsForUri h
                           (match foldersSeen h s0 with f :: _ => wf_uri f | [] => u end) in
               ret [e])
              (λ v s, v = [folderSettingsSeen h s0
                             (match foldersSeen h s0 with f :: _ => wf_uri f | [] => u end)]
                      ∧ readOnly h s0 s)).
    eapply hoare_bind; [apply answers_fetchSettingsForUri|].
    intros e s [-> Hs]. done.
  - split; [|done]. by rewrite map_map.
Qed.

Lemma answers_isExcluded (u : string) :
  answers h (isExcluded h u)
    (λ s, existsb (λ e, matcherMatches h e (uriPath h u))
            (map (folderSettingsSeen h s) (consultedFolders h s u))).
Proof.
  unfold isExcluded.
  apply (answers_bind _ _
           (λ s, map (folderSettingsSeen h s) (consultedFolders h s u))
           (λ es _, existsb (λ e, matcherMatches h e (uriPath h u)) es));
    [apply answers_findMatchingFolderSettings|].
  intros es. apply answers_ret.
Qed.

(** What the public readers return. *)
Lemma getUriSettings_seen (u : string) (s : State) :
  fst (getUriSettings h u s) = uriSettingsSeen h s u.
Proof.
  destruct (answers_getUriSettings u s s (readOnly_refl h s)) as [E _]. exact E.
Qed.

Lemma isExcluded_seen (u : string) (s : State) :
  fst (isExcluded h u s)
  = existsb (λ e, matcherMatches h e (uriPath h u))
      (map (folderSettingsSeen h s) (consultedFolders h s u)).
Proof.
  destruct (answers_isExcluded u s s (readOnly_refl h s)) as [E _]. exact E.
Qed.

(** A call that resolves, served by the world [h], only reads. *)
Lemma readOnly_call (c : Call) (s : State) :
  isRead c = true → servedBy h c → readOnly h s (call c s).
Proof.
  intros Hr Hh. destruct c as [h' u|h' u|h' u|h'| |p]; simpl in *; try done; subst h'.
  - apply (answers_getUriSettings u s s (readOnly_refl h s)).
  - apply (answers_getUriSettings u s s (readOnly_refl h s)).
  - apply (answers_isExcluded u s s (readOnly_refl h s)).
  - apply (answers_folders s s (readOnly_refl h s)).
Qed.

End Reads.

(** ** Caches, resets and the world *)

Section Coherence.

Import CSpell Folders DocumentSettings Resolution.

Local Open Scope ds_scope.

Lemma seesAs_trans (h : Host) (a b c : State) :
  seesAs h a b → seesAs h b c → seesAs h a c.
Proof.
  intros (A1 & A2 & A3 & A4 & A5 & A6) (C1 & C2 & C3 & C4 & C5 & C6).
  split; [congruence|]. split; [intros; by rewrite C2|]. split; [intros; by rewrite C3|].
  split; [intros; by rewrite C4|]. split; [congruence|]. intros; by rewrite C6.
Qed.

(** Two instances with nothing cached, the same defaults and the same
    registered files see the same. *)
Lemma seesAs_cleared (h : Host) (s s' : State) :
  (∀ id, isCleared id s) → (∀ id, isCleared id s') →
  configsToImport s' = configsToImport s → defaultSettings s' = defaultSettings s →
  seesAs h s s'.
Proof.
  intros Hs Hs' Hc Hd.
  pose proof (Hs GetUriSettings) as A1. pose proof (Hs FetchSettingsForUri) as A2.
  pose proof (Hs CspellFileSettingsByFolderCache) as A3.
  pose proof (Hs FetchVSCodeConfiguration) as A4.
  pose proof (Hs FoldersLazy) as A5. pose proof (Hs ImportedSettingsLazy) as A6.
  pose proof (Hs' GetUriSettings) as B1. pose proof (Hs' FetchSettingsForUri) as B2.
  pose proof (Hs' CspellFileSettingsByFolderCache) as B3.
  pose proof (Hs' FetchVSCodeConfiguration) as B4.
  pose proof (Hs' FoldersLazy) as B5. pose proof (Hs' ImportedSettingsLazy) as B6.
  simpl in A1, A2, A3, A4, A5, A6, B1, B2, B3, B4, B5, B6.
  apply seesAs_intro.
  - unfold foldersSeen. by rewrite A5, B5.
  - intros u. unfold vscodeConfigurationSeen. by rewrite A4, B4.
  - intros u. unfold fileSettingsSeen. by rewrite A3, B3.
  - unfold importedSeen. by rewrite A6, B6, Hc.
  - done.
  - intros u. left. by rewrite A2, B2.
  - intros u. left. by rewrite A1, B1.
Qed.

Lemma renewed_cleared (s : State) (id : CacheId) : isCleared id (renewed s).
Proof. by destruct id. Qed.

Lemma coherent_cleared (h : Host) (s : State) :
  (∀ id, isCleared id s) → coherent h s.
Proof.
  intros Hs. apply seesAs_cleared; [apply renewed_cleared|done|done|done].
Qed.

Lemma coherent_readOnly (h : Host) (s s' : State) :
  coherent h s → readOnly h s s' → coherent h s'.
Proof.
  intros Hc [Hs (E1 & E2 & _)]. unfold coherent in *.
  assert (renewed s' = renewed s) as -> by (unfold renewed; by rewrite E1, E2).
  by eapply seesAs_trans.
Qed.

Lemma resetSettings_cleared (s : State) (id : CacheId) :
  allRegistered s → isCleared id (snd (resetSettings s)).
Proof. intros Hall. rewrite resetSettings_state by done. by destruct id. Qed.

Lemma allRegistered_call (c : Call) (s : State) :
  allRegistered s → allRegistered (call c s).
Proof.
  intros Hall id. specialize (Hall id).
  by rewrite <- (calls_registry [c] s) in Hall.
Qed.

Lemma coherent_call (h : Host) (c : Call) (s : State) :
  allRegistered s → servedBy h c → coherent h s → coherent h (call c s).
Proof.
  intros Hall Hh Hc. destruct (isRead c) eqn:Hr.
  - eapply coherent_readOnly; [exact Hc|]. by apply readOnly_call.
  - destruct c as [| | | | |p]; try done; apply coherent_cleared; intros id.
    + apply (resetSettings_cleared s id Hall).
    + change (isCleared id
                (snd (resetSettings (clear ImportedSettingsLazy (addConfigToImport p s))))).
      apply resetSettings_cleared. intros i. apply (Hall i).
Qed.

Lemma coherent_calls (h : Host) (cs : list Call) (s : State) :
  allRegistered s → Forall (servedBy h) cs → coherent h s → coherent h (calls cs s).
Proof.
  revert s. induction cs as [|c cs IH]; intros s Hall Hh Hc; [done|].
  apply Forall_cons in Hh as [Hc1 Hh].
  apply (IH (call c s)); [by apply allRegistered_call|done|by apply coherent_call].
Qed.

Lemma create_cleared (defaults : Settings) (id : CacheId) : isCleared id (create defaults).
Proof. by destruct id. Qed.

(** X2. As long as the world does not change, the caches cannot be
    told from no caches: after any sequence of calls, all served by one
    world, the settings of a URI, the exclusion test and the workspace
    folders are what a new instance, with the same defaults and the same
    configuration files registered and nothing cached, answers in this
    world. *)
Theorem caches_are_transparent
    (defaults : Settings) (h : Host) (cs : list Call) (uri : string) :
  Forall (servedBy h) cs →
  let s := calls cs (create defaults) in
  fst (getUriSettings h uri s) = fst (getUriSettings h uri (renewed s))
  ∧ fst (isExcluded h uri s) = fst (isExcluded h uri (renewed s))
  ∧ fst (folders h s) = default [] (getWorkspaceFolders h).
Proof.
  intros Hh s.
  assert (Hc : coherent h s).
  { apply coherent_calls; [apply create_allRegistered|done|].
    apply coherent_cleared, create_cleared. }
  destruct Hc as (C1 & C2 & C3 & C4 & C5 & C6).
  split; [|split].
  - by rewrite !getUriSettings_seen.
  - rewrite !isExcluded_seen. unfold consultedFolders. rewrite C1.
    f_equal. apply map_ext. intros u. apply C4.
  - destruct (answers_folders h s s (readOnly_refl h s)) as [-> _]. by rewrite C1.
Qed.

(** In one world, after a first resolution, a registration and two more
    resolutions, a document has the settings a new instance gives it. *)
Lemma caches_are_transparent_example :
  Forall (servedBy (exampleHost true)) exampleCalls
  ∧ fst (getUriSettings (exampleHost true) "file:///w/a.txt"
           (calls exampleCalls (create exampleDefaults)))
    = fst (getUriSettings (exampleHost true) "file:///w/a.txt"
             (renewed (calls exampleCalls (create exampleDefaults)))).
Proof.
  assert (H : Forall (servedBy (exampleHost true)) exampleCalls)
    by (repeat constructor).
  split; [exact H|].
  exact (proj1 (caches_are_transparent exampleDefaults (exampleHost true) exampleCalls
                  "file:///w/a.txt" H)).
Defined.

(** X3. A call that resolves changes no later answer: in the world that
    served it, the settings of every URI, every exclusion test and the
    workspace folders are after the call what they were before it, in
    any state of the caches; the version, the registered configuration
    files and the registry of caches are untouched. *)
Theorem reads_change_no_answer (h : Host) (c : Call) (s : State) (uri : string) :
  isRead c = true → servedBy h c →
  let s' := call c s in
  fst (getUriSettings h uri s') = fst (getUriSettings h uri s)
  ∧ fst (isExcluded h uri s') = fst (isExcluded h uri s)
  ∧ fst (folders h s') = fst (folders h s)
  ∧ version s' = version s
  ∧ configsToImport s' = configsToImport s
  ∧ cachedValues s' = cachedValues s.
Proof.
  intros Hr Hh s'.
  destruct (readOnly_call h c s Hr Hh) as [(C1 & C2 & C3 & C4 & C5 & C6) (E1 & E2 & E3 & E4)].
  fold s' in C1, C2, C3, C4, C5, C6, E1, E2, E3, E4.
  split; [by rewrite !getUriSettings_seen|]. split.
  { rewrite !isExcluded_seen. unfold consultedFolders. rewrite C1.
    f_equal. apply map_ext. intros u. apply C4. }
  split; [|done].
  destruct (answers_folders h s s (readOnly_refl h s)) as [-> _].
  destruct (answers_folders h s' s' (readOnly_refl h s')) as [-> _]. done.
Qed.

(** An exclusion test between two resolutions of a document. *)
Lemma reads_change_no_answer_example :
  let c := CallIsExcluded (exampleHost true) "file:///w/a.txt" in
  let s := create exampleDefaults in
  isRead c = true
  ∧ servedBy (exampleHost true) c
  ∧ fst (getUriSettings (exampleHost true) "file:///w/b.txt" (call c s))
    = fst (getUriSettings (exampleHost true) "file:///w/b.txt" s)
  ∧ version (call c s) = 0.
Proof.
  cbv zeta.
  destruct (reads_change_no_answer (exampleHost true)
              (CallIsExcluded (exampleHost true) "file:///w/a.txt")
              (create exampleDefaults) "file:///w/b.txt" eq_refl eq_refl)
    as (H1 & _ & _ & H4 & _).
  split; [reflexivity|]. split; [reflexivity|]. split; [exact H1|exact H4].
Defined.

End Coherence.

(** ** The version and the registered configuration files *)

Section Registrations.

Import CSpell Folders DocumentSettings Resolution.

Local Open Scope ds_scope.

Lemma sameInstance_read (c : Call) (s : State) :
  isRead c = true → sameInstance s (call c s).
Proof.
  intros Hr. destruct c as [h u|h u|h u|h| |p]; try done.
  - apply (readOnly_call h (CallGetSettings h u) s eq_refl eq_refl).
  - apply (readOnly_call h (CallGetUriSettings h u) s eq_refl eq_refl).
  - apply (readOnly_call h (CallIsExcluded h u) s eq_refl eq_refl).
  - apply (readOnly_call h (CallFolders h) s eq_refl eq_refl).
Qed.

Lemma resetSettings_rest (s : State) :
  version (snd (resetSettings s)) = version s + 1
  ∧ configsToImport (snd (resetSettings s)) = configsToImport s.
Proof.
  unfold resetSettings, tell, bind, gets, modify. simpl.
  match goal with |- context [foldl ?f ?s0 ?reg] =>
    destruct (clear_all_rest reg s0) as (H1 & H2 & _) end.
  simpl in H1, H2. by rewrite H1, H2.
Qed.

Lemma version_calls (cs : list Call) (s : State) :
  version (calls cs s) = version s + Z.of_nat (length (resetsOf cs)).
Proof.
  revert s. induction cs as [|c cs IH]; intros s; [simpl; lia|].
  change (calls (c :: cs) s) with (calls cs (call c s)). rewrite IH.
  unfold resetsOf. rewrite filter_cons. destruct (isRead c) eqn:Hr.
  - destruct (sameInstance_read c s Hr) as (_ & _ & -> & _).
    rewrite decide_False by done. done.
  - rewrite decide_True by done. simpl length.
    assert (version (call c s) = version s + 1) as ->; [|lia].
    destruct c as [| | | | |p]; try done.
    + apply resetSettings_rest.
    + change (version (snd (resetSettings
                (clear ImportedSettingsLazy (addConfigToImport p s)))) = version s + 1).
      by destruct (resetSettings_rest
                     (clear ImportedSettingsLazy (addConfigToImport p s))) as [-> _].
Qed.

(** X4. The version of the settings counts the resets: it starts at 0,
    every [resetSettings()] and every [registerConfigurationFile()] adds
    exactly one, and no resolution, exclusion test or folder lookup ever
    changes it. *)
Theorem version_counts_resets (defaults : Settings) (cs : list Call) (c : Call) :
  let s := calls cs (create defaults) in
  version s = Z.of_nat (length (resetsOf cs))
  ∧ version (call c s) = (if isRead c then version s else version s + 1)
  ∧ version s ≤ version (call c s).
Proof.
  intros s.
  assert (H1 : version s = Z.of_nat (length (resetsOf cs))).
  { unfold s. rewrite version_calls. reflexivity. }
  assert (H2 : version (call c s) = (if isRead c then version s else version s + 1)).
  { pose proof (version_calls [c] s) as H. change (calls [c] s) with (call c s) in H.
    rewrite H. unfold resetsOf. rewrite filter_cons, filter_nil.
    destruct (isRead c); [rewrite decide_False by done|rewrite decide_True by done];
      simpl; lia. }
  split; [exact H1|]. split; [exact H2|]. rewrite H2. destruct (isRead c); lia.
Qed.

Lemma string_leb_trans (a b c : string) :
  String.leb a b = true → String.leb b c = true → String.leb a c = true.
Proof.
  unfold String.leb. revert b c.
  induction a as [|x a IH]; intros [|y b] [|z c]; simpl; try done.
  unfold Ascii.compare.
  destruct (N.compare_spec (N_of_ascii x) (N_of_ascii y)) as [Exy|Lxy|Gxy];
  destruct (N.compare_spec (N_of_ascii y) (N_of_ascii z)) as [Eyz|Lyz|Gyz];
  destruct (N.compare_spec (N_of_ascii x) (N_of_ascii z)) as [Exz|Lxz|Gxz];
    try done; try lia.
  apply IH.
Qed.

Lemma insertString_perm (x : string) (l : list string) : insertString x l ≡ₚ x :: l.
Proof.
  induction l as [|y ys IH]; simpl; [done|].
  destruct (String.leb x y); [done|]. rewrite IH. apply Permutation_swap.
Qed.

Lemma sortStrings_perm (l : list string) : sortStrings l ≡ₚ l.
Proof.
  induction l as [|x xs IH]; simpl; [done|]. by rewrite insertString_perm, IH.
Qed.

Lemma insertString_sorted (x : string) (l : list string) :
  StronglySorted (λ a b, String.leb a b = true) l →
  StronglySorted (λ a b, String.leb a b = true) (insertString x l).
Proof.
  induction 1 as [|y ys Hs IH Hall]; simpl.
  - repeat constructor.
  - destruct (String.leb x y) eqn:Hle.
    + constructor; [by constructor|]. constructor; [done|].
      eapply Forall_impl; [exact Hall|]. intros z Hz. cbv beta in *.
      by eapply string_leb_trans.
    + constructor; [done|]. rewrite insertString_perm. constructor; [|done].
      destruct (String.leb_total x y) as [H|H]; [congruence|done].
Qed.

Lemma sortStrings_sorted (l : list string) :
  StronglySorted (λ a b, String.leb a b = true) (sortStrings l).
Proof. induction l; simpl; [constructor|]. by apply insertString_sorted. Qed.

(** Two sorted lists without repetition that hold the same strings are
    the same list. *)
Lemma sorted_unique (l1 l2 : list string) :
  StronglySorted (λ a b, String.leb a b = true) l1 →
  StronglySorted (λ a b, String.leb a b = true) l2 →
  NoDup l1 → NoDup l2 → (∀ x, x ∈ l1 ↔ x ∈ l2) → l1 = l2.
Proof.
  intros H1. revert l2. induction H1 as [|x xs Hs IH Hx]; intros l2 H2 N1 N2 Heq.
  - destruct l2 as [|y ys]; [done|].
    assert (Hy : y ∈ @nil string) by (apply Heq, elem_of_cons; by left).
    by apply elem_of_nil in Hy.
  - destruct H2 as [|y ys Hs2 Hy].
    { assert (Hx' : x ∈ @nil string) by (apply Heq, elem_of_cons; by left).
      by apply elem_of_nil in Hx'. }
    apply NoDup_cons in N1 as [Nx N1]. apply NoDup_cons in N2 as [Ny N2].
    assert (x = y) as ->.
    { assert (Hxy : x ∈ y :: ys) by (apply Heq, elem_of_cons; by left).
      assert (Hyx : y ∈ x :: xs) by (apply Heq, elem_of_cons; by left).
      apply elem_of_cons in Hxy as [->|Hxy]; [done|].
      apply elem_of_cons in Hyx as [->|Hyx]; [done|].
      rewrite Forall_forall in Hx, Hy.
      apply String.leb_antisym; [by apply Hx|by apply Hy]. }
    f_equal. apply IH; try done.
    intros z. split; intros Hz.
    + assert (Hz' : z ∈ y :: ys) by (apply Heq, elem_of_cons; by right).
      apply elem_of_cons in Hz' as [->|Hz']; [done|done].
    + assert (Hz' : z ∈ y :: xs) by (apply Heq, elem_of_cons; by right).
      apply elem_of_cons in Hz' as [->|Hz']; [done|done].
Qed.

Lemma omap_registered_cons (c : Call) (cs : list Call) :
  registeredBy (c :: cs)
  = match c with
    | CallRegisterConfigurationFile p => p :: registeredBy cs
    | _ => registeredBy cs
    end.
Proof. by destruct c. Qed.

Lemma configs_register (p : string) (s : State) :
  configsToImport (call (CallRegisterConfigurationFile p) s)
  = if bool_decide (p ∈ configsToImport s) then configsToImport s
    else (configsToImport s ++ [p])%list.
Proof.
  change (call (CallRegisterConfigurationFile p) s)
    with (snd (resetSettings (clear ImportedSettingsLazy (addConfigToImport p s)))).
  by destruct (resetSettings_rest
                 (clear ImportedSettingsLazy (addConfigToImport p s))) as [_ ->].
Qed.

(** The set of registered files grows by the paths registered. *)
Lemma configs_calls (cs : list Call) (s : State) :
  NoDup (configsToImport s) →
  NoDup (configsToImport (calls cs s))
  ∧ ∀ p, p ∈ configsToImport (calls cs s) ↔ p ∈ configsToImport s ∨ p ∈ registeredBy cs.
Proof.
  revert s. induction cs as [|c cs IH]; intros s Hnd.
  - split; [done|]. intros p. simpl. rewrite elem_of_nil. tauto.
  - change (calls (c :: cs) s) with (calls cs (call c s)).
    destruct (isRead c) eqn:Hr.
    + destruct (sameInstance_read c s Hr) as (E & _).
      destruct (IH (call c s)) as [Hn Hin]; [by rewrite E|].
      split; [done|]. intros p. rewrite Hin, E, omap_registered_cons.
      by destruct c.
    + destruct c as [| | | | |q]; try done.
      * assert (Hcfg : configsToImport (call CallResetSettings s) = configsToImport s)
          by apply resetSettings_rest.
        destruct (IH (call CallResetSettings s)) as [Hn Hin]; [by rewrite Hcfg|].
        split; [done|]. intros p. by rewrite Hin, Hcfg.
      * pose proof (configs_register q s) as Hcfg.
        destruct (IH (call (CallRegisterConfigurationFile q) s)) as [Hn Hin].
        { rewrite Hcfg. case_bool_decide as Hq; [done|].
          apply NoDup_app. split; [done|]. split; [|apply NoDup_singleton].
          intros x Hx ->%list_elem_of_singleton. done. }
        split; [done|]. intros p. rewrite Hin, Hcfg, omap_registered_cons.
        case_bool_decide as Hq.
        -- rewrite elem_of_cons. split; [tauto|]. intros [H|[->|H]]; tauto.
        -- rewrite elem_of_app, list_elem_of_singleton, elem_of_cons. tauto.
Qed.

(** X5. The registered configuration files are read in ascending order
    of their paths, each once, whatever the order in which they were
    registered and however often: the paths [_importSettings] hands to
    the library are exactly the registered ones, sorted and without
    repetition, and two instances on which the same paths were
    registered read the same list. *)
Theorem imports_sorted_whatever_the_order
    (defaults : Settings) (cs : list Call) (h : Host) :
  let s := calls cs (create defaults) in
  let paths := sortStrings (configsToImport s) in
  (∀ p, p ∈ paths ↔ p ∈ registeredBy cs)
  ∧ NoDup paths
  ∧ StronglySorted (λ a b, String.leb a b = true) paths
  ∧ fst (_importSettings h s) = cspellReadSettingsFiles h paths
  ∧ io (snd (_importSettings h s)) = (io s ++ [IoReadImportedSettingsFiles paths])%list
  ∧ (∀ defaults' cs', (∀ p, p ∈ registeredBy cs' ↔ p ∈ registeredBy cs) →
       sortStrings (configsToImport (calls cs' (create defaults'))) = paths).
Proof.
  intros s paths.
  assert (Hreg : ∀ d l,
    NoDup (sortStrings (configsToImport (calls l (create d))))
    ∧ ∀ p, p ∈ sortStrings (configsToImport (calls l (create d))) ↔ p ∈ registeredBy l).
  { intros d l. destruct (configs_calls l (create d)) as [Hn Hin]; [apply NoDup_nil_2|].
    split; [by rewrite sortStrings_perm|].
    intros p. rewrite sortStrings_perm, Hin.
    change (configsToImport (create d)) with (@nil string). rewrite elem_of_nil. tauto. }
  destruct (Hreg defaults cs) as [Hn Hin].
  split; [exact Hin|]. split; [exact Hn|]. split; [apply sortStrings_sorted|].
  split; [reflexivity|]. split; [reflexivity|].
  intros d' cs' Hsame. destruct (Hreg d' cs') as [Hn' Hin'].
  apply sorted_unique; try done; try apply sortStrings_sorted.
  intros x. unfold paths, s. by rewrite Hin', Hin, Hsame.
Qed.

End Registrations.

(** ** Folders of a document *)

Section OwningFolder.

Import CSpell Folders DocumentSettings Resolution.

Local Open Scope ds_scope.

Lemma matchingFoldersForUri_perm (fs : list WorkspaceFolder) (docUri : string) :
  Folders.matchingFoldersForUri fs docUri
  ≡ₚ filter (λ f, isPrefixOf (wf_uri f) docUri = true) fs.
Proof.
  unfold Folders.matchingFoldersForUri.
  rewrite <- (sortByLength_perm (filter _ fs)) at 2. symmetry. apply Permutation_rev.
Qed.

Lemma matchingFoldersForUri_sorted (fs : list WorkspaceFolder) (docUri : string) :
  StronglySorted longerOrEqual (Folders.matchingFoldersForUri fs docUri).
Proof.
  unfold Folders.matchingFoldersForUri.
  apply (StronglySorted_rev shorterOrEqual), sortByLength_sorted.
Qed.

Lemma elem_of_matchingFoldersForUri (fs : list WorkspaceFolder) (docUri : string)
    (f : WorkspaceFolder) :
  f ∈ Folders.matchingFoldersForUri fs docUri
  ↔ f ∈ fs ∧ isPrefixOf (wf_uri f) docUri = true.
Proof. by rewrite matchingFoldersForUri_perm, list_elem_of_filter, (comm and). Qed.

Lemma findMatchingFolder_value (h : Host) (docUri : string) (s : State) :
  fst (findMatchingFolder h docUri s) = owningFolder h s docUri.
Proof.
  unfold owningFolder, foldersSeen. run_methods.
  by destruct (foldersLazy s).
Qed.

(** X6. The folder whose settings a document gets is the innermost
    workspace folder around it: a folder whose URI is a prefix of the
    document URI, and no folder with this property has a longer URI.
    When no workspace folder is a prefix, or the editor names no
    folders at all, it is the folder [root] made up from the document
    URI with its path removed. *)
Theorem owning_folder_is_innermost (h : Host) (s : State) (docUri : string) :
  let f := fst (findMatchingFolder h docUri s) in
  let fs := foldersSeen h s in
  let root :=
    mkFolder (uriRoot h (if String.eqb docUri "" then defaultRootUri else docUri)) "root" in
  ((∃ g, g ∈ fs ∧ isPrefixOf (wf_uri g) docUri = true) →
     f ∈ fs
     ∧ (∃ rest, docUri = (wf_uri f ++ rest)%string)
     ∧ ∀ g, g ∈ fs → isPrefixOf (wf_uri g) docUri = true →
         (String.length (wf_uri g) ≤ String.length (wf_uri f))%nat)
  ∧ ((∀ g, g ∈ fs → isPrefixOf (wf_uri g) docUri = false) → f = root)
  ∧ (foldersLazy s = None → getWorkspaceFolders h = None → f = root).
Proof.
  intros f fs root. unfold f. rewrite findMatchingFolder_value. unfold owningFolder.
  fold fs. fold root.
  pose proof (elem_of_matchingFoldersForUri fs docUri) as Hin.
  pose proof (matchingFoldersForUri_sorted fs docUri) as Hsorted.
  assert (Hnone : (∀ g, g ∈ fs → isPrefixOf (wf_uri g) docUri = false) →
    match Folders.matchingFoldersForUri fs docUri with f0 :: _ => f0 | [] => root end = root).
  { intros Hno. destruct (Folders.matchingFoldersForUri fs docUri) as [|f0 rest]; [done|].
    destruct (proj1 (Hin f0)) as [Hf0 Hp]; [apply elem_of_cons; by left|].
    rewrite (Hno _ Hf0) in Hp. discriminate. }
  split; [|split; [exact Hnone|]].
  - intros (g & Hg & Hp).
    destruct (Folders.matchingFoldersForUri fs docUri) as [|f0 rest].
    { assert (Hx : g ∈ @nil WorkspaceFolder) by by apply Hin. by apply elem_of_nil in Hx. }
    destruct (proj1 (Hin f0)) as [Hf0 Hp0]; [apply elem_of_cons; by left|].
    split; [done|]. split; [by apply isPrefixOf_spec|].
    intros g' Hg' Hp'.
    assert (Hm : g' ∈ f0 :: rest) by by apply Hin.
    apply elem_of_cons in Hm as [->|Hm]; [done|].
    apply StronglySorted_inv in Hsorted as [_ Hall].
    rewrite Forall_forall in Hall. apply (Hall g' Hm).
  - intros Hlazy Hnull. apply Hnone. intros g Hg.
    unfold fs, foldersSeen in Hg. rewrite Hlazy, Hnull in Hg.
    by apply elem_of_nil in Hg.
Qed.

(** X7. A document is excluded when the matcher of one of the folders
    consulted for it matches its path. The folders consulted are all
    workspace folders whose URI is a prefix of the document URI; when
    there is none, the first workspace folder, though the document is
    not in it; and when the editor names no folder, a folder made up
    from the document URI itself. *)
Theorem isExcluded_asks_every_matching_folder (h : Host) (s : State) (uri : string) :
  let consulted := consultedFolders h s uri in
  let matching := Folders.matchingFoldersForUri (foldersSeen h s) uri in
  (fst (isExcluded h uri s) = true
   ↔ ∃ u, u ∈ consulted
          ∧ matcherMatches h (folderSettingsSeen h s u) (uriPath h uri) = true)
  ∧ (∀ u, u ∈ consulted →
       (∃ f, f ∈ foldersSeen h s ∧ wf_uri f = u ∧ ∃ rest, uri = (u ++ rest)%string)
       ∨ (matching = [] ∧ ∃ f rest, foldersSeen h s = f :: rest ∧ u = wf_uri f)
       ∨ (foldersSeen h s = [] ∧ u = uri))
  ∧ (∀ f, f ∈ foldersSeen h s → (∃ rest, uri = (wf_uri f ++ rest)%string) →
       wf_uri f ∈ consulted)
  ∧ (∀ f rest, foldersSeen h s = f :: rest → matching = [] → consulted = [wf_uri f])
  ∧ (foldersSeen h s = [] → consulted = [uri]).
Proof.
  intros consulted matching.
  split; [|split; [|split; [|split]]].
  - rewrite isExcluded_seen. fold consulted. rewrite existsb_exists. split.
    + intros (e & He & Hm). apply list_elem_of_In, list_elem_of_fmap in He
        as (u & -> & Hu). by exists u.
    + intros (u & Hu & Hm). exists (folderSettingsSeen h s u). split; [|done].
      apply list_elem_of_In, list_elem_of_fmap. by exists u.
  - intros u Hu. unfold consulted, consultedFolders in Hu. fold matching in Hu.
    destruct matching as [|m ms] eqn:Hmatching.
    + apply list_elem_of_singleton in Hu.
      destruct (foldersSeen h s) as [|f rest] eqn:Hfs.
      * right. right. done.
      * right. left. split; [done|]. by exists f, rest.
    + left. apply list_elem_of_fmap in Hu as (f & -> & Hf).
      rewrite <- Hmatching in Hf. unfold matching in Hf.
      apply elem_of_matchingFoldersForUri in Hf as [Hf Hp].
      exists f. split; [done|]. split; [done|]. by apply isPrefixOf_spec.
  - intros f Hf Hp. apply isPrefixOf_spec in Hp.
    assert (Hm : f ∈ matching) by by apply elem_of_matchingFoldersForUri.
    unfold consulted, consultedFolders. fold matching.
    destruct matching as [|m ms]; [by apply elem_of_nil in Hm|].
    apply list_elem_of_fmap. by exists f.
  - intros f rest Hfs Hm. unfold consulted, consultedFolders. fold matching.
    by rewrite Hm, Hfs.
  - intros Hfs. unfold consulted, consultedFolders. by rewrite Hfs.
Qed.

(** X8. In a world that does not change, the matcher of every folder
    consulted for a document is built from the three default exclusions
    followed by the [ignorePaths] of the folder's settings, and is
    rooted at the path of the folder URI: no settings take a default
    exclusion away, also when the folder settings come from the cache. *)
Theorem folder_matcher_keeps_default_excludes
    (defaults : Settings) (h : Host) (cs : list Call) (u : string) :
  Forall (servedBy h) cs →
  let s := calls cs (create defaults) in
  let e := fst (fetchSettingsForUri h u s) in
  ext_uri e = u
  ∧ ext_settings e = mergeSettings (ext_vscodeSettings e) [fileSettingsSeen h (renewed s) u]
  ∧ ext_globMatcher e
    = ((defaultExclude ++ get_array_or_empty (ext_settings e) "ignorePaths")%list,
       uriPath h u)
  ∧ (∀ g, g ∈ defaultExclude → g ∈ fst (ext_globMatcher e))
  ∧ (∀ g, g ∈ get_array_or_empty (ext_settings e) "ignorePaths" →
       g ∈ fst (ext_globMatcher e)).
Proof.
  intros Hh s e.
  assert (Hc : coherent h s).
  { apply coherent_calls; [apply create_allRegistered|done|].
    apply coherent_cleared, create_cleared. }
  destruct Hc as (_ & _ & _ & C4 & _).
  assert (He : e = fst (_fetchSettingsForFolderUri h u (renewed s))).
  { unfold e.
    destruct (answers_fetchSettingsForUri h u s s (readOnly_refl h s)) as [-> _].
    rewrite C4. unfold folderSettingsSeen. simpl. by rewrite lookup_empty. }
  rewrite fetchSettingsForFolderUri_value in He. cbv zeta in He. rewrite He.
  cbn [ext_uri ext_vscodeSettings ext_settings ext_globMatcher fst].
  split; [done|]. split; [done|]. split; [done|].
  split; intros g Hg; apply elem_of_app; [by left|by right].
Qed.

(** The folder settings of the example, once they are cached. *)
Lemma folder_matcher_keeps_default_excludes_example :
  Forall (servedBy (exampleHost true)) exampleCalls
  ∧ "**/*.rendered"
    ∈ fst (ext_globMatcher
             (fst (fetchSettingsForUri (exampleHost true) "file:///w"
                     (calls exampleCalls (create exampleDefaults))))).
Proof.
  assert (H : Forall (servedBy (exampleHost true)) exampleCalls)
    by (repeat constructor).
  split; [exact H|].
  destruct (folder_matcher_keeps_default_excludes exampleDefaults (exampleHost true)
              exampleCalls "file:///w" H) as (_ & _ & _ & Hd & _).
  apply Hd. apply elem_of_cons. by left.
Defined.

End OwningFolder.

(** ** The exclusions of the editor *)

Section EditorExcludes.

Import CSpell Folders DocumentSettings Resolution.

Local Open Scope ds_scope.



End EditorExcludes.

(** * Further properties of the server *)

(** ** What a validation asks, and when *)

Section Questions.

Import CSpell Server Requests.

Local Open Scope async_scope.

Variable libraryDefaults : Settings.
Variable constructSettingsForText : Settings → string → string → Outcome Settings.

(** X10. One [validateTextDocument] call asks at most three questions, in
    this order: the exclusion test, the settings of the document, the
    analyzer. It asks nothing at all when the scheme is not allowed, when
    the settings of the pair have [enabled] unset or when they do not
    list the language. The analyzer is asked at most once, only after
    the exclusion test answered no, for the document of the pair, and
    with the settings built from the settings resolved during the call,
    which must have [enabled] set; the settings of the pair only decide
    whether the call goes that far. *)
Theorem analyzer_is_asked_last_and_once (o : Oracle) (dsp : DocSettingPair) :
  let doc := dsp_doc dsp in
  let settings := dsp_settings dsp in
  let uri := doc_uri doc in
  let qs := questions o (validateTextDocument libraryDefaults constructSettingsForText dsp) in
  (qs = [] ∨ qs = [AskIsUriExcluded uri]
   ∨ qs = [AskIsUriExcluded uri; AskActiveSettings uri]
   ∨ ∃ s, qs = [AskIsUriExcluded uri; AskActiveSettings uri; AskAnalyzer doc s])
  ∧ (DocumentSettings.isUriAllowed uri (get_array settings "allowedSchemas") = false
     ∨ truthy (settings !! "enabled") = false
     ∨ isLanguageEnabled (doc_languageId doc) settings = false → qs = [])
  ∧ (∀ d s, AskAnalyzer d s ∈ qs →
       d = doc
       ∧ DocumentSettings.isUriAllowed uri (get_array settings "allowedSchemas") = true
       ∧ truthy (settings !! "enabled") = true
       ∧ isLanguageEnabled (doc_languageId doc) settings = true
       ∧ isExcludedOf o uri = Resolved false
       ∧ ∃ active, activeSettingsOf o uri = Resolved active
           ∧ constructSettingsForText (baseSettingsOf libraryDefaults active)
               (doc_text doc) (doc_languageId doc) = Resolved s
           ∧ truthy (s !! "enabled") = true).
Proof.
  intros doc settings uri qs. unfold qs, validateTextDocument, validate, validateBody.
  fold doc settings uri.
  unfold shouldValidateDocument, getSettingsToUseForDocument, getBaseSettings,
    getActiveSettings, isUriExcluded.
  fold doc settings uri.
  assert (Hnil : ∀ P : TextDocument → Settings → Prop,
            ∀ d s, AskAnalyzer d s ∈ @nil Question → P d s).
  { intros P d s H. by apply elem_of_nil in H. }
  assert (H1 : ∀ P : TextDocument → Settings → Prop,
            ∀ d s, AskAnalyzer d s ∈ [AskIsUriExcluded uri] → P d s).
  { intros P d s H. apply list_elem_of_singleton in H. discriminate. }
  assert (H2 : ∀ P : TextDocument → Settings → Prop,
            ∀ d s, AskAnalyzer d s ∈ [AskIsUriExcluded uri; AskActiveSettings uri] → P d s).
  { intros P d s H. apply elem_of_cons in H as [H|H]; [discriminate|].
    apply list_elem_of_singleton in H. discriminate. }
  destruct (DocumentSettings.isUriAllowed uri (get_array settings "allowedSchemas"));
    simpl.
  2: { split; [by left|]. split; [done|]. apply Hnil. }
  destruct (truthy (settings !! "enabled")); simpl.
  2: { split; [by left|]. split; [done|]. apply Hnil. }
  destruct (isLanguageEnabled (doc_languageId doc) settings); simpl.
  2: { split; [by left|]. split; [done|]. apply Hnil. }
  assert (Hno' : true = false ∨ true = false ∨ true = false → False)
    by (intros [|[|]]; discriminate).
  destruct (isExcludedOf o uri) as [[|]|e1] eqn:Hex; simpl.
  - split; [right; by left|]. split; [by intros ?%Hno'|]. apply H1.
  - destruct (activeSettingsOf o uri) as [active|e2] eqn:Hact; simpl.
    + change (set_key (merge (defaultSettings libraryDefaults) active)
                "enabledLanguageIds" (active !! "enabledLanguageIds"))
        with (baseSettingsOf libraryDefaults active).
      destruct (constructSettingsForText (baseSettingsOf libraryDefaults active)
                  (doc_text doc) (doc_languageId doc)) as [s|e3] eqn:Hcst; simpl.
      * destruct (truthy (s !! "enabled")) eqn:Hen; simpl.
        -- destruct (analyzerOf o doc s) as [ds|e4]; simpl;
             (split; [right; right; right; by exists s|]; split; [by intros ?%Hno'|];
              intros d s' Hin;
              apply elem_of_cons in Hin as [Hin|Hin]; [discriminate|];
              apply elem_of_cons in Hin as [Hin|Hin]; [discriminate|];
              apply list_elem_of_singleton in Hin; injection Hin as -> ->;
              repeat split; try done; by exists active).
        -- split; [right; right; by left|]. split; [by intros ?%Hno'|]. apply H2.
      * split; [right; right; by left|]. split; [by intros ?%Hno'|]. apply H2.
    + split; [right; right; by left|]. split; [by intros ?%Hno'|]. apply H2.
  - split; [right; by left|]. split; [by intros ?%Hno'|]. apply H1.
Qed.

End Questions.

(** ** The request handlers *)

Section Handlers.

Import CSpell Server Requests.

Local Open Scope async_scope.

Variable libraryDefaults : Settings.
Variable constructSettingsForText : Settings → string → string → Outcome Settings.
Variable documents : string → option TextDocument.
Variable extractWordsFromCode : string → list TextOffset.
Variable toLowerCase : string → string.

(** X11. [handleIsSpellCheckEnabled]: without a URI the exclusion test
    is never asked and both answers are left undefined, though the
    settings are still resolved, for the empty URI. With a URI the file
    is enabled when it is not excluded, and the language answer is given
    only if a language id came with the request: whether the settings of
    the URI list it. Nothing is caught: a failing exclusion test or
    settings resolution rejects the request, the first before the
    settings are asked for. *)
Theorem isSpellCheckEnabled_answers (o : Oracle) (params : TextDocumentInfo) :
  let uri := info_uri params in
  let languageId := info_languageId params in
  let key := default "" uri in
  let m := handleIsSpellCheckEnabled params in
  (present uri = false →
     questions o m = [AskActiveSettings key]
     ∧ ∀ s, activeSettingsOf o key = Resolved s →
         outcomeOf o m = Resolved (mkEnabled None None))
  ∧ (present uri = true →
     (∀ ex s, isExcludedOf o key = Resolved ex → activeSettingsOf o key = Resolved s →
        questions o m = [AskIsUriExcluded key; AskActiveSettings key]
        ∧ outcomeOf o m
          = Resolved (mkEnabled
              (if present languageId
               then Some (isLanguageEnabled (default "" languageId) s) else None)
              (Some (negb ex))))
     ∧ (∀ e, isExcludedOf o key = Rejected e →
          questions o m = [AskIsUriExcluded key] ∧ outcomeOf o m = Rejected e))
  ∧ (∀ e, activeSettingsOf o key = Rejected e →
       (present uri = true → ∃ ex, isExcludedOf o key = Resolved ex) →
       outcomeOf o m = Rejected e).
Proof.
  intros uri languageId key m.
  unfold m, handleIsSpellCheckEnabled, fileEnabledOf, getActiveUriSettings,
    isUriExcluded, outcomeOf.
  fold uri languageId key.
  destruct (present uri) eqn:Hu; simpl.
  - split; [done|]. split; [split|].
    + intros ex s Hex Hs. rewrite Hex. simpl. rewrite Hs. simpl.
      rewrite andb_true_r. done.
    + intros e Hex. by rewrite Hex.
    + intros e Hs [ex Hex]; [done|]. rewrite Hex. simpl. by rewrite Hs.
  - split; [|split; [done|]].
    + intros _. split; [by destruct (activeSettingsOf o key)|].
      intros s Hs. rewrite Hs. simpl. by rewrite andb_false_r.
    + intros e Hs _. by rewrite Hs.
Qed.

(** X12. [handleGetConfigurationForDocument]: the settings of the URI and
    whether the file is enabled are answered for any URI, but the
    language answer and the document settings only for a URI the
    document manager holds a document for. The language id of the
    request only decides whether the language answer is given: it is
    whether the settings list the language id of the open document. The
    document settings are built from the settings resolved for the
    document; a failure there rejects the request. *)
Theorem configuration_needs_open_document
    (o : Oracle) (params : TextDocumentInfo) (s : Settings) (fe : option bool) :
  let uri := info_uri params in
  let languageId := info_languageId params in
  let key := default "" uri in
  let doc := if present uri then documents key else None in
  let m := handleGetConfigurationForDocument libraryDefaults constructSettingsForText
             documents params in
  activeSettingsOf o key = Resolved s →
  outcomeOf o (fileEnabledOf uri) = Resolved fe →
  (doc = None → outcomeOf o m = Resolved (mkConfiguration None fe s None))
  ∧ (∀ d active ds, doc = Some d →
       activeSettingsOf o (doc_uri d) = Resolved active →
       constructSettingsForText (baseSettingsOf libraryDefaults active)
         (doc_text d) (doc_languageId d) = Resolved ds →
       outcomeOf o m
       = Resolved (mkConfiguration
           (if present languageId then Some (isLanguageEnabled (doc_languageId d) s)
            else None)
           fe s (Some ds)))
  ∧ (∀ d e, doc = Some d → activeSettingsOf o (doc_uri d) = Rejected e →
       outcomeOf o m = Rejected e)
  ∧ (∀ d active e, doc = Some d →
       activeSettingsOf o (doc_uri d) = Resolved active →
       constructSettingsForText (baseSettingsOf libraryDefaults active)
         (doc_text d) (doc_languageId d) = Rejected e →
       outcomeOf o m = Rejected e).
Proof.
  intros uri languageId key doc m Hs Hfe.
  unfold m, handleGetConfigurationForDocument, getActiveUriSettings,
    getSettingsToUseForDocument, getBaseSettings, getActiveSettings, outcomeOf in *.
  fold uri languageId key. fold doc.
  assert (Hfile : ∀ (busy : bool) (logs : list LogEntry)
                    (k : option bool → Async GetConfigurationForDocumentResult),
    runAsync o (let! f := fileEnabledOf uri in k f) busy logs
    = runAsync o (k fe) busy logs).
  { intros busy logs k. unfold fileEnabledOf, isUriExcluded in *. fold key in Hfe |- *.
    destruct (present uri); simpl in *.
    - destruct (isExcludedOf o key) as [ex|e]; simpl in *; [|discriminate].
      by injection Hfe as <-.
    - by injection Hfe as <-. }
  split; [|split; [|split]].
  - intros ->. simpl. rewrite Hs. simpl. by rewrite Hfile.
  - intros d active ds -> Ha Hc. simpl. rewrite Ha. simpl.
    change (set_key (merge (defaultSettings libraryDefaults) active)
              "enabledLanguageIds" (active !! "enabledLanguageIds"))
      with (baseSettingsOf libraryDefaults active).
    rewrite Hc. simpl. rewrite Hs. simpl. by rewrite Hfile.
  - intros d e -> Ha. simpl. by rewrite Ha.
  - intros d active e -> Ha Hc. simpl. rewrite Ha. simpl.
    change (set_key (merge (defaultSettings libraryDefaults) active)
              "enabledLanguageIds" (active !! "enabledLanguageIds"))
      with (baseSettingsOf libraryDefaults active).
    by rewrite Hc.
Qed.

Lemma dedup_NoDup (seen l : list string) : NoDup (dedup seen l).
Proof.
  revert seen. induction l as [|x xs IH]; intros seen; simpl; [constructor|].
  case_bool_decide as Hx; [apply IH|].
  constructor; [|apply IH]. rewrite dedup_elem_of. intros [_ Hn].
  apply Hn, elem_of_cons. by left.
Qed.

Lemma dedup_length (seen l : list string) : (length (dedup seen l) ≤ length l)%nat.
Proof.
  revert seen. induction l as [|x xs IH]; intros seen; simpl; [done|].
  case_bool_decide.
  - specialize (IH seen). lia.
  - specialize (IH (x :: seen)). simpl. lia.
Qed.

(** X13. [handleSplitTextIntoWords]: the words returned are the words
    the library finds in the text, in lower case, each once: no word is
    repeated, also not in another spelling of upper and lower case, and
    a text without words gives the empty list. *)
Theorem split_words_are_distinct (text : string) :
  let found := extractWordsFromCode text in
  let ws := words (handleSplitTextIntoWords extractWordsFromCode toLowerCase text) in
  NoDup ws
  ∧ (∀ w, w ∈ ws ↔ ∃ t, t ∈ found ∧ w = toLowerCase (to_text t))
  ∧ (∀ t, t ∈ found →
       length (filter (λ w, w = toLowerCase (to_text t)) ws) = 1%nat)
  ∧ (length ws ≤ length found)%nat
  ∧ (found = [] → ws = []).
Proof.
  intros found ws. unfold ws, handleSplitTextIntoWords, textToWords. simpl. fold found.
  assert (Hin : ∀ w, w ∈ dedup [] (map toLowerCase (map to_text found))
                     ↔ ∃ t, t ∈ found ∧ w = toLowerCase (to_text t)).
  { intros w. rewrite dedup_elem_of, map_map. split.
    - intros [(t & -> & Ht)%list_elem_of_fmap _]. by exists t.
    - intros (t & Ht & ->). split; [|apply not_elem_of_nil].
      apply list_elem_of_fmap. by exists t. }
  pose proof (dedup_NoDup [] (map toLowerCase (map to_text found))) as Hnd.
  split; [exact Hnd|]. split; [exact Hin|]. split; [|split].
  - intros t Ht.
    assert (Hw : toLowerCase (to_text t) ∈ dedup [] (map toLowerCase (map to_text found)))
      by (apply Hin; by exists t).
    revert Hnd Hw. generalize (dedup [] (map toLowerCase (map to_text found))).
    generalize (toLowerCase (to_text t)). clear. intros w l Hnd Hw.
    induction Hnd as [|x xs Hx Hnd IH]; [by apply elem_of_nil in Hw|].
    rewrite filter_cons. apply elem_of_cons in Hw as [->|Hw].
    + rewrite decide_True by done. simpl. f_equal.
      apply length_zero_iff_nil. apply filter_nil_of_none. intros y Hy ->. done.
    + rewrite decide_False; [by apply IH|]. intros ->. done.
  - etransitivity; [apply dedup_length|]. by rewrite !length_map.
  - intros ->. reflexivity.
Qed.

End Handlers.

Section HandlerExamples.

Import CSpell Server Requests.

(** A request for the open document of the example. *)
Lemma configuration_needs_open_document_example :
  let params := mkInfo (Some "file:///w/a.txt") (Some "go") None in
  activeSettingsOf exampleOracle "file:///w/a.txt" = Resolved exampleSettings
  ∧ outcomeOf exampleOracle (fileEnabledOf (Some "file:///w/a.txt")) = Resolved (Some true)
  ∧ outcomeOf exampleOracle
      (handleGetConfigurationForDocument ∅ plainText exampleDocuments params)
    = Resolved (mkConfiguration (Some true) (Some true) exampleSettings
                  (Some (baseSettingsOf ∅ exampleSettings))).
Proof.
  cbv zeta.
  assert (H1 : activeSettingsOf exampleOracle "file:///w/a.txt" = Resolved exampleSettings)
    by reflexivity.
  assert (H2 : outcomeOf exampleOracle (fileEnabledOf (Some "file:///w/a.txt"))
               = Resolved (Some true)) by reflexivity.
  split; [exact H1|]. split; [exact H2|].
  destruct (configuration_needs_open_document ∅ plainText exampleDocuments exampleOracle
              (mkInfo (Some "file:///w/a.txt") (Some "go") None) exampleSettings
              (Some true) H1 H2) as (_ & Hopen & _).
  exact (Hopen docA exampleSettings (baseSettingsOf ∅ exampleSettings)
           eq_refl eq_refl eq_refl).
Defined.

End HandlerExamples.

(** ** Results go to the pipeline of their document *)

Section Routing.

Import CSpell Server Scheduling.

Local Open Scope async_scope.

Variable libraryDefaults : Settings.
Variable constructSettingsForText : Settings → string → string → Outcome Settings.
Variable completion : DurationCompletion.

Lemma resolvesWith_abind {A B} (Q : A → Prop) (P : B → Prop) (m : Async A)
    (f : A → Async B) :
  resolvesWith Q m → (∀ a, Q a → resolvesWith P (f a)) → resolvesWith P (abind m f).
Proof.
  intros Hm Hf. induction m as [a|e|l k IH|b k IH|u k IH|u k IH|doc s k IH]; simpl in *;
    try done; try (by apply IH); try (by apply Hf); intros o; by apply IH.
Qed.

Lemma resolvesWith_tryCatch {A} (P : A → Prop) (m : Async A) (h : Exn → Async A) :
  resolvesWith P m → (∀ e, resolvesWith P (h e)) → resolvesWith P (tryCatch m h).
Proof.
  intros Hm Hh. induction m as [a|e|l k IH|b k IH|u k IH|u k IH|doc s k IH]; simpl in *;
    try done; try (by apply IH); intros o; by apply IH.
Qed.

Lemma resolvesWith_True {A} (m : Async A) : resolvesWith (λ _, True) m.
Proof. induction m; simpl; auto. Qed.

(** [validateTextDocument] answers for the URI of its document. *)
Lemma resolvesWith_validateTextDocument (dsp : DocSettingPair) :
  resolvesWith (λ r, vr_uri r = doc_uri (dsp_doc dsp))
    (validateTextDocument libraryDefaults constructSettingsForText dsp).
Proof.
  unfold validateTextDocument, validate. simpl.
  apply (resolvesWith_abind (λ r, vr_uri r = doc_uri (dsp_doc dsp))); [|done].
  apply (resolvesWith_abind
           (λ returned, ∀ r, returned = Some r → vr_uri r = doc_uri (dsp_doc dsp))).
  2: { intros [r|] Hr; simpl; [by apply Hr|done]. }
  apply resolvesWith_tryCatch; [|by intros e].
  unfold validateBody.
  destruct (negb (DocumentSettings.isUriAllowed _ _)); [by intros r [= <-]|].
  apply (resolvesWith_abind (λ _, True)); [apply resolvesWith_True|].
  intros shouldCheck _. destruct (negb shouldCheck); [by intros r [= <-]|].
  apply (resolvesWith_abind (λ _, True)); [apply resolvesWith_True|].
  intros settingsToUse _. destruct (truthy _); [|done].
  simpl. intros o. destruct o; simpl; [|done]. by intros r [= <-].
Qed.

Lemma resolvesWith_resumeWith (P : ValidationResult → Prop)
    (m m' : Async ValidationResult) (a : Answer) :
  resolvesWith P m → resumeWith m a = Some m' → resolvesWith P m'.
Proof. destruct m, a; simpl; intros Hm [= <-]; try done. Qed.

Lemma resolvesWith_settle (P : ValidationResult → Prop)
    (m : Async ValidationResult) (st : State) :
  resolvesWith P m → resolvesWith P (fst (settle m st)).
Proof.
  revert st. induction m as [a|e|l k IH|b k IH|u k IH|u k IH|doc s k IH];
    intros st Hm; simpl in *; try done; by apply IH.
Qed.

Lemma keepsUris_trans (a b c : State) : keepsUris a b → keepsUris b c → keepsUris a c.
Proof.
  intros [Hn1 H1] [Hn2 H2]. split; [lia|]. intros id p'' Hin Hlt.
  destruct (H2 _ _ Hin) as (p' & Hp' & Hu'); [lia|].
  destruct (H1 _ _ Hp' Hlt) as (p & Hp & Hu). exists p. split; [done|congruence].
Qed.

Lemma keepsUris_shrink (st st' : State) :
  observersShrink (observers st) (observers st') → (nextId st ≤ nextId st')%nat →
  keepsUris st st'.
Proof. intros [_ Hel] Hn. split; [done|]. intros id p' Hin _. by apply Hel. Qed.

Lemma keepsUris_narrows (st st' : State) : narrows st st' → keepsUris st st'.
Proof. intros (Hs & _ & Hn). by apply keepsUris_shrink. Qed.

Lemma routed_keeps (st st' : State) :
  keepsUris st st' → tasks st' = tasks st → routed st → routed st'.
Proof.
  intros [Hn Hk] Ht Hr t Hin. rewrite Ht in Hin.
  destruct (Hr t Hin) as (R1 & R2 & R3). split; [done|]. split; [lia|].
  intros p' Hp'. destruct (Hk _ _ Hp' R2) as (p & Hp & <-). by apply R3.
Qed.

Lemma keepsUris_subscribePipeline (doc : TextDocument) (st : State) :
  tracksPipelines st → keepsUris st (subscribePipeline doc st).
Proof.
  intros (Hreg & Hnd & Hfresh). unfold subscribePipeline.
  set (pl := if DocumentSettings.isUriBlackListed (doc_uri doc)
             then Ignoring (doc_uri doc) else Validating (doc_uri doc) [] None).
  set (st1 := freshId (setObservers (observers st ++ [(nextId st, pl)]) st)).
  assert (Hnd1 : NoDup (observers st1).*1).
  { simpl. rewrite fmap_app. apply NoDup_app. split; [done|]. split.
    - intros id Hin Hlast. apply list_elem_of_singleton in Hlast. simpl in Hlast.
      specialize (Hfresh _ Hin). lia.
    - apply NoDup_singleton. }
  set (st2 := match replayBuffer st1 with
              | Some buffered => deliverTo (nextId st) buffered st1
              | None => st1
              end).
  assert (Hn : narrows st1 st2).
  { unfold st2. destruct (replayBuffer st1); [by apply narrows_deliverTo|apply narrows_refl]. }
  destruct Hn as ([Hsub Hel] & Hmap & Hnext). simpl in Hnext.
  split; [simpl; lia|]. simpl. intros id p' Hin Hlt.
  destruct (Hel _ _ Hin) as (p & Hp & Hu). simpl in Hp.
  apply elem_of_app in Hp as [Hp|Hp]; [by exists p|].
  apply list_elem_of_singleton in Hp. injection Hp as -> ->. lia.
Qed.

Lemma streamNext_tasks (doc : TextDocument) (st : State) :
  tasks (streamNext doc st) = tasks st.
Proof. by destruct (sameGate_streamNext doc st). Qed.

Lemma keepsUris_streamNext (doc : TextDocument) (st : State) :
  tracksPipelines st → keepsUris st (streamNext doc st).
Proof.
  intros Ht. unfold streamNext.
  set (st1 := setReplayBuffer (Some doc) st).
  assert (Ht1 : tracksPipelines st1) by exact Ht.
  match goal with |- keepsUris _ (foldl _ ?s2 _) =>
    assert (H2 : tracksPipelines s2 ∧ keepsUris st s2) end.
  { assert (Hst1 : keepsUris st st1) by (split; [done|]; intros id p Hin _; by exists p).
    destruct (disposableValidate st1); simpl; [|split; [done|exact Hst1]].
    case_bool_decide as Hnone; [|split; [done|exact Hst1]].
    split; [by apply tracks_subscribePipeline|].
    apply (keepsUris_subscribePipeline doc st1 Ht1). }
  destruct H2 as [Ht2 Hk2].
  eapply keepsUris_trans; [exact Hk2|].
  apply keepsUris_narrows, narrows_deliverAll, Ht2.
Qed.

Lemma routed_streamNext (doc : TextDocument) (st : State) :
  tracksPipelines st → routed st → routed (streamNext doc st).
Proof.
  intros Ht Hr. apply (routed_keeps st); [by apply keepsUris_streamNext| |done].
  apply streamNext_tasks.
Qed.

Lemma routed_streamAll (docs : list TextDocument) (st : State) :
  tracksPipelines st → routed st →
  routed (foldl (λ acc doc, streamNext doc acc) st docs).
Proof.
  revert st. induction docs as [|doc docs IH]; intros st Ht Hr; simpl; [done|].
  apply IH; [by apply tracks_streamNext|by apply routed_streamNext].
Qed.

Lemma routed_proceed (sub id : nat) (doc : TextDocument)
    (m : Async ValidationResult) (st : State) :
  routed st →
  resolvesWith (λ r, vr_uri r = doc_uri doc) m →
  (sub < nextId st)%nat →
  (∀ p, (sub, p) ∈ observers st → pipelineUri p = doc_uri doc) →
  routed (proceed sub id doc m st).
Proof.
  intros Hr Hm Hlt Hp.
  assert (Hadd : routed (setTasks (tasks st ++ [mkTask id sub doc m]) st)).
  { intros t [Hin|Heq%list_elem_of_singleton]%elem_of_app; [by apply Hr|].
    subst t. simpl. done. }
  unfold proceed. destruct m; try exact Hadd; case_bool_decide; try done.
  apply (routed_keeps st); [|reflexivity|exact Hr].
  apply keepsUris_shrink; [|done]. simpl. apply shrink_remove.
Qed.

Lemma routed_startValidation (sub : nat) (dsp : DocSettingPair) (st : State) :
  routed st → (sub < nextId st)%nat →
  (∀ p, (sub, p) ∈ observers st → pipelineUri p = doc_uri (dsp_doc dsp)) →
  routed (startValidation libraryDefaults constructSettingsForText sub dsp st).
Proof.
  intros Hr Hlt Hp. unfold startValidation.
  set (st1 := freshId (emit (Invoked (dsp_doc dsp)) st)).
  pose proof (settle_fields
    (validateTextDocument libraryDefaults constructSettingsForText dsp) st1)
    as (_ & _ & _ & Ho & _ & _ & Ht & _ & Hn & _).
  pose proof (resolvesWith_settle _ _ st1 (resolvesWith_validateTextDocument dsp)) as Hm.
  destruct (settle _ st1) as [m st2]. simpl in Ho, Ht, Hn, Hm.
  apply routed_proceed; [|done|rewrite Hn; simpl; lia|by rewrite Ho].
  eapply (routed_keeps st); [|by rewrite Ht|done].
  apply keepsUris_shrink; [rewrite Ho; apply shrink_refl|rewrite Hn; simpl; lia].
Qed.

Lemma routed_release (sub : nat) (dsp : DocSettingPair) (st : State) :
  routed st → (sub < nextId st)%nat →
  (∀ p, (sub, p) ∈ observers st → pipelineUri p = doc_uri (dsp_doc dsp)) →
  routed (release libraryDefaults constructSettingsForText sub dsp st).
Proof.
  intros Hr Hlt Hp. unfold release. case_bool_decide; [done|].
  by apply routed_startValidation.
Qed.

Lemma routed_timerFired (sub : nat) (st : State) :
  tracksPipelines st → sparesBlackListed st → routed st →
  routed (timerFired libraryDefaults constructSettingsForText completion sub st).
Proof.
  intros (Hreg & Hnd & Hfresh) Hs Hr. unfold timerFired.
  destruct (lookupObserver sub (observers st)) as [[uri|uri fetching [[dsp delay]|]]|] eqn:Hl;
    try done.
  pose proof (lookupObserver_elem_of _ _ _ Hl) as Hin.
  destruct (proj1 Hs _ _ Hin) as (Hb & Hf & Hpend).
  assert (Hd : doc_uri (dsp_doc dsp) = uri) by by eapply Hpend.
  assert (Hlt : (sub < nextId st)%nat).
  { apply Hfresh, list_elem_of_fmap. by exists (sub, Validating uri fetching (Some (dsp, delay))). }
  set (st1 := setObservers
                (updateObserver sub (Validating uri fetching None) (observers st)) st).
  assert (H1 : routed st1).
  { apply (routed_keeps st); [|reflexivity|exact Hr].
    apply keepsUris_narrows. by eapply narrows_setObservers_update. }
  assert (Hp1 : ∀ p, (sub, p) ∈ observers st1 → pipelineUri p = doc_uri (dsp_doc dsp)).
  { intros p [(_ & -> & _)|[Hne _]]%elem_of_updateObserver; [by rewrite Hd|done]. }
  destruct (negb (isValidationBusy st)); [by apply routed_release|].
  destruct completion; [by apply routed_release|done].
Qed.

Lemma activeSettingsSettled_tasks (sub request : nat) (o : Outcome Settings) (st : State) :
  tasks (activeSettingsSettled sub request o st) = tasks st.
Proof. by destruct (sameGate_activeSettingsSettled sub request o st). Qed.

Lemma routed_resume (id : nat) (a : Answer) (st : State) :
  routed st → routed (resume id a st).
Proof.
  intros Hr. unfold resume.
  destruct (lookupTask id (tasks st)) as [t|] eqn:Hl; [|done].
  destruct (resumeWith (task_cont t) a) as [m|] eqn:Hw; [|done].
  destruct (Hr t (lookupTask_elem_of _ _ _ Hl)) as (R1 & R2 & R3).
  set (st1 := setTasks (filter (λ t', task_id t' ≠ id) (tasks st)) st).
  assert (H1 : routed st1).
  { intros t' [_ Hin]%list_elem_of_filter. by apply Hr. }
  pose proof (settle_fields m st1) as (_ & _ & _ & Ho & _ & _ & Ht & _ & Hn & _).
  pose proof (resolvesWith_settle _ _ st1 (resolvesWith_resumeWith _ _ _ _ R1 Hw)) as Hm.
  destruct (settle m st1) as [m' st2]. simpl in Ho, Ht, Hn, Hm.
  apply routed_proceed; [|done|by rewrite Hn|by rewrite Ho].
  eapply (routed_keeps st1); [|by rewrite Ht|done].
  apply keepsUris_shrink; [rewrite Ho; apply shrink_refl|by rewrite Hn].
Qed.

Lemma routed_step (e : Event) (st : State) :
  sound st → routed (step libraryDefaults constructSettingsForText completion e st).
Proof.
  intros (Ht & Hs & Hr). destruct e as [doc|doc|doc|doc|docs|sub request o|sub|id a|]; simpl.
  - destruct (disposables st); [by apply routed_streamNext|done].
  - destruct (disposables st); [|done]. exact Hr.
  - destruct (disposables st); [|done]. unfold onDidSave. by apply routed_streamNext.
  - destruct (disposables st); [|done]. unfold onDidClose.
    apply (routed_keeps st); [| |exact Hr].
    + apply keepsUris_shrink; [|by destruct (validationByDoc st !! doc_uri doc)].
      destruct (validationByDoc st !! doc_uri doc); simpl;
        [apply shrink_remove|apply shrink_refl].
    + by destruct (validationByDoc st !! doc_uri doc).
  - destruct (disposableTriggerValidateAll st); [|done]. by apply routed_streamAll.
  - apply (routed_keeps st); [|apply activeSettingsSettled_tasks|done].
    apply keepsUris_narrows, narrows_activeSettingsSettled, Ht.
  - by apply routed_timerFired.
  - by apply routed_resume.
  - apply (routed_keeps st); [|reflexivity|exact Hr].
    apply keepsUris_shrink; [|done]. unfold onShutdown. simpl.
    split; [apply foldr_removeObserver_ids|].
    intros id p [Hin _]%elem_of_foldr_removeObserver. by exists p.
Qed.

Lemma sound_step (e : Event) (st : State) :
  sound st → sound (step libraryDefaults constructSettingsForText completion e st).
Proof.
  intros Hs. split; [apply tracks_step, Hs|]. split; [apply spares_step, Hs|].
  by apply routed_step.
Qed.

Lemma sound_init : sound init.
Proof.
  split; [apply tracks_init|]. split; [apply spares_init|].
  intros t Hin. by apply elem_of_nil in Hin.
Qed.

Lemma sound_run (events : list Event) (st : State) :
  sound st → sound (run libraryDefaults constructSettingsForText completion events st).
Proof.
  revert st. induction events as [|e events IH]; intros st Hs; [done|].
  apply IH. by apply sound_step.
Qed.

End Routing.

(** ** What an event puts out *)

Section Outputs.

Import CSpell Server Scheduling.

Local Open Scope async_scope.

Variable libraryDefaults : Settings.
Variable constructSettingsForText : Settings → string → string → Outcome Settings.
Variable completion : DurationCompletion.

Lemma outputsOnly_refl (P : Output → Prop) (st : State) : outputsOnly P st st.
Proof. exists []. split; [by rewrite app_nil_r|constructor]. Qed.

Lemma outputsOnly_same (P : Output → Prop) (st st' : State) :
  out st' = out st → outputsOnly P st st'.
Proof. intros H. exists []. split; [by rewrite app_nil_r|constructor]. Qed.

Lemma outputsOnly_trans (P : Output → Prop) (a b c : State) :
  outputsOnly P a b → outputsOnly P b c → outputsOnly P a c.
Proof.
  intros (n1 & E1 & F1) (n2 & E2 & F2). exists (n1 ++ n2)%list.
  rewrite E2, E1, app_assoc. split; [done|by apply Forall_app].
Qed.

Lemma outputsOnly_weaken (P Q : Output → Prop) (st st' : State) :
  (∀ o, P o → Q o) → outputsOnly P st st' → outputsOnly Q st st'.
Proof.
  intros HPQ (n & E & F). exists n. split; [done|]. by eapply Forall_impl.
Qed.

Lemma outputsOnly_emit (P : Output → Prop) (o : Output) (st : State) :
  P o → outputsOnly P st (emit o st).
Proof. intros Ho. exists [o]. split; [done|]. by repeat constructor. Qed.

Lemma outputsOnly_settle (m : Async ValidationResult) (st : State) :
  outputsOnly isLog st (snd (settle m st)).
Proof.
  destruct (settle_fields m st) as (_ & _ & _ & _ & _ & _ & _ & _ & _ & logs & E).
  exists (OutLog <$> logs). split; [done|].
  apply Forall_fmap, Forall_true. by intros l.
Qed.

Lemma outputsOnly_deliverTo (id : nat) (doc : TextDocument) (st : State) :
  outputsOnly isLog st (deliverTo id doc st).
Proof.
  unfold deliverTo.
  destruct (lookupObserver id (observers st)) as [[uri|uri fetching pending]|];
    [| |apply outputsOnly_refl];
    (destruct (String.eqb uri (doc_uri doc)); [|apply outputsOnly_refl]).
  - exists [OutLog (LogIgnoring (doc_uri doc))]. split; [done|]. by repeat constructor.
  - exists [OutLog (LogRequestValidate (doc_version doc) (doc_uri doc))].
    split; [done|]. by repeat constructor.
Qed.

Lemma outputsOnly_deliverAll (ids : list nat) (doc : TextDocument) (st : State) :
  outputsOnly isLog st (foldl (λ acc id, deliverTo id doc acc) st ids).
Proof.
  revert st. induction ids as [|id ids IH]; intros st; simpl; [apply outputsOnly_refl|].
  eapply outputsOnly_trans; [apply outputsOnly_deliverTo|apply IH].
Qed.

Lemma outputsOnly_subscribePipeline (doc : TextDocument) (st : State) :
  outputsOnly isLog st (subscribePipeline doc st).
Proof.
  unfold subscribePipeline.
  match goal with |- context [freshId ?s] => set (st1 := freshId s) end.
  apply (outputsOnly_trans _ st st1); [by apply outputsOnly_same|].
  destruct (replayBuffer st1) as [buffered|].
  - destruct (outputsOnly_deliverTo (nextId st) buffered st1) as (n & E & F).
    exists n. split; [exact E|exact F].
  - by apply outputsOnly_same.
Qed.

Lemma outputsOnly_streamNext (doc : TextDocument) (st : State) :
  outputsOnly isLog st (streamNext doc st).
Proof.
  unfold streamNext.
  set (st1 := setReplayBuffer (Some doc) st).
  match goal with |- outputsOnly _ _ (foldl _ ?s2 _) =>
    assert (H2 : outputsOnly isLog st s2) end.
  { destruct (disposableValidate st1 && _); [|by apply outputsOnly_same].
    apply (outputsOnly_trans _ st st1); [by apply outputsOnly_same|].
    apply outputsOnly_subscribePipeline. }
  eapply outputsOnly_trans; [exact H2|apply outputsOnly_deliverAll].
Qed.

Lemma outputsOnly_streamAll (docs : list TextDocument) (st : State) :
  outputsOnly isLog st (foldl (λ acc doc, streamNext doc acc) st docs).
Proof.
  revert st. induction docs as [|doc docs IH]; intros st; simpl; [apply outputsOnly_refl|].
  eapply outputsOnly_trans; [apply outputsOnly_streamNext|apply IH].
Qed.

(** What the second [flatMap] puts out: the result of a call that has
    returned, if its subscription is open. *)
Lemma outputsOnly_proceed (P : Output → Prop) (sub id : nat) (doc : TextDocument)
    (m : Async ValidationResult) (st : State) :
  (∀ r, m = Ret r → is_Some (lookupObserver sub (observers st)) → P (SendDiagnostics r)) →
  (∀ e, P (Unhandled e)) →
  outputsOnly P st (proceed sub id doc m st).
Proof.
  intros Hr He. unfold proceed.
  destruct m; try (by apply outputsOnly_same); case_bool_decide;
    try apply outputsOnly_refl.
  - apply outputsOnly_emit. by apply Hr.
  - exists [Unhandled e]. split; [done|]. by repeat constructor.
Qed.

Lemma outputsOnly_startValidation (P : Output → Prop) (sub : nat) (dsp : DocSettingPair)
    (st : State) :
  P (Invoked (dsp_doc dsp)) → (∀ l, P (OutLog l)) → (∀ e, P (Unhandled e)) →
  (∀ r, vr_uri r = doc_uri (dsp_doc dsp) →
        is_Some (lookupObserver sub (observers st)) → P (SendDiagnostics r)) →
  outputsOnly P st (startValidation libraryDefaults constructSettingsForText sub dsp st).
Proof.
  intros Hi Hl He Hr. unfold startValidation.
  set (st1 := freshId (emit (Invoked (dsp_doc dsp)) st)).
  assert (H1 : outputsOnly P st st1).
  { exists [Invoked (dsp_doc dsp)]. split; [done|]. by repeat constructor. }
  pose proof (settle_fields
    (validateTextDocument libraryDefaults constructSettingsForText dsp) st1)
    as (_ & _ & _ & Ho & _).
  pose proof (outputsOnly_settle
    (validateTextDocument libraryDefaults constructSettingsForText dsp) st1) as H2.
  pose proof (resolvesWith_settle _ _ st1
    (resolvesWith_validateTextDocument libraryDefaults constructSettingsForText dsp)) as Hm.
  destruct (settle _ st1) as [m st2]. simpl in Ho, H2, Hm.
  eapply outputsOnly_trans; [exact H1|].
  eapply outputsOnly_trans.
  { eapply outputsOnly_weaken; [|exact H2]. by intros [l| | |]. }
  apply outputsOnly_proceed; [|done].
  intros r -> Hlive. apply Hr; [exact Hm|]. by rewrite Ho in Hlive.
Qed.

Lemma outputsOnly_release (P : Output → Prop) (sub : nat) (dsp : DocSettingPair)
    (st : State) :
  P (Invoked (dsp_doc dsp)) → (∀ l, P (OutLog l)) → (∀ e, P (Unhandled e)) →
  (∀ r, vr_uri r = doc_uri (dsp_doc dsp) →
        is_Some (lookupObserver sub (observers st)) → P (SendDiagnostics r)) →
  outputsOnly P st (release libraryDefaults constructSettingsForText sub dsp st).
Proof.
  intros Hi Hl He Hr. unfold release.
  match goal with |- context [emit ?o st] => set (st1 := emit o st) end.
  assert (H1 : outputsOnly P st st1) by (apply outputsOnly_emit, Hl).
  case_bool_decide; [done|].
  eapply outputsOnly_trans; [exact H1|]. by apply outputsOnly_startValidation.
Qed.

Lemma live_of_lookup (sub : nat) (p : Pipeline) (st : State) :
  lookupObserver sub (observers st) = Some p → live (pipelineUri p) st.
Proof. intros Hl. exists sub, p. split; [by apply lookupObserver_elem_of|done]. Qed.

(** Whatever an event puts out is accounted for by the state it arrives
    in. *)
Lemma step_accounted (e : Event) (st : State) :
  sound st →
  outputsOnly (accounted st e) st
    (step libraryDefaults constructSettingsForText completion e st).
Proof.
  intros (Ht & Hs & Hr).
  assert (Hlog : ∀ st', outputsOnly isLog st st' → outputsOnly (accounted st e) st st').
  { intros st'. apply outputsOnly_weaken. by intros [l| | |]. }
  destruct e as [doc|doc|doc|doc|docs|sub request o|sub|id a|]; simpl.
  - destruct (disposables st); [|apply outputsOnly_refl].
    apply Hlog, outputsOnly_streamNext.
  - destruct (disposables st); [|apply outputsOnly_refl].
    apply Hlog. unfold onWillSave.
    exists [OutLog (LogWillSave (doc_version doc) (doc_uri doc))].
    split; [done|]. by repeat constructor.
  - destruct (disposables st); [|apply outputsOnly_refl].
    apply Hlog. unfold onDidSave.
    eapply outputsOnly_trans; [|apply outputsOnly_streamNext].
    exists [OutLog (LogDidSave (doc_version doc) (doc_uri doc))].
    split; [done|]. by repeat constructor.
  - destruct (disposables st) eqn:Hd; [|apply outputsOnly_refl].
    unfold onDidClose. exists [SendDiagnostics (mkResult (doc_uri doc) [])]. split.
    + by destruct (validationByDoc st !! doc_uri doc).
    + constructor; [|constructor]. right. by exists doc.
  - destruct (disposableTriggerValidateAll st); [|apply outputsOnly_refl].
    apply Hlog. eapply outputsOnly_trans; [|apply outputsOnly_streamAll].
    by apply outputsOnly_emit.
  - unfold activeSettingsSettled.
    destruct (lookupObserver sub (observers st)) as [[uri|uri fetching pending]|];
      try apply outputsOnly_refl.
    destruct (lookupRequest request fetching); [|apply outputsOnly_refl].
    destruct o; [by apply outputsOnly_same|].
    exists [Unhandled e]. split; [done|]. by repeat constructor.
  - unfold timerFired.
    destruct (lookupObserver sub (observers st))
      as [[uri|uri fetching [[dsp delay]|]]|] eqn:Hl; try apply outputsOnly_refl.
    pose proof (lookupObserver_elem_of _ _ _ Hl) as Hin.
    destruct (proj1 Hs _ _ Hin) as (_ & _ & Hpend).
    assert (Hd : doc_uri (dsp_doc dsp) = uri) by by eapply Hpend.
    assert (Hlive : live (doc_uri (dsp_doc dsp)) st).
    { rewrite Hd. apply (live_of_lookup sub _ st Hl). }
    set (st1 := setObservers
                  (updateObserver sub (Validating uri fetching None) (observers st)) st).
    assert (Hrel : outputsOnly (accounted st (TimerFired sub)) st
              (release libraryDefaults constructSettingsForText sub dsp st1)).
    { apply (outputsOnly_trans _ st st1); [by apply outputsOnly_same|].
      apply outputsOnly_release; try done.
      intros r Hu _. left. by rewrite Hu. }
    destruct (negb (isValidationBusy st)); [exact Hrel|].
    destruct completion; [exact Hrel|by apply outputsOnly_same].
  - unfold resume.
    destruct (lookupTask id (tasks st)) as [t|] eqn:Hl; [|apply outputsOnly_refl].
    destruct (resumeWith (task_cont t) a) as [m|] eqn:Hw; [|apply outputsOnly_refl].
    destruct (Hr t (lookupTask_elem_of _ _ _ Hl)) as (R1 & R2 & R3).
    set (st1 := setTasks (filter (λ t', task_id t' ≠ id) (tasks st)) st).
    pose proof (settle_fields m st1) as (_ & _ & _ & Ho & _).
    pose proof (outputsOnly_settle m st1) as H2.
    pose proof (resolvesWith_settle _ _ st1 (resolvesWith_resumeWith _ _ _ _ R1 Hw)) as Hm.
    destruct (settle m st1) as [m' st2]. simpl in Ho, H2, Hm.
    apply (outputsOnly_trans _ st st1); [by apply outputsOnly_same|].
    eapply outputsOnly_trans.
    { eapply outputsOnly_weaken; [|exact H2]. by intros [l| | |]. }
    apply outputsOnly_proceed; [|done].
    intros r -> [p Hp]. left. simpl in Hm. rewrite Hm.
    rewrite Ho in Hp. simpl in Hp. pose proof (lookupObserver_elem_of _ _ _ Hp) as Hin.
    rewrite <- (R3 p Hin). by apply (live_of_lookup (task_sub t) p st).
  - by apply outputsOnly_same.
Qed.

End Outputs.

(** ** The subscriptions of [run()] *)

Section Handles.

Import CSpell Server Scheduling.

Local Open Scope async_scope.

Variable libraryDefaults : Settings.
Variable constructSettingsForText : Settings → string → string → Outcome Settings.
Variable completion : DurationCompletion.

Lemma sameHandles_refl (st : State) : sameHandles st st.
Proof. by repeat split. Qed.

Lemma sameHandles_trans (a b c : State) :
  sameHandles a b → sameHandles b c → sameHandles a c.
Proof. intros (H1 & H2 & H3) (H4 & H5 & H6). repeat split; congruence. Qed.

Lemma sameHandles_deliverTo (id : nat) (doc : TextDocument) (st : State) :
  sameHandles st (deliverTo id doc st).
Proof.
  unfold deliverTo. destruct (lookupObserver id (observers st)) as [[uri|uri f p]|];
    try destruct (String.eqb uri (doc_uri doc)); by repeat split.
Qed.

Lemma sameHandles_deliverAll (ids : list nat) (doc : TextDocument) (st : State) :
  sameHandles st (foldl (λ acc id, deliverTo id doc acc) st ids).
Proof.
  revert st. induction ids as [|id ids IH]; intros st; simpl; [apply sameHandles_refl|].
  eapply sameHandles_trans; [apply sameHandles_deliverTo|apply IH].
Qed.

Lemma sameHandles_subscribePipeline (doc : TextDocument) (st : State) :
  sameHandles st (subscribePipeline doc st).
Proof.
  unfold subscribePipeline. cbv zeta.
  set (st1 := freshId _).
  set (st2 := match replayBuffer st1 with
              | Some buffered => deliverTo (nextId st) buffered st1
              | None => st1
              end).
  assert (H1 : sameHandles st st1) by by repeat split.
  assert (H2 : sameHandles st1 st2).
  { unfold st2. destruct (replayBuffer st1);
      [apply sameHandles_deliverTo|apply sameHandles_refl]. }
  apply (sameHandles_trans st st2); [by apply (sameHandles_trans st st1)|].
  by repeat split.
Qed.

Lemma sameHandles_streamNext (doc : TextDocument) (st : State) :
  sameHandles st (streamNext doc st).
Proof.
  unfold streamNext. cbv zeta.
  eapply sameHandles_trans; [|apply sameHandles_deliverAll].
  destruct (disposableValidate _ && _).
  - eapply sameHandles_trans; [|apply sameHandles_subscribePipeline]. by repeat split.
  - by repeat split.
Qed.

Lemma sameHandles_streamAll (docs : list TextDocument) (st : State) :
  sameHandles st (foldl (λ acc doc, streamNext doc acc) st docs).
Proof.
  revert st. induction docs as [|doc docs IH]; intros st; simpl; [apply sameHandles_refl|].
  eapply sameHandles_trans; [apply sameHandles_streamNext|apply IH].
Qed.

Lemma sameHandles_settle (m : Async ValidationResult) (st : State) :
  sameHandles st (snd (settle m st)).
Proof.
  destruct (settle_fields m st) as (_ & H1 & H2 & _ & _ & _ & _ & H3 & _). by repeat split.
Qed.

Lemma sameHandles_proceed (sub id : nat) (doc : TextDocument)
    (m : Async ValidationResult) (st : State) :
  sameHandles st (proceed sub id doc m st).
Proof.
  unfold proceed. destruct m; try (by repeat split);
    destruct (bool_decide _); by repeat split.
Qed.

Lemma sameHandles_startValidation (sub : nat) (dsp : DocSettingPair) (st : State) :
  sameHandles st (startValidation libraryDefaults constructSettingsForText sub dsp st).
Proof.
  unfold startValidation. cbv zeta.
  set (st1 := freshId _).
  pose proof (sameHandles_settle
    (validateTextDocument libraryDefaults constructSettingsForText dsp) st1) as Hs.
  destruct (settle _ st1) as [m st2]. simpl in Hs.
  eapply sameHandles_trans; [|apply sameHandles_proceed].
  eapply sameHandles_trans; [|exact Hs]. by repeat split.
Qed.

Lemma sameHandles_release (sub : nat) (dsp : DocSettingPair) (st : State) :
  sameHandles st (release libraryDefaults constructSettingsForText sub dsp st).
Proof.
  unfold release. cbv zeta. destruct (bool_decide _); [by repeat split|].
  eapply sameHandles_trans; [|apply sameHandles_startValidation]. by repeat split.
Qed.

(** Only [onShutdown] ends a subscription of [run()]. *)
Lemma sameHandles_step (e : Event) (st : State) :
  e ≠ Shutdown →
  sameHandles st (step libraryDefaults constructSettingsForText completion e st).
Proof.
  intros Hne. destruct e as [doc|doc|doc|doc|docs|sub request o|sub|id a|]; simpl.
  - destruct (disposables st); [apply sameHandles_streamNext|apply sameHandles_refl].
  - destruct (disposables st); by repeat split.
  - destruct (disposables st); [|apply sameHandles_refl]. unfold onDidSave.
    eapply sameHandles_trans; [|apply sameHandles_streamNext]. by repeat split.
  - destruct (disposables st); [|apply sameHandles_refl]. unfold onDidClose.
    destruct (validationByDoc st !! doc_uri doc); by repeat split.
  - destruct (disposableTriggerValidateAll st); [|apply sameHandles_refl].
    eapply sameHandles_trans; [|apply sameHandles_streamAll]. by repeat split.
  - unfold activeSettingsSettled.
    destruct (lookupObserver sub (observers st)) as [[uri|uri f p]|];
      try apply sameHandles_refl.
    destruct (lookupRequest request f); [|apply sameHandles_refl].
    destruct o; by repeat split.
  - unfold timerFired.
    destruct (lookupObserver sub (observers st)) as [[uri|uri f [[dsp delay]|]]|];
      try apply sameHandles_refl.
    destruct (negb (isValidationBusy st)); [|destruct completion].
    + eapply sameHandles_trans; [|apply sameHandles_release]. by repeat split.
    + eapply sameHandles_trans; [|apply sameHandles_release]. by repeat split.
    + by repeat split.
  - unfold resume. destruct (lookupTask id (tasks st)) as [t|]; [|apply sameHandles_refl].
    destruct (resumeWith (task_cont t) a) as [m|]; [|apply sameHandles_refl].
    set (st1 := setTasks _ st).
    pose proof (sameHandles_settle m st1) as Hs.
    destruct (settle m st1) as [m' st2]. simpl in Hs.
    eapply sameHandles_trans; [|apply sameHandles_proceed].
    eapply sameHandles_trans; [|exact Hs]. by repeat split.
  - done.
Qed.

Lemma handlesTogether_step (e : Event) (st : State) :
  handlesTogether st →
  handlesTogether (step libraryDefaults constructSettingsForText completion e st).
Proof.
  intros [H1 H2].
  assert (e = Shutdown ∨ e ≠ Shutdown) as [->|Hne]
    by (destruct e; (by left) || (by right)).
  - by split.
  - destruct (sameHandles_step e st Hne) as (E1 & E2 & E3).
    split; congruence.
Qed.

Lemma handlesTogether_run (events : list Event) (st : State) :
  handlesTogether st →
  handlesTogether (run libraryDefaults constructSettingsForText completion events st).
Proof.
  revert st. induction events as [|e events IH]; intros st H; simpl; [done|].
  by apply IH, handlesTogether_step.
Qed.

Lemma handlesTogether_init : handlesTogether init.
Proof. by split. Qed.

End Handles.

(** ** Closing, failing and shutting down *)

Section Endings.

Import CSpell Server Scheduling.

Local Open Scope async_scope.

Variable libraryDefaults : Settings.
Variable constructSettingsForText : Settings → string → string → Outcome Settings.
Variable completion : DurationCompletion.

Lemma not_live_unrecorded (uri : string) (st : State) :
  tracksPipelines st → validationByDoc st !! uri = None → ¬ live uri st.
Proof.
  intros (Hreg & _) Hnone (id & p & Hin & Hu). specialize (Hreg _ _ Hin).
  rewrite Hu, Hnone in Hreg. discriminate.
Qed.

Lemma pipelinesFor_not_live (uri : string) (st : State) :
  ¬ live uri st → pipelinesFor uri st = [].
Proof.
  intros Hn. apply filter_nil_of_none. intros [id p] Hin Hu. apply Hn. by exists id, p.
Qed.

Lemma deliverAll_map (ids : list nat) (doc : TextDocument) (st : State) :
  validationByDoc (foldl (λ acc id, deliverTo id doc acc) st ids) = validationByDoc st.
Proof.
  revert st. induction ids as [|id ids IH]; intros st; simpl; [done|].
  by rewrite IH, deliverTo_map.
Qed.

Lemma streamNext_map_other (uri : string) (doc : TextDocument) (st : State) :
  doc_uri doc ≠ uri →
  validationByDoc (streamNext doc st) !! uri = validationByDoc st !! uri.
Proof.
  intros Hne. unfold streamNext. rewrite deliverAll_map.
  destruct (disposableValidate _ && _); [|done].
  by rewrite subscribePipeline_map, lookup_insert_ne.
Qed.

Lemma streamAll_map_other (uri : string) (docs : list TextDocument) (st : State) :
  existsb (λ d, String.eqb (doc_uri d) uri) docs = false →
  validationByDoc (foldl (λ acc doc, streamNext doc acc) st docs) !! uri
  = validationByDoc st !! uri.
Proof.
  revert st. induction docs as [|doc docs IH]; intros st Hno; simpl in *; [done|].
  apply orb_false_iff in Hno as [Hd Hno]. apply String.eqb_neq in Hd.
  by rewrite IH, streamNext_map_other.
Qed.

(** An event that hands no document of the URI to the stream records
    nothing for the URI. *)
Lemma step_map_unrecorded (uri : string) (e : Event) (st : State) :
  tracksPipelines st → feedsStream uri e = false →
  validationByDoc st !! uri = None →
  validationByDoc (step libraryDefaults constructSettingsForText completion e st) !! uri
  = None.
Proof.
  intros Ht Hf Hnone.
  destruct e as [doc|doc|doc|doc|docs|sub request o|sub|id a|]; simpl in *.
  - destruct (disposables st); [|done]. apply String.eqb_neq in Hf.
    by rewrite streamNext_map_other.
  - by destruct (disposables st).
  - destruct (disposables st); [|done]. apply String.eqb_neq in Hf.
    unfold onDidSave. by rewrite streamNext_map_other.
  - destruct (disposables st); [|done]. unfold onDidClose.
    destruct (validationByDoc st !! doc_uri doc) eqn:Hm; simpl; [|done].
    destruct (decide (doc_uri doc = uri)) as [<-|Hne];
      [apply lookup_delete_eq|by rewrite lookup_delete_ne].
  - destruct (disposableTriggerValidateAll st); [|done].
    by rewrite streamAll_map_other.
  - by destruct (narrows_activeSettingsSettled sub request o st (proj1 (proj2 Ht)))
      as (_ & -> & _).
  - by destruct (narrows_timerFired libraryDefaults constructSettingsForText completion
                   sub st (proj1 (proj2 Ht))) as (_ & -> & _).
  - by destruct (narrows_resume id a st) as (_ & -> & _).
  - apply lookup_empty.
Qed.

Lemma filter_new_nil {A} (P : A → Prop) `{∀ x, Decision (P x)} (l new : list A) :
  Forall (λ x, ¬ P x) new → filter P (l ++ new)%list = filter P l.
Proof.
  intros Hn. rewrite filter_app, (filter_nil_of_none P new), app_nil_r; [done|].
  rewrite Forall_forall in Hn. exact Hn.
Qed.

Lemma filter_new_replicate {A} (P : A → Prop) `{∀ x, Decision (P x)} (x : A)
    (l new : list A) :
  Forall (λ y, P y → y = x) new →
  ∃ k, filter P (l ++ new)%list = (filter P l ++ replicate k x)%list.
Proof.
  intros Hn. rewrite filter_app.
  assert (∃ k, filter P new = replicate k x) as [k ->]; [|by exists k].
  induction Hn as [|y ys Hy Hys [k IH]]; [by exists 0%nat|].
  rewrite filter_cons. destruct (decide (P y)) as [HP|_].
  - rewrite (Hy HP), IH. by exists (S k).
  - by exists k.
Qed.

(** While a URI is not recorded, an event publishes nothing for it but
    the empty result of a close. *)
Lemma published_step (uri : string) (e : Event) (st : State) :
  sound st → validationByDoc st !! uri = None →
  ∃ k, publishedFor uri
         (step libraryDefaults constructSettingsForText completion e st)
       = (publishedFor uri st ++ replicate k (cleared uri))%list.
Proof.
  intros Hs Hnone.
  destruct (step_accounted libraryDefaults constructSettingsForText completion e st Hs)
    as (new & E & F).
  unfold publishedFor. rewrite E. apply filter_new_replicate.
  eapply Forall_impl; [exact F|]. intros [l|r|doc|x] Ha Hd; simpl in *; try done.
  apply String.eqb_eq in Hd. destruct Ha as [Hlive|(doc & _ & _ & ->)].
  - destruct (not_live_unrecorded uri st (proj1 Hs) Hnone). by rewrite <- Hd.
  - simpl in Hd. unfold cleared. by rewrite Hd.
Qed.

Lemma closed_run (uri : string) (events : list Event) (st : State) :
  sound st → validationByDoc st !! uri = None →
  Forall (λ e, feedsStream uri e = false) events →
  let st' := run libraryDefaults constructSettingsForText completion events st in
  validationByDoc st' !! uri = None
  ∧ ∃ k, publishedFor uri st' = (publishedFor uri st ++ replicate k (cleared uri))%list.
Proof.
  revert st. induction events as [|e events IH]; intros st Hs Hnone Hall.
  - split; [done|]. exists 0%nat. by rewrite app_nil_r.
  - apply Forall_cons in Hall as [He Hall].
    destruct (published_step uri e st Hs Hnone) as [k1 Hk1].
    destruct (IH (step libraryDefaults constructSettingsForText completion e st))
      as [Hn [k2 Hk2]];
      [by apply sound_step|by apply step_map_unrecorded; [apply Hs|..]|done|].
    split; [exact Hn|]. exists (k1 + k2)%nat. simpl in *.
    by rewrite Hk2, Hk1, <- app_assoc, replicate_add.
Qed.

(** X14. A close clears the diagnostics of a document, and they stay
    cleared: from the close of a URI until the next event that hands a
    document of this URI to the request stream, no pipeline of the URI
    is open and nothing is published for it but the empty result of a
    close. The result of a validation that was under way when the
    document was closed is dropped, whatever the analyzer answers. *)
Theorem close_clears_until_next_change
    (before : list Event) (doc : TextDocument) (between : list Event) :
  let uri := doc_uri doc in
  let st0 := run libraryDefaults constructSettingsForText completion before init in
  let st := run libraryDefaults constructSettingsForText completion
              (before ++ [DidClose doc] ++ between) init in
  disposables st0 = true →
  Forall (λ e, feedsStream uri e = false) between →
  validationByDoc st !! uri = None
  ∧ pipelinesFor uri st = []
  ∧ ∃ n, publishedFor uri st
         = (publishedFor uri st0 ++ replicate (S n) (cleared uri))%list.
Proof.
  intros uri st0 st Hlisten Hall.
  assert (Hs0 : sound st0) by apply sound_run, sound_init.
  set (st1 := onDidClose doc st0).
  assert (Hst : st = run libraryDefaults constructSettingsForText completion between st1).
  { unfold st. rewrite !run_app. simpl. fold st0. by rewrite Hlisten. }
  assert (Hs1 : sound st1).
  { pose proof (sound_step libraryDefaults constructSettingsForText completion
                  (DidClose doc) st0 Hs0) as H. simpl in H. by rewrite Hlisten in H. }
  assert (Hn1 : validationByDoc st1 !! uri = None).
  { unfold st1, onDidClose. fold uri.
    destruct (validationByDoc st0 !! uri) eqn:Hm; simpl; [apply lookup_delete_eq|done]. }
  assert (Hp1 : publishedFor uri st1 = (publishedFor uri st0 ++ [cleared uri])%list).
  { unfold publishedFor, st1, onDidClose. fold uri.
    assert (Hout : ∀ s, out (emit (SendDiagnostics (mkResult uri [])) s)
                        = (out s ++ [cleared uri])%list) by done.
    rewrite Hout, filter_app.
    assert (filter (λ o, isDiagnosticsOf uri o = true) [cleared uri] = [cleared uri]) as ->.
    { rewrite filter_cons, decide_True; [done|]. simpl. apply String.eqb_refl. }
    by destruct (validationByDoc st0 !! uri). }
  destruct (closed_run uri between st1 Hs1 Hn1 Hall) as [Hn [k Hk]].
  rewrite <- Hst in Hn, Hk.
  split; [exact Hn|]. split.
  - apply pipelinesFor_not_live, not_live_unrecorded; [|exact Hn].
    unfold st. apply tracks_run, tracks_init.
  - exists k. rewrite Hk, Hp1, <- app_assoc. done.
Qed.

Lemma onShutdown_stopped (st : State) : tracksPipelines st → stopped (onShutdown st).
Proof.
  intros (Hreg & _). unfold stopped, onShutdown. simpl.
  split; [|done].
  destruct (foldr removeObserver (observers st) (map_to_list (validationByDoc st)).*2)
    as [|[i q] rest] eqn:E; [done|].
  assert (Hin : (i, q) ∈ foldr removeObserver (observers st)
                           (map_to_list (validationByDoc st)).*2).
  { rewrite E. apply elem_of_cons. by left. }
  apply elem_of_foldr_removeObserver in Hin as [Hin Hni]. destruct Hni.
  apply list_elem_of_fmap. exists (pipelineUri q, i). split; [done|].
  apply elem_of_map_to_list. by apply Hreg.
Qed.

(** After the shutdown nothing is subscribed, validated or published;
    calls that wait for an answer still run to their end. *)
Lemma stopped_step (e : Event) (st : State) :
  stopped st →
  stopped (step libraryDefaults constructSettingsForText completion e st)
  ∧ work (step libraryDefaults constructSettingsForText completion e st) = work st.
Proof.
  intros (Ho & Hm & Hd & Hv & Ha).
  assert (Hst : stopped st) by done.
  destruct e as [doc|doc|doc|doc|docs|sub request o|sub|id a|]; simpl;
    rewrite ?Hd, ?Ha; try done.
  - unfold activeSettingsSettled. by rewrite Ho.
  - unfold timerFired. by rewrite Ho.
  - unfold resume.
    destruct (lookupTask id (tasks st)) as [t|]; [|done].
    destruct (resumeWith (task_cont t) a) as [m|]; [|done].
    set (st1 := setTasks (filter (λ t', task_id t' ≠ id) (tasks st)) st).
    pose proof (settle_fields m st1)
      as (_ & F2 & F3 & F4 & F5 & _ & _ & F8 & _ & logs & F10).
    destruct (settle m st1) as [m' st2]. simpl in F2, F3, F4, F5, F8, F10.
    assert (Hs2 : stopped st2).
    { unfold stopped. by rewrite F4, F5, F8, F2, F3. }
    assert (Hw2 : work st2 = work st).
    { unfold work. rewrite F10. apply filter_new_nil.
      apply Forall_fmap, Forall_true. by intros l. }
    unfold proceed. rewrite F4, Ho. simpl.
    destruct m'; by split.
  - unfold stopped, onShutdown. simpl. rewrite Ho.
    assert (∀ ids, foldr removeObserver [] ids = []) as ->; [|done].
    induction ids as [|i ids IH]; simpl; [done|]. by rewrite IH.
Qed.

Lemma stopped_run (events : list Event) (st : State) :
  stopped st →
  stopped (run libraryDefaults constructSettingsForText completion events st)
  ∧ work (run libraryDefaults constructSettingsForText completion events st) = work st.
Proof.
  revert st. induction events as [|e events IH]; intros st Hs; [done|].
  destruct (stopped_step e st Hs) as [Hs1 Hw1].
  destruct (IH _ Hs1) as [Hs2 Hw2]. simpl in *. split; [exact Hs2|]. by rewrite Hw2.
Qed.

(** X15. After the shutdown no pipeline is open and no URI is recorded,
    and whatever events still arrive, changes, saves, timers or answers,
    no [validateTextDocument] call is made and no diagnostics are sent.
    The shutdown cancels no call that is under way: a validation that
    waits for its answers goes on and still calls the analyzer. *)
Theorem shutdown_ends_all_work (before after : list Event) :
  let st0 := run libraryDefaults constructSettingsForText completion before init in
  let st := run libraryDefaults constructSettingsForText completion
              (before ++ [Shutdown] ++ after) init in
  observers st = []
  ∧ validationByDoc st = ∅
  ∧ work st = work st0
  ∧ analyzing (run ∅ plainText EmitsPending
                 (validationUnderWay ++ [Shutdown] ++ answersArrive) init) = [docA].
Proof.
  intros st0 st.
  assert (Hst : st = run libraryDefaults constructSettingsForText completion after
                       (onShutdown st0)).
  { unfold st. by rewrite !run_app. }
  assert (H1 : stopped (onShutdown st0)).
  { apply onShutdown_stopped. unfold st0. apply tracks_run, tracks_init. }
  destruct (stopped_run after _ H1) as [(Ho & Hm & _) Hw]. rewrite <- Hst in Ho, Hm, Hw.
  split; [exact Ho|]. split; [exact Hm|]. split; [exact Hw|].
  vm_compute. reflexivity.
Qed.

Lemma step_keeps_entry (uri : string) (e : Event) (st : State) :
  tracksPipelines st → is_Some (validationByDoc st !! uri) →
  isCloseOf uri e = false → e ≠ Shutdown →
  is_Some (validationByDoc
             (step libraryDefaults constructSettingsForText completion e st) !! uri).
Proof.
  intros Ht Hs Hc Hne.
  destruct e as [doc|doc|doc|doc|docs|sub request o|sub|id a|]; simpl in *; try done.
  - destruct (disposables st); [by apply streamNext_keeps_entries|done].
  - by destruct (disposables st).
  - destruct (disposables st); [|done]. unfold onDidSave.
    by apply streamNext_keeps_entries.
  - destruct (disposables st); [|done]. unfold onDidClose.
    apply String.eqb_neq in Hc.
    destruct (validationByDoc st !! doc_uri doc); simpl; [|done].
    by rewrite lookup_delete_ne.
  - destruct (disposableTriggerValidateAll st); [|done]. clear Hne.
    assert (∀ s, tracksPipelines s → is_Some (validationByDoc s !! uri) →
              is_Some (validationByDoc
                         (foldl (λ acc doc, streamNext doc acc) s docs) !! uri)) as Hall.
    { induction docs as [|d ds IH]; intros s Hts Hss; simpl; [done|].
      apply IH; [by apply tracks_streamNext|by apply streamNext_keeps_entries]. }
    by apply Hall.
  - by destruct (narrows_activeSettingsSettled sub request o st (proj1 (proj2 Ht)))
      as (_ & -> & _).
  - by destruct (narrows_timerFired libraryDefaults constructSettingsForText completion
                   sub st (proj1 (proj2 Ht))) as (_ & -> & _).
  - by destruct (narrows_resume id a st) as (_ & -> & _).
Qed.

Lemma dead_stopped (uri : string) (st : State) : stopped st → dead uri st.
Proof.
  intros Hs. split; [|by right]. intros (id & p & Hin & _).
  destruct Hs as (Ho & _). rewrite Ho in Hin. by apply elem_of_nil in Hin.
Qed.

Lemma dead_step (uri : string) (e : Event) (st : State) :
  sound st → dead uri st → isCloseOf uri e = false →
  dead uri (step libraryDefaults constructSettingsForText completion e st).
Proof.
  intros (Ht & _) [Hn [Hs|Hs]] Hc.
  - assert (e = Shutdown ∨ e ≠ Shutdown) as [->|Hne]
      by (destruct e; (by left) || (by right)).
    + apply dead_stopped. simpl. by apply onShutdown_stopped.
    + split; [|left; by apply step_keeps_entry].
      intros (id & p & Hin & Hu). apply Hn.
      destruct (subscribesNone_step libraryDefaults constructSettingsForText completion
                  uri e st Ht Hs id p Hin Hu) as (p0 & Hp0 & Hu0).
      by exists id, p0.
  - apply dead_stopped. by apply stopped_step.
Qed.

Lemma invocations_step (uri : string) (e : Event) (st : State) :
  sound st → ¬ live uri st →
  invocationsFor uri (step libraryDefaults constructSettingsForText completion e st)
  = invocationsFor uri st
  ∧ ∀ o, o ∈ out st →
      o ∈ out (step libraryDefaults constructSettingsForText completion e st).
Proof.
  intros Hs Hn.
  destruct (step_accounted libraryDefaults constructSettingsForText completion e st Hs)
    as (new & E & F).
  split.
  - unfold invocationsFor. rewrite E. apply filter_new_nil.
    eapply Forall_impl; [exact F|]. intros [l|r|doc|x] Ha Hd; simpl in *; try done.
    apply String.eqb_eq in Hd. apply Hn. by rewrite <- Hd.
  - intros o Ho. rewrite E. apply elem_of_app. by left.
Qed.

Lemma dead_run (uri : string) (events : list Event) (st : State) :
  sound st → dead uri st → Forall (λ e, isCloseOf uri e = false) events →
  let st' := run libraryDefaults constructSettingsForText completion events st in
  dead uri st' ∧ invocationsFor uri st' = invocationsFor uri st
  ∧ ∀ o, o ∈ out st → o ∈ out st'.
Proof.
  revert st. induction events as [|e events IH]; intros st Hs Hd Hall; [done|].
  apply Forall_cons in Hall as [He Hall].
  destruct (invocations_step uri e st Hs (proj1 Hd)) as [Hi1 Ho1].
  destruct (IH (step libraryDefaults constructSettingsForText completion e st))
    as (Hd2 & Hi2 & Ho2); [by apply sound_step|by apply dead_step|done|].
  simpl in *. split; [exact Hd2|]. split; [by rewrite Hi2|]. intros o Ho. by apply Ho2, Ho1.
Qed.

(** X16. When the settings of a document cannot be resolved, the error
    ends the pipeline of its URI, and the entry of the URI in
    [validationByDoc] stays: until the document is closed, whatever
    events arrive and however often the document changes, no pipeline of
    the URI is open and no [validateTextDocument] call is made for it. *)
Theorem failed_settings_end_validation
    (before : list Event) (sub request : nat) (e : Exn) (after : list Event)
    (uri : string) (fetching : list (nat * TextDocument))
    (pending : option (DocSettingPair * Z)) (doc : TextDocument) :
  let st0 := run libraryDefaults constructSettingsForText completion before init in
  let st := run libraryDefaults constructSettingsForText completion
              (before ++ [ActiveSettings sub request (Rejected e)] ++ after) init in
  lookupObserver sub (observers st0) = Some (Validating uri fetching pending) →
  lookupRequest request fetching = Some doc →
  Forall (λ ev, isCloseOf uri ev = false) after →
  Unhandled e ∈ out st
  ∧ pipelinesFor uri st = []
  ∧ invocationsFor uri st = invocationsFor uri st0.
Proof.
  intros st0 st Hl Hreq Hall.
  assert (Hs0 : sound st0) by apply sound_run, sound_init.
  set (st1 := emit (Unhandled e) (setObservers (removeObserver sub (observers st0)) st0)).
  assert (Hstep : step libraryDefaults constructSettingsForText completion
                    (ActiveSettings sub request (Rejected e)) st0 = st1).
  { simpl. unfold activeSettingsSettled. by rewrite Hl, Hreq. }
  assert (Hst : st = run libraryDefaults constructSettingsForText completion after st1).
  { unfold st. rewrite !run_app. simpl. fold st0.
    change (activeSettingsSettled sub request (Rejected e) st0)
      with (step libraryDefaults constructSettingsForText completion
              (ActiveSettings sub request (Rejected e)) st0).
    by rewrite Hstep. }
  assert (Hs1 : sound st1) by (rewrite <- Hstep; by apply sound_step).
  destruct Hs0 as ((Hreg & _) & _).
  pose proof (Hreg _ _ (lookupObserver_elem_of _ _ _ Hl)) as Hrec. simpl in Hrec.
  assert (Hd1 : dead uri st1).
  { split; [|left; simpl; by rewrite Hrec].
    intros (id & p & Hin & Hu). simpl in Hin.
    apply elem_of_removeObserver in Hin as [Hin Hne].
    specialize (Hreg _ _ Hin). rewrite Hu, Hrec in Hreg. by injection Hreg as ->. }
  destruct (dead_run uri after st1 Hs1 Hd1 Hall) as ((Hn & _) & Hi & Ho).
  rewrite <- Hst in Hn, Hi, Ho.
  split; [|split].
  - apply Ho. simpl. apply elem_of_app. right. by apply list_elem_of_singleton.
  - by apply pipelinesFor_not_live.
  - rewrite Hi. unfold invocationsFor, st1. simpl. by rewrite filter_app, app_nil_r.
Qed.

Lemma updateObserver_app_fresh (id : nat) (p0 p : Pipeline) (obs : list (nat * Pipeline)) :
  id ∉ obs.*1 → updateObserver id p (obs ++ [(id, p0)]) = (obs ++ [(id, p)])%list.
Proof.
  intros Hni. unfold updateObserver. rewrite map_app. simpl. rewrite Nat.eqb_refl.
  f_equal. induction obs as [|[i q] obs IH]; simpl; [done|].
  rewrite fmap_cons, not_elem_of_cons in Hni. destruct Hni as [Hne Hni]. simpl in Hne.
  destruct (Nat.eqb_spec i id) as [->|_]; [done|]. by rewrite IH.
Qed.

Lemma deliverEach_other_uri (ids : list nat) (doc : TextDocument) (st : State) :
  (∀ id p, id ∈ ids → lookupObserver id (observers st) = Some p →
           pipelineUri p ≠ doc_uri doc) →
  foldl (λ acc id, deliverTo id doc acc) st ids = st.
Proof.
  induction ids as [|id ids IH]; intros Hother; simpl; [done|].
  rewrite deliverTo_other_uri.
  - apply IH. intros i p Hi. apply Hother, elem_of_cons. by right.
  - intros p. apply Hother, elem_of_cons. by left.
Qed.

(** The first document of a URI that is not on the block list. *)
Lemma streamNext_first (doc : TextDocument) (st : State) :
  tracksPipelines st → disposableValidate st = true →
  validationByDoc st !! doc_uri doc = None →
  DocumentSettings.isUriBlackListed (doc_uri doc) = false →
  streamNext doc st
  = setValidationByDoc (<[doc_uri doc := nextId st]> (validationByDoc st))
      (freshId (setObservers
         (observers st
          ++ [(nextId st, Validating (doc_uri doc) [(S (nextId st), doc)] None)])
         (emit (OutLog (LogRequestValidate (doc_version doc) (doc_uri doc)))
            (freshId (setReplayBuffer (Some doc) st))))).
Proof.
  intros (Hreg & Hnd & Hfresh) Hv Hnone Hb.
  assert (Hni : nextId st ∉ (observers st).*1).
  { intros Hin. specialize (Hfresh _ Hin). lia. }
  unfold streamNext. simpl.
  rewrite Hv, bool_decide_eq_true_2 by done. simpl.
  assert (Hsub : subscribePipeline doc (setReplayBuffer (Some doc) st)
    = setValidationByDoc (<[doc_uri doc := nextId st]> (validationByDoc st))
        (freshId (setObservers
           (observers st
            ++ [(nextId st, Validating (doc_uri doc) [(S (nextId st), doc)] None)])
           (emit (OutLog (LogRequestValidate (doc_version doc) (doc_uri doc)))
              (freshId (setReplayBuffer (Some doc) st)))))).
  { unfold subscribePipeline. simpl. rewrite Hb. unfold deliverTo. simpl.
    rewrite lookupObserver_app_fresh by done. rewrite String.eqb_refl. simpl.
    by rewrite updateObserver_app_fresh. }
  rewrite Hsub, deliverEach_other_uri; [done|].
  simpl. intros id p Hid Hl Hu.
  apply lookupObserver_elem_of, elem_of_app in Hl as [Hl|Hl].
  - specialize (Hreg _ _ Hl). rewrite Hu, Hnone in Hreg. discriminate.
  - apply list_elem_of_singleton in Hl. injection Hl as -> _. done.
Qed.

(** X17. The first change of a document that is not on the block list is
    requested once: the new pipeline is recorded for the URI and is
    handed the document by the replay of the stream, not a second time
    by the delivery that is under way, so it resolves the settings of
    the document in one request; no other pipeline is touched. *)
Theorem first_change_is_requested_once (events : list Event) (doc : TextDocument) :
  let st := run libraryDefaults constructSettingsForText completion events init in
  disposables st = true →
  validationByDoc st !! doc_uri doc = None →
  DocumentSettings.isUriBlackListed (doc_uri doc) = false →
  let st' := step libraryDefaults constructSettingsForText completion
               (DidChangeContent doc) st in
  validationByDoc st' = <[doc_uri doc := nextId st]> (validationByDoc st)
  ∧ observers st'
    = (observers st
       ++ [(nextId st, Validating (doc_uri doc) [(S (nextId st), doc)] None)])%list
  ∧ out st'
    = (out st ++ [OutLog (LogRequestValidate (doc_version doc) (doc_uri doc))])%list
  ∧ replayBuffer st' = Some doc
  ∧ tasks st' = tasks st.
Proof.
  intros st Hlisten Hnone Hb st'.
  assert (Ht : tracksPipelines st) by apply tracks_run, tracks_init.
  assert (Hv : disposableValidate st = true).
  { destruct (handlesTogether_run libraryDefaults constructSettingsForText completion
                events init handlesTogether_init) as [Hv _].
    fold st in Hv. by rewrite Hv. }
  unfold st'. simpl. rewrite Hlisten. by rewrite streamNext_first.
Qed.

End Endings.

(** ** Configuration changes *)

Section ConfigurationChanges.

Import CSpell Server Scheduling Configuration.

Variable libraryDefaults : Settings.
Variable constructSettingsForText : Settings → string → string → Outcome Settings.
Variable completion : DurationCompletion.

Abbreviation cstep := (Configuration.step libraryDefaults constructSettingsForText completion).
Abbreviation crun := (Configuration.run libraryDefaults constructSettingsForText completion).

Lemma crun_app (a b : list Event) (st : State) : crun (a ++ b) st = crun b (crun a st).
Proof. unfold Configuration.run. apply foldl_app. Qed.

(** Within a burst only a configuration change touches the debounce of
    the update trigger, and nothing touches the settings. *)
Lemma burst_step (e : Event) (st : State) :
  withinBurst e = true →
  documentSettings (cstep e st) = documentSettings st
  ∧ disposableTriggerUpdateConfigStream (cstep e st)
    = disposableTriggerUpdateConfigStream st
  ∧ updateConfigPending (cstep e st)
    = (updateConfigPending st
       || (isConfigChange e && disposableTriggerUpdateConfigStream st))%bool.
Proof.
  intros Hw. destruct e as [|p| |docs|o|fs|e']; simpl in *; try done.
  - unfold onConfigChange, triggerUpdateConfigNext. simpl.
    destruct (disposableTriggerUpdateConfigStream st) eqn:Hd; simpl.
    + by rewrite Hd, orb_true_r.
    + by rewrite Hd, orb_false_r.
  - rewrite orb_false_r. by destruct (validateAllPending st).
  - rewrite orb_false_r. unfold logLevelAnswered.
    destruct (logLevelRequests st); [done|]. by destruct o.
  - rewrite orb_false_r. unfold foldersAnswered.
    destruct (folderRequests st); [done|]. by destruct fs.
  - rewrite orb_false_r. by destruct e'.
Qed.

Lemma burst_run (burst : list Event) (st : State) :
  Forall (λ e, withinBurst e = true) burst →
  documentSettings (crun burst st) = documentSettings st
  ∧ disposableTriggerUpdateConfigStream (crun burst st)
    = disposableTriggerUpdateConfigStream st
  ∧ updateConfigPending (crun burst st)
    = (updateConfigPending st
       || (existsb isConfigChange burst && disposableTriggerUpdateConfigStream st))%bool.
Proof.
  revert st. induction burst as [|e burst IH]; intros st Hall.
  - simpl. by rewrite orb_false_r.
  - apply Forall_cons in Hall as [He Hall].
    destruct (burst_step e st He) as (D1 & S1 & P1).
    destruct (IH (cstep e st) Hall) as (D2 & S2 & P2).
    change (crun (e :: burst) st) with (crun burst (cstep e st)).
    rewrite D2, S2, P2, D1, S1, P1. split; [done|]. split; [done|].
    simpl. destruct (updateConfigPending st), (isConfigChange e),
      (existsb isConfigChange burst), (disposableTriggerUpdateConfigStream st); done.
Qed.

Lemma updateActiveSettings_settings (st : State) :
  documentSettings (updateActiveSettings st)
  = snd (DocumentSettings.resetSettings (documentSettings st)).
Proof.
  unfold updateActiveSettings, triggerValidateAllNext. simpl.
  by destruct (disposableTriggerValidateAll (scheduler st)).
Qed.

(** X18. Configuration changes are collected: however many arrive
    before the 100 ms of the debounce have passed, and whatever the
    scheduler does meanwhile, none of them touches the settings; when
    the time has passed the settings are reset once, the version goes
    up by one, the validation of all documents is asked for, and the
    debounce holds nothing more. *)
Theorem config_changes_reset_once (burst : list Event) (st : State) :
  disposableTriggerUpdateConfigStream st = true →
  Forall (λ e, withinBurst e = true) burst →
  existsb isConfigChange burst = true →
  let st1 := crun burst st in
  let st2 := cstep UpdateConfigDue st1 in
  documentSettings st1 = documentSettings st
  ∧ updateConfigPending st1 = true
  ∧ documentSettings st2 = snd (DocumentSettings.resetSettings (documentSettings st))
  ∧ version st2 = version st + 1
  ∧ updateConfigPending st2 = false
  ∧ (disposableTriggerValidateAll (scheduler st2) = true → validateAllPending st2 = true)
  ∧ cstep UpdateConfigDue st2 = st2.
Proof.
  intros Hsub Hall Hex st1 st2.
  destruct (burst_run burst st Hall) as (D1 & S1 & P1). fold st1 in D1, S1, P1.
  rewrite Hex, Hsub, orb_true_r in P1.
  assert (Hst2 : st2 = updateActiveSettings (setUpdateConfigPending false st1)).
  { unfold st2. simpl. by rewrite P1. }
  assert (D2 : documentSettings st2
               = snd (DocumentSettings.resetSettings (documentSettings st))).
  { rewrite Hst2, updateActiveSettings_settings. simpl. by rewrite D1. }
  assert (P2 : updateConfigPending st2 = false).
  { rewrite Hst2. unfold updateActiveSettings, triggerValidateAllNext. simpl.
    by destruct (disposableTriggerValidateAll (scheduler st1)). }
  split; [exact D1|]. split; [exact P1|]. split; [exact D2|]. split.
  { unfold version. rewrite D2. apply resetSettings_rest. }
  split; [exact P2|]. split.
  - rewrite Hst2. unfold updateActiveSettings, triggerValidateAllNext. simpl.
    destruct (disposableTriggerValidateAll (scheduler st1)) eqn:Hv; simpl; [done|].
    by rewrite Hv.
  - simpl. by rewrite P2.
Qed.

(** X19. A registration of a configuration file resets the settings
    twice: at once, in [registerConfigurationFile] of the resolver,
    where the file joins the files to import, and once more when the
    debounce of the update trigger it pulls has run out. *)
Theorem registration_resets_twice (path : string) (burst : list Event) (st : State) :
  disposableTriggerUpdateConfigStream st = true →
  Forall (λ e, withinBurst e = true) burst →
  let st1 := cstep (RegisterConfigurationFile path) st in
  let st2 := cstep UpdateConfigDue (crun burst st1) in
  version st1 = version st + 1
  ∧ path ∈ DocumentSettings.configsToImport (documentSettings st1)
  ∧ updateConfigPending st1 = true
  ∧ version st2 = version st + 2
  ∧ DocumentSettings.configsToImport (documentSettings st2)
    = DocumentSettings.configsToImport (documentSettings st1).
Proof.
  intros Hsub Hall st1 st2.
  assert (D1 : documentSettings st1
               = DocumentSettings.call (DocumentSettings.CallRegisterConfigurationFile path)
                   (documentSettings st)).
  { unfold st1. simpl. unfold registerConfigurationFile, triggerUpdateConfigNext. simpl.
    by rewrite Hsub. }
  assert (P1 : updateConfigPending st1 = true).
  { unfold st1. simpl. unfold registerConfigurationFile, triggerUpdateConfigNext. simpl.
    by rewrite Hsub. }
  assert (V1 : version st1 = version st + 1).
  { unfold version. rewrite D1.
    pose proof (version_calls [DocumentSettings.CallRegisterConfigurationFile path]
                  (documentSettings st)) as H. exact H. }
  destruct (burst_run burst st1 Hall) as (Db & Sb & Pb).
  rewrite P1 in Pb. simpl in Pb.
  assert (D2 : documentSettings st2
               = snd (DocumentSettings.resetSettings (documentSettings st1))).
  { unfold st2. simpl. rewrite Pb, updateActiveSettings_settings. simpl. by rewrite Db. }
  split; [exact V1|]. split.
  { rewrite D1, configs_register. case_bool_decide as Hin; [done|].
    apply elem_of_app. right. by apply list_elem_of_singleton. }
  split; [exact P1|]. split.
  - unfold version in *. rewrite D2.
    destruct (resetSettings_rest (documentSettings st1)) as [-> _]. lia.
  - rewrite D2. apply resetSettings_rest.
Qed.

(** The scheduler inside keeps its pipelines tracked. *)
Lemma tracks_cstep (e : Event) (st : State) :
  tracksPipelines (scheduler st) → tracksPipelines (scheduler (cstep e st)).
Proof.
  intros Ht.
  assert (Hsch : ∀ e' s, scheduler s = scheduler st →
            tracksPipelines (scheduler
              (schedule libraryDefaults constructSettingsForText completion e' s))).
  { intros e' s Hs. simpl. rewrite Hs. by apply tracks_step. }
  destruct e as [|p| |docs|o|fs|e']; simpl.
  - unfold onConfigChange, triggerUpdateConfigNext. simpl.
    by destruct (disposableTriggerUpdateConfigStream st).
  - unfold registerConfigurationFile, triggerUpdateConfigNext. simpl.
    by destruct (disposableTriggerUpdateConfigStream st).
  - destruct (updateConfigPending st); [|done].
    unfold updateActiveSettings, triggerValidateAllNext. simpl.
    by destruct (disposableTriggerValidateAll (scheduler st)).
  - destruct (validateAllPending st); [|done]. by apply Hsch.
  - unfold logLevelAnswered. destruct (logLevelRequests st); [done|]. by destruct o.
  - unfold foldersAnswered. destruct (folderRequests st); [done|]. by destruct fs.
  - destruct e'; try done; by apply Hsch.
Qed.

Lemma tracks_crun (events : list Event) (st : State) :
  tracksPipelines (scheduler st) → tracksPipelines (scheduler (crun events st)).
Proof.
  revert st. induction events as [|e events IH]; intros st Ht; [done|].
  apply IH. by apply tracks_cstep.
Qed.

Ltac unchanged Hu Hs :=
  split; [exact Hu|split; [exact Hs|split; [reflexivity|intros _; reflexivity]]].

(** After the shutdown the triggers stay silent: only a registration
    still touches the settings. *)
Lemma untriggered_step (e : Event) (st : State) :
  untriggered st → stopped (scheduler st) →
  untriggered (cstep e st) ∧ stopped (scheduler (cstep e st))
  ∧ work (scheduler (cstep e st)) = work (scheduler st)
  ∧ (isRegistration e = false → documentSettings (cstep e st) = documentSettings st).
Proof.
  intros (U1 & U2 & U3 & U4) Hs.
  assert (Hsch : ∀ e', e' ≠ Shutdown →
    untriggered (schedule libraryDefaults constructSettingsForText completion e' st)
    ∧ stopped (scheduler
                 (schedule libraryDefaults constructSettingsForText completion e' st))
    ∧ work (scheduler
              (schedule libraryDefaults constructSettingsForText completion e' st))
      = work (scheduler st)
    ∧ documentSettings (schedule libraryDefaults constructSettingsForText completion e' st)
      = documentSettings st).
  { intros e' _. simpl.
    destruct (stopped_step libraryDefaults constructSettingsForText completion e'
                (scheduler st) Hs) as [Hs' Hw'].
    split; [|by split]. unfold untriggered. simpl. by destruct Hs' as (_ & _ & _ & _ & ->). }
  assert (Hu : untriggered st) by done.
  destruct e as [|p| |docs|o|fs|e'].
  - simpl. unfold onConfigChange, triggerUpdateConfigNext. simpl. rewrite U1. simpl.
    unchanged Hu Hs.
  - simpl. unfold registerConfigurationFile, triggerUpdateConfigNext. simpl.
    rewrite U1. simpl. split; [done|]. split; [done|]. split; [done|]. discriminate.
  - simpl. rewrite U2. unchanged Hu Hs.
  - simpl. rewrite U3. unchanged Hu Hs.
  - simpl. unfold logLevelAnswered. destruct (logLevelRequests st); [unchanged Hu Hs|].
    destruct o; unchanged Hu Hs.
  - simpl. unfold foldersAnswered. destruct (folderRequests st); [unchanged Hu Hs|].
    destruct fs; unchanged Hu Hs.
  - assert (Hev : ∀ ev, ev ≠ Shutdown →
              cstep (Scheduler ev) st
              = schedule libraryDefaults constructSettingsForText completion ev st
              ∨ cstep (Scheduler ev) st = st).
    { intros ev Hne. destruct ev; try (by left); by right. }
    assert (e' = Shutdown ∨ e' ≠ Shutdown) as [->|Hne]
      by (destruct e'; (by left) || (by right)).
    + simpl.
      destruct (stopped_step libraryDefaults constructSettingsForText completion Shutdown
                  (scheduler st) Hs) as [Hs' Hw'].
      split; [done|by split].
    + destruct (Hev e' Hne) as [->| ->]; [|unchanged Hu Hs].
      destruct (Hsch e' Hne) as (A & B & C & D).
      split; [exact A|]. split; [exact B|]. split; [exact C|]. intros _. exact D.
Qed.

(** X20. After the shutdown a configuration change does nothing to the
    settings: the update trigger is unsubscribed, with the value its
    debounce held, so the settings are never reset by it and no
    validation of all documents follows; the version stays, and no
    [validateTextDocument] call or result comes from the scheduler. Only
    a registration of a configuration file still resets the settings. *)
Theorem no_reset_after_shutdown
    (defaults : Settings) (before after : list Event) :
  let st0 := crun before (Configuration.init defaults) in
  let st := crun (before ++ [Scheduler Shutdown] ++ after) (Configuration.init defaults) in
  Forall (λ e, isRegistration e = false) after →
  documentSettings st = documentSettings st0
  ∧ version st = version st0
  ∧ updateConfigPending st = false
  ∧ validateAllPending st = false
  ∧ work (scheduler st) = work (scheduler st0).
Proof.
  intros st0 st Hall.
  set (st1 := cstep (Scheduler Shutdown) st0).
  assert (Hst : st = crun after st1).
  { unfold st. by rewrite !crun_app. }
  assert (Ht0 : tracksPipelines (scheduler st0)) by apply tracks_crun, tracks_init.
  assert (H1 : untriggered st1 ∧ stopped (scheduler st1)
               ∧ work (scheduler st1) = work (scheduler st0)
               ∧ documentSettings st1 = documentSettings st0).
  { unfold st1. simpl.
    pose proof (onShutdown_stopped (scheduler st0) Ht0) as Hs.
    split; [done|by split]. }
  destruct H1 as (Hu1 & Hs1 & Hw1 & Hd1).
  assert (Hrun : ∀ events s, untriggered s → stopped (scheduler s) →
    Forall (λ e, isRegistration e = false) events →
    untriggered (crun events s)
    ∧ work (scheduler (crun events s)) = work (scheduler s)
    ∧ documentSettings (crun events s) = documentSettings s).
  { induction events as [|e events IH]; intros s Hu Hs Hev; [done|].
    apply Forall_cons in Hev as [He Hev].
    destruct (untriggered_step e s Hu Hs) as (Hu' & Hs' & Hw' & Hd').
    destruct (IH _ Hu' Hs' Hev) as (Hu'' & Hw'' & Hd'').
    change (crun (e :: events) s) with (crun events (cstep e s)).
    split; [done|]. split; [by rewrite Hw''|]. by rewrite Hd'', Hd'. }
  destruct (Hrun after st1 Hu1 Hs1 Hall) as ((_ & U2 & U3 & _) & Hw & Hd).
  rewrite <- Hst in U2, U3, Hw, Hd.
  split; [by rewrite Hd|]. split; [unfold version; by rewrite Hd, Hd1|].
  split; [exact U2|]. split; [exact U3|]. by rewrite Hw.
Qed.

End ConfigurationChanges.

Section FurtherExamples.

Import CSpell Server Scheduling Configuration.

(** The analyzer answers after the document was closed: its result is
    not published. *)
Lemma close_clears_until_next_change_example :
  let before := (validationUnderWay ++ answersArrive)%list in
  let between := [Resume 2 (AnsAnalyzer (Resolved ["helo"]))] in
  let st := Server.run ∅ plainText EmitsPending
              (before ++ [DidClose docA] ++ between) Server.init in
  disposables (Server.run ∅ plainText EmitsPending before Server.init) = true
  ∧ Forall (λ e, feedsStream "file:///w/a.txt" e = false) between
  ∧ analyzing (Server.run ∅ plainText EmitsPending before Server.init) = [docA]
  ∧ pipelinesFor "file:///w/a.txt" st = []
  ∧ publishedFor "file:///w/a.txt" st = [cleared "file:///w/a.txt"].
Proof.
  cbv zeta.
  assert (H1 : disposables (Server.run ∅ plainText EmitsPending
                 (validationUnderWay ++ answersArrive) Server.init) = true) by reflexivity.
  assert (H2 : Forall (λ e, feedsStream "file:///w/a.txt" e = false)
                 [Resume 2 (AnsAnalyzer (Resolved ["helo"]))]) by (repeat constructor).
  destruct (close_clears_until_next_change ∅ plainText EmitsPending
              (validationUnderWay ++ answersArrive) docA
              [Resume 2 (AnsAnalyzer (Resolved ["helo"]))] H1 H2) as (_ & Hp & _).
  split; [exact H1|]. split; [exact H2|]. split; [vm_compute; reflexivity|].
  split; [exact Hp|]. vm_compute. reflexivity.
Defined.

(** The settings of a document cannot be resolved; two more changes of
    it are not validated. *)
Lemma failed_settings_end_validation_example :
  let st0 := Server.run ∅ plainText EmitsPending [DidChangeContent docA] Server.init in
  let after := [DidChangeContent docA; DidChangeContent docA; TimerFired 0] in
  let st := Server.run ∅ plainText EmitsPending
              ([DidChangeContent docA] ++ [ActiveSettings 0 1 (Rejected "offline")] ++ after)
              Server.init in
  lookupObserver 0 (observers st0) = Some (Validating "file:///w/a.txt" [(1%nat, docA)] None)
  ∧ lookupRequest 1 [(1%nat, docA)] = Some docA
  ∧ Forall (λ ev, isCloseOf "file:///w/a.txt" ev = false) after
  ∧ pipelinesFor "file:///w/a.txt" st = []
  ∧ invocationsFor "file:///w/a.txt" st = [].
Proof.
  cbv zeta.
  assert (H1 : lookupObserver 0 (observers
                 (Server.run ∅ plainText EmitsPending [DidChangeContent docA] Server.init))
               = Some (Validating "file:///w/a.txt" [(1%nat, docA)] None))
    by (vm_compute; reflexivity).
  assert (H2 : lookupRequest 1 [(1%nat, docA)] = Some docA) by reflexivity.
  assert (H3 : Forall (λ ev, isCloseOf "file:///w/a.txt" ev = false)
                 [DidChangeContent docA; DidChangeContent docA; TimerFired 0])
    by (repeat constructor).
  destruct (failed_settings_end_validation ∅ plainText EmitsPending
              [DidChangeContent docA] 0 1 "offline"
              [DidChangeContent docA; DidChangeContent docA; TimerFired 0]
              "file:///w/a.txt" [(1%nat, docA)] None docA H1 H2 H3) as (_ & Hp & Hi).
  split; [exact H1|]. split; [exact H2|]. split; [exact H3|]. split; [exact Hp|].
  etransitivity; [exact Hi|]. vm_compute. reflexivity.
Defined.

(** The first change of the first document. *)
Lemma first_change_is_requested_once_example :
  let st := Server.run ∅ plainText EmitsPending [DidChangeContent docB] Server.init in
  let st' := Server.step ∅ plainText EmitsPending (DidChangeContent docA) st in
  disposables st = true
  ∧ validationByDoc st !! doc_uri docA = None
  ∧ DocumentSettings.isUriBlackListed (doc_uri docA) = false
  ∧ observers st' = [(0%nat, Validating "file:///w/b.txt" [(1%nat, docB)] None);
                     (2%nat, Validating "file:///w/a.txt" [(3%nat, docA)] None)]
  ∧ out st' = [OutLog (LogRequestValidate 1 "file:///w/b.txt");
               OutLog (LogRequestValidate 1 "file:///w/a.txt")].
Proof.
  cbv zeta.
  assert (H1 : disposables (Server.run ∅ plainText EmitsPending [DidChangeContent docB]
                              Server.init) = true) by reflexivity.
  assert (H3 : validationByDoc (Server.run ∅ plainText EmitsPending
                                  [DidChangeContent docB] Server.init)
               !! doc_uri docA = None) by (vm_compute; reflexivity).
  assert (H4 : DocumentSettings.isUriBlackListed (doc_uri docA) = false) by reflexivity.
  destruct (first_change_is_requested_once ∅ plainText EmitsPending
              [DidChangeContent docB] docA H1 H3 H4) as (_ & Ho & Hout & _).
  split; [exact H1|]. split; [exact H3|]. split; [exact H4|].
  split; [exact Ho|exact Hout].
Defined.

(** Three configuration changes while a document changes: one reset. *)
Lemma config_changes_reset_once_example :
  let st := Configuration.init DocumentSettings.exampleDefaults in
  let burst := [ConfigChange; Scheduler (DidChangeContent docA); ConfigChange;
                ConfigChange] in
  let st2 := Configuration.step ∅ plainText EmitsPending UpdateConfigDue
               (Configuration.run ∅ plainText EmitsPending burst st) in
  disposableTriggerUpdateConfigStream st = true
  ∧ Forall (λ e, withinBurst e = true) burst
  ∧ existsb isConfigChange burst = true
  ∧ Configuration.version st2 = 1
  ∧ updateConfigPending st2 = false.
Proof.
  cbv zeta.
  assert (H2 : Forall (λ e, withinBurst e = true)
                 [ConfigChange; Scheduler (DidChangeContent docA); ConfigChange;
                  ConfigChange]) by (repeat constructor).
  destruct (config_changes_reset_once ∅ plainText EmitsPending
              [ConfigChange; Scheduler (DidChangeContent docA); ConfigChange; ConfigChange]
              (Configuration.init DocumentSettings.exampleDefaults) eq_refl H2 eq_refl)
    as (_ & _ & _ & Hv & Hp & _).
  split; [reflexivity|]. split; [exact H2|]. split; [reflexivity|].
  split; [exact Hv|exact Hp].
Defined.

(** One registration, one configuration change, and the debounce runs
    out: two resets. *)
Lemma registration_resets_twice_example :
  let st := Configuration.init DocumentSettings.exampleDefaults in
  let st1 := Configuration.step ∅ plainText EmitsPending
               (RegisterConfigurationFile "/cfg/cspell.json") st in
  let st2 := Configuration.step ∅ plainText EmitsPending UpdateConfigDue
               (Configuration.run ∅ plainText EmitsPending [ConfigChange] st1) in
  disposableTriggerUpdateConfigStream st = true
  ∧ Forall (λ e, withinBurst e = true) [ConfigChange]
  ∧ Configuration.version st1 = 1
  ∧ Configuration.version st2 = 2.
Proof.
  cbv zeta.
  assert (H2 : Forall (λ e, withinBurst e = true) [ConfigChange]) by (repeat constructor).
  destruct (registration_resets_twice ∅ plainText EmitsPending "/cfg/cspell.json"
              [ConfigChange] (Configuration.init DocumentSettings.exampleDefaults) eq_refl H2)
    as (Hv1 & _ & _ & Hv2 & _).
  split; [reflexivity|]. split; [exact H2|]. split; [exact Hv1|exact Hv2].
Defined.

(** A configuration change after the shutdown. *)
Lemma no_reset_after_shutdown_example :
  let after := [ConfigChange; UpdateConfigDue; ValidateAllDue [docA]] in
  let st := Configuration.run ∅ plainText EmitsPending
              ([ConfigChange] ++ [Scheduler Shutdown] ++ after)
              (Configuration.init DocumentSettings.exampleDefaults) in
  Forall (λ e, isRegistration e = false) after
  ∧ Configuration.version st = 0
  ∧ validateAllPending st = false.
Proof.
  cbv zeta.
  assert (H : Forall (λ e, isRegistration e = false)
                [ConfigChange; UpdateConfigDue; ValidateAllDue [docA]])
    by (repeat constructor).
  destruct (no_reset_after_shutdown ∅ plainText EmitsPending DocumentSettings.exampleDefaults
              [ConfigChange] [ConfigChange; UpdateConfigDue; ValidateAllDue [docA]] H)
    as (_ & Hv & _ & Hp & _).
  split; [exact H|]. split; [exact Hv|exact Hp].
Defined.

End FurtherExamples.

(** ** Base settings *)

Section BaseSettings.

Import CSpell Server Requests.

Local Open Scope async_scope.

Variable libraryDefaults : Settings.

(** X21. [getBaseSettings]: the enabled languages of the base settings
    are those of the settings resolved for the document and no others,
    whatever the library defaults list. The checker is off unless the
    resolved settings say otherwise: when they leave [enabled] unset the
    base settings have it false, also over library defaults that set it,
    and [shouldValidateDocument] says no on them without asking the
    exclusion test. A failing resolution rejects. *)
Theorem base_settings_off_unless_enabled (o : Oracle) (doc : TextDocument) :
  let m := getBaseSettings libraryDefaults doc in
  (∀ active, activeSettingsOf o (doc_uri doc) = Resolved active →
     let base := baseSettingsOf libraryDefaults active in
     outcomeOf o m = Resolved base
     ∧ base !! "enabledLanguageIds" = active !! "enabledLanguageIds"
     ∧ (∀ languageId,
          isLanguageEnabled languageId base = isLanguageEnabled languageId active)
     ∧ (active !! "enabled" = None →
          base !! "enabled" = Some (JBool false)
          ∧ shouldValidateDocument doc base = Ret false))
  ∧ (∀ e, activeSettingsOf o (doc_uri doc) = Rejected e → outcomeOf o m = Rejected e).
Proof.
  intros m. split.
  - intros active Ha base.
    assert (Hl : base !! "enabledLanguageIds" = active !! "enabledLanguageIds").
    { unfold base, baseSettingsOf, set_key.
      destruct (active !! "enabledLanguageIds");
        [by rewrite lookup_insert_eq|by rewrite lookup_delete_eq]. }
    split; [|split; [exact Hl|split]].
    + unfold m, getBaseSettings, getActiveSettings, outcomeOf. simpl. by rewrite Ha.
    + intros languageId. unfold isLanguageEnabled, get_array_or_empty, get_array.
      by rewrite Hl.
    + intros He.
      assert (Hb : base !! "enabled" = Some (JBool false)).
      { unfold base, baseSettingsOf, set_key.
        destruct (active !! "enabledLanguageIds");
          [rewrite lookup_insert_ne by done|rewrite lookup_delete_ne by done];
          unfold mergeSettings; simpl; rewrite merge_lookup_left by done;
          unfold defaultSettings; by rewrite lookup_insert_eq. }
      split; [exact Hb|]. unfold shouldValidateDocument. by rewrite Hb.
  - intros e He. unfold m, getBaseSettings, getActiveSettings, outcomeOf. simpl.
    by rewrite He.
Qed.

End BaseSettings.

(** ** Validate all, and the debounce *)

Section Requesting.

Import CSpell Server Scheduling.

Local Open Scope async_scope.

Variable libraryDefaults : Settings.
Variable constructSettingsForText : Settings → string → string → Outcome Settings.
Variable completion : DurationCompletion.

Lemma lookupObserver_app_l (id : nat) (p : Pipeline) (obs more : list (nat * Pipeline)) :
  lookupObserver id obs = Some p → lookupObserver id (obs ++ more) = Some p.
Proof.
  induction obs as [|[i q] obs IH]; simpl; [done|].
  by destruct (Nat.eqb i id).
Qed.


(** A pipeline that resolves settings keeps its requests when a document
    is delivered, to it or to another subscriber. *)
Lemma deliverTo_keeps_fetching (id j : nat) (doc : TextDocument) (st : State)
    (uri : string) (fetching : list (nat * TextDocument))
    (pending : option (DocSettingPair * Z)) :
  lookupObserver id (observers st) = Some (Validating uri fetching pending) →
  ∃ more, lookupObserver id (observers (deliverTo j doc st))
          = Some (Validating uri (fetching ++ more) pending).
Proof.
  intros Hl. destruct (decide (j = id)) as [->|Hne].
  - unfold deliverTo. rewrite Hl. destruct (String.eqb uri (doc_uri doc)).
    + eexists. simpl. apply lookupObserver_update_eq. rewrite Hl. by eexists.
    + exists []. by rewrite app_nil_r.
  - exists []. by rewrite app_nil_r, deliverTo_other.
Qed.

Lemma deliverAll_keeps_fetching (id : nat) (ids : list nat) (doc : TextDocument)
    (st : State) (uri : string) (fetching : list (nat * TextDocument))
    (pending : option (DocSettingPair * Z)) :
  lookupObserver id (observers st) = Some (Validating uri fetching pending) →
  ∃ more, lookupObserver id (observers (foldl (λ acc j, deliverTo j doc acc) st ids))
          = Some (Validating uri (fetching ++ more) pending).
Proof.
  revert st fetching. induction ids as [|j ids IH]; intros st fetching Hl; simpl.
  - exists []. by rewrite app_nil_r.
  - destruct (deliverTo_keeps_fetching id j doc st uri fetching pending Hl) as [m1 H1].
    destruct (IH _ _ H1) as [m2 H2]. exists (m1 ++ m2)%list. by rewrite app_assoc.
Qed.

Lemma streamNext_keeps_fetching (id : nat) (doc : TextDocument)
    (st : State) (uri : string) (fetching : list (nat * TextDocument))
    (pending : option (DocSettingPair * Z)) :
  lookupObserver id (observers st) = Some (Validating uri fetching pending) →
  ∃ more, lookupObserver id (observers (streamNext doc st))
          = Some (Validating uri (fetching ++ more) pending).
Proof.
  intros Hl. unfold streamNext. cbv zeta.
  match goal with |- context [foldl _ ?s2 _] =>
    assert (H2 : ∃ more, lookupObserver id (observers s2)
                         = Some (Validating uri (fetching ++ more) pending)) end.
  { destruct (disposableValidate _ && _); [|exists []; by rewrite app_nil_r].
    unfold subscribePipeline. cbv zeta.
    set (st1 := freshId _).
    assert (H1 : lookupObserver id (observers st1)
                 = Some (Validating uri fetching pending)).
    { unfold st1. simpl. by apply lookupObserver_app_l. }
    destruct (replayBuffer st1) as [buffered|]; simpl.
    - by apply deliverTo_keeps_fetching.
    - exists []. by rewrite app_nil_r. }
  destruct H2 as [m1 H2].
  match goal with |- context [foldl _ ?s2 ?ids] =>
    destruct (deliverAll_keeps_fetching id ids doc s2 uri _ pending H2) as [m2 H3] end.
  exists (m1 ++ m2)%list. rewrite app_assoc. exact H3.
Qed.

Lemma requested_streamNext (d doc : TextDocument) (st : State) :
  requested d st → requested d (streamNext doc st).
Proof.
  intros (id & f & p & Hl & Hin).
  destruct (streamNext_keeps_fetching id doc st _ f p Hl) as [more H].
  exists id, (f ++ more)%list, p. split; [exact H|].
  rewrite fmap_app. apply elem_of_app. by left.
Qed.

Lemma requested_streamAll (d : TextDocument) (docs : list TextDocument) (st : State) :
  requested d st → requested d (foldl (λ acc doc, streamNext doc acc) st docs).
Proof.
  revert st. induction docs as [|doc docs IH]; intros st H; simpl; [done|].
  by apply IH, requested_streamNext.
Qed.

Lemma streamNext_requests (doc : TextDocument) (st : State) :
  tracksPipelines st → disposableValidate st = true →
  DocumentSettings.isUriBlackListed (doc_uri doc) = false →
  serves (doc_uri doc) st → requested doc (streamNext doc st).
Proof.
  intros Ht Hv Hb [Hnone|(id & f & p & Hl)].
  - rewrite streamNext_first by done.
    exists (nextId st), [(S (nextId st), doc)], None. split; [|by apply list_elem_of_singleton].
    simpl. apply lookupObserver_app_fresh.
    destruct Ht as (_ & _ & Hfresh). intros Hin. specialize (Hfresh _ Hin). lia.
  - destruct (streamNext_enqueues id doc st f p Ht Hl) as [request H].
    exists id, (f ++ [(request, doc)])%list, p. split; [exact H|].
    rewrite fmap_app. apply elem_of_app. right. by apply list_elem_of_singleton.
Qed.

Lemma serves_streamNext (uri : string) (doc : TextDocument) (st : State) :
  tracksPipelines st → disposableValidate st = true →
  DocumentSettings.isUriBlackListed uri = false →
  serves uri st → serves uri (streamNext doc st).
Proof.
  intros Ht Hv Hb Hs.
  destruct (decide (doc_uri doc = uri)) as [<-|Hne].
  - destruct (streamNext_requests doc st Ht Hv Hb Hs) as (id & f & p & Hl & _).
    right. by exists id, f, p.
  - destruct Hs as [Hnone|(id & f & p & Hl)].
    + left. by rewrite streamNext_map_other.
    + right. destruct (streamNext_keeps_fetching id doc st _ f p Hl) as [more H].
      by exists id, (f ++ more)%list, p.
Qed.

Lemma streamAll_requests (doc : TextDocument) (docs : list TextDocument) (st : State) :
  tracksPipelines st → disposableValidate st = true →
  DocumentSettings.isUriBlackListed (doc_uri doc) = false →
  serves (doc_uri doc) st → doc ∈ docs →
  requested doc (foldl (λ acc d, streamNext d acc) st docs).
Proof.
  revert st. induction docs as [|d docs IH]; intros st Ht Hv Hb Hs Hin; simpl.
  - by apply elem_of_nil in Hin.
  - apply elem_of_cons in Hin as [<-|Hin].
    + by apply requested_streamAll, streamNext_requests.
    + apply IH; [by apply tracks_streamNext| |done| |done].
      * destruct (sameHandles_streamNext d st) as (_ & -> & _). exact Hv.
      * by apply serves_streamNext.
Qed.

Lemma streamNext_records (doc : TextDocument) (st : State) :
  disposableValidate st = true →
  is_Some (validationByDoc (streamNext doc st) !! doc_uri doc).
Proof.
  intros Hv. unfold streamNext. rewrite deliverAll_map. simpl. rewrite Hv. simpl.
  destruct (bool_decide _) eqn:Hd.
  - rewrite subscribePipeline_map, lookup_insert_eq. by eexists.
  - apply bool_decide_eq_false in Hd. simpl.
    by destruct (validationByDoc st !! doc_uri doc); [eexists|].
Qed.

Lemma streamAll_keeps_entries (uri : string) (docs : list TextDocument) (st : State) :
  tracksPipelines st → is_Some (validationByDoc st !! uri) →
  is_Some (validationByDoc (foldl (λ acc d, streamNext d acc) st docs) !! uri).
Proof.
  revert st. induction docs as [|d docs IH]; intros st Ht Hs; simpl; [done|].
  apply IH; [by apply tracks_streamNext|by apply streamNext_keeps_entries].
Qed.

Lemma streamAll_records (doc : TextDocument) (docs : list TextDocument) (st : State) :
  tracksPipelines st → disposableValidate st = true → doc ∈ docs →
  is_Some (validationByDoc (foldl (λ acc d, streamNext d acc) st docs) !! doc_uri doc).
Proof.
  revert st. induction docs as [|d docs IH]; intros st Ht Hv Hin; simpl.
  - by apply elem_of_nil in Hin.
  - apply elem_of_cons in Hin as [<-|Hin].
    + apply streamAll_keeps_entries; [by apply tracks_streamNext|].
      by apply streamNext_records.
    + apply IH; [by apply tracks_streamNext| |done].
      destruct (sameHandles_streamNext d st) as (_ & -> & _). exact Hv.
Qed.

Lemma streamAll_tasks (docs : list TextDocument) (st : State) :
  tasks (foldl (λ acc d, streamNext d acc) st docs) = tasks st.
Proof.
  revert st. induction docs as [|d docs IH]; intros st; simpl; [done|].
  by rewrite IH, streamNext_tasks.
Qed.

(** X22. The validate-all trigger gives every open document to the
    request stream: afterwards each of them has its entry in
    [validationByDoc], and each one whose URI is not on the block list
    and has an open validating pipeline, or none yet, has its settings
    being resolved there. No entry is lost. The trigger itself validates
    nothing: no [validateTextDocument] call starts and no result is sent
    by it, and no suspended call is touched; the validations follow
    with the answers and the timers. *)
Theorem validate_all_requests_every_document
    (events : list Event) (docs : list TextDocument) :
  let st := run libraryDefaults constructSettingsForText completion events init in
  let st' := step libraryDefaults constructSettingsForText completion
               (ValidateAll docs) st in
  disposables st = true →
  (∀ doc, doc ∈ docs → is_Some (validationByDoc st' !! doc_uri doc))
  ∧ (∀ doc, doc ∈ docs → DocumentSettings.isUriBlackListed (doc_uri doc) = false →
       serves (doc_uri doc) st → requested doc st')
  ∧ (∀ uri, is_Some (validationByDoc st !! uri) → is_Some (validationByDoc st' !! uri))
  ∧ work st' = work st
  ∧ tasks st' = tasks st.
Proof.
  intros st st' Hlisten.
  assert (Ht : tracksPipelines st) by apply tracks_run, tracks_init.
  destruct (handlesTogether_run libraryDefaults constructSettingsForText completion
              events init handlesTogether_init) as [Hv Ha].
  fold st in Hv, Ha. rewrite Hlisten in Hv, Ha.
  unfold st'. simpl. rewrite Ha.
  set (st1 := emit (OutLog LogValidateAll) st).
  assert (Ht1 : tracksPipelines st1) by exact Ht.
  split; [|split; [|split; [|split]]].
  - intros doc Hin. by apply streamAll_records.
  - intros doc Hin Hb Hs. by apply streamAll_requests.
  - intros uri Hs. by apply streamAll_keeps_entries.
  - destruct (outputsOnly_streamAll docs st1) as (new & Hout & Hnew).
    unfold work. rewrite Hout. simpl. rewrite <- app_assoc.
    apply filter_new_nil. constructor; [done|].
    eapply Forall_impl; [exact Hnew|]. by intros [l| | |].
  - by rewrite streamAll_tasks.
Qed.




End Requesting.

Section RequestingExamples.

Import CSpell Server Scheduling.


(** Validate-all with one document open and one not seen before. *)
Lemma validate_all_requests_every_document_example :
  let st := Server.run ∅ plainText EmitsPending [DidChangeContent docA] Server.init in
  let st' := Server.step ∅ plainText EmitsPending (ValidateAll [docA2; docB]) st in
  disposables st = true
  ∧ is_Some (validationByDoc st' !! doc_uri docB)
  ∧ work st' = work st.
Proof.
  cbv zeta.
  assert (H1 : disposables (Server.run ∅ plainText EmitsPending [DidChangeContent docA]
                              Server.init) = true) by reflexivity.
  destruct (validate_all_requests_every_document ∅ plainText EmitsPending
              [DidChangeContent docA] [docA2; docB] H1) as (Hrec & _ & _ & Hw & _).
  split; [exact H1|]. split; [|exact Hw].
  apply Hrec. apply elem_of_cons. right. apply elem_of_cons. by left.
Defined.

End RequestingExamples.
